(* ===== verification/_CoqProject ===== *)
-Q . S2P
Prelude.v
Params.v
LList.v
BitMap.v
Machine.v
MipsSim.v
MipsExec.v
SectorStore.v
FileHdr.v
OpenFile.v
Directory.v
FileSys.v
FsSpec.v
FsPrint.v
Kernel.v
Interrupt.v
Threads.v
Synch.v
Disk.v
Console.v
Sched.v
SynchDisk.v
ConsoleEcho.v
FsWitness.v
KernelInv.v
HostFs.v
AddrSpace.v
Paging.v
Loader.v
Exception.v
Process.v
Exec.v
Network.v
Sockets.v
Coff2Noff.v
Coff2Flat.v
CxxStack.v
FsTest.v
CommandLine.v
Execute.v
Disasm.v
NetTest.v
Tools.v
Switch.v
UserProgs.v
Debugger.v
