(* ===== verification/Prelude.v ===== *)
(** * A verification of the Nachos 3.4 kernel and machine emulation

    Nachos is an instructional operating system that runs as a UNIX process on
    top of a simulated machine.  This development models its code under
    src/nachos-3.4/code and proves what makes it correct; where the code does
    not do what it should, the theorem shows what it does.

    ** The program and the files

    The simulated hardware: machine/machine.cc, translate.cc (Machine.v:
    registers, memory, address translation), machine/mipssim.cc (MipsSim.v: the
    instruction decoder and [OneInstruction]; MipsExec.v: its theorems),
    machine/interrupt.cc and timer.cc (Interrupt.v: the list of pending
    interrupts and simulated time), machine/disk.cc (Disk.v), machine/console.cc
    (Console.v, with [ConsoleTest] of userprog/progtest.cc).  Debugger.v has the
    debugger of machine.cc for user programs and its check of the host.

    The kernel: threads/list.cc (LList.v), userprog/bitmap.cc (BitMap.v),
    threads/thread.cc and scheduler.cc (Threads.v), threads/synch.cc (Synch.v),
    filesys/synchdisk.cc (Disk.v, proved in SynchDisk.v), threads/system.cc and
    threadtest.cc (Sched.v).  Kernel.v is the state all of these share: one
    record for the global objects, with a stack of frames per thread, since
    kernel routines lose the processor in the middle ([SWITCH]); a frame is the
    rest of a routine from such a point.  Sched.v composes the routines into a
    step function, and KernelInv.v proves its invariant; ConsoleEcho.v follows
    the console test through it.  Below the frames is threads/switch.c: Switch.v has
    [SWITCH] and [ThreadRoot] as instructions of three host processors, and shows
    that they do with registers and stacks what a change of frames stands for.

    The file system (the build with FILESYS): filesys/filehdr.cc (FileHdr.v),
    openfile.cc (OpenFile.v), directory.cc (Directory.v), filesys.cc
    (FileSys.v), written against the interface [SectorStore] (SectorStore.v) of
    a disk that reads and writes sectors.  SynchDisk.v shows that the disk with
    its interrupts, semaphore and sleeping threads is such a store; FsSpec.v
    states what the file system promises; FsWitness.v puts them together.
    FsTest.v has the test programs of filesys/fstest.cc, and FsPrint.v the [Print]
    routines of the file system.

    User programs (the builds with FILESYS_STUB): machine/sysdep.cc and the stub
    file system of filesys/openfile.h and filesys.h (HostFs.v, over POSIX
    files), userprog/addrspace.cc (AddrSpace.v, Loader.v), the page fault
    handler of userprog/exception.cc (Paging.v), the rest of exception.cc,
    progtest.cc and the loop of [Machine::Run] (Exception.v: the state [System]
    extends the kernel's, [sys_step] its step function; Process.v and Exec.v:
    theorems).

    Prelude.v has the outcomes of C++ code, arrays, machine integers and the
    tactics; Params.v the constants of the build.

    CommandLine.v has the loops over the arguments of Initialize and main.

    How programs get there: bin/coff2noff.c (Coff2Noff.v, over POSIX files)
    converts what the linker makes to the format that the loader reads;
    bin/coff2flat.c (Coff2Flat.v) is an earlier converter.  The cross tools have a
    MIPS interpreter of their own, bin/execute.c with system.c (Execute.v), and a
    disassembler, bin/d.c (Disasm.v); Tools.v has the programs around them, main.c
    and disasm.c.  UserProgs.v has the programs of test/ that compute something.
    Apart from all this, c++example has the stacks of the C++ tutorial (CxxStack.v).

    Machines that exchange mail: machine/network.cc, threads/synchlist.cc and
    network/post.cc (Network.v), with all machines and the packets between them
    in one state and a relation [reach] for the orders their events can take.
    Sockets.v has the sockets of sysdep.cc that carry the packets.
    network/nettest.cc (NetTest.v) is the mail test on two of them.

    ** How code is modelled

    A routine is a function to [result]: a value, a failed ASSERT, undefined
    behaviour (an access out of range, a null or dangling pointer, an
    uninitialised variable), the end of the process through [Exit], or fuel used
    up.  Machine integers are [Z] with their wrap-around written out ([wrap32],
    [u32], [u8], [schar]).  What C++ leaves uninitialised is a parameter
    ([junk...]); so are the host's byte order, the random numbers of the C
    library, and the names [virtualOption] and [FIFO], which exception.cc uses
    and no file declares.  DEBUG and printf output is left out, apart from what
    threads and user programs print and the routines whose purpose is to print
    (FsPrint.v, Disasm.v, [DumpState] of Debugger.v).  System calls of UNIX are
    modelled as documented, in HostFs.v for files and in Sockets.v for sockets;
    libraries and headers that are not in the repository (ldfcn in Tools.v, the COFF
    headers of the host in Coff2Flat.v) are parameters, and so is what C leaves open
    of reading through a stream that was closed (Tools.v).

    Loops are structural where they count.  Fuel is used in these places:
    [run_until] of Sched.v, where SynchDisk.v proves that 20 steps complete a
    disk request and Initialize needs fewer; [read_string] of Exception.v, whose
    1002 iterations are two for each of the 500 characters the code's buffer
    holds; [read_filename], one more than its buffer of 100; [copy_loop] and
    [print_loop] of FsTest.v, one more than the length of the file, which bounds
    the iterations; and the loops of CxxStack.v, one more than the items.  The
    theorems show that the fuel is enough: they give the result.

    ** What is proved

    C1 (LList.v): the linked list implements a sequence of keyed items.  C2
    (CommandLine.v): command lines are read as what they were made from, if no
    parameter looks like a flag of the loop that does not read it.  C3
    (ConsoleEcho.v): the console test echoes what is typed and ends.  C4, C8
    (Coff2Noff.v): the converter makes the right file (or none), and what it makes
    is loaded from address 0 on, which are the addresses the linker chose if the
    sections are contiguous.  C5 (Tools.v): the disassembler lists the text of a
    program, if the closed stream it reads gives the bytes of the file.  C6
    (BitMap.v): the bit map implements a vector of booleans.  C7 (NetTest.v): the
    mail test between two machines: what it prints, where it fails, and that it does
    not go on for ever.  C9, C11 (Machine.v): translation is the reference
    translation, and reads return what was written, on every host.  C10 (Execute.v):
    the two MIPS interpreters of the repository agree on common instructions. 
    C12-C16, C18 (MipsSim.v, MipsExec.v): decoding inverts the encoding of the
    manual, multiplication is 64-bit multiplication, instructions are safe, follow
    the architecture's delay rules and compute its results, or what OR and SRL
    compute instead.  C17 (Tools.v): where the loaders of the cross tools stay
    within memory.

    C19 (CxxStack.v): both stacks implement a bounded sequence.  C20 (FileHdr.v):
    allocation of sectors.  C21 (FsTest.v): [Copy] and [Print] of the file system
    test (the file also shows why the performance test fails).  C22-C23
    (OpenFile.v): [ReadAt] and [WriteAt] on the bytes of a file.  C24
    (Directory.v): the directory is a bounded map.  C25-C26 (FsSpec.v): the
    file system behaves as a map from names to contents under any sequence of
    calls, across remounts; exactly when [Create] fails (FsSpec.v and FileSys.v also
    have what [Remove] frees, and that writes to a file touch that file only).  C27
    (UserProgs.v): the test programs stay in bounds, and what they compute.  C28
    (Switch.v): threads keep their registers and stacks when they take turns.  C29
    (Disasm.v): the disassembler names
    what the decoder of the simulated machine finds, but for seven operations.  C30
    (Sockets.v): the sockets give what the queues of Network.v give.  C31
    (SynchDisk.v): the synchronous disk
    implements a store of sectors, through sleep, interrupt and wake-up.

    C32 (KernelInv.v): the thread system is safe: any threads that fork, yield
    and use semaphores, with or without time slicing, never fail an assertion.
    C33-C34 (Paging.v): demand paging cannot be told from flat memories while
    the pages fit, and otherwise fails only where a process needs a page and no frame
    is free.  C35 (Loader.v): a loaded
    program's memory is its file.  C36 (Process.v): [Exit] wakes the parent.  C37
    (Switch.v): a new thread runs its procedure with its argument.  C38
    (Process.v): [Join].  C39 (Exec.v): [Exec] makes a process of the program that is
    named in the memory of the caller.

    C40 (Network.v): mail arrives in order, intact and at most once, and nothing
    but a [Receive] from an empty mailbox fails, whatever the interleaving of the
    machines.

    More theorems are in the files and have no number: the latency of a disk request
    (Disk.v), that [Exit] frees the frames of all processes, and two programs that
    run from boot to halt (Process.v), the converter on any file (Coff2Noff.v), what
    coff2flat makes (Coff2Flat.v), what [FileSystem::Print] shows (FsPrint.v), the
    commands of the debugger (Debugger.v), [ilog2] and the histograms of execute.c
    (Tools.v).

    ** What is not modelled

    Network.v and NetTest.v have the interleavings of the threads and interrupts of
    a machine, not its scheduler: more orders than a kernel without time slicing has.
    A [Receive] from an empty mailbox, which fails an ASSERT, is a step of NetTest.v
    and not an event of Network.v; the queues of sockets do not fill up.  The stacks of
    threads are frames that cannot overflow, so that the word that
    [Thread::CheckOverflow] looks at is never overwritten (Threads.v); Switch.v has the
    stack with this word in it.  Of threads/switch.c, the SPARC part, whose
    register windows are spilled and filled by traps of the host's operating system.
    Of the cross tools, bin/out.c, which prints the symbols and relocations of an
    object file by structures of headers that are not in the repository, and the
    tables that execute.c prints.  Of test/, halt.c and shell.c, which are only
    system calls.  Of the other routines that only print, what they print
    ([Statistics::Print], [Interrupt::DumpState], the copyright notice).
    [AddrSpace::loadFromFile] and [SynchList::Mapcar], which nothing calls, the first
    on members never set; destructors that only free memory and [Cleanup], which
    calls them; the signals and delays of sysdep.cc, and its [AllocBoundedArray],
    whose page protection is commented out.  threads/stdarg.h is the compiler's, and
    the headers in machine/ and threads/ that are copies of others are those others.
    threads/synch.cc leaves [Lock] and [Condition]
    empty; Synch.v has them as they are. *)

From stdpp Require Export base list numbers gmap sorting.
From Stdlib Require Export ZArith Lia.

#[export] Set Default Goal Selector "!".
#[export] Set Warnings "-clear-no-such-hyp".

(** ** Outcomes of C++ code *)

(** What running a piece of the code can do: return a value, fail an
    [ASSERT] (which prints a message and dumps core), execute something the
    language leaves undefined (an access outside an array, a null or dangling
    pointer), leave the process through [Exit], or, for the loops whose
    termination is a theorem and not a syntactic fact, exhaust the fuel. *)
Inductive result (A : Type) : Type :=
| Ok (a : A)
| AssertFail
| Undefined
| Exited (code : Z)
| NoFuel.
Arguments Ok {A} a.
Arguments AssertFail {A}.
Arguments Undefined {A}.
Arguments Exited {A} code.
Arguments NoFuel {A}.

#[export] Instance result_ret : MRet result := @Ok.

#[export] Instance result_bind : MBind result := fun A B f m =>
  match m with
  | Ok a => f a
  | AssertFail => AssertFail
  | Undefined => Undefined
  | Exited c => Exited c
  | NoFuel => NoFuel
  end.

#[export] Instance result_fmap : FMap result := fun A B f m =>
  match m with
  | Ok a => Ok (f a)
  | AssertFail => AssertFail
  | Undefined => Undefined
  | Exited c => Exited c
  | NoFuel => NoFuel
  end.

(** The [ASSERT] macro of utility.h. *)
Definition ASSERT (b : bool) : result unit := if b then Ok tt else AssertFail.

Definition is_Ok {A} (r : result A) : bool :=
  match r with Ok _ => true | _ => false end.

(** ** Arrays

    [aget]/[aset] are C array accesses: an index outside the array is
    undefined behaviour. *)
Definition aget {A} (l : list A) (i : Z) : result A :=
  if (i <? 0)%Z then Undefined else
  match l !! Z.to_nat i with Some x => Ok x | None => Undefined end.

Definition aset {A} (l : list A) (i : Z) (x : A) : result (list A) :=
  if ((0 <=? i) && (i <? Z.of_nat (length l)))%Z
  then Ok (<[Z.to_nat i := x]> l) else Undefined.

(** [bcopy(&src[off], dst, n)], seen as the bytes it reads ... *)
Definition aslice {A} (l : list A) (off n : Z) : result (list A) :=
  if ((0 <=? off) && (0 <=? n) && (off + n <=? Z.of_nat (length l)))%Z
  then Ok (take (Z.to_nat n) (drop (Z.to_nat off) l)) else Undefined.

(** ... and [bcopy(src, &dst[off], length src)], seen as what it writes. *)
Definition asplice {A} (l : list A) (off : Z) (src : list A) : result (list A) :=
  if ((0 <=? off) && (off + Z.of_nat (length src) <=? Z.of_nat (length l)))%Z
  then Ok (take (Z.to_nat off) l ++ src ++ drop (Z.to_nat off + length src) l)
  else Undefined.

(** ** Machine integers

    [int] is a 32-bit two's complement number kept as the [Z] it denotes,
    [unsigned] a [Z] between 0 and 2^32, a byte a [Z] between 0 and 256. *)
Local Open Scope Z_scope.

Definition u32 (z : Z) : Z := z mod 2 ^ 32.
Definition wrap32 (z : Z) : Z := (z + 2 ^ 31) mod 2 ^ 32 - 2 ^ 31.
Definition u16 (z : Z) : Z := z mod 2 ^ 16.
Definition u8 (z : Z) : Z := z mod 2 ^ 8.
(** A [char] (signed on the i386 host) read from a byte. *)
Definition schar (b : Z) : Z := (b + 2 ^ 7) mod 2 ^ 8 - 2 ^ 7.

Definition int32 (z : Z) : Prop := - 2 ^ 31 <= z < 2 ^ 31.
Definition uint32 (z : Z) : Prop := 0 <= z < 2 ^ 32.
Definition byte (z : Z) : Prop := 0 <= z < 2 ^ 8.

(** utility.h: [divRoundDown] and [divRoundUp]; C division truncates. *)
Definition divRoundDown (n s : Z) : Z := Z.quot n s.
Definition divRoundUp (n s : Z) : Z :=
  Z.quot n s + (if Z.rem n s >? 0 then 1 else 0).

(** The bytes of an integer in memory on a little-endian host. *)
Fixpoint le_bytes (n : nat) (z : Z) : list Z :=
  match n with
  | O => []
  | S n => z mod 2 ^ 8 :: le_bytes n (z / 2 ^ 8)
  end.

Fixpoint le_val (bs : list Z) : Z :=
  match bs with
  | [] => 0
  | b :: bs => b + 2 ^ 8 * le_val bs
  end.

(** ** Tactics and hints *)

Create HintDb nachos.

Lemma bind_Ok {A B} (m : result A) (f : A → result B) b :
  (m ≫= f) = Ok b ↔ ∃ a, m = Ok a ∧ f a = Ok b.
Proof.
  destruct m as [a| | | |]; simpl; split; try (intros (? & [=] & ?)); try done.
  - intros ?. by exists a.
  - by subst.
Qed.

Lemma ASSERT_Ok b : ASSERT b = Ok tt ↔ b = true.
Proof. destruct b; simpl; split; congruence. Qed.

Lemma ASSERT_unit b u : ASSERT b = Ok u ↔ b = true.
Proof. destruct u. apply ASSERT_Ok. Qed.

(** [inv_ok] takes apart hypotheses that a monadic computation returned. *)
Ltac inv_ok :=
  repeat match goal with
  | H : (_ ≫= _) = Ok _ |- _ =>
      apply bind_Ok in H; let a := fresh "a" in
      let E := fresh "E" in destruct H as (a & E & H)
  | H : ASSERT _ = Ok _ |- _ => apply ASSERT_unit in H
  | H : Ok _ = Ok _ |- _ => injection H; clear H; intros; subst
  | H : mret _ = Ok _ |- _ => injection H; clear H; intros; subst
  | H : AssertFail = Ok _ |- _ => discriminate H
  | H : Undefined = Ok _ |- _ => discriminate H
  | H : Exited _ = Ok _ |- _ => discriminate H
  | H : NoFuel = Ok _ |- _ => discriminate H
  | a : unit |- _ => destruct a
  | a : prod _ _ |- _ => destruct a
  end.

(** Turn the boolean tests of the code into propositions [lia] reads. *)
Ltac b2p :=
  repeat match goal with
  | H : (_ && _)%bool = true |- _ => apply andb_true_iff in H as [? ?]
  | H : (_ || _)%bool = false |- _ => apply orb_false_iff in H as [? ?]
  | H : negb _ = true |- _ => apply negb_true_iff in H
  | H : negb _ = false |- _ => apply negb_false_iff in H
  | H : (_ =? _) = true |- _ => apply Z.eqb_eq in H
  | H : (_ =? _) = false |- _ => apply Z.eqb_neq in H
  | H : (_ <? _) = true |- _ => apply Z.ltb_lt in H
  | H : (_ <? _) = false |- _ => apply Z.ltb_ge in H
  | H : (_ <=? _) = true |- _ => apply Z.leb_le in H
  | H : (_ <=? _) = false |- _ => apply Z.leb_gt in H
  | H : (_ >? _) = true |- _ => rewrite Z.gtb_ltb in H
  | H : (_ >? _) = false |- _ => rewrite Z.gtb_ltb in H
  | H : (_ >=? _) = true |- _ => rewrite Z.geb_leb in H
  | H : (_ >=? _) = false |- _ => rewrite Z.geb_leb in H
  end.

(** Case analysis on the tests of the code in the goal. *)
Ltac btest :=
  repeat match goal with
  | |- context [?a =? ?b] => destruct (Z.eqb_spec a b)
  | |- context [?a <? ?b] => destruct (Z.ltb_spec a b)
  | |- context [?a <=? ?b] => destruct (Z.leb_spec a b)
  end.

(** ** Array lemmas *)

Lemma aget_Ok {A} (l : list A) i x :
  aget l i = Ok x ↔ 0 <= i ∧ l !! Z.to_nat i = Some x.
Proof.
  unfold aget. destruct (Z.ltb_spec i 0); [split; [done|lia]|].
  destruct (l !! Z.to_nat i); split; try done.
  - by intros [= ->].
  - by intros [_ [= ->]].
  - by intros [_ [=]].
Qed.

Lemma aget_in {A} (l : list A) i :
  0 <= i < Z.of_nat (length l) → ∃ x, aget l i = Ok x.
Proof.
  intros Hi. destruct (lookup_lt_is_Some_2 l (Z.to_nat i)) as [x Hx]; [lia|].
  exists x. apply aget_Ok. split; [lia|done].
Qed.

Lemma aget_bound {A} (l : list A) i x :
  aget l i = Ok x → 0 <= i < Z.of_nat (length l).
Proof. intros [? ?%lookup_lt_Some]%aget_Ok. lia. Qed.

Lemma aget_Forall {A} (P : A → Prop) l i x :
  Forall P l → aget l i = Ok x → P x.
Proof. intros HP [_ H]%aget_Ok. by eapply Forall_lookup_1. Qed.

Lemma aset_Ok {A} (l : list A) i x :
  0 <= i < Z.of_nat (length l) → aset l i x = Ok (<[Z.to_nat i := x]> l).
Proof. intros Hi. unfold aset. btest; simpl; [done|lia..]. Qed.

Lemma aset_inv {A} (l l' : list A) i x :
  aset l i x = Ok l' →
  0 <= i < Z.of_nat (length l) ∧ l' = <[Z.to_nat i := x]> l.
Proof. unfold aset. btest; simpl; try done. intros [= <-]. split; [lia|done]. Qed.

Lemma aset_length {A} (l l' : list A) i x :
  aset l i x = Ok l' → length l' = length l.
Proof. intros [_ ->]%aset_inv. apply length_insert. Qed.

Lemma aget_insert_eq {A} (l : list A) i x :
  0 <= i < Z.of_nat (length l) → aget (<[Z.to_nat i := x]> l) i = Ok x.
Proof. intros ?. apply aget_Ok. split; [lia|]. apply list_lookup_insert_eq. lia. Qed.

Lemma aget_insert_ne {A} (l : list A) i j x :
  0 <= i → i ≠ j → aget (<[Z.to_nat i := x]> l) j = aget l j.
Proof.
  intros ? ?. unfold aget. destruct (Z.ltb_spec j 0); [done|].
  by rewrite list_lookup_insert_ne by lia.
Qed.

Lemma aset_get_eq {A} (l l' : list A) i x :
  aset l i x = Ok l' → aget l' i = Ok x.
Proof. intros [? ->]%aset_inv. by apply aget_insert_eq. Qed.

Lemma aset_get_ne {A} (l l' : list A) i j x :
  aset l i x = Ok l' → i ≠ j → aget l' j = aget l j.
Proof. intros [? ->]%aset_inv ?. apply aget_insert_ne; [lia|done]. Qed.

Lemma aset_Forall {A} (P : A → Prop) l l' i x :
  Forall P l → P x → aset l i x = Ok l' → Forall P l'.
Proof. intros ? ? [_ ->]%aset_inv. by apply Forall_insert. Qed.

Lemma aslice_Ok {A} (l : list A) off n :
  0 <= off → 0 <= n → off + n <= Z.of_nat (length l) →
  aslice l off n = Ok (take (Z.to_nat n) (drop (Z.to_nat off) l)).
Proof. intros. unfold aslice. btest; simpl; [done|lia..]. Qed.

Lemma aslice_inv {A} (l l' : list A) off n :
  aslice l off n = Ok l' →
  0 <= off ∧ 0 <= n ∧ off + n <= Z.of_nat (length l) ∧
  l' = take (Z.to_nat n) (drop (Z.to_nat off) l).
Proof. unfold aslice. btest; simpl; try done. intros [= <-]. auto. Qed.

Lemma asplice_Ok {A} (l : list A) off src :
  0 <= off → off + Z.of_nat (length src) <= Z.of_nat (length l) →
  asplice l off src =
  Ok (take (Z.to_nat off) l ++ src ++ drop (Z.to_nat off + length src) l).
Proof. intros. unfold asplice. btest; simpl; [done|lia..]. Qed.

Lemma asplice_length {A} (l l' : list A) off src :
  asplice l off src = Ok l' → length l' = length l.
Proof.
  unfold asplice. btest; simpl; try done. intros [= <-].
  rewrite !length_app, length_take, length_drop. lia.
Qed.

Lemma lookup_splice {A} (l src : list A) (off i : nat) :
  (off + length src <= length l)%nat →
  (take off l ++ src ++ drop (off + length src) l) !! i =
  if decide (off <= i < off + length src)%nat then src !! (i - off)%nat
  else l !! i.
Proof.
  intros Hl. assert (length (take off l) = off) as Ht by (rewrite length_take; lia).
  case_decide.
  - rewrite lookup_app_r by lia. rewrite Ht. rewrite lookup_app_l by lia. done.
  - destruct (decide (i < off)%nat).
    + rewrite lookup_app_l by lia. by rewrite lookup_take_lt by lia.
    + rewrite lookup_app_r by lia. rewrite lookup_app_r by lia.
      rewrite lookup_drop. f_equal. lia.
Qed.

(** ** Lists *)

Section FilterLemmas.
Context {A : Type} (P Q : A → Prop) `{!∀ x, Decision (P x)}.

Lemma filter_all (l : list A) : Forall P l → filter P l = l.
Proof.
  induction 1 as [|x l Hx Hl IH]; [done|]. rewrite filter_cons, decide_True by done.
  by rewrite IH.
Qed.

Lemma filter_none (l : list A) : Forall (λ x, ¬ P x) l → filter P l = [].
Proof.
  induction 1 as [|x l Hx Hl IH]; [done|]. by rewrite filter_cons, decide_False.
Qed.

Lemma filter_Forall (l : list A) : Forall Q l → Forall Q (filter P l).
Proof.
  induction 1 as [|x l Hx Hl IH]; [constructor|]. rewrite filter_cons.
  case_decide; [by constructor|done].
Qed.

End FilterLemmas.

(** ** Machine-integer lemmas *)

Lemma wrap32_int32 z : int32 (wrap32 z).
Proof. unfold int32, wrap32. pose proof (Z.mod_pos_bound (z + 2 ^ 31) (2 ^ 32)). lia. Qed.

Lemma wrap32_id z : int32 z → wrap32 z = z.
Proof. unfold int32, wrap32. intros. rewrite Z.mod_small; lia. Qed.

Lemma u32_uint32 z : uint32 (u32 z).
Proof. unfold uint32, u32. apply Z.mod_pos_bound. lia. Qed.

Lemma u32_id z : uint32 z → u32 z = z.
Proof. unfold uint32, u32. intros. by rewrite Z.mod_small. Qed.

Lemma u8_byte z : byte (u8 z).
Proof. unfold byte, u8. apply Z.mod_pos_bound. lia. Qed.

Lemma u8_id z : byte z → u8 z = z.
Proof. unfold byte, u8. intros. by rewrite Z.mod_small. Qed.

Lemma u32_mod z : u32 z mod 2 ^ 32 = z mod 2 ^ 32.
Proof. unfold u32. apply Z.mod_mod. lia. Qed.

Lemma wrap32_mod z : wrap32 z mod 2 ^ 32 = z mod 2 ^ 32.
Proof.
  unfold wrap32. rewrite Zminus_mod_idemp_l.
  f_equal. lia.
Qed.

(** Two integers congruent modulo 2^32 are the same word. *)
Lemma wrap32_eqm a b : a mod 2 ^ 32 = b mod 2 ^ 32 → wrap32 a = wrap32 b.
Proof.
  intros H. unfold wrap32. rewrite (Zplus_mod a), (Zplus_mod b), H. done.
Qed.

Lemma wrap32_add_l a b : wrap32 (wrap32 a + b) = wrap32 (a + b).
Proof. apply wrap32_eqm. rewrite <- Zplus_mod_idemp_l, wrap32_mod. apply Zplus_mod_idemp_l. Qed.

Lemma wrap32_sub_l a b : wrap32 (wrap32 a - b) = wrap32 (a - b).
Proof. apply (wrap32_add_l a (- b)). Qed.

Lemma wrap32_le z : 0 <= z → wrap32 z <= z.
Proof. intros Hz. unfold wrap32. pose proof (Z.mod_le (z + 2 ^ 31) (2 ^ 32)). lia. Qed.

Lemma wrap32_u32 z : wrap32 (u32 z) = wrap32 z.
Proof. apply wrap32_eqm, u32_mod. Qed.

Lemma u32_wrap32 z : u32 (wrap32 z) = u32 z.
Proof. apply wrap32_mod. Qed.

Lemma u32_nonneg_id z : int32 z → 0 <= z → u32 z = z.
Proof. unfold int32. intros. apply u32_id. unfold uint32. lia. Qed.

Lemma u32_neg z : int32 z → z < 0 → u32 z = z + 2 ^ 32.
Proof.
  unfold int32, u32. intros. rewrite <- (Z_mod_plus_full z 1).
  apply Z.mod_small. lia.
Qed.

Lemma schar_mod b : byte b → schar b mod 2 ^ 8 = b.
Proof.
  unfold byte, schar. intros. rewrite Zminus_mod_idemp_l.
  replace (b + 2 ^ 7 - 2 ^ 7) with b by lia. apply Z.mod_small. lia.
Qed.

Lemma divRoundUp_spec n s :
  0 <= n → 0 < s → divRoundUp n s = (n + s - 1) / s.
Proof.
  intros. unfold divRoundUp. rewrite Z.quot_div_nonneg, Z.rem_mod_nonneg by lia.
  pose proof (Z.div_mod n s). pose proof (Z.mod_pos_bound n s).
  destruct (Z.gtb_spec (n mod s) 0).
  - apply Z.div_unique with (n mod s - 1); lia.
  - apply Z.div_unique with (s - 1); lia.
Qed.

Lemma divRoundUp_bounds n s :
  0 <= n → 0 < s → n <= s * divRoundUp n s < n + s.
Proof.
  intros. rewrite divRoundUp_spec by lia.
  pose proof (Z.div_mod (n + s - 1) s). pose proof (Z.mod_pos_bound (n + s - 1) s). lia.
Qed.

Lemma divRoundDown_nonneg n s : 0 <= n → 0 < s → divRoundDown n s = n / s.
Proof. intros. unfold divRoundDown. apply Z.quot_div_nonneg; lia. Qed.

(** Bitwise operations stay within a word. *)
Lemma u32_land_ones z : u32 z = Z.land z (Z.ones 32).
Proof. unfold u32. by rewrite Z.land_ones by lia. Qed.

Lemma u32_lor a b : u32 (Z.lor a b) = Z.lor (u32 a) (u32 b).
Proof. rewrite !u32_land_ones. apply Z.land_lor_distr_l. Qed.

Lemma u32_lxor a b : u32 (Z.lxor a b) = Z.lxor (u32 a) (u32 b).
Proof.
  rewrite !u32_land_ones. apply Z.bits_inj'. intros n ?.
  rewrite !Z.land_spec, !Z.lxor_spec, !Z.land_spec.
  by destruct (Z.testbit (Z.ones 32) n), (Z.testbit a n), (Z.testbit b n).
Qed.

Lemma u32_land a b : u32 (Z.land a b) = Z.land (u32 a) (u32 b).
Proof.
  rewrite !u32_land_ones. apply Z.bits_inj'. intros n ?. rewrite !Z.land_spec.
  by destruct (Z.testbit (Z.ones 32) n), (Z.testbit a n), (Z.testbit b n).
Qed.

Lemma uint32_iff z : uint32 z ↔ u32 z = z.
Proof. split; [apply u32_id|]. intros <-. apply u32_uint32. Qed.

Lemma uint32_lor a b : uint32 a → uint32 b → uint32 (Z.lor a b).
Proof. rewrite !uint32_iff. intros Ha Hb. by rewrite u32_lor, Ha, Hb. Qed.

Lemma uint32_land a b : uint32 a → uint32 b → uint32 (Z.land a b).
Proof. rewrite !uint32_iff. intros Ha Hb. by rewrite u32_land, Ha, Hb. Qed.

Lemma u32_testbit z i : 0 <= i < 32 → Z.testbit (u32 z) i = Z.testbit z i.
Proof. intros. unfold u32. apply Z.mod_pow2_bits_low. lia. Qed.

Lemma land_pow2 w n : 0 <= n → Z.land w (2 ^ n) = if Z.testbit w n then 2 ^ n else 0.
Proof.
  intros Hn. apply Z.bits_inj'. intros m Hm. rewrite Z.land_spec, Z.pow2_bits_eqb by lia.
  destruct (Z.eqb_spec n m) as [->|].
  - destruct (Z.testbit w m); simpl; [by rewrite Z.pow2_bits_true|by rewrite Z.bits_0].
  - rewrite andb_false_r. destruct (Z.testbit w n); [|by rewrite Z.bits_0].
    by rewrite Z.pow2_bits_false.
Qed.

(** [x & (mask of n ones << k)] is the field of [n] bits at [k]. *)
Lemma land_field x n k :
  0 <= n → 0 <= k →
  Z.land x (Z.shiftl (Z.ones n) k) = (x / 2 ^ k) mod 2 ^ n * 2 ^ k.
Proof.
  intros. rewrite <- Z.land_ones, <- Z.shiftr_div_pow2, <- Z.shiftl_mul_pow2 by lia.
  apply Z.bits_inj'. intros i Hi. rewrite Z.land_spec, !Z.shiftl_spec by lia.
  destruct (Z.ltb_spec i k).
  - rewrite !(Z.testbit_neg_r _ (i - k)) by lia. apply andb_false_r.
  - rewrite Z.land_spec, Z.shiftr_spec by lia. by replace (i - k + k) with i by lia.
Qed.

(** Joining a low and a high part with [|] is addition. *)
Lemma lor_low_high a b k :
  0 <= k → 0 <= a < 2 ^ k → Z.lor a (b * 2 ^ k) = a + b * 2 ^ k.
Proof.
  intros Hk Ha. rewrite <- Z.shiftl_mul_pow2 by lia.
  assert (Z.land a (Z.shiftl b k) = 0) as Hl.
  { apply Z.bits_inj'. intros i Hi. rewrite Z.land_spec, Z.bits_0, Z.shiftl_spec by lia.
    destruct (Z.ltb_spec i k).
    - rewrite (Z.testbit_neg_r _ (i - k)) by lia. apply andb_false_r.
    - rewrite <- (Z.mod_small a (2 ^ k)), Z.mod_pow2_bits_high by lia. done. }
  rewrite Z.add_nocarry_lxor by done. by rewrite Z.lxor_lor.
Qed.

(** ** Little-endian bytes *)

Lemma length_le_bytes n z : length (le_bytes n z) = n.
Proof. revert z. induction n; simpl; auto. Qed.

Lemma le_bytes_byte n z : Forall byte (le_bytes n z).
Proof.
  revert z. induction n as [|n IH]; intros z; simpl; constructor; [|done].
  apply Z.mod_pos_bound. lia.
Qed.

Lemma le_val_bytes n z : le_val (le_bytes n z) = z mod 2 ^ (8 * Z.of_nat n).
Proof.
  revert z. induction n as [|n IH]; intros z.
  - simpl. by rewrite Z.mod_1_r.
  - cbn [le_bytes le_val]. rewrite IH.
    replace (8 * Z.of_nat (S n)) with (8 + 8 * Z.of_nat n) by lia.
    rewrite Z.pow_add_r by lia. rewrite Z.rem_mul_r by lia. lia.
Qed.

Lemma le_val_bound bs :
  Forall byte bs → 0 <= le_val bs < 2 ^ (8 * Z.of_nat (length bs)).
Proof.
  induction 1 as [|b bs Hb Hbs IH]; [simpl; lia|].
  cbn [le_val length]. replace (8 * Z.of_nat (S (length bs))) with
    (8 + 8 * Z.of_nat (length bs)) by lia.
  rewrite Z.pow_add_r by lia. unfold byte in Hb. nia.
Qed.

Lemma le_bytes_val bs : Forall byte bs → le_bytes (length bs) (le_val bs) = bs.
Proof.
  induction 1 as [|b bs Hb Hbs IH]; [done|]. cbn [length le_val le_bytes].
  unfold byte in Hb. f_equal.
  - rewrite Z.mul_comm, Z.mod_add by lia. apply Z.mod_small. lia.
  - rewrite Z.mul_comm, Z.div_add by lia. rewrite (Z.div_small b) by lia.
    apply IH.
Qed.

Lemma le_bytes_eqm n a b :
  a mod 2 ^ (8 * Z.of_nat n) = b mod 2 ^ (8 * Z.of_nat n) →
  le_bytes n a = le_bytes n b.
Proof.
  intros H. rewrite <- (le_bytes_val (le_bytes n a)) by apply le_bytes_byte.
  rewrite <- (le_bytes_val (le_bytes n b)) by apply le_bytes_byte.
  rewrite !length_le_bytes, !le_val_bytes, H. done.
Qed.

(** A 32-bit [int] survives the trip through its four bytes. *)
Lemma wrap32_le_val z : int32 z → wrap32 (le_val (le_bytes 4 z)) = z.
Proof.
  intros. rewrite le_val_bytes. rewrite <- (wrap32_id z) at 2 by done.
  apply wrap32_eqm. apply Z.mod_mod. lia.
Qed.

#[export] Hint Resolve wrap32_int32 u32_uint32 u8_byte le_bytes_byte : nachos.
Create Rewrite HintDb len.
#[export] Hint Rewrite @length_insert @length_app @length_take @length_drop
  @length_replicate length_le_bytes @length_fmap : len.

(** ** Decimal numbers *)

(** [sprintf("%d")] *)
Fixpoint digits (fuel : nat) (z : Z) (acc : list Z) : list Z :=
  match fuel with
  | O => acc
  | S n => let acc := (48 + z mod 10) :: acc in
      if z / 10 =? 0 then acc else digits n (z / 10) acc
  end.
Definition decimal (z : Z) : list Z :=
  if z <? 0 then 45 :: digits 10 (- z) [] else digits 10 z [].

(** Numbers are read back from their text. *)
Definition undigits (acc : Z) (l : list Z) : Z := fold_left (λ acc c, acc * 10 + (c - 48)) l acc.
Definition undecimal (l : list Z) : Z :=
  match l with
  | c :: t => if c =? 45 then - undigits 0 t else undigits 0 l
  | [] => 0
  end.

Lemma undigits_digits fuel n acc :
  0 <= n < 10 ^ Z.of_nat fuel → undigits 0 (digits fuel n acc) = undigits n acc.
Proof.
  revert n acc. induction fuel as [|fuel IH]; intros n acc Hn; cbn [digits].
  - change (10 ^ Z.of_nat 0) with 1 in Hn. by replace n with 0 by lia.
  - pose proof (Z.div_mod n 10 ltac:(done)). destruct (Z.eqb_spec (n / 10) 0).
    + unfold undigits. cbn [fold_left]. f_equal. lia.
    + rewrite IH; [unfold undigits; cbn [fold_left]; f_equal; lia|].
      split; [apply Z.div_pos; lia|]. apply Z.div_lt_upper_bound; [lia|].
      rewrite <- Z.pow_succ_r by lia. replace (Z.succ (Z.of_nat fuel)) with (Z.of_nat (S fuel)) by lia. lia.
Qed.

Lemma digits_ge fuel n acc : Forall (Z.le 48) acc → Forall (Z.le 48) (digits fuel n acc).
Proof.
  revert n acc. induction fuel as [|fuel IH]; intros n acc Hacc; cbn [digits]; [done|].
  assert (Forall (Z.le 48) ((48 + n mod 10) :: acc)).
  { constructor; [|done]. pose proof (Z.mod_pos_bound n 10 ltac:(lia)). lia. }
  case_match; [done|by apply IH].
Qed.

Lemma length_digits fuel n acc : (length (digits fuel n acc) <= fuel + length acc)%nat.
Proof.
  revert n acc. induction fuel as [|fuel IH]; intros n acc; cbn [digits]; [done|].
  case_match; cbn [length]; [lia|]. etransitivity; [apply IH|]. cbn [length]. lia.
Qed.

Lemma undecimal_decimal z : int32 z → undecimal (decimal z) = z.
Proof.
  unfold int32, decimal. intros Hz. assert (10 ^ Z.of_nat 10 = 10000000000) as Hp by done.
  destruct (Z.ltb_spec z 0); cbn [undecimal].
  - rewrite Z.eqb_refl, undigits_digits by lia. unfold undigits. cbn [fold_left]. lia.
  - pose proof (undigits_digits 10 z [] ltac:(lia)) as Hu.
    pose proof (digits_ge 10 z [] ltac:(constructor)) as Hd.
    destruct (digits 10 z []) as [|c t]; [done|]. cbn [undecimal].
    apply Forall_cons in Hd as [Hc _]. destruct (Z.eqb_spec c 45); [lia|done].
Qed.

Lemma decimal_inj a b : int32 a → int32 b → decimal a = decimal b → a = b.
Proof. intros Ha Hb E. by rewrite <- (undecimal_decimal a Ha), <- (undecimal_decimal b Hb), E. Qed.

Lemma length_decimal z : (length (decimal z) <= 11)%nat.
Proof.
  unfold decimal. destruct (z <? 0); cbn [length];
    [pose proof (length_digits 10 (- z) [])|pose proof (length_digits 10 z [])]; cbn [length] in *; lia.
Qed.
