(* ===== verification/LList.v ===== *)
(** * threads/list.cc: the singly linked list

    [ListElement]s live in a heap of cells addressed by [loc]; a [List] object
    holds the [first]/[last] pointers and the [size] counter.  Every routine of
    list.cc is translated with its pointer accesses (a null or dangling pointer
    is [Undefined]), [new] and [delete].  The second half relates the pointer
    structure to the abstract list [alist] that the other components use:
    [ops_refine] shows that any sequence of calls on a fresh list behaves as
    the abstract operations and touches nothing else in the heap. *)

From S2P Require Import Prelude.
Local Open Scope Z_scope.

Abbreviation loc := positive.

Section LinkedList.
Context {A : Type}.

(** ** The code *)

(** A [void *] item is [None] (NULL) or a pointer to an [A]. *)
Record ListElement := mkListElement {
  next : option loc;
  key : Z;
  item : option A }.

Record List := mkList {
  first : option loc;
  last : option loc;
  size : Z }.

Abbreviation heap := (gmap loc ListElement).

(** [p->...] *)
Definition deref (h : heap) (p : option loc) : result ListElement :=
  match p with
  | None => Undefined
  | Some l => match h !! l with Some e => Ok e | None => Undefined end
  end.

(** [p->next = n] *)
Definition set_next (h : heap) (p n : option loc) : result heap :=
  e ← deref h p;
  match p with
  | None => Undefined
  | Some l => Ok (<[l := mkListElement n (key e) (item e)]> h)
  end.

(** [new ListElement(itemPtr, sortKey)] *)
Definition newListElement (h : heap) (itemPtr : option A) (sortKey : Z)
  : loc * heap :=
  let l := fresh (dom h) in (l, <[l := mkListElement None sortKey itemPtr]> h).

Definition newList : List := mkList None None 0.

Definition IsEmpty (L : List) : bool :=
  match first L with None => true | Some _ => false end.

Definition Append (L : List) (h : heap) (it : option A) : result (List * heap) :=
  let '(element, h) := newListElement h it 0 in
  let L := mkList (first L) (last L) (wrap32 (size L + 1)) in
  if IsEmpty L then Ok (mkList (Some element) (Some element) (size L), h)
  else
    h ← set_next h (last L) (Some element);
    Ok (mkList (first L) (Some element) (size L), h).

Definition Prepend (L : List) (h : heap) (it : option A) : result (List * heap) :=
  let '(element, h) := newListElement h it 0 in
  let L := mkList (first L) (last L) (wrap32 (size L + 1)) in
  if IsEmpty L then Ok (mkList (Some element) (Some element) (size L), h)
  else
    h ← set_next h (Some element) (first L);
    Ok (mkList (Some element) (last L) (size L), h).

(** The [for] loop of [SortedInsert]: [Some h'] when the element was linked in
    before the end of the list, [None] when the loop ran off the end. *)
Fixpoint SortedInsert_loop (fuel : nat) (h : heap) (ptr : option loc)
    (element : loc) (sortKey : Z) : result (option heap) :=
  match fuel with
  | O => NoFuel
  | S fuel =>
      e ← deref h ptr;
      match next e with
      | None => Ok None
      | Some n =>
          en ← deref h (Some n);
          if sortKey <? key en then
            h ← set_next h (Some element) (next e);
            h ← set_next h ptr (Some element);
            Ok (Some h)
          else SortedInsert_loop fuel h (next e) element sortKey
      end
  end.

Definition SortedInsert (L : List) (h : heap) (it : option A) (sortKey : Z)
  : result (List * heap) :=
  let '(element, h) := newListElement h it sortKey in
  if IsEmpty L then Ok (mkList (Some element) (Some element) (size L), h)
  else
    f ← deref h (first L);
    if sortKey <? key f then
      h ← set_next h (Some element) (first L);
      Ok (mkList (Some element) (last L) (size L), h)
    else
      r ← SortedInsert_loop (S (base.size h)) h (first L) element sortKey;
      match r with
      | Some h => Ok (L, h)
      | None =>
          h ← set_next h (last L) (Some element);
          Ok (mkList (first L) (Some element) (size L), h)
      end.

(** Returns the item (NULL when the list is empty) and, in place of the store
    through [keyPtr], the key of the removed element if there was one. *)
Definition SortedRemove (L : List) (h : heap)
  : result (option A * option Z * List * heap) :=
  if IsEmpty L then Ok (None, None, L, h)
  else
    element ← deref h (first L);
    let L' := if bool_decide (first L = last L) then mkList None None (size L)
              else mkList (next element) (last L) (size L) in
    Ok (item element, Some (key element), L',
        match first L with Some l => delete l h | None => h end).

Definition Remove (L : List) (h : heap) : result (option A * List * heap) :=
  let L := mkList (first L) (last L) (wrap32 (size L - 1)) in
  '(thing, _, L, h) ← SortedRemove L h;
  Ok (thing, L, h).

(** The walk of [Mapcar]; [func] transforms the caller's state [W]. *)
Fixpoint Mapcar_loop {W} (fuel : nat) (func : option A → W → result W)
    (h : heap) (ptr : option loc) (w : W) : result W :=
  match fuel with
  | O => NoFuel
  | S fuel =>
      match ptr with
      | None => Ok w
      | Some _ =>
          e ← deref h ptr;
          w ← func (item e) w;
          Mapcar_loop fuel func h (next e) w
      end
  end.

Definition Mapcar {W} (func : option A → W → result W) (L : List) (h : heap)
    (w : W) : result W :=
  Mapcar_loop (S (base.size h)) func h (first L) w.

(** [~List]: [while (Remove() != NULL) ;] *)
Fixpoint deleteList_loop (fuel : nat) (L : List) (h : heap) : result heap :=
  match fuel with
  | O => NoFuel
  | S fuel =>
      '(thing, L, h) ← Remove L h;
      match thing with
      | None => Ok h
      | Some _ => deleteList_loop fuel L h
      end
  end.

Definition deleteList (L : List) (h : heap) : result heap :=
  deleteList_loop (S (base.size h)) L h.

(** ** The abstract list *)

Record alist := mkAList {
  elems : list (Z * option A);
  asize : Z }.

Definition aempty : alist := mkAList [] 0.

Definition aAppend (a : alist) (it : option A) : alist :=
  mkAList (elems a ++ [(0, it)]) (wrap32 (asize a + 1)).

Definition aPrepend (a : alist) (it : option A) : alist :=
  mkAList ((0, it) :: elems a) (wrap32 (asize a + 1)).

Fixpoint insert_sorted (k : Z) (it : option A) (xs : list (Z * option A))
  : list (Z * option A) :=
  match xs with
  | [] => [(k, it)]
  | x :: xs' => if k <? x.1 then (k, it) :: xs else x :: insert_sorted k it xs'
  end.

Definition aSortedInsert (a : alist) (it : option A) (k : Z) : alist :=
  mkAList (insert_sorted k it (elems a)) (asize a).

Definition aSortedRemove (a : alist) : option A * option Z * alist :=
  match elems a with
  | [] => (None, None, a)
  | x :: xs => (x.2, Some x.1, mkAList xs (asize a))
  end.

Definition aRemove (a : alist) : option A * alist :=
  match elems a with
  | [] => (None, mkAList [] (wrap32 (asize a - 1)))
  | x :: xs => (x.2, mkAList xs (wrap32 (asize a - 1)))
  end.

Definition aIsEmpty (a : alist) : bool :=
  match elems a with [] => true | _ => false end.

(** Calls a client can make on a list, and what a call returns. *)
Inductive op :=
| OAppend (it : option A)
| OPrepend (it : option A)
| ORemove
| OSortedInsert (it : option A) (k : Z)
| OSortedRemove
| OIsEmpty.

Inductive ret :=
| RVoid
| RItem (it : option A)
| RItemKey (it : option A) (k : option Z)
| RBool (b : bool).

Definition run_op (o : op) (L : List) (h : heap) : result (ret * List * heap) :=
  match o with
  | OAppend it => '(L, h) ← Append L h it; Ok (RVoid, L, h)
  | OPrepend it => '(L, h) ← Prepend L h it; Ok (RVoid, L, h)
  | ORemove => '(x, L, h) ← Remove L h; Ok (RItem x, L, h)
  | OSortedInsert it k => '(L, h) ← SortedInsert L h it k; Ok (RVoid, L, h)
  | OSortedRemove => '(x, k, L, h) ← SortedRemove L h; Ok (RItemKey x k, L, h)
  | OIsEmpty => Ok (RBool (IsEmpty L), L, h)
  end.

Definition spec_op (o : op) (a : alist) : ret * alist :=
  match o with
  | OAppend it => (RVoid, aAppend a it)
  | OPrepend it => (RVoid, aPrepend a it)
  | ORemove => let '(x, a) := aRemove a in (RItem x, a)
  | OSortedInsert it k => (RVoid, aSortedInsert a it k)
  | OSortedRemove => let '(x, k, a) := aSortedRemove a in (RItemKey x k, a)
  | OIsEmpty => (RBool (aIsEmpty a), a)
  end.

Fixpoint run_ops (os : list op) (L : List) (h : heap)
  : result (list ret * List * heap) :=
  match os with
  | [] => Ok ([], L, h)
  | o :: os =>
      '(r, L, h) ← run_op o L h;
      '(rs, L, h) ← run_ops os L h;
      Ok (r :: rs, L, h)
  end.

(** A client that only appends, prepends and removes, and never removes from
    an empty list ([n] is how many elements the list has). *)
Fixpoint queue_ops (n : nat) (os : list op) : bool :=
  match os with
  | [] => true
  | (OAppend _ | OPrepend _) :: os => queue_ops (S n) os
  | ORemove :: os => match n with O => false | S n => queue_ops n os end
  | OIsEmpty :: os => queue_ops n os
  | (OSortedInsert _ _ | OSortedRemove) :: os => false
  end.

Fixpoint spec_ops (os : list op) (a : alist) : list ret * alist :=
  match os with
  | [] => ([], a)
  | o :: os =>
      let '(r, a) := spec_op o a in
      let '(rs, a) := spec_ops os a in
      (r :: rs, a)
  end.

(** ** The representation invariant *)

Definition nxt (ls : list loc) (q : option loc) : option loc :=
  match ls with [] => q | l :: _ => Some l end.

(** The cells [ls] hold [xs] in order; the last one points to [q]. *)
Fixpoint lseg (h : heap) (ls : list loc) (xs : list (Z * option A))
    (q : option loc) : Prop :=
  match ls, xs with
  | [], [] => True
  | l :: ls', x :: xs' =>
      h !! l = Some (mkListElement (nxt ls' q) x.1 x.2) ∧ lseg h ls' xs' q
  | _, _ => False
  end.

Record rep (h : heap) (L : List) (ls : list loc) (a : alist) : Prop := {
  rep_nodup : NoDup ls;
  rep_seg : lseg h ls (elems a) None;
  rep_first : first L = nxt ls None;
  rep_last : last L = list.last ls;
  rep_size : size L = asize a }.

(** A call that turns cells [ls] into [ls'] leaves every other cell alone, takes
    its new cells from free memory and frees the cells it drops. *)
Record frames (h : heap) (ls : list loc) (h' : heap) (ls' : list loc) : Prop := {
  frame_other l : l ∉ ls → l ∉ ls' → h' !! l = h !! l;
  frame_new l : l ∈ ls' → l ∉ ls → h !! l = None;
  frame_freed l : l ∈ ls → l ∉ ls' → h' !! l = None }.

End LinkedList.

Arguments ListElement : clear implicits.
Arguments alist : clear implicits.
Arguments op : clear implicits.
Arguments ret : clear implicits.

(** ** Refinement proofs *)

Section Refinement.
Context {A : Type}.
Implicit Types (h : gmap loc (ListElement A)) (ls : list loc)
  (xs : list (Z * option A)) (a : alist A).

Lemma lseg_length h ls xs q : lseg h ls xs q → length ls = length xs.
Proof.
  revert xs. induction ls as [|l ls IH]; intros [|x xs]; simpl; try done.
  intros [_ ?]. f_equal. auto.
Qed.

Lemma lseg_in h ls xs q l : lseg h ls xs q → l ∈ ls → is_Some (h !! l).
Proof.
  revert xs. induction ls as [|l' ls IH]; intros [|x xs]; simpl; try done.
  - intros _ ?%elem_of_nil. done.
  - intros [Hl Hs] [->|?]%elem_of_cons; eauto.
Qed.

Lemma lseg_frame h h' ls xs q :
  (∀ l, l ∈ ls → h' !! l = h !! l) → lseg h ls xs q → lseg h' ls xs q.
Proof.
  revert xs. induction ls as [|l ls IH]; intros [|x xs] Hf; simpl; try done.
  intros [Hl Hs]. split.
  - rewrite Hf; [done|]. set_solver.
  - apply IH; [|done]. intros ??. apply Hf. set_solver.
Qed.

Lemma lseg_insert h ls xs q l e :
  l ∉ ls → lseg h ls xs q → lseg (<[l := e]> h) ls xs q.
Proof.
  intros ?. apply lseg_frame. intros l' ?. apply lookup_insert_ne. set_solver.
Qed.

Lemma lseg_app h ls1 ls2 xs1 xs2 q :
  length ls1 = length xs1 →
  lseg h (ls1 ++ ls2) (xs1 ++ xs2) q ↔
  lseg h ls1 xs1 (nxt ls2 q) ∧ lseg h ls2 xs2 q.
Proof.
  revert xs1. induction ls1 as [|l ls1 IH]; intros [|x xs1]; simpl; try done.
  - intros _. tauto.
  - intros [= Hlen]. rewrite IH by done.
    replace (nxt (ls1 ++ ls2) q) with (nxt ls1 (nxt ls2 q)) by (by destruct ls1).
    tauto.
Qed.

Lemma nxt_app ls ls' q : nxt (ls ++ ls') q = nxt ls (nxt ls' q).
Proof. by destruct ls. Qed.

(** The cells of a list fit in the heap: the walks have enough fuel. *)
Lemma lseg_size h ls xs q : NoDup ls → lseg h ls xs q → (length ls <= base.size h)%nat.
Proof.
  intros Hnd Hs. rewrite <- size_dom.
  rewrite <- (size_list_to_set (C := gset loc) ls) by done.
  apply subseteq_size. intros l. rewrite elem_of_list_to_set, elem_of_dom.
  by eapply lseg_in.
Qed.

Lemma newListElement_fresh h it k e h' :
  newListElement h it k = (e, h') →
  h !! e = None ∧ h' = <[e := mkListElement None k it]> h.
Proof.
  unfold newListElement. intros [= <- <-]. split; [|done].
  apply not_elem_of_dom, is_fresh.
Qed.

Lemma set_next_Ok h l n nx k it :
  h !! l = Some (mkListElement nx k it) →
  set_next h (Some l) n = Ok (<[l := mkListElement n k it]> h).
Proof. intros H. unfold set_next. simpl. by rewrite H. Qed.

Lemma rep_notin h L ls a l : rep h L ls a → h !! l = None → l ∉ ls.
Proof. intros [_ Hs _ _ _] Hn Hin. destruct (lseg_in _ _ _ _ _ Hs Hin). congruence. Qed.

Lemma frames_refl h ls : frames h ls h ls.
Proof. split; done. Qed.

Lemma newList_rep h : rep h newList [] aempty.
Proof. split; simpl; try done. apply NoDup_nil_2. Qed.

Lemma rep_IsEmpty h L ls a : rep h L ls a → IsEmpty L = aIsEmpty a.
Proof.
  intros [_ Hs Hf _ _]. unfold IsEmpty, aIsEmpty. rewrite Hf.
  destruct ls, (elems a); done.
Qed.

(** A nonempty list, split at its last cell. *)
Lemma rep_snoc h L ls a :
  rep h L ls a → IsEmpty L = false →
  ∃ ls0 l xs0 x, ls = ls0 ++ [l] ∧ elems a = xs0 ++ [x] ∧
    length ls0 = length xs0 ∧ last L = Some l ∧
    lseg h ls0 xs0 (Some l) ∧ h !! l = Some (mkListElement None x.1 x.2).
Proof.
  intros [Hnd Hs Hf Hl _] He. unfold IsEmpty in He. rewrite Hf in He.
  destruct ls as [|l ls _] using rev_ind; [done|].
  pose proof (lseg_length _ _ _ _ Hs) as Hlen. rewrite length_app in Hlen. simpl in Hlen.
  destruct (elems a) as [|x xs _] using rev_ind; [simpl in Hlen; lia|].
  rewrite length_app in Hlen. simpl in Hlen.
  rewrite lseg_app in Hs by lia. destruct Hs as [Hs1 [Hs2 _]].
  exists ls, l, xs, x. rewrite Hl, last_snoc. repeat split; try done. lia.
Qed.

(** Linking a fresh cell after the last one. *)
Lemma link_last h L ls a e k it :
  rep h L ls a → IsEmpty L = false → h !! e = None →
  ∃ h', set_next (<[e := mkListElement None k it]> h) (last L) (Some e) = Ok h' ∧
    rep h' (mkList (first L) (Some e) (asize a)) (ls ++ [e])
      (mkAList (elems a ++ [(k, it)]) (asize a)) ∧
    frames h ls h' (ls ++ [e]).
Proof.
  intros Hr He Hfr.
  destruct (rep_snoc _ _ _ _ Hr He) as (ls0 & l & xs0 & x & -> & Hx & Hlen & Hla & Hs & Hl).
  pose proof (rep_notin _ _ _ _ _ Hr Hfr) as Hne.
  pose proof (rep_nodup _ _ _ _ Hr) as Hnd.
  assert (e ≠ l) as Hel by set_solver.
  assert (l ∉ ls0) as Hl0 by (apply NoDup_app in Hnd; set_solver).
  exists (<[l := mkListElement (Some e) x.1 x.2]> (<[e := mkListElement None k it]> h)).
  rewrite Hla. split.
  { eapply set_next_Ok. by rewrite lookup_insert_ne. }
  split.
  - split; simpl.
    + apply NoDup_app; split_and!; [done| |apply NoDup_singleton]. set_solver.
    + rewrite Hx, !lseg_app by (rewrite ?length_app; simpl; lia). simpl.
      rewrite lookup_insert_eq, lookup_insert_ne, lookup_insert_eq by done.
      split_and!; try done. do 2 (apply lseg_insert; [set_solver|]). done.
    + rewrite nxt_app. rewrite (rep_first _ _ _ _ Hr). by destruct ls0.
    + by rewrite last_snoc.
    + done.
  - split; intros l'; intros.
    + rewrite !lookup_insert_ne by set_solver. done.
    + assert (l' = e) as -> by set_solver. done.
    + set_solver.
Qed.

(** Linking a fresh cell before the first one. *)
Lemma link_first h L ls a e k it :
  rep h L ls a → IsEmpty L = false → h !! e = None →
  ∃ h', set_next (<[e := mkListElement None k it]> h) (Some e) (first L) = Ok h' ∧
    rep h' (mkList (Some e) (last L) (asize a)) (e :: ls)
      (mkAList ((k, it) :: elems a) (asize a)) ∧
    frames h ls h' (e :: ls).
Proof.
  intros Hr He Hfr. pose proof (rep_notin _ _ _ _ _ Hr Hfr) as Hne.
  exists (<[e := mkListElement (first L) k it]> (<[e := mkListElement None k it]> h)).
  split; [eapply set_next_Ok; by rewrite lookup_insert_eq|].
  rewrite insert_insert_eq. destruct Hr as [Hnd Hs Hf Hl Hz]. split.
  - split; simpl.
    + by constructor.
    + rewrite lookup_insert_eq, Hf. split; [done|]. by apply lseg_insert.
    + done.
    + unfold IsEmpty in He. rewrite Hf in He. rewrite Hl. by destruct ls.
    + done.
  - split; intros l'; intros.
    + rewrite lookup_insert_ne by set_solver. done.
    + assert (l' = e) as -> by set_solver. done.
    + set_solver.
Qed.

(** The first cell of an empty list. *)
Lemma link_only h L ls a e k it :
  rep h L ls a → IsEmpty L = true → h !! e = None →
  rep (<[e := mkListElement None k it]> h) (mkList (Some e) (Some e) (asize a)) [e]
    (mkAList [(k, it)] (asize a)) ∧
  elems a = [] ∧ frames h ls (<[e := mkListElement None k it]> h) [e].
Proof.
  intros Hr He Hfr. pose proof (rep_IsEmpty _ _ _ _ Hr) as Hab.
  rewrite He in Hab. unfold aIsEmpty in Hab.
  destruct Hr as [Hnd Hs Hf Hl Hz]. destruct (elems a) as [|x xs]; [|done].
  destruct ls as [|? ?]; [|done]. split_and!; [split; simpl| done|split; intros l'; intros].
  - apply NoDup_singleton.
  - by rewrite lookup_insert_eq.
  - done.
  - done.
  - done.
  - rewrite lookup_insert_ne by set_solver. done.
  - assert (l' = e) as -> by set_solver. done.
  - set_solver.
Qed.

Lemma SortedInsert_loop_spec fuel h l ls x xs e k it :
  NoDup (l :: ls) → lseg h (l :: ls) (x :: xs) None →
  e ∉ l :: ls → h !! e = Some (mkListElement None k it) → (length ls < fuel)%nat →
  ∃ r, SortedInsert_loop fuel h (Some l) e k = Ok r ∧
  match r with
  | Some h' => ∃ ls', NoDup (l :: ls') ∧
      lseg h' (l :: ls') (x :: insert_sorted k it xs) None ∧
      list.last (l :: ls') = list.last (l :: ls) ∧
      (∀ m, m ∈ ls' ↔ m = e ∨ m ∈ ls) ∧
      (∀ m, m ∉ l :: ls → m ≠ e → h' !! m = h !! m)
  | None => insert_sorted k it xs = xs ++ [(k, it)]
  end.
Proof.
  revert l ls x xs. induction fuel as [|fuel IH]; intros l ls x xs Hnd Hs He Hh Hf; [lia|].
  destruct Hs as [Hl Hs]. cbn [SortedInsert_loop deref]. rewrite Hl. simpl.
  destruct ls as [|l2 ls], xs as [|x2 xs]; try done; simpl; [by eexists|].
  destruct Hs as [Hl2 Hs]. rewrite Hl2. simpl.
  apply NoDup_cons in Hnd as [Hnl Hnd].
  destruct (Z.ltb_spec k x2.1) as [Hk|Hk].
  - rewrite (set_next_Ok _ _ _ _ _ _ Hh). simpl.
    erewrite set_next_Ok by (rewrite lookup_insert_ne by set_solver; exact Hl). simpl.
    eexists. split; [done|]. exists (e :: l2 :: ls).
    split; [|split; [|split; [|split]]].
    + rewrite !NoDup_cons. rewrite NoDup_cons in Hnd. set_solver.
    + simpl. rewrite lookup_insert_eq. split; [done|].
      rewrite lookup_insert_ne, lookup_insert_eq by set_solver. split; [done|].
      rewrite !lookup_insert_ne by set_solver. split; [done|].
      do 2 (apply lseg_insert; [set_solver|]). done.
    + done.
    + intros m. rewrite (elem_of_cons _ m e). tauto.
    + intros m ??. rewrite !lookup_insert_ne by set_solver. done.
  - destruct (IH l2 ls x2 xs) as (r & Hr & Hspec); [done|split; done|set_solver|done|
      simpl in Hf; lia|].
    exists r. split; [done|]. destruct r as [h'|].
    + destruct Hspec as (ls' & Hnd' & [Hl2' Hs'] & Hla & Hin & Hfr).
      exists (l2 :: ls'). split; [|split; [|split; [|split]]].
      * apply NoDup_cons. split; [|done]. rewrite elem_of_cons, Hin. set_solver.
      * simpl. split; [|split; done]. rewrite Hfr by set_solver. done.
      * rewrite !(last_cons_cons l). done.
      * intros m. rewrite !elem_of_cons, Hin. tauto.
      * intros m ??. apply Hfr; set_solver.
    + by rewrite Hspec.
Qed.

Lemma SortedInsert_refine h L ls a it k :
  rep h L ls a → ∃ L' h' ls', SortedInsert L h it k = Ok (L', h') ∧
  rep h' L' ls' (aSortedInsert a it k) ∧ frames h ls h' ls'.
Proof.
  intros Hr. unfold SortedInsert, aSortedInsert.
  destruct (newListElement h it k) as [e h1] eqn:Hnew.
  apply newListElement_fresh in Hnew as [Hfr ->].
  pose proof (rep_size _ _ _ _ Hr) as Hsz.
  destruct (IsEmpty L) eqn:He.
  { destruct (link_only _ _ _ _ e k it Hr He Hfr) as (Hrep & Hx & Hf).
    rewrite Hsz. eexists _, _, _. split; [done|]. rewrite Hx. split; done. }
  pose proof (rep_notin _ _ _ _ _ Hr Hfr) as Hne. pose proof Hr as [Hnd Hs Hfi Hla _].
  destruct ls as [|l ls]; [unfold IsEmpty in He; by rewrite Hfi in He|].
  destruct (elems a) as [|x xs] eqn:Hx; [done|]. destruct Hs as [Hl Hs].
  assert (deref (<[e:=mkListElement None k it]> h) (first L) =
    Ok (mkListElement (nxt ls None) x.1 x.2)) as ->.
  { rewrite Hfi. simpl. rewrite lookup_insert_ne, Hl by set_solver. done. }
  cbn [mbind result_bind key insert_sorted].
  destruct (Z.ltb_spec k x.1) as [Hk|Hk].
  { destruct (link_first _ _ _ _ e k it Hr He Hfr) as (h' & Hset & Hrep & Hf).
    rewrite Hset. simpl. rewrite Hsz. eexists _, _, _. split; [done|].
    rewrite Hx in Hrep. split; done. }
  rewrite Hfi; cbn [nxt]. edestruct (SortedInsert_loop_spec (S (base.size (<[e:=mkListElement None k it]> h)))
    (<[e:=mkListElement None k it]> h) l ls x xs e k it) as (r & -> & Hspec).
  { done. }
  { apply lseg_insert; [done|]. split; done. }
  { done. }
  { by rewrite lookup_insert_eq. }
  { pose proof (lseg_size h (l :: ls) (x :: xs) None Hnd (conj Hl Hs)). simpl in *.
    rewrite map_size_insert_None by done. lia. }
  simpl. destruct r as [h'|].
  - destruct Hspec as (ls' & Hnd' & Hs' & Hla' & Hin & Hframe).
    eexists _, _, (l :: ls'). split; [done|]. split.
    + split; simpl; try done. by rewrite Hla, Hla'.
    + split; intros m; rewrite !elem_of_cons, Hin; intros.
      * rewrite Hframe by set_solver. apply lookup_insert_ne. naive_solver.
      * naive_solver.
      * naive_solver.
  - destruct (link_last _ _ _ _ e k it Hr He Hfr) as (h' & -> & Hrep & Hf).
    simpl. eexists _, _, _. split; [done|]. rewrite Hx, Hfi in Hrep.
    rewrite Hspec, Hsz. split; done.
Qed.

Lemma Append_refine h L ls a it :
  rep h L ls a → ∃ L' h' ls', Append L h it = Ok (L', h') ∧
  rep h' L' ls' (aAppend a it) ∧ frames h ls h' ls'.
Proof.
  intros Hr. unfold Append, aAppend.
  destruct (newListElement h it 0) as [e h1] eqn:Hnew.
  apply newListElement_fresh in Hnew as [Hfr ->].
  assert (rep h (mkList (first L) (last L) (wrap32 (size L + 1))) ls
    (mkAList (elems a) (wrap32 (asize a + 1)))) as Hr'.
  { destruct Hr as [? ? ? ? Hz]. split; simpl; try done. by rewrite Hz. }
  pose proof (rep_size _ _ _ _ Hr') as Hsz. simpl in Hsz. simpl.
  destruct (IsEmpty _) eqn:He.
  - destruct (link_only _ _ _ _ e 0 it Hr' He Hfr) as (Hrep & Hx & Hf).
    simpl in Hx. rewrite Hsz, Hx. eexists _, _, _. split; done.
  - destruct (link_last _ _ _ _ e 0 it Hr' He Hfr) as (h' & Hset & Hrep & Hf).
    simpl in Hset. rewrite Hset. simpl. rewrite Hsz. eexists _, _, _. split; done.
Qed.

Lemma Prepend_refine h L ls a it :
  rep h L ls a → ∃ L' h' ls', Prepend L h it = Ok (L', h') ∧
  rep h' L' ls' (aPrepend a it) ∧ frames h ls h' ls'.
Proof.
  intros Hr. unfold Prepend, aPrepend.
  destruct (newListElement h it 0) as [e h1] eqn:Hnew.
  apply newListElement_fresh in Hnew as [Hfr ->].
  assert (rep h (mkList (first L) (last L) (wrap32 (size L + 1))) ls
    (mkAList (elems a) (wrap32 (asize a + 1)))) as Hr'.
  { destruct Hr as [? ? ? ? Hz]. split; simpl; try done. by rewrite Hz. }
  pose proof (rep_size _ _ _ _ Hr') as Hsz. simpl in Hsz. simpl.
  destruct (IsEmpty _) eqn:He.
  - destruct (link_only _ _ _ _ e 0 it Hr' He Hfr) as (Hrep & Hx & Hf).
    simpl in Hx. rewrite Hsz, Hx. eexists _, _, _. split; done.
  - destruct (link_first _ _ _ _ e 0 it Hr' He Hfr) as (h' & Hset & Hrep & Hf).
    simpl in Hset. rewrite Hset. simpl. rewrite Hsz. eexists _, _, _. split; done.
Qed.

Lemma SortedRemove_refine h L ls a :
  rep h L ls a → ∃ L' h' ls',
  SortedRemove L h = Ok ((aSortedRemove a).1, L', h') ∧
  rep h' L' ls' (aSortedRemove a).2 ∧ frames h ls h' ls'.
Proof.
  intros Hr. unfold SortedRemove, aSortedRemove.
  rewrite (rep_IsEmpty _ _ _ _ Hr). unfold aIsEmpty.
  pose proof Hr as [Hnd Hs Hfi Hla Hz].
  destruct (elems a) as [|x xs] eqn:Hx.
  { eexists _, _, _. split; [done|]. split; [|apply frames_refl]. done. }
  destruct ls as [|l ls]; [done|]. destruct Hs as [Hl Hs].
  apply NoDup_cons in Hnd as [Hni Hnd].
  rewrite Hfi. simpl. rewrite Hl. simpl. eexists _, _, ls. split; [done|]. split.
  - assert (lseg (delete l h) ls xs None) as Hs'.
    { apply lseg_frame with h; [|done]. intros m ?. apply lookup_delete_ne. set_solver. }
    rewrite Hla. destruct ls as [|l2 ls].
    { rewrite bool_decide_true by done. split; simpl; done. }
    rewrite bool_decide_false.
    + split; simpl; done.
    + rewrite last_cons_cons. intros Heq. symmetry in Heq.
      apply last_Some_elem_of in Heq. set_solver.
  - split; intros m; intros.
    + apply lookup_delete_ne. set_solver.
    + set_solver.
    + assert (m = l) as -> by set_solver. apply lookup_delete_eq.
Qed.

Lemma Remove_refine h L ls a :
  rep h L ls a → ∃ L' h' ls',
  Remove L h = Ok ((aRemove a).1, L', h') ∧
  rep h' L' ls' (aRemove a).2 ∧ frames h ls h' ls'.
Proof.
  intros Hr. unfold Remove, aRemove.
  assert (rep h (mkList (first L) (last L) (wrap32 (size L - 1))) ls
    (mkAList (elems a) (wrap32 (asize a - 1)))) as Hr'.
  { destruct Hr as [? ? ? ? Hz]. split; simpl; try done. by rewrite Hz. }
  destruct (SortedRemove_refine _ _ _ _ Hr') as (L' & h' & ls' & -> & Hrep & Hf).
  unfold aSortedRemove in *. simpl in *.
  destruct (elems a) as [|x xs]; eexists _, _, _; split; done.
Qed.

End Refinement.

(** ** Properties *)

Section Properties.
Context {A : Type}.
Implicit Types (h : gmap loc (ListElement A)) (ls : list loc)
  (xs : list (Z * option A)) (a : alist A).

Lemma frames_trans h ls h' ls' h'' ls'' :
  frames h ls h' ls' → frames h' ls' h'' ls'' → frames h ls h'' ls''.
Proof.
  intros [o1 n1 f1] [o2 n2 f2]. split; intros l H1 H2; destruct (decide (l ∈ ls')).
  - rewrite f2, n1 by done. done.
  - rewrite o2, o1 by done. done.
  - by apply n1.
  - rewrite <- o1 by done. by apply n2.
  - by apply f2.
  - rewrite o2 by done. by apply f1.
Qed.

Lemma run_op_refine o h L ls a :
  rep h L ls a → ∃ L' h' ls',
  run_op o L h = Ok ((spec_op o a).1, L', h') ∧
  rep h' L' ls' (spec_op o a).2 ∧ frames h ls h' ls'.
Proof.
  intros Hr. destruct o as [it|it| |it k| |]; simpl.
  - destruct (Append_refine _ _ _ _ it Hr) as (? & ? & ? & -> & ? & ?); simpl; by eauto 8.
  - destruct (Prepend_refine _ _ _ _ it Hr) as (? & ? & ? & -> & ? & ?); simpl; by eauto 8.
  - destruct (Remove_refine _ _ _ _ Hr) as (? & ? & ? & -> & ? & ?); simpl.
    destruct (aRemove a); simpl in *; by eauto 8.
  - destruct (SortedInsert_refine _ _ _ _ it k Hr) as (? & ? & ? & -> & ? & ?);
      simpl; by eauto 8.
  - destruct (SortedRemove_refine _ _ _ _ Hr) as (? & ? & ? & -> & ? & ?); simpl.
    destruct (aSortedRemove a) as [[??]?]; simpl in *; by eauto 8.
  - rewrite (rep_IsEmpty _ _ _ _ Hr). by eauto 8 using frames_refl.
Qed.

Lemma run_ops_refine os h L ls a :
  rep h L ls a → ∃ L' h' ls',
  run_ops os L h = Ok ((spec_ops os a).1, L', h') ∧
  rep h' L' ls' (spec_ops os a).2 ∧ frames h ls h' ls'.
Proof.
  revert h L ls a. induction os as [|o os IH]; intros h L ls a Hr; simpl.
  { by eauto 8 using frames_refl. }
  destruct (run_op_refine o _ _ _ _ Hr) as (L1 & h1 & ls1 & -> & Hr1 & Hf1). simpl.
  destruct (IH _ _ _ _ Hr1) as (L2 & h2 & ls2 & -> & Hr2 & Hf2). simpl.
  destruct (spec_op o a) as [r a1]. simpl in *.
  destruct (spec_ops os a1) as [rs a2]. simpl in *. by eauto 9 using frames_trans.
Qed.

Lemma insert_sorted_split k it xs :
  StronglySorted Z.le xs.*1 →
  insert_sorted k it xs =
  filter (λ x, x.1 <= k) xs ++ (k, it) :: filter (λ x, k < x.1) xs.
Proof.
  induction xs as [|x xs IH]; intros Hs; [done|]. simpl.
  inversion_clear Hs as [|? ? Hs' Hall]. rewrite filter_cons, (filter_cons _ x).
  destruct (Z.ltb_spec k x.1) as [Hk|Hk].
  - rewrite decide_False, decide_True by lia.
    rewrite Forall_fmap in Hall. unfold compose in Hall.
    rewrite (filter_none (λ y, y.1 <= k)); [simpl; do 2 f_equal|].
    + symmetry. apply filter_all. eapply Forall_impl; [done|]. simpl. lia.
    + eapply Forall_impl; [done|]. simpl. lia.
  - rewrite decide_True, decide_False by lia. rewrite IH by done. done.
Qed.

Lemma insert_sorted_sorted k it xs :
  StronglySorted Z.le xs.*1 → StronglySorted Z.le (insert_sorted k it xs).*1.
Proof.
  induction xs as [|x xs IH]; intros Hs; simpl; [repeat constructor|].
  inversion_clear Hs as [|? ? Hs' Hall].
  destruct (Z.ltb_spec k x.1) as [Hk|Hk]; simpl.
  - constructor; [by constructor|]. constructor; [lia|].
    eapply Forall_impl; [done|]. simpl. lia.
  - constructor; [by apply IH|]. rewrite insert_sorted_split by done.
    rewrite fmap_app, fmap_cons, Forall_app, Forall_cons. simpl.
    rewrite !Forall_fmap. rewrite Forall_fmap in Hall. unfold compose in *.
    split; [|split]; [by apply filter_Forall|lia|by apply filter_Forall].
Qed.

Lemma elems_sorted_tail x xs :
  StronglySorted Z.le (x :: xs).*1 → StronglySorted Z.le xs.*1.
Proof. intros H. by inversion_clear H. Qed.

Lemma Mapcar_loop_fold {W} (func : option A → W → result W) fuel h ls xs w :
  lseg h ls xs None → (length ls < fuel)%nat →
  Mapcar_loop fuel func h (nxt ls None) w =
  foldl (λ r x, r ≫= func x.2) (Ok w) xs.
Proof.
  revert ls xs w. induction fuel as [|fuel IH]; intros ls xs w Hs Hf; [lia|].
  destruct ls as [|l ls], xs as [|x xs]; try done.
  destruct Hs as [Hl Hs]. simpl in *. rewrite Hl. simpl.
  assert (Hstuck : ∀ xs (r : result W), is_Ok r = false →
    foldl (λ r x, r ≫= func x.2) r xs = r).
  { clear. induction xs as [|x xs IH]; intros r Hr; [done|]. simpl.
    destruct r; try done; by apply IH. }
  destruct (func x.2 w) as [w'| | | |] eqn:Ef; simpl; [apply IH; [done|lia]|..];
    by rewrite Hstuck.
Qed.

(** [Mapcar] calls [func] once on every item, first to last, and stops at the
    first call that does not return. *)
Lemma Mapcar_spec {W} (func : option A → W → result W) h L ls a w :
  rep h L ls a →
  Mapcar func L h w = foldl (λ r x, r ≫= func x.2) (Ok w) (elems a).
Proof.
  intros [Hnd Hs Hf _ _]. unfold Mapcar. rewrite Hf.
  apply Mapcar_loop_fold; [done|]. pose proof (lseg_size _ _ _ _ Hnd Hs). lia.
Qed.

Lemma deleteList_loop_frees fuel h L ls a :
  rep h L ls a → Forall (λ x, is_Some x.2) (elems a) → (length ls < fuel)%nat →
  ∃ h', deleteList_loop fuel L h = Ok h' ∧ frames h ls h' [].
Proof.
  revert h L ls a. induction fuel as [|fuel IH]; intros h L ls a Hr Hit Hf; [lia|].
  simpl. destruct (Remove_refine _ _ _ _ Hr) as (L' & h' & ls' & -> & Hr' & Hfr).
  simpl. unfold aRemove in *.
  pose proof (lseg_length _ _ _ _ (rep_seg _ _ _ _ Hr)) as Hl.
  pose proof (lseg_length _ _ _ _ (rep_seg _ _ _ _ Hr')) as Hl'.
  destruct (elems a) as [|x xs] eqn:Hx; simpl in *.
  - destruct ls' as [|??]; [|done]. eauto.
  - inversion_clear Hit as [|? ? [y Hy] Hit']. rewrite Hy.
    destruct (IH _ _ _ _ Hr' Hit') as (h'' & -> & Hfr'); [lia|].
    by eauto using frames_trans.
Qed.

Lemma spec_ops_asize os a :
  queue_ops (length (elems a)) os = true → asize a = wrap32 (Z.of_nat (length (elems a))) →
  asize (spec_ops os a).2 = wrap32 (Z.of_nat (length (elems (spec_ops os a).2))).
Proof.
  revert a. induction os as [|o os IH]; intros a Hq Ha; [done|]. simpl in *.
  assert (∃ r a1, spec_op o a = (r, a1) ∧ queue_ops (length (elems a1)) os = true ∧
    asize a1 = wrap32 (Z.of_nat (length (elems a1)))) as (r & a1 & -> & Hq1 & Ha1).
  { destruct o; simpl in *; try done; eauto 6.
    - eexists _, _. split; [done|]. simpl. rewrite length_app. simpl.
      rewrite Nat.add_1_r. split; [done|]. rewrite Ha, wrap32_add_l. f_equal. lia.
    - eexists _, _. split; [done|]. simpl. split; [done|]. rewrite Ha, wrap32_add_l. f_equal. lia.
    - unfold aRemove. destruct (elems a) as [|x xs]; simpl in *; [done|].
      eexists _, _. split; [done|]. simpl. split; [done|]. rewrite Ha, wrap32_sub_l. f_equal. lia. }
  specialize (IH a1 Hq1 Ha1). by destruct (spec_ops os a1).
Qed.

(** C1: whatever calls a client makes on a freshly constructed list, in any
    heap, the pointer code returns (no null or dangling access, no endless
    walk), gives the answers of the abstract list, ends in a chain of cells
    that represents the abstract list, leaves all other cells of the heap as
    they were and frees exactly the cells it unlinked. *)
Theorem ops_refine (os : list (op A)) h :
  ∃ L' h' ls',
    run_ops os newList h = Ok ((spec_ops os aempty).1, L', h') ∧
    rep h' L' ls' (spec_ops os aempty).2 ∧ frames h [] h' ls'.
Proof. apply run_ops_refine, newList_rep. Qed.

(** On a list in key order, [SortedInsert] puts the new item after every
    element whose key is not larger and before every element whose key is
    larger (so items with equal keys leave in the order they came), keeps the
    key order, and does not touch the rest of the heap. *)
Theorem SortedInsert_stable h L ls a it k :
  rep h L ls a → StronglySorted Z.le (elems a).*1 →
  ∃ L' h' ls' a', SortedInsert L h it k = Ok (L', h') ∧ rep h' L' ls' a' ∧
    elems a' = filter (λ x, x.1 <= k) (elems a) ++ (k, it) ::
               filter (λ x, k < x.1) (elems a) ∧
    StronglySorted Z.le (elems a').*1 ∧ frames h ls h' ls'.
Proof.
  intros Hr Hs. destruct (SortedInsert_refine _ _ _ _ it k Hr) as (L' & h' & ls' & ? & ? & ?).
  exists L', h', ls', (aSortedInsert a it k).
  split; [done|]. split; [done|]. split; [by apply insert_sorted_split|].
  split; [by apply insert_sorted_sorted|done].
Qed.

(** Deleting a list none of whose items is NULL terminates and returns all
    of its elements, and only them, to the heap. *)
Theorem deleteList_frees h L ls a :
  rep h L ls a → Forall (λ x, is_Some x.2) (elems a) →
  ∃ h', deleteList L h = Ok h' ∧ frames h ls h' [].
Proof.
  intros Hr Hi. eapply deleteList_loop_frees; [done..|].
  pose proof (lseg_size _ _ _ _ (rep_nodup _ _ _ _ Hr) (rep_seg _ _ _ _ Hr)). lia.
Qed.

(** For a client that uses the list as a queue and never removes from an
    empty one, [getSize] is the number of elements on the list, as an [int]. *)
Theorem getSize_accurate (os : list (op A)) h :
  queue_ops 0 os = true →
  ∃ L' h' ls', run_ops os newList h = Ok ((spec_ops os aempty).1, L', h') ∧
    rep h' L' ls' (spec_ops os aempty).2 ∧ size L' = wrap32 (Z.of_nat (length ls')).
Proof.
  intros Hq. destruct (run_ops_refine os h newList [] aempty (newList_rep h))
    as (L' & h' & ls' & ? & Hr & _).
  exists L', h', ls'. split; [done|]. split; [done|].
  rewrite (rep_size _ _ _ _ Hr), (lseg_length _ _ _ _ (rep_seg _ _ _ _ Hr)).
  by apply spec_ops_asize.
Qed.

(** Outside that discipline the counter drifts: [Remove] on an empty list
    makes it -1, and [SortedInsert] adds an element without counting it. *)
Theorem getSize_drifts (it : option A) (k : Z) h :
  Remove newList h = Ok (None, mkList None None (-1), h) ∧
  ∃ L' h' l, SortedInsert newList h it k = Ok (L', h') ∧
    rep h' L' [l] (mkAList [(k, it)] 0) ∧ size L' = 0.
Proof.
  split; [done|].
  destruct (SortedInsert_refine h newList [] aempty it k (newList_rep h))
    as (L' & h' & ls' & Heq & Hr & _).
  pose proof (lseg_length _ _ _ _ (rep_seg _ _ _ _ Hr)) as Hl.
  destruct ls' as [|l [|??]]; try done. exists L', h', l. split; [done|].
  split; [done|]. by rewrite (rep_size _ _ _ _ Hr).
Qed.

End Properties.

(** ** Witnesses *)

(** Two cells, keys 3 and 7, in a heap with a third cell of someone else. *)
Definition ex_heap : gmap loc (ListElement nat) :=
  list_to_map [(1%positive, mkListElement (Some 2%positive) 3 (Some 30%nat));
               (2%positive, mkListElement None 7 (Some 70%nat));
               (9%positive, mkListElement None 5 None)].
Definition ex_list : List := mkList (Some 1%positive) (Some 2%positive) 2.
Definition ex_alist : alist nat := mkAList [(3, Some 30%nat); (7, Some 70%nat)] 2.

Lemma ex_rep : rep ex_heap ex_list [1%positive; 2%positive] ex_alist.
Proof.
  split; [|simpl; split_and!; reflexivity|reflexivity..].
  apply (bool_decide_unpack _). vm_compute. exact I.
Qed.

Lemma SortedInsert_stable_witness :
  ∃ L' h' ls' a', SortedInsert ex_list ex_heap (Some 33%nat) 3 = Ok (L', h') ∧
    rep h' L' ls' a' ∧
    elems a' = filter (λ x, x.1 <= 3) (elems ex_alist) ++ (3, Some 33%nat) ::
               filter (λ x, 3 < x.1) (elems ex_alist) ∧
    StronglySorted Z.le (elems a').*1 ∧
    frames ex_heap [1%positive; 2%positive] h' ls'.
Proof.
  apply (SortedInsert_stable ex_heap ex_list _ ex_alist (Some 33%nat) 3); [apply ex_rep|].
  simpl. repeat constructor; lia.
Defined.

Lemma deleteList_frees_witness :
  ∃ h', deleteList ex_list ex_heap = Ok h' ∧
    frames ex_heap [1%positive; 2%positive] h' [].
Proof.
  apply (deleteList_frees ex_heap ex_list _ ex_alist); [apply ex_rep|].
  repeat constructor; simpl; eauto.
Defined.

Lemma getSize_accurate_witness :
  ∃ L' h' ls', run_ops [OAppend (Some 1%nat); OPrepend (Some 2%nat); ORemove; OAppend None]
      newList ex_heap =
    Ok ([RVoid; RVoid; RItem (Some 2%nat); RVoid], L', h') ∧
    rep h' L' ls' (mkAList [(0, Some 1%nat); (0, None)] 2) ∧
    size L' = wrap32 (Z.of_nat (length ls')).
Proof.
  apply (getSize_accurate
    [OAppend (Some 1%nat); OPrepend (Some 2%nat); ORemove; OAppend None] ex_heap).
  reflexivity.
Defined.
