(* ===== verification/BitMap.v ===== *)
(** * userprog/bitmap.cc: the bitmap allocator

    The bits live in an array of 32-bit words.  Every routine is translated as
    written: the [ASSERT]s, the shifts and masks, the scanning loops, the
    constructor that clears each bit of uninitialised memory.  The abstract
    bitmap is a vector of booleans; [BitMap_refine] shows that the word
    arithmetic implements it.  The bitmap is used for physical page frames
    (threads/system.cc) and for disk sectors (filesys/filesys.cc). *)

From S2P Require Import Prelude.
Local Open Scope Z_scope.

Definition BitsInByte : Z := 8.
Definition BitsInWord : Z := 32.

(** ** The code *)

Record BitMap := mkBitMap {
  numBits : Z;
  numWords : Z;
  words : list Z }.

(** [1 << (which % BitsInWord)], as the unsigned word it is used as. *)
Definition mask (which : Z) : Z := u32 (Z.shiftl 1 (Z.rem which BitsInWord)).

Definition in_range (bm : BitMap) (which : Z) : bool :=
  (0 <=? which) && (which <? numBits bm).

Definition Mark (bm : BitMap) (which : Z) : result BitMap :=
  ASSERT (in_range bm which);;
  w ← aget (words bm) (Z.quot which BitsInWord);
  ws ← aset (words bm) (Z.quot which BitsInWord) (Z.lor w (mask which));
  Ok (mkBitMap (numBits bm) (numWords bm) ws).

Definition Clear (bm : BitMap) (which : Z) : result BitMap :=
  ASSERT (in_range bm which);;
  w ← aget (words bm) (Z.quot which BitsInWord);
  ws ← aset (words bm) (Z.quot which BitsInWord)
         (Z.land w (u32 (Z.lnot (mask which))));
  Ok (mkBitMap (numBits bm) (numWords bm) ws).

Definition Test (bm : BitMap) (which : Z) : result bool :=
  ASSERT (in_range bm which);;
  w ← aget (words bm) (Z.quot which BitsInWord);
  Ok (if Z.land w (mask which) =? 0 then false else true).

(** [for (int i = 0; i < numBits; i++)]: [n] iterations are left, from [i]. *)
Fixpoint clear_loop (n : nat) (i : Z) (bm : BitMap) : result BitMap :=
  match n with
  | O => Ok bm
  | S n => bm ← Clear bm i; clear_loop n (i + 1) bm
  end.

(** The constructor; [junk] is what the uninitialised array holds. *)
Definition newBitMap (junk : nat → Z) (nitems : Z) : result BitMap :=
  let nw := divRoundUp nitems BitsInWord in
  clear_loop (Z.to_nat nitems) 0
    (mkBitMap nitems nw ((λ i, u32 (junk i)) <$> seq 0 (Z.to_nat nw))).

Fixpoint Find_loop (n : nat) (i : Z) (bm : BitMap) : result (Z * BitMap) :=
  match n with
  | O => Ok (-1, bm)
  | S n =>
      t ← Test bm i;
      if negb t then bm ← Mark bm i; Ok (i, bm)
      else Find_loop n (i + 1) bm
  end.

Definition Find (bm : BitMap) : result (Z * BitMap) :=
  Find_loop (Z.to_nat (numBits bm)) 0 bm.

Fixpoint NumClear_loop (n : nat) (i : Z) (count : Z) (bm : BitMap) : result Z :=
  match n with
  | O => Ok count
  | S n =>
      t ← Test bm i;
      NumClear_loop n (i + 1) (if negb t then count + 1 else count) bm
  end.

Definition NumClear (bm : BitMap) : result Z :=
  NumClear_loop (Z.to_nat (numBits bm)) 0 0 bm.

(** What [Print] writes: a 1 or a 0 per bit. *)
Fixpoint Print_loop (n : nat) (i : Z) (bm : BitMap) : result (list Z) :=
  match n with
  | O => Ok []
  | S n =>
      t ← Test bm i;
      rest ← Print_loop n (i + 1) bm;
      Ok ((if t : bool then 1 else 0) :: rest)
  end.

Definition Print (bm : BitMap) : result (list Z) :=
  Print_loop (Z.to_nat (numBits bm)) 0 bm.

(** [(char * )map] as [numWords * sizeof(unsigned)] bytes, the buffer that
    [WriteBack] hands to [OpenFile::WriteAt] and [FetchFrom] to [ReadAt]. *)
Definition to_bytes (bm : BitMap) : list Z := words bm ≫= le_bytes 4.

Fixpoint words_of_bytes (n : nat) (bs : list Z) : list Z :=
  match n with
  | O => []
  | S n => le_val (take 4 bs) :: words_of_bytes n (drop 4 bs)
  end.

(** The bitmap after [bs] was read over the start of the word array. *)
Definition overwrite (bm : BitMap) (bs : list Z) : result BitMap :=
  img ← asplice (to_bytes bm) 0 bs;
  Ok (mkBitMap (numBits bm) (numWords bm) (words_of_bytes (length (words bm)) img)).

(** ** The abstract bitmap *)

Definition bit (bm : BitMap) (i : Z) : bool :=
  match words bm !! Z.to_nat (i / BitsInWord) with
  | Some w => Z.testbit w (i mod BitsInWord)
  | None => false
  end.

Definition view (bm : BitMap) : list bool :=
  (λ i, bit bm (Z.of_nat i)) <$> seq 0 (Z.to_nat (numBits bm)).

Record wf (bm : BitMap) : Prop := {
  wf_nonneg : 0 <= numBits bm;
  wf_numWords : numWords bm = divRoundUp (numBits bm) BitsInWord;
  wf_length : Z.of_nat (length (words bm)) = numWords bm;
  wf_words : Forall uint32 (words bm) }.

Fixpoint first_clear (l : list bool) : option nat :=
  match l with
  | [] => None
  | false :: _ => Some 0%nat
  | true :: l => S <$> first_clear l
  end.

Fixpoint count_clear (l : list bool) : Z :=
  match l with
  | [] => 0
  | b :: l => (if b then 0 else 1) + count_clear l
  end.

Inductive bop := BMark (i : Z) | BClear (i : Z) | BTest (i : Z) | BFind | BNumClear.
Inductive bret := BVoid | BBool (b : bool) | BInt (z : Z).

Definition run_bop (o : bop) (bm : BitMap) : result (bret * BitMap) :=
  match o with
  | BMark i => bm ← Mark bm i; Ok (BVoid, bm)
  | BClear i => bm ← Clear bm i; Ok (BVoid, bm)
  | BTest i => b ← Test bm i; Ok (BBool b, bm)
  | BFind => '(z, bm) ← Find bm; Ok (BInt z, bm)
  | BNumClear => z ← NumClear bm; Ok (BInt z, bm)
  end.

(** A vector access outside the vector fails the [ASSERT]. *)
Definition spec_at {B} (l : list bool) (i : Z) (k : nat → bool → B) : result B :=
  if i <? 0 then AssertFail
  else match l !! Z.to_nat i with
       | Some b => Ok (k (Z.to_nat i) b)
       | None => AssertFail
       end.

Definition spec_bop (o : bop) (l : list bool) : result (bret * list bool) :=
  match o with
  | BMark i => spec_at l i (λ n _, (BVoid, <[n := true]> l))
  | BClear i => spec_at l i (λ n _, (BVoid, <[n := false]> l))
  | BTest i => spec_at l i (λ _ b, (BBool b, l))
  | BFind =>
      match first_clear l with
      | Some n => Ok (BInt (Z.of_nat n), <[n := true]> l)
      | None => Ok (BInt (-1), l)
      end
  | BNumClear => Ok (BInt (count_clear l), l)
  end.

Fixpoint run_bops (os : list bop) (bm : BitMap) : result (list bret * BitMap) :=
  match os with
  | [] => Ok ([], bm)
  | o :: os =>
      '(r, bm) ← run_bop o bm; '(rs, bm) ← run_bops os bm; Ok (r :: rs, bm)
  end.

Fixpoint spec_bops (os : list bop) (l : list bool) : result (list bret * list bool) :=
  match os with
  | [] => Ok ([], l)
  | o :: os =>
      '(r, l) ← spec_bop o l; '(rs, l) ← spec_bops os l; Ok (r :: rs, l)
  end.

(** ** Lemmas *)

Lemma mask_pow2 i : 0 <= i → mask i = 2 ^ (i mod 32).
Proof.
  intros. unfold mask, BitsInWord. rewrite Z.rem_mod_nonneg by lia.
  pose proof (Z.mod_pos_bound i 32). rewrite Z.shiftl_1_l. apply u32_id.
  split; [lia|]. apply Z.pow_lt_mono_r; lia.
Qed.

Lemma in_range_iff bm i : in_range bm i = true ↔ 0 <= i < numBits bm.
Proof. unfold in_range. rewrite andb_true_iff, Z.leb_le, Z.ltb_lt. done. Qed.

Lemma wf_index bm i :
  wf bm → 0 <= i < numBits bm → 0 <= i / 32 < Z.of_nat (length (words bm)).
Proof.
  intros [Hn Hw Hl _] Hi. rewrite Hl, Hw.
  pose proof (divRoundUp_bounds (numBits bm) 32 Hn ltac:(lia)).
  pose proof (Z.div_mod i 32). pose proof (Z.mod_pos_bound i 32).
  unfold BitsInWord. split; [apply Z.div_pos; lia|]. apply Z.div_lt_upper_bound; lia.
Qed.

(** Reading the word that holds bit [i]. *)
Lemma word_at bm i :
  wf bm → 0 <= i < numBits bm →
  ∃ w, aget (words bm) (Z.quot i BitsInWord) = Ok w ∧ uint32 w ∧
    words bm !! Z.to_nat (i / 32) = Some w ∧ bit bm i = Z.testbit w (i mod 32).
Proof.
  intros Hwf Hi. pose proof (wf_index _ _ Hwf Hi) as Hx.
  unfold BitsInWord. rewrite Z.quot_div_nonneg by lia.
  destruct (aget_in (words bm) (i / 32) Hx) as [w Hw]. exists w.
  pose proof Hw as [_ Hlk]%aget_Ok. split; [done|]. split.
  - by eapply aget_Forall; [apply (wf_words _ Hwf)|].
  - split; [done|]. unfold bit, BitsInWord. by rewrite Hlk.
Qed.

Lemma length_view bm : length (view bm) = Z.to_nat (numBits bm).
Proof. unfold view. by rewrite length_fmap, length_seq. Qed.

Lemma view_lookup bm i :
  0 <= i < numBits bm → view bm !! Z.to_nat i = Some (bit bm i).
Proof.
  intros. unfold view. rewrite list_lookup_fmap, lookup_seq_lt by lia.
  simpl. do 2 f_equal. lia.
Qed.

Lemma view_lookup_nat bm n :
  (n < Z.to_nat (numBits bm))%nat → view bm !! n = Some (bit bm (Z.of_nat n)).
Proof. intros. rewrite <- view_lookup by lia. by rewrite Nat2Z.id. Qed.

(** Replacing one word changes the bits of that word only. *)
Lemma bit_set_word bm bm' i w' j :
  words bm' = <[Z.to_nat (i / 32) := w']> (words bm) →
  0 <= i / 32 < Z.of_nat (length (words bm)) → 0 <= j →
  bit bm' j = if i / 32 =? j / 32 then Z.testbit w' (j mod 32) else bit bm j.
Proof.
  intros Hws Hi Hj. unfold bit, BitsInWord. rewrite Hws.
  pose proof (Z.div_pos j 32 Hj ltac:(lia)).
  destruct (Z.eqb_spec (i / 32) (j / 32)) as [Heq|Hne].
  - rewrite <- Heq, list_lookup_insert_eq by lia. done.
  - rewrite list_lookup_insert_ne by lia. done.
Qed.

Lemma view_ext bm bm' i b :
  numBits bm' = numBits bm → 0 <= i →
  (∀ j, 0 <= j < numBits bm → bit bm' j = if j =? i then b else bit bm j) →
  view bm' = <[Z.to_nat i := b]> (view bm).
Proof.
  intros Hn Hi Hb. apply list_eq. intros n.
  destruct (decide (n < Z.to_nat (numBits bm))%nat) as [Hlt|Hge].
  - rewrite view_lookup_nat by lia. rewrite Hb by lia.
    destruct (Z.eqb_spec (Z.of_nat n) i) as [Heq|Hne].
    + subst i. rewrite Nat2Z.id, list_lookup_insert_eq; [done|].
      rewrite length_view. lia.
    + rewrite list_lookup_insert_ne by lia. by rewrite view_lookup_nat.
  - rewrite !lookup_ge_None_2; [done| |]; rewrite ?length_insert, length_view; lia.
Qed.

Lemma same_bit i j : i / 32 = j / 32 → i mod 32 = j mod 32 → i = j.
Proof. intros. rewrite (Z.div_mod i 32), (Z.div_mod j 32) by lia. lia. Qed.

(** The common part of [Mark] and [Clear]: storing a word whose bits differ
    from the old one at [i mod 32] only. *)
Lemma set_bit_spec bm i w w' b :
  wf bm → 0 <= i < numBits bm → words bm !! Z.to_nat (i / 32) = Some w → uint32 w' →
  (∀ n, 0 <= n < 32 → Z.testbit w' n = if n =? i mod 32 then b else Z.testbit w n) →
  ∃ bm', (ws ← aset (words bm) (Z.quot i BitsInWord) w';
          Ok (mkBitMap (numBits bm) (numWords bm) ws)) = Ok bm' ∧
    wf bm' ∧ numBits bm' = numBits bm ∧ view bm' = <[Z.to_nat i := b]> (view bm).
Proof.
  intros Hwf Hi Hw Hu Hb. pose proof (wf_index _ _ Hwf Hi) as Hx.
  unfold BitsInWord. rewrite Z.quot_div_nonneg by lia. rewrite aset_Ok by done. simpl.
  eexists. split; [done|]. split; [|split; [done|]].
  - destruct Hwf as [? ? ? ?]. split; simpl; try done.
    + by rewrite length_insert.
    + by apply Forall_insert.
  - apply view_ext; [done|lia|]. intros j Hj.
    rewrite (bit_set_word bm _ i w' j) by (simpl; done || lia).
    destruct (Z.eqb_spec (i / 32) (j / 32)) as [Heq|Hne].
    + rewrite Hb by (apply Z.mod_pos_bound; lia).
      destruct (Z.eqb_spec (j mod 32) (i mod 32)) as [Hm|Hm].
      * rewrite (same_bit j i) by done. by rewrite Z.eqb_refl.
      * destruct (Z.eqb_spec j i) as [->|]; [done|].
        unfold bit, BitsInWord. by rewrite <- Heq, Hw.
    + destruct (Z.eqb_spec j i) as [->|]; done.
Qed.

Lemma Mark_spec bm i :
  wf bm → 0 <= i < numBits bm →
  ∃ bm', Mark bm i = Ok bm' ∧ wf bm' ∧ numBits bm' = numBits bm ∧
    view bm' = <[Z.to_nat i := true]> (view bm).
Proof.
  intros Hwf Hi. unfold Mark. rewrite (proj2 (in_range_iff bm i)) by done. simpl.
  destruct (word_at _ _ Hwf Hi) as (w & -> & Hu & Hlk & _). simpl.
  eapply (set_bit_spec bm i w); try done.
  - apply uint32_lor; [done|]. apply u32_uint32.
  - intros n Hn. rewrite Z.lor_spec, mask_pow2, Z.pow2_bits_eqb by
      (try apply Z.mod_pos_bound; lia).
    rewrite Z.eqb_sym. destruct (n =? i mod 32); by rewrite ?orb_true_r, ?orb_false_r.
Qed.

Lemma Clear_spec bm i :
  wf bm → 0 <= i < numBits bm →
  ∃ bm', Clear bm i = Ok bm' ∧ wf bm' ∧ numBits bm' = numBits bm ∧
    view bm' = <[Z.to_nat i := false]> (view bm).
Proof.
  intros Hwf Hi. unfold Clear. rewrite (proj2 (in_range_iff bm i)) by done. simpl.
  destruct (word_at _ _ Hwf Hi) as (w & -> & Hu & Hlk & _). simpl.
  eapply (set_bit_spec bm i w); try done.
  - apply uint32_land; [done|]. apply u32_uint32.
  - intros n Hn. rewrite Z.land_spec, u32_testbit, Z.lnot_spec, mask_pow2,
      Z.pow2_bits_eqb by (try apply Z.mod_pos_bound; lia).
    rewrite Z.eqb_sym. destruct (n =? i mod 32); simpl;
      by rewrite ?andb_true_r, ?andb_false_r.
Qed.

Lemma Test_spec bm i : wf bm → 0 <= i < numBits bm → Test bm i = Ok (bit bm i).
Proof.
  intros Hwf Hi. unfold Test. rewrite (proj2 (in_range_iff bm i)) by done. simpl.
  destruct (word_at _ _ Hwf Hi) as (w & -> & Hu & Hlk & ->). simpl.
  rewrite mask_pow2 by lia. pose proof (Z.mod_pos_bound i 32).
  rewrite land_pow2 by lia. destruct (Z.testbit w (i mod 32)); [|done].
  destruct (Z.eqb_spec (2 ^ (i mod 32)) 0); [|done].
  pose proof (Z.pow_pos_nonneg 2 (i mod 32)). lia.
Qed.

Lemma Test_out bm i : in_range bm i = false → Test bm i = AssertFail.
Proof. intros H. unfold Test. by rewrite H. Qed.

Lemma NumClear_loop_spec n i c bm :
  wf bm → 0 <= i → i + Z.of_nat n = numBits bm →
  NumClear_loop n i c bm = Ok (c + count_clear (drop (Z.to_nat i) (view bm))).
Proof.
  revert i c. induction n as [|n IH]; intros i c Hwf Hi Hn; simpl.
  - rewrite drop_ge by (rewrite length_view; lia). simpl. f_equal. lia.
  - rewrite Test_spec by (done || lia). simpl.
    rewrite (drop_S (view bm) (bit bm i)) by (apply view_lookup; lia).
    rewrite IH by (done || lia). replace (Z.to_nat (i + 1)) with (S (Z.to_nat i)) by lia.
    simpl. destruct (bit bm i); simpl; f_equal; lia.
Qed.

Lemma NumClear_spec bm : wf bm → NumClear bm = Ok (count_clear (view bm)).
Proof.
  intros Hwf. unfold NumClear. pose proof (wf_nonneg _ Hwf).
  rewrite NumClear_loop_spec by (done || lia). done.
Qed.

Lemma Find_loop_spec n i bm :
  wf bm → 0 <= i → i + Z.of_nat n = numBits bm →
  match first_clear (drop (Z.to_nat i) (view bm)) with
  | Some k => ∃ bm', Find_loop n i bm = Ok (i + Z.of_nat k, bm') ∧ wf bm' ∧
      numBits bm' = numBits bm ∧
      view bm' = <[(Z.to_nat i + k)%nat := true]> (view bm)
  | None => Find_loop n i bm = Ok (-1, bm)
  end.
Proof.
  revert i. induction n as [|n IH]; intros i Hwf Hi Hn; simpl.
  - by rewrite drop_ge by (rewrite length_view; lia).
  - rewrite Test_spec by (done || lia).
    rewrite (drop_S (view bm) (bit bm i)) by (apply view_lookup; lia).
    simpl. destruct (bit bm i); simpl.
    + specialize (IH (i + 1) Hwf ltac:(lia) ltac:(lia)).
      replace (Z.to_nat (i + 1)) with (S (Z.to_nat i)) in IH by lia.
      destruct (first_clear (drop (S (Z.to_nat i)) (view bm))) as [k|]; simpl; [|done].
      destruct IH as (bm' & -> & ? & ? & Hv). exists bm'.
      split; [do 2 f_equal; lia|]. split; [done|]. split; [done|].
      rewrite Hv. f_equal. lia.
    + destruct (Mark_spec bm i) as (bm' & -> & ? & ? & Hv); [done|lia|]. simpl.
      exists bm'. split; [do 2 f_equal; lia|]. split; [done|]. split; [done|].
      rewrite Hv. f_equal. lia.
Qed.

Lemma Find_spec bm :
  wf bm →
  match first_clear (view bm) with
  | Some k => ∃ bm', Find bm = Ok (Z.of_nat k, bm') ∧ wf bm' ∧
      numBits bm' = numBits bm ∧ view bm' = <[k := true]> (view bm)
  | None => Find bm = Ok (-1, bm)
  end.
Proof.
  intros Hwf. unfold Find. pose proof (wf_nonneg _ Hwf).
  exact (Find_loop_spec (Z.to_nat (numBits bm)) 0 bm Hwf ltac:(lia) ltac:(lia)).
Qed.

Lemma clear_loop_spec n i bm :
  wf bm → 0 <= i → i + Z.of_nat n = numBits bm →
  ∃ bm', clear_loop n i bm = Ok bm' ∧ wf bm' ∧ numBits bm' = numBits bm ∧
    view bm' = take (Z.to_nat i) (view bm) ++ replicate n false.
Proof.
  revert i bm. induction n as [|n IH]; intros i bm Hwf Hi Hn; simpl.
  - exists bm. rewrite app_nil_r, take_ge by (rewrite length_view; lia). auto.
  - destruct (Clear_spec bm i) as (bm1 & -> & Hwf1 & Hn1 & Hv1); [done|lia|]. simpl.
    destruct (IH (i + 1) bm1) as (bm2 & -> & ? & Hn2 & Hv2); [done|lia|lia|].
    exists bm2. split; [done|]. split; [done|]. split; [lia|]. rewrite Hv2, Hv1.
    replace (Z.to_nat (i + 1)) with (S (Z.to_nat i)) by lia.
    erewrite take_S_r by (apply list_lookup_insert_eq; rewrite length_view; lia).
    rewrite take_insert_ge by lia. by rewrite <- app_assoc.
Qed.

Lemma newBitMap_spec junk n :
  0 <= n → ∃ bm, newBitMap junk n = Ok bm ∧ wf bm ∧ numBits bm = n ∧
    view bm = replicate (Z.to_nat n) false.
Proof.
  intros Hn. unfold newBitMap.
  match goal with |- context [clear_loop _ 0 ?b] => set (bm := b) end.
  assert (wf bm) as Hwf.
  { split; simpl; [done|done| |].
    - rewrite length_fmap, length_seq. pose proof (divRoundUp_bounds n 32).
      unfold BitsInWord. lia.
    - rewrite Forall_fmap. apply Forall_true. intros ?. apply u32_uint32. }
  destruct (clear_loop_spec (Z.to_nat n) 0 bm) as (bm' & -> & ? & ? & Hv);
    [done|lia|simpl; lia|]. exists bm'. by rewrite Hv.
Qed.

Lemma first_clear_None l : first_clear l = None ↔ count_clear l = 0.
Proof.
  assert (∀ l, 0 <= count_clear l) as Hpos.
  { intros l'. induction l' as [|[] l' IH]; simpl; lia. }
  induction l as [|[] l IH]; simpl; [done| |].
  - rewrite fmap_None, IH. lia.
  - specialize (Hpos l). split; [done|lia].
Qed.

Lemma first_clear_Some l k :
  first_clear l = Some k → l !! k = Some false ∧ ∀ j, (j < k)%nat → l !! j = Some true.
Proof.
  revert k. induction l as [|[] l IH]; intros k; simpl; [done| |].
  - intros (k' & Hk & ->)%fmap_Some. destruct (IH _ Hk) as [? Hb]. split; [done|].
    intros [|j] ?; simpl; [done|]. apply Hb. lia.
  - intros [= <-]. split; [done|]. lia.
Qed.

Lemma count_clear_insert (l : list bool) k (b b' : bool) :
  l !! k = Some b →
  count_clear (<[k := b']> l) =
  count_clear l - (if b then 0 else 1) + (if b' then 0 else 1).
Proof.
  revert k. induction l as [|x l IH]; intros [|k] Hk; simpl in *; try done.
  - injection Hk as ->. lia.
  - rewrite (IH k) by done. lia.
Qed.

Lemma count_clear_bound l : 0 <= count_clear l <= Z.of_nat (length l).
Proof. induction l as [|[] l IH]; simpl; lia. Qed.

Lemma spec_at_out {B} bm i (k : nat → bool → B) :
  in_range bm i = false → spec_at (view bm) i k = AssertFail.
Proof.
  intros Hr. unfold spec_at. destruct (Z.ltb_spec i 0); [done|].
  rewrite lookup_ge_None_2; [done|]. rewrite length_view.
  destruct (decide (i < numBits bm)); [|lia].
  rewrite (proj2 (in_range_iff bm i)) in Hr by lia. done.
Qed.

Lemma spec_at_in {B} bm i (k : nat → bool → B) :
  0 <= i < numBits bm → spec_at (view bm) i k = Ok (k (Z.to_nat i) (bit bm i)).
Proof.
  intros Hi. unfold spec_at. destruct (Z.ltb_spec i 0); [lia|].
  by rewrite view_lookup.
Qed.

Lemma run_bop_refine o bm :
  wf bm →
  (prod_map id view <$> run_bop o bm) = spec_bop o (view bm) ∧
  ∀ r bm', run_bop o bm = Ok (r, bm') → wf bm'.
Proof.
  intros Hwf. destruct o as [i|i|i| |]; simpl.
  - destruct (in_range bm i) eqn:Hr.
    + apply in_range_iff in Hr.
      destruct (Mark_spec bm i Hwf Hr) as (bm1 & -> & ? & ? & Hv). simpl.
      rewrite spec_at_in by done. rewrite Hv. split; [done|naive_solver].
    + rewrite spec_at_out by done. unfold Mark. by rewrite Hr.
  - destruct (in_range bm i) eqn:Hr.
    + apply in_range_iff in Hr.
      destruct (Clear_spec bm i Hwf Hr) as (bm1 & -> & ? & ? & Hv). simpl.
      rewrite spec_at_in by done. rewrite Hv. split; [done|naive_solver].
    + rewrite spec_at_out by done. unfold Clear. by rewrite Hr.
  - destruct (in_range bm i) eqn:Hr.
    + apply in_range_iff in Hr. rewrite Test_spec by done. simpl.
      rewrite spec_at_in by done. split; [done|naive_solver].
    + rewrite spec_at_out by done. unfold Test. by rewrite Hr.
  - pose proof (Find_spec bm Hwf) as H. destruct (first_clear (view bm)) as [k|].
    + destruct H as (bm1 & -> & ? & ? & Hv). simpl. rewrite Hv. naive_solver.
    + rewrite H. simpl. naive_solver.
  - rewrite NumClear_spec by done. simpl. split; [done|naive_solver].
Qed.

Lemma run_bops_refine os bm :
  wf bm → (prod_map id view <$> run_bops os bm) = spec_bops os (view bm).
Proof.
  revert bm. induction os as [|o os IH]; intros bm Hwf; simpl; [done|].
  destruct (run_bop_refine o bm Hwf) as [<- Hwf'].
  destruct (run_bop o bm) as [[r bm1]| | | |] eqn:E; simpl; try done.
  rewrite <- IH by eauto. by destruct (run_bops os bm1) as [[rs bm2]| | | |].
Qed.

Lemma words_of_bytes_spec ws :
  Forall uint32 ws → words_of_bytes (length ws) (ws ≫= le_bytes 4) = ws.
Proof.
  induction 1 as [|w ws Hw Hws IH]; [done|]. cbn [length words_of_bytes].
  change ((w :: ws) ≫= le_bytes 4) with (le_bytes 4 w ++ (ws ≫= le_bytes 4)).
  rewrite take_app_length' by done. rewrite drop_app_length' by done.
  rewrite IH, le_val_bytes. f_equal. apply u32_id, Hw.
Qed.

Lemma length_to_bytes bm : length (to_bytes bm) = (4 * length (words bm))%nat.
Proof.
  unfold to_bytes. induction (words bm) as [|w ws IH]; [done|].
  change ((w :: ws) ≫= le_bytes 4) with (le_bytes 4 w ++ (ws ≫= le_bytes 4)).
  rewrite length_app, IH, length_le_bytes. simpl. lia.
Qed.

Lemma to_bytes_byte bm : Forall byte (to_bytes bm).
Proof.
  unfold to_bytes. induction (words bm) as [|w ws IH]; [constructor|].
  apply Forall_app. split; [apply le_bytes_byte|done].
Qed.

Lemma overwrite_spec bm bm0 :
  wf bm → wf bm0 → numBits bm = numBits bm0 → overwrite bm (to_bytes bm0) = Ok bm0.
Proof.
  intros Hwf Hwf0 Hn. unfold overwrite.
  assert (length (words bm) = length (words bm0)) as Hlen.
  { pose proof (wf_length _ Hwf). pose proof (wf_length _ Hwf0).
    pose proof (wf_numWords _ Hwf). pose proof (wf_numWords _ Hwf0).
    rewrite Hn in *. lia. }
  rewrite asplice_Ok by (rewrite ?length_to_bytes; lia). simpl.
  rewrite drop_ge by (rewrite !length_to_bytes; lia). rewrite app_nil_r, Hlen.
  unfold to_bytes. rewrite words_of_bytes_spec by apply wf_words, Hwf0.
  rewrite Hn. pose proof (wf_numWords _ Hwf) as H1. rewrite Hn in H1.
  rewrite H1, <- (wf_numWords _ Hwf0). by destruct bm0.
Qed.

(** ** Properties *)

(** C6: a bitmap built over uninitialised memory and driven by any sequence of
    calls behaves exactly as a vector of booleans, all clear at first: the same
    answers, [ASSERT] failures for the same (out of range) calls, and no access
    outside the word array. *)
Theorem BitMap_refine junk n os :
  0 <= n → ∃ bm, newBitMap junk n = Ok bm ∧
    (prod_map id view <$> run_bops os bm) =
    spec_bops os (replicate (Z.to_nat n) false).
Proof.
  intros Hn. destruct (newBitMap_spec junk n Hn) as (bm & ? & ? & ? & <-).
  exists bm. split; [done|]. by apply run_bops_refine.
Qed.

(** [Find] returns -1 and changes nothing exactly when no bit is clear;
    otherwise it returns the lowest clear bit, which it sets, leaving all others
    alone, so that one bit fewer is clear. *)
Theorem Find_allocates bm :
  wf bm → ∃ i bm' c, Find bm = Ok (i, bm') ∧ wf bm' ∧ NumClear bm = Ok c ∧
    (c = 0 → i = -1 ∧ bm' = bm) ∧
    (c ≠ 0 → 0 <= i < numBits bm ∧ Test bm i = Ok false ∧ Test bm' i = Ok true ∧
       (∀ j, 0 <= j < i → Test bm j = Ok true) ∧
       (∀ j, j ≠ i → Test bm' j = Test bm j) ∧ NumClear bm' = Ok (c - 1)).
Proof.
  intros Hwf. pose proof (Find_spec bm Hwf) as Hf. rewrite NumClear_spec by done.
  destruct (first_clear (view bm)) as [k|] eqn:Hk.
  - destruct Hf as (bm' & -> & Hwf' & Hn & Hv).
    destruct (first_clear_Some _ _ Hk) as [Hb Hlow].
    assert (k < Z.to_nat (numBits bm))%nat as Hlt
      by (rewrite <- length_view; by eapply lookup_lt_Some).
    pose proof (view_lookup bm) as Hbit.
    exists (Z.of_nat k), bm', (count_clear (view bm)).
    split; [done|]. split; [done|]. split; [done|]. split.
    { intros Hc. apply first_clear_None in Hc. congruence. }
    intros Hc. split; [lia|]. split; [|split; [|split; [|split]]].
    + rewrite Test_spec by (done || lia). f_equal.
      specialize (Hbit (Z.of_nat k) ltac:(lia)). rewrite Nat2Z.id in Hbit. congruence.
    + rewrite Test_spec by (done || lia). f_equal.
      pose proof (view_lookup bm' (Z.of_nat k) ltac:(lia)) as H.
      rewrite Nat2Z.id, Hv, list_lookup_insert_eq in H by (rewrite length_view; lia). congruence.
    + intros j Hj. rewrite Test_spec by (done || lia). f_equal.
      specialize (Hbit j ltac:(lia)). rewrite Hlow in Hbit by lia. congruence.
    + intros j Hj. destruct (in_range bm j) eqn:Hr.
      * apply in_range_iff in Hr. rewrite !Test_spec by (done || lia). f_equal.
        pose proof (view_lookup bm' j ltac:(lia)) as H.
        rewrite Hv, list_lookup_insert_ne, Hbit in H by lia. congruence.
      * rewrite !Test_out; [done|done|]. unfold in_range in *. by rewrite Hn.
    + rewrite NumClear_spec, Hv by done. f_equal.
      rewrite (count_clear_insert _ _ false) by done. lia.
  - rewrite Hf. exists (-1), bm, (count_clear (view bm)).
    apply first_clear_None in Hk. do 4 (split; [done|]). congruence.
Qed.

(** Writing the bitmap out and reading it back over any bitmap of the same
    number of bits restores every word. *)
Theorem bitmap_bytes_roundtrip bm bm0 :
  wf bm → wf bm0 → numBits bm = numBits bm0 → overwrite bm (to_bytes bm0) = Ok bm0.
Proof. apply overwrite_spec. Qed.

(** ** Witnesses *)

Definition ex_bitmap : BitMap := mkBitMap 40 2 [4294967295; 5].

Lemma ex_bitmap_wf : wf ex_bitmap.
Proof. split; simpl; try done. repeat constructor; done. Qed.

Lemma BitMap_refine_witness :
  ∃ bm, newBitMap (λ i, 12345 + Z.of_nat i) 40 = Ok bm ∧
    (prod_map id view <$> run_bops [BFind; BMark 33; BFind; BClear 0; BFind; BNumClear; BTest 40] bm) =
    spec_bops [BFind; BMark 33; BFind; BClear 0; BFind; BNumClear; BTest 40]
      (replicate 40 false).
Proof.
  apply (BitMap_refine (λ i, 12345 + Z.of_nat i) 40
    [BFind; BMark 33; BFind; BClear 0; BFind; BNumClear; BTest 40]). lia.
Defined.

Lemma Find_allocates_witness :
  ∃ i bm' c, Find ex_bitmap = Ok (i, bm') ∧ wf bm' ∧ NumClear ex_bitmap = Ok c ∧
    (c = 0 → i = -1 ∧ bm' = ex_bitmap) ∧
    (c ≠ 0 → 0 <= i < numBits ex_bitmap ∧ Test ex_bitmap i = Ok false ∧
       Test bm' i = Ok true ∧ (∀ j, 0 <= j < i → Test ex_bitmap j = Ok true) ∧
       (∀ j, j ≠ i → Test bm' j = Test ex_bitmap j) ∧ NumClear bm' = Ok (c - 1)).
Proof. apply (Find_allocates ex_bitmap). apply ex_bitmap_wf. Defined.

Lemma bitmap_bytes_roundtrip_witness :
  overwrite (mkBitMap 40 2 [0; 7]) (to_bytes ex_bitmap) = Ok ex_bitmap.
Proof.
  apply (bitmap_bytes_roundtrip (mkBitMap 40 2 [0; 7]) ex_bitmap);
    [|apply ex_bitmap_wf|reflexivity].
  split; simpl; try done. repeat constructor; done.
Defined.
