(* ===== verification/Machine.v ===== *)
(** * machine/machine.cc and machine/translate.cc: the simulated hardware

    Registers, physical memory and address translation.  Page tables are
    shared between the machine and the address spaces that own them, so the
    machine holds a pointer into a store of page tables.  [RaiseException] is
    modelled up to the call of the kernel's [ExceptionHandler]: an operation
    that traps returns the exception, with the registers as the handler finds
    them.  The host's byte order is a parameter, as it is in the code
    ([HOST_IS_BIG_ENDIAN]). *)

From S2P Require Import Prelude Params.
Local Open Scope Z_scope.

(** ** Data *)

Record TranslationEntry := mkTE {
  virtualPage : Z;
  physicalPage : Z;
  valid : bool;
  readOnly : bool;
  use : bool;
  dirty : bool }.

Record Machine := mkMachine {
  mainMemory : list Z;
  registers : list Z;
  tlb : option (list TranslationEntry);
  pageTable : option Z;
  pageTableSize : Z;
  tables : gmap Z (list TranslationEntry) }.

Definition set_registers (m : Machine) (r : list Z) : Machine :=
  mkMachine (mainMemory m) r (tlb m) (pageTable m) (pageTableSize m) (tables m).
Definition set_memory (m : Machine) (mem : list Z) : Machine :=
  mkMachine mem (registers m) (tlb m) (pageTable m) (pageTableSize m) (tables m).
Definition set_tlb (m : Machine) (t : list TranslationEntry) : Machine :=
  mkMachine (mainMemory m) (registers m) (Some t) (pageTable m) (pageTableSize m) (tables m).
Definition set_tables (m : Machine) (t : gmap Z (list TranslationEntry)) : Machine :=
  mkMachine (mainMemory m) (registers m) (tlb m) (pageTable m) (pageTableSize m) t.
Definition set_pageTable (m : Machine) (p : option Z) (n : Z) : Machine :=
  mkMachine (mainMemory m) (registers m) (tlb m) p n (tables m).

(** The constructor.  With [USE_TLB] the machine has a TLB of invalid entries
    (their other fields uninitialised: [junk]), otherwise no TLB. *)
Definition newMachine (USE_TLB : bool) (junk : TranslationEntry)
    (junkSize : Z) (tabs : gmap Z (list TranslationEntry)) : Machine :=
  mkMachine (replicate (Z.to_nat MemorySize) 0)
    (replicate (Z.to_nat NumTotalRegs) 0)
    (if USE_TLB then Some (replicate (Z.to_nat TLBSize)
       (mkTE (virtualPage junk) (physicalPage junk) false (readOnly junk)
             (use junk) (dirty junk))) else None)
    None junkSize tabs.

Definition ReadRegister (m : Machine) (num : Z) : result Z :=
  ASSERT ((0 <=? num) && (num <? NumTotalRegs));;
  aget (registers m) num.

Definition WriteRegister (m : Machine) (num value : Z) : result Machine :=
  ASSERT ((0 <=? num) && (num <? NumTotalRegs));;
  r ← aset (registers m) num value;
  Ok (set_registers m r).

(** mipssim.cc: [Machine::DelayedLoad] *)
Definition DelayedLoad (m : Machine) (nextReg nextValue : Z) : result Machine :=
  target ← aget (registers m) LoadReg;
  v ← aget (registers m) LoadValueReg;
  r ← aset (registers m) target v;
  r ← aset r LoadReg nextReg;
  r ← aset r LoadValueReg nextValue;
  r ← aset r 0 0;
  Ok (set_registers m r).

(** The part of [RaiseException] that precedes the call of the handler. *)
Definition RaiseException (m : Machine) (badVAddr : Z) : result Machine :=
  r ← aset (registers m) BadVAddrReg badVAddr;
  DelayedLoad (set_registers m r) 0 0.

(** ** Translation *)

Inductive translation := Fault (e : ExceptionType) | Phys (physAddr : Z).

(** Which table entry [entry] points to. *)
Inductive entry_ref := InTable (p vpn : Z) | InTLB (i : nat).

Fixpoint tlb_search (n : nat) (i : nat) (t : list TranslationEntry) (vpn : Z)
  : result (option (nat * TranslationEntry)) :=
  match n with
  | O => Ok None
  | S n =>
      e ← aget t (Z.of_nat i);
      if valid e && (u32 (virtualPage e) =? vpn) then Ok (Some (i, e))
      else tlb_search n (S i) t vpn
  end.

Definition lookup_entry (m : Machine) (vpn : Z)
  : result (ExceptionType + (entry_ref * TranslationEntry)) :=
  match tlb m with
  | None =>
      if vpn >=? pageTableSize m then Ok (inl AddressErrorException)
      else
        match pageTable m with
        | None => Undefined
        | Some p =>
            match tables m !! p with
            | None => Undefined
            | Some pt =>
                e ← aget pt vpn;
                if negb (valid e) then Ok (inl PageFaultException)
                else Ok (inr (InTable p vpn, e))
            end
        end
  | Some t =>
      r ← tlb_search (Z.to_nat TLBSize) 0 t vpn;
      match r with
      | None => Ok (inl PageFaultException)
      | Some (i, e) => Ok (inr (InTLB i, e))
      end
  end.

Definition store_entry (m : Machine) (r : entry_ref) (e : TranslationEntry)
  : result Machine :=
  match r with
  | InTable p vpn =>
      match tables m !! p with
      | None => Undefined
      | Some pt => pt ← aset pt vpn e; Ok (set_tables m (<[p := pt]> (tables m)))
      end
  | InTLB i =>
      match tlb m with
      | None => Undefined
      | Some t => t ← aset t (Z.of_nat i) e; Ok (set_tlb m t)
      end
  end.

Definition misaligned (virtAddr size : Z) : bool :=
  ((size =? 4) && negb (Z.land virtAddr 3 =? 0)) ||
  ((size =? 2) && negb (Z.land virtAddr 1 =? 0)).

Definition Translate (m : Machine) (virtAddr size : Z) (writing : bool)
  : result (translation * Machine) :=
  if misaligned virtAddr size then Ok (Fault AddressErrorException, m)
  else
    ASSERT (bool_decide (tlb m = None) || bool_decide (pageTable m = None));;
    ASSERT (negb (bool_decide (tlb m = None)) || negb (bool_decide (pageTable m = None)));;
    let vpn := u32 virtAddr / PageSize in
    let offset := u32 virtAddr mod PageSize in
    found ← lookup_entry m vpn;
    match found with
    | inl e => Ok (Fault e, m)
    | inr (r, entry) =>
        if readOnly entry && writing then Ok (Fault ReadOnlyException, m)
        else
          let pageFrame := u32 (physicalPage entry) in
          if pageFrame >=? NumPhysPages then Ok (Fault BusErrorException, m)
          else
            m ← store_entry m r
                  (mkTE (virtualPage entry) (physicalPage entry) (valid entry)
                        (readOnly entry) true
                        (if writing then true else dirty entry));
            let physAddr := wrap32 (pageFrame * PageSize + offset) in
            ASSERT ((0 <=? physAddr) && (physAddr + size <=? MemorySize));;
            Ok (Phys physAddr, m)
    end.

(** ** Memory access *)

Section HostByteOrder.
Variable HOST_IS_BIG_ENDIAN : bool.

Definition WordToHost (word : Z) : Z :=
  if HOST_IS_BIG_ENDIAN then
    Z.lor (Z.lor (Z.lor (Z.land (Z.shiftr word 24) 0x000000ff)
                        (Z.land (Z.shiftr word 8) 0x0000ff00))
                 (Z.land (u32 (Z.shiftl word 8)) 0x00ff0000))
          (Z.land (u32 (Z.shiftl word 24)) 0xff000000)
  else word.

Definition ShortToHost (shortword : Z) : Z :=
  if HOST_IS_BIG_ENDIAN then
    Z.lor (Z.land (Z.shiftl shortword 8) 0xff00)
          (Z.land (Z.shiftr shortword 8) 0x00ff)
  else shortword.

Definition WordToMachine (word : Z) : Z := WordToHost word.
Definition ShortToMachine (shortword : Z) : Z := ShortToHost shortword.

(** An unsigned integer read from, and written to, host memory. *)
Definition host_val (bs : list Z) : Z :=
  le_val (if HOST_IS_BIG_ENDIAN then reverse bs else bs).
Definition host_bytes (n : nat) (z : Z) : list Z :=
  if HOST_IS_BIG_ENDIAN then reverse (le_bytes n z) else le_bytes n z.

(** What [ReadMem]/[WriteMem] give back: [Trapped e] is the return value FALSE,
    after [RaiseException e] prepared the registers for the handler. *)
Inductive access (V : Type) := Trapped (e : ExceptionType) | Done (v : V).
Arguments Trapped {V} e.
Arguments Done {V} v.

Definition ReadMem (m : Machine) (addr size : Z) : result (access Z * Machine) :=
  '(tr, m) ← Translate m addr size false;
  match tr with
  | Fault e => m ← RaiseException m addr; Ok (Trapped e, m)
  | Phys p =>
      if size =? 1 then
        b ← aget (mainMemory m) p; Ok (Done (schar b), m)
      else if size =? 2 then
        bs ← aslice (mainMemory m) p 2; Ok (Done (ShortToHost (host_val bs)), m)
      else if size =? 4 then
        bs ← aslice (mainMemory m) p 4;
        Ok (Done (wrap32 (WordToHost (host_val bs))), m)
      else AssertFail
  end.

Definition WriteMem (m : Machine) (addr size value : Z)
  : result (access unit * Machine) :=
  '(tr, m) ← Translate m addr size true;
  match tr with
  | Fault e => m ← RaiseException m addr; Ok (Trapped e, m)
  | Phys p =>
      if size =? 1 then
        mem ← aset (mainMemory m) p (Z.land value 0xff); Ok (Done tt, set_memory m mem)
      else if size =? 2 then
        mem ← asplice (mainMemory m) p
                (host_bytes 2 (ShortToMachine (Z.land value 0xffff)));
        Ok (Done tt, set_memory m mem)
      else if size =? 4 then
        mem ← asplice (mainMemory m) p (host_bytes 4 (WordToMachine (u32 value)));
        Ok (Done tt, set_memory m mem)
      else AssertFail
  end.

End HostByteOrder.
Arguments Trapped {V} e.
Arguments Done {V} v.

(** ** Well-formed machines *)

(** Exactly one of the two translation tables is there, and has its size. *)
Definition wf_translation (m : Machine) : Prop :=
  (tlb m = None ∧ ∃ p pt, pageTable m = Some p ∧ tables m !! p = Some pt ∧
     pageTableSize m = Z.of_nat (length pt)) ∨
  (pageTable m = None ∧ ∃ t, tlb m = Some t ∧ Z.of_nat (length t) = TLBSize).

Record wf_machine (m : Machine) : Prop := {
  wf_reg_length : Z.of_nat (length (registers m)) = NumTotalRegs;
  wf_reg_int32 : Forall int32 (registers m);
  wf_load_target : ∃ r, aget (registers m) LoadReg = Ok r ∧ 0 <= r < NumGPRegs;
  wf_mem_length : Z.of_nat (length (mainMemory m)) = MemorySize;
  wf_mem_byte : Forall byte (mainMemory m) }.

(** ** The reference translation *)

(** What the entry for page [vpn] is, by the manual of the MMU. *)
Definition entry_spec (m : Machine) (vpn : Z)
  : ExceptionType + (entry_ref * TranslationEntry) :=
  match tlb m, pageTable m with
  | None, Some p =>
      match default [] (tables m !! p) !! Z.to_nat vpn with
      | None => inl AddressErrorException
      | Some e => if valid e then inr (InTable p vpn, e) else inl PageFaultException
      end
  | Some t, _ =>
      match list_find (λ e, valid e = true ∧ u32 (virtualPage e) = vpn) t with
      | None => inl PageFaultException
      | Some (i, e) => inr (InTLB i, e)
      end
  | None, None => inl PageFaultException
  end.

Definition touch (writing : bool) (e : TranslationEntry) : TranslationEntry :=
  mkTE (virtualPage e) (physicalPage e) (valid e) (readOnly e) true (writing || dirty e).

Definition touch_entry (m : Machine) (r : entry_ref) (writing : bool) : Machine :=
  match r with
  | InTable p vpn =>
      set_tables m (alter (alter (touch writing) (Z.to_nat vpn)) p (tables m))
  | InTLB i => set_tlb m (alter (touch writing) i (default [] (tlb m)))
  end.

Definition Translate_spec (m : Machine) (virtAddr size : Z) (writing : bool)
  : translation * Machine :=
  if negb (u32 virtAddr mod size =? 0) then (Fault AddressErrorException, m)
  else
    match entry_spec m (u32 virtAddr / PageSize) with
    | inl e => (Fault e, m)
    | inr (r, e) =>
        if readOnly e && writing then (Fault ReadOnlyException, m)
        else if NumPhysPages <=? u32 (physicalPage e) then (Fault BusErrorException, m)
        else (Phys (u32 (physicalPage e) * PageSize + u32 virtAddr mod PageSize),
              touch_entry m r writing)
    end.

(** Little-endian memory, whatever the host. *)
Definition load (mem : list Z) (p size : Z) : Z :=
  let v := le_val (take (Z.to_nat size) (drop (Z.to_nat p) mem)) in
  if size =? 1 then schar v else if size =? 2 then v else wrap32 v.

Definition store (mem : list Z) (p size v : Z) : list Z :=
  take (Z.to_nat p) mem ++ le_bytes (Z.to_nat size) v ++
  drop (Z.to_nat p + Z.to_nat size) mem.

(** What a load of [size] bytes gives back of a stored [v]. *)
Definition stored_value (size v : Z) : Z :=
  if size =? 1 then schar (u8 v) else if size =? 2 then u16 v else wrap32 v.

(** ** Translation lemmas *)

Lemma tlb_search_spec n i t vpn :
  (i + n = length t)%nat →
  tlb_search n i t vpn =
  Ok (prod_map (λ j, (i + j)%nat) id <$>
      list_find (λ e, valid e = true ∧ u32 (virtualPage e) = vpn) (drop i t)).
Proof.
  revert i. induction n as [|n IH]; intros i Hl; simpl.
  - by rewrite drop_ge by lia.
  - destruct (lookup_lt_is_Some_2 t i) as [e He]; [lia|].
    rewrite (drop_S t e) by done.
    assert (aget t (Z.of_nat i) = Ok e) as ->.
    { apply aget_Ok. split; [lia|]. by rewrite Nat2Z.id. }
    simpl. case_decide as Hd.
    + destruct Hd as [-> ->]. rewrite Z.eqb_refl. simpl. by rewrite Nat.add_0_r.
    + rewrite IH by lia.
      assert ((valid e && (u32 (virtualPage e) =? vpn))%bool = false) as ->.
      { apply not_true_iff_false. rewrite andb_true_iff, Z.eqb_eq. done. }
      rewrite <- option_fmap_compose. f_equal.
      destruct (list_find _ (drop (S i) t)) as [[j e']|]; simpl; [|done].
      do 2 f_equal. lia.
Qed.

Lemma lookup_entry_spec m vpn :
  wf_translation m → 0 <= vpn → lookup_entry m vpn = Ok (entry_spec m vpn).
Proof.
  intros [(Ht & p & pt & Hp & Hpt & Hsz)|(Hp & t & Ht & Hl)] Hv;
    unfold lookup_entry, entry_spec; rewrite Ht, ?Hp.
  - rewrite Hpt, Hsz. simpl. rewrite Z.geb_leb. destruct (Z.leb_spec (Z.of_nat (length pt)) vpn).
    + by rewrite lookup_ge_None_2 by lia.
    + destruct (aget_in pt vpn) as [e He]; [lia|]. rewrite He. simpl.
      apply aget_Ok in He as [_ ->]. by destruct (valid e).
  - rewrite tlb_search_spec by (unfold TLBSize in *; lia). rewrite drop_0. simpl.
    by destruct (list_find _ t) as [[i e]|].
Qed.

Lemma entry_spec_in m vpn r e :
  entry_spec m vpn = inr (r, e) → valid e = true ∧
  match r with
  | InTable p v => v = vpn ∧ tlb m = None ∧
      ∃ pt, tables m !! p = Some pt ∧ pt !! Z.to_nat vpn = Some e
  | InTLB i => ∃ t, tlb m = Some t ∧ t !! i = Some e ∧ u32 (virtualPage e) = vpn
  end.
Proof.
  unfold entry_spec. destruct (tlb m) as [t|].
  - destruct (list_find _ t) as [[i e']|] eqn:Hf; [|done]. intros [= <- <-].
    apply list_find_Some in Hf as (? & [? ?] & _). eauto 6.
  - destruct (pageTable m) as [p|]; [|done].
    destruct (tables m !! p) as [pt|] eqn:Hpt; simpl; [|done].
    destruct (pt !! Z.to_nat vpn) as [e'|] eqn:He; [|done].
    destruct (valid e') eqn:Hv; [|done]. intros [= <- <-]. eauto 7.
Qed.

Lemma store_entry_spec m vpn r e (writing : bool) :
  0 <= vpn → entry_spec m vpn = inr (r, e) →
  store_entry m r (mkTE (virtualPage e) (physicalPage e) (valid e) (readOnly e) true
    (if writing then true else dirty e)) = Ok (touch_entry m r writing).
Proof.
  intros Hv He. apply entry_spec_in in He as [_ He]. unfold store_entry, touch_entry.
  assert (Ht : ∀ (l : list TranslationEntry) i, l !! i = Some e →
    <[i := mkTE (virtualPage e) (physicalPage e) (valid e) (readOnly e) true
      (if writing then true else dirty e)]> l = alter (touch writing) i l).
  { intros l i Hl. symmetry. change (if writing then true else dirty e)
      with (writing || dirty e)%bool.
    apply list_eq. intros j. rewrite list_lookup_alter, list_lookup_insert.
    destruct (decide (i = j)) as [->|]; case_decide; try naive_solver.
    - by rewrite Hl.
    - apply lookup_lt_Some in Hl. naive_solver. }
  destruct r as [p v|i].
  - destruct He as (-> & _ & pt & Hpt & Hlk). rewrite Hpt.
    pose proof (lookup_lt_Some _ _ _ Hlk). rewrite aset_Ok by lia. simpl.
    rewrite Ht by done. do 2 f_equal. apply map_eq. intros q.
    destruct (decide (p = q)) as [->|].
    + by rewrite lookup_insert_eq, lookup_alter_eq, Hpt.
    + by rewrite lookup_insert_ne, lookup_alter_ne by done.
  - destruct He as (t & Hs & Hlk & _). rewrite Hs.
    pose proof (lookup_lt_Some _ _ _ Hlk). rewrite aset_Ok by lia. simpl.
    by rewrite Nat2Z.id, Ht.
Qed.

Definition access_size (size : Z) : Prop := size = 1 ∨ size = 2 ∨ size = 4.

Lemma u32_mod_pow2 a n : 0 <= n <= 32 → u32 a mod 2 ^ n = a mod 2 ^ n.
Proof.
  intros. unfold u32. apply Z.mod_mod_divide.
  exists (2 ^ (32 - n)). rewrite <- Z.pow_add_r by lia. f_equal. lia.
Qed.

Lemma misaligned_spec a size :
  access_size size → misaligned a size = negb (u32 a mod size =? 0).
Proof.
  intros [->|[->| ->]]; unfold misaligned; simpl.
  - by rewrite Z.mod_1_r.
  - change 1 with (Z.ones 1) at 1. rewrite Z.land_ones by lia.
    by rewrite <- (u32_mod_pow2 a 1) by lia.
  - change 3 with (Z.ones 2). rewrite Z.land_ones by lia.
    rewrite <- (u32_mod_pow2 a 2) by lia. by rewrite orb_false_r.
Qed.

(** A frame, an aligned offset and a size stay inside physical memory. *)
Lemma phys_bounds f a size :
  0 <= f < NumPhysPages → access_size size → u32 a mod size = 0 →
  0 <= f * PageSize + u32 a mod PageSize ∧
  f * PageSize + u32 a mod PageSize + size <= MemorySize ∧
  (f * PageSize + u32 a mod PageSize) mod size = 0.
Proof.
  unfold MemorySize, NumPhysPages, PageSize, SectorSize. intros Hf Hs Ha.
  pose proof (Z.mod_pos_bound (u32 a) 256 ltac:(lia)) as Hx.
  assert (u32 a mod 256 mod size = 0) as Ho.
  { destruct Hs as [->|[->| ->]]; [apply Z.mod_1_r|..]; rewrite <- Ha;
      apply Z.mod_mod_divide; [by exists 128|by exists 64]. }
  revert Hx Ho. generalize (u32 a mod 256). intros x Hx Ho.
  destruct Hs as [->|[->| ->]]; Z.to_euclidean_division_equations; lia.
Qed.

Lemma Translate_is_spec m a size writing :
  wf_translation m → access_size size →
  Translate m a size writing = Ok (Translate_spec m a size writing).
Proof.
  intros Hwf Hs. unfold Translate, Translate_spec. rewrite misaligned_spec by done.
  destruct (Z.eqb_spec (u32 a mod size) 0) as [Ha|Ha]; [|done]. simpl.
  assert ((bool_decide (tlb m = None) || bool_decide (pageTable m = None))%bool = true ∧
    (negb (bool_decide (tlb m = None)) || negb (bool_decide (pageTable m = None)))%bool = true)
    as [-> ->].
  { destruct Hwf as [(Ht & p & pt & Hp & _)|(Hp & t & Ht & _)]; by rewrite Ht, Hp. }
  simpl. assert (0 <= u32 a / PageSize) as Hv.
  { apply Z.div_pos; [apply u32_uint32|done]. }
  rewrite lookup_entry_spec by done. simpl.
  destruct (entry_spec m (u32 a / PageSize)) as [e|[r e]] eqn:He; [done|].
  destruct (readOnly e && writing)%bool; [done|].
  rewrite Z.geb_leb. destruct (Z.leb_spec NumPhysPages (u32 (physicalPage e))); [done|].
  erewrite store_entry_spec by done. simpl.
  pose proof (u32_uint32 (physicalPage e)) as [? _].
  destruct (phys_bounds (u32 (physicalPage e)) a size) as (Hlo & Hhi & _); [lia|done|done|].
  rewrite wrap32_id.
  - rewrite (proj2 (Z.leb_le _ _) Hlo), (proj2 (Z.leb_le _ _) Hhi). done.
  - unfold int32. unfold MemorySize, NumPhysPages, PageSize, SectorSize in *.
    destruct Hs as [->|[->| ->]]; lia.
Qed.

Lemma Translate_spec_phys m a size writing pa m' :
  access_size size → Translate_spec m a size writing = (Phys pa, m') →
  0 <= pa ∧ pa + size <= MemorySize ∧ pa mod size = 0.
Proof.
  intros Hs. unfold Translate_spec.
  destruct (Z.eqb_spec (u32 a mod size) 0) as [Ha|Ha]; [|done]. simpl.
  destruct (entry_spec _ _) as [e|[r e]]; [done|].
  destruct (readOnly e && writing)%bool; [done|].
  destruct (Z.leb_spec NumPhysPages (u32 (physicalPage e))); [done|]. intros [= <- _].
  apply phys_bounds; [|done..]. pose proof (u32_uint32 (physicalPage e)) as [? _]. lia.
Qed.

(** Translating leaves memory and registers alone. *)
Lemma Translate_spec_frame m a size writing tr m' :
  Translate_spec m a size writing = (tr, m') →
  mainMemory m' = mainMemory m ∧ registers m' = registers m ∧
  pageTable m' = pageTable m ∧ pageTableSize m' = pageTableSize m.
Proof.
  unfold Translate_spec, touch_entry. intros H. repeat case_match; by simplify_eq.
Qed.

(** ** Byte order *)

Lemma field_at lo b hi k :
  0 <= k → 0 <= lo < 2 ^ k → 0 <= b < 2 ^ 8 →
  (lo + 2 ^ k * (b + 2 ^ 8 * hi)) / 2 ^ k mod 2 ^ 8 = b.
Proof.
  intros. rewrite (Z.mul_comm (2 ^ k)), Z.div_add, Z.div_small, Z.add_0_l by lia.
  rewrite (Z.mul_comm (2 ^ 8)), Z.mod_add by lia. apply Z.mod_small. lia.
Qed.

(** The byte swap of a big-endian host. *)
Lemma swap32 bs :
  length bs = 4%nat → Forall byte bs → WordToHost true (le_val bs) = le_val (reverse bs).
Proof.
  intros Hl Hb. destruct bs as [|b0 [|b1 [|b2 [|b3 [|? ?]]]]]; try done.
  rewrite !Forall_cons in Hb. destruct Hb as (H0 & H1 & H2 & H3 & _). unfold byte in *.
  unfold WordToHost. cbn [reverse rev_append le_val].
  change 0x000000ff with (Z.shiftl (Z.ones 8) 0).
  change 0x0000ff00 with (Z.shiftl (Z.ones 8) 8).
  change 0x00ff0000 with (Z.shiftl (Z.ones 8) 16).
  change 0xff000000 with (Z.shiftl (Z.ones 8) 24).
  rewrite !land_field by lia. rewrite !Z.shiftr_div_pow2, !Z.shiftl_mul_pow2 by lia.
  unfold u32.
  set (w := b0 + 2 ^ 8 * (b1 + 2 ^ 8 * (b2 + 2 ^ 8 * (b3 + 2 ^ 8 * 0)))).
  assert (w / 2 ^ 24 / 2 ^ 0 mod 2 ^ 8 = b3) as ->.
  { rewrite Z.pow_0_r, Z.div_1_r. replace w with
      ((b0 + 2 ^ 8 * b1 + 2 ^ 16 * b2) + 2 ^ 24 * (b3 + 2 ^ 8 * 0)) by (unfold w; lia).
    apply field_at; lia. }
  assert (w / 2 ^ 8 / 2 ^ 8 mod 2 ^ 8 = b2) as ->.
  { rewrite Z.div_div by lia. replace w with
      ((b0 + 2 ^ 8 * b1) + 2 ^ 16 * (b2 + 2 ^ 8 * b3)) by (unfold w; lia).
    apply (field_at _ _ _ 16); lia. }
  assert ((w * 2 ^ 8) mod 2 ^ 32 / 2 ^ 16 mod 2 ^ 8 = b1) as ->.
  { replace ((w * 2 ^ 8) mod 2 ^ 32) with
      (2 ^ 8 * b0 + 2 ^ 16 * (b1 + 2 ^ 8 * b2)).
    - apply field_at; lia.
    - apply Z.mod_unique with b3; [lia|]. unfold w. lia. }
  assert ((w * 2 ^ 24) mod 2 ^ 32 / 2 ^ 24 mod 2 ^ 8 = b0) as ->.
  { replace ((w * 2 ^ 24) mod 2 ^ 32) with (0 + 2 ^ 24 * (b0 + 2 ^ 8 * 0)).
    - apply field_at; lia.
    - apply Z.mod_unique with (b1 + 2 ^ 8 * b2 + 2 ^ 16 * b3); [lia|]. unfold w. lia. }
  rewrite Z.pow_0_r, Z.mul_1_r.
  rewrite (lor_low_high b3 b2 8), (lor_low_high _ b1 16), (lor_low_high _ b0 24) by lia. lia.
Qed.

Lemma swap16 bs :
  length bs = 2%nat → Forall byte bs → ShortToHost true (le_val bs) = le_val (reverse bs).
Proof.
  intros Hl Hb. destruct bs as [|b0 [|b1 [|? ?]]]; try done.
  rewrite !Forall_cons in Hb. destruct Hb as (H0 & H1 & _). unfold byte in *.
  unfold ShortToHost. cbn [reverse rev_append le_val].
  change 0xff00 with (Z.shiftl (Z.ones 8) 8). change 0x00ff with (Z.shiftl (Z.ones 8) 0).
  rewrite !land_field by lia. rewrite !Z.shiftr_div_pow2, !Z.shiftl_mul_pow2 by lia.
  rewrite Z.pow_0_r, Z.div_1_r, Z.mul_1_r.
  rewrite Z.div_mul by lia.
  replace (b0 + 2 ^ 8 * (b1 + 2 ^ 8 * 0)) with (b0 + 2 ^ 8 * b1) by lia.
  assert ((b0 + 2 ^ 8 * b1) / 2 ^ 8 mod 2 ^ 8 = b1) as ->.
  { replace (b0 + 2 ^ 8 * b1) with (b0 + 2 ^ 8 * (b1 + 2 ^ 8 * 0)) by lia.
    apply field_at; lia. }
  assert ((b0 + 2 ^ 8 * b1) mod 2 ^ 8 = b0) as ->.
  { rewrite (Z.mul_comm (2 ^ 8)), Z.mod_add by lia. apply Z.mod_small. lia. }
  rewrite Z.lor_comm, lor_low_high by lia. lia.
Qed.

Lemma WordToHost_val be bs :
  length bs = 4%nat → Forall byte bs → WordToHost be (host_val be bs) = le_val bs.
Proof.
  intros Hl Hb. unfold host_val. destruct be; [|done].
  rewrite swap32 by (rewrite ?length_reverse; done || by apply Forall_reverse).
  by rewrite reverse_involutive.
Qed.

Lemma ShortToHost_val be bs :
  length bs = 2%nat → Forall byte bs → ShortToHost be (host_val be bs) = le_val bs.
Proof.
  intros Hl Hb. unfold host_val. destruct be; [|done].
  rewrite swap16 by (rewrite ?length_reverse; done || by apply Forall_reverse).
  by rewrite reverse_involutive.
Qed.

Lemma host_bytes_word be v :
  host_bytes be 4 (WordToMachine be (u32 v)) = le_bytes 4 v.
Proof.
  assert (u32 v = le_val (le_bytes 4 v)) as -> by (by rewrite le_val_bytes).
  unfold host_bytes, WordToMachine. destruct be.
  - rewrite swap32 by (apply length_le_bytes || apply le_bytes_byte).
    rewrite <- (length_le_bytes 4 v) at 1. rewrite <- length_reverse.
    rewrite le_bytes_val by apply Forall_reverse, le_bytes_byte.
    apply reverse_involutive.
  - unfold WordToHost. rewrite <- (length_le_bytes 4 v) at 1.
    apply le_bytes_val, le_bytes_byte.
Qed.

Lemma host_bytes_short be v :
  host_bytes be 2 (ShortToMachine be (Z.land v 0xffff)) = le_bytes 2 v.
Proof.
  assert (Z.land v 0xffff = le_val (le_bytes 2 v)) as ->.
  { rewrite le_val_bytes. change 0xffff with (Z.ones 16). by rewrite Z.land_ones by lia. }
  unfold host_bytes, ShortToMachine. destruct be.
  - rewrite swap16 by (apply length_le_bytes || apply le_bytes_byte).
    rewrite <- (length_le_bytes 2 v) at 1. rewrite <- length_reverse.
    rewrite le_bytes_val by apply Forall_reverse, le_bytes_byte.
    apply reverse_involutive.
  - unfold ShortToHost. rewrite <- (length_le_bytes 2 v) at 1.
    apply le_bytes_val, le_bytes_byte.
Qed.

(** ** Memory access lemmas *)

Lemma ReadMem_spec be m a size :
  wf_machine m → wf_translation m → access_size size →
  ReadMem be m a size =
  match Translate_spec m a size false with
  | (Fault e, m') => m'' ← RaiseException m' a; Ok (Trapped e, m'')
  | (Phys p, m') => Ok (Done (load (mainMemory m') p size), m')
  end.
Proof.
  intros Hm Ht Hs. unfold ReadMem. rewrite Translate_is_spec by done. simpl.
  destruct (Translate_spec m a size false) as [tr m'] eqn:Htr.
  destruct tr as [e|p]; [done|].
  destruct (Translate_spec_phys _ _ _ _ _ _ Hs Htr) as (Hlo & Hhi & _).
  destruct (Translate_spec_frame _ _ _ _ _ _ Htr) as (Hmem & _).
  rewrite Hmem. pose proof (wf_mem_length _ Hm) as Hl. pose proof (wf_mem_byte _ Hm) as Hb.
  assert (Hlen : ∀ n, p + Z.of_nat n <= MemorySize →
    length (take n (drop (Z.to_nat p) (mainMemory m))) = n).
  { intros n Hn. rewrite length_take, length_drop. lia. }
  assert (Hby : ∀ n, Forall byte (take n (drop (Z.to_nat p) (mainMemory m))))
    by (intros; by apply Forall_take, Forall_drop).
  unfold load. destruct Hs as [->|[->| ->]]; simpl.
  - destruct (aget_in (mainMemory m) p) as [b Hb']; [lia|]. rewrite Hb'. simpl.
    apply aget_Ok in Hb' as [_ Hb']. rewrite (drop_S _ b) by done. simpl.
    change (Pos.to_nat 1) with 1%nat. simpl. by rewrite Z.mul_0_r, Z.add_0_r.
  - rewrite aslice_Ok by lia. simpl. rewrite ShortToHost_val; [done| |apply Hby].
    apply Hlen. lia.
  - rewrite aslice_Ok by lia. simpl. rewrite WordToHost_val; [done| |apply Hby].
    apply Hlen. lia.
Qed.

Lemma WriteMem_spec be m a size v :
  wf_machine m → wf_translation m → access_size size →
  WriteMem be m a size v =
  match Translate_spec m a size true with
  | (Fault e, m') => m'' ← RaiseException m' a; Ok (Trapped e, m'')
  | (Phys p, m') => Ok (Done tt, set_memory m' (store (mainMemory m') p size v))
  end.
Proof.
  intros Hm Ht Hs. unfold WriteMem. rewrite Translate_is_spec by done. simpl.
  destruct (Translate_spec m a size true) as [tr m'] eqn:Htr.
  destruct tr as [e|p]; [done|].
  destruct (Translate_spec_phys _ _ _ _ _ _ Hs Htr) as (Hlo & Hhi & _).
  destruct (Translate_spec_frame _ _ _ _ _ _ Htr) as (Hmem & _).
  rewrite Hmem. pose proof (wf_mem_length _ Hm) as Hl.
  unfold store. destruct Hs as [->|[->| ->]]; simpl.
  - rewrite aset_Ok by lia. simpl. do 3 f_equal.
    change 0xff with (Z.ones 8). rewrite Z.land_ones by lia.
    rewrite insert_take_drop by lia. do 3 f_equal. simpl. lia.
  - rewrite host_bytes_short. rewrite asplice_Ok by (rewrite ?length_le_bytes; lia).
    done.
  - rewrite host_bytes_word. rewrite asplice_Ok by (rewrite ?length_le_bytes; lia).
    done.
Qed.

Lemma length_store mem p size v :
  0 <= p → 0 <= size → p + size <= Z.of_nat (length mem) →
  length (store mem p size v) = length mem.
Proof. intros. unfold store. rewrite !length_app, length_take, length_drop, length_le_bytes. lia. Qed.

Lemma store_byte mem p size v : Forall byte mem → Forall byte (store mem p size v).
Proof.
  intros. unfold store. rewrite !Forall_app. split; [by apply Forall_take|].
  split; [apply le_bytes_byte|by apply Forall_drop].
Qed.

Lemma slice_ext {A} (l l' : list A) p n :
  (∀ i, (p <= i < p + n)%nat → l !! i = l' !! i) →
  take n (drop p l) = take n (drop p l').
Proof.
  intros H. apply list_eq. intros i. destruct (decide (i < n)%nat).
  - rewrite !lookup_take_lt, !lookup_drop by lia. apply H. lia.
  - rewrite !lookup_take_ge by lia. done.
Qed.

Lemma load_store mem p size v :
  access_size size → 0 <= p → p + size <= Z.of_nat (length mem) →
  load (store mem p size v) p size = stored_value size v.
Proof.
  intros Hs Hp Hl. unfold load, store, stored_value.
  assert (length (take (Z.to_nat p) mem) = Z.to_nat p) as Ht
    by (rewrite length_take; destruct Hs as [->|[->| ->]]; lia).
  rewrite drop_app_length' by done. rewrite take_app_length' by (by rewrite length_le_bytes).
  rewrite le_val_bytes. destruct Hs as [->|[->| ->]]; simpl; try done.
  apply wrap32_eqm. apply Z.mod_mod. lia.
Qed.

Lemma load_store_disjoint mem p size v q s :
  0 <= p → 0 <= size → 0 <= q → 0 <= s → p + size <= Z.of_nat (length mem) →
  q + s <= p ∨ p + size <= q → load (store mem p size v) q s = load mem q s.
Proof.
  intros Hp Hsz Hq Hs Hl Hd. unfold load, store.
  erewrite (slice_ext _ mem); [done|]. intros i Hi.
  rewrite <- (length_le_bytes (Z.to_nat size) v) at 2.
  rewrite lookup_splice by (rewrite length_le_bytes; lia).
  rewrite length_le_bytes, decide_False by lia. done.
Qed.

(** Registers after a trap. *)
Lemma DelayedLoad_Ok m r v :
  wf_machine m → 0 <= r < NumGPRegs → int32 v →
  ∃ m', DelayedLoad m r v = Ok m' ∧ wf_machine m' ∧
    m' = set_registers m (registers m') ∧ aget (registers m') 0 = Ok 0.
Proof.
  intros [Hl Hi (t & Ht & Htr) Hml Hmb] Hr Hv. unfold DelayedLoad. rewrite Ht. simpl.
  unfold NumTotalRegs, NumGPRegs, LoadReg, LoadValueReg in *.
  destruct (aget_in (registers m) 38) as [lv Hlv]; [lia|]. rewrite Hlv. simpl.
  assert (int32 lv) by (by eapply aget_Forall).
  rewrite aset_Ok by lia. simpl. rewrite aset_Ok by (rewrite length_insert; lia). simpl.
  rewrite aset_Ok by (rewrite !length_insert; lia). simpl.
  rewrite aset_Ok by (rewrite !length_insert; lia). simpl.
  eexists. split; [done|]. split; [|split; [done|]].
  - split; simpl; try done.
    + by rewrite !length_insert.
    + repeat apply Forall_insert; try done; unfold int32; lia.
    + exists r. split; [|done]. unfold LoadReg, LoadValueReg.
      rewrite (aget_insert_ne _ 0 37), (aget_insert_ne _ 38 37) by lia.
      apply aget_insert_eq. rewrite !length_insert. lia.
  - simpl. apply aget_insert_eq. rewrite !length_insert. lia.
Qed.

Lemma RaiseException_Ok m a :
  wf_machine m → int32 a →
  ∃ m', RaiseException m a = Ok m' ∧ wf_machine m' ∧
    m' = set_registers m (registers m') ∧ aget (registers m') 0 = Ok 0 .
Proof.
  intros Hm Ha. unfold RaiseException. pose proof (wf_reg_length _ Hm) as Hl.
  unfold NumTotalRegs, BadVAddrReg in *. rewrite aset_Ok by lia. simpl.
  assert (wf_machine (set_registers m (<[Z.to_nat 39 := a]> (registers m)))) as Hm'.
  { destruct Hm as [? ? (t & ? & ?) ? ?]. split; simpl; try done.
    - by rewrite length_insert.
    - by apply Forall_insert.
    - exists t. split; [|done]. unfold LoadReg. rewrite (aget_insert_ne _ 39) by lia. done. }
  destruct (DelayedLoad_Ok _ 0 0 Hm') as (m' & -> & ? & Heq & ?);
    [unfold NumGPRegs; lia|unfold int32; lia|].
  exists m'. split; [done|]. split; [done|]. split; [|done]. by rewrite Heq.
Qed.

(** ** Touching an entry changes no translation *)

(** Equal but for the [use] and [dirty] bits. *)
Definition same_mapping (e e' : TranslationEntry) : Prop :=
  virtualPage e' = virtualPage e ∧ physicalPage e' = physicalPage e ∧
  valid e' = valid e ∧ readOnly e' = readOnly e.

Lemma touch_same w e : same_mapping e (touch w e).
Proof. done. Qed.

Lemma list_find_touch vpn w l i :
  let P e := valid e = true ∧ u32 (virtualPage e) = vpn in
  match list_find P l with
  | None => list_find P (alter (touch w) i l) = None
  | Some (j, e) => ∃ e', list_find P (alter (touch w) i l) = Some (j, e') ∧ same_mapping e e'
  end.
Proof.
  intros P. revert i. induction l as [|x l IH]; intros i; [done|].
  destruct i as [|i]; cbn [list_find alter list_alter].
  - destruct (decide (P x)) as [Hx|Hx]; [rewrite (decide_True (P := P (touch w x))) by apply Hx|
      rewrite (decide_False (P := P (touch w x))) by apply Hx].
    + by exists (touch w x).
    + destruct (list_find P l) as [[j e]|]; simpl; [|done]. by exists e.
  - destruct (decide (P x)) as [Hx|Hx]; [by exists x|].
    specialize (IH i). fold (alter (touch w) i l).
    destruct (list_find P l) as [[j e]|]; simpl.
    + destruct IH as (e' & -> & He). by exists e'.
    + by rewrite IH.
Qed.

Lemma entry_spec_touch m w vpn v r' e' :
  entry_spec m v = inr (r', e') →
  match entry_spec m vpn with
  | inl x => entry_spec (touch_entry m r' w) vpn = inl x
  | inr (r, e) =>
      ∃ e'', entry_spec (touch_entry m r' w) vpn = inr (r, e'') ∧ same_mapping e e''
  end.
Proof.
  intros [_ Hin]%entry_spec_in. unfold entry_spec, touch_entry. destruct r' as [p v'|i].
  - destruct Hin as (-> & Htlb & pt & Hpt & He). rewrite Htlb. simpl. rewrite Htlb.
    destruct (pageTable m) as [q|]; [|done].
    rewrite lookup_alter. destruct (decide (p = q)) as [<-|]; [rewrite Hpt; simpl|].
    + rewrite list_lookup_alter. destruct (decide (Z.to_nat v = Z.to_nat vpn)) as [Hv|Hv].
      * rewrite <- Hv, He. simpl. destruct (valid e'); [|done].
        eexists. split; [done|apply touch_same].
      * destruct (pt !! Z.to_nat vpn) as [x|]; [|done]. simpl. destruct (valid x); [|done].
        by exists x.
    + destruct (default [] (tables m !! q) !! Z.to_nat vpn) as [x|]; [|done].
      simpl. destruct (valid x); [|done]. by exists x.
  - destruct Hin as (t & Htlb & He & _). rewrite Htlb. simpl.
    pose proof (list_find_touch vpn w t i) as Hf. simpl in Hf.
    destruct (list_find _ t) as [[j e]|].
    + destruct Hf as (e'' & -> & ?). by exists e''.
    + by rewrite Hf.
Qed.

Lemma Translate_spec_touch m a size w p m' b s w' :
  Translate_spec m a size w = (Phys p, m') →
  fst (Translate_spec m' b s w') = fst (Translate_spec m b s w').
Proof.
  unfold Translate_spec at 1. intros H. repeat case_match; simplify_eq.
  unfold Translate_spec. destruct (negb (u32 b mod s =? 0)); [done|].
  match goal with H : entry_spec m _ = inr _ |- _ =>
    eapply (entry_spec_touch m w (u32 b / PageSize)) in H as Ht end.
  destruct (entry_spec m (u32 b / PageSize)) as [x|[r e']].
  - by rewrite Ht.
  - destruct Ht as (e'' & -> & (_ & -> & _ & ->)). by repeat case_match.
Qed.

Lemma Translate_spec_set_memory m mem a size w :
  Translate_spec (set_memory m mem) a size w =
  prod_map id (λ m', set_memory m' mem) (Translate_spec m a size w).
Proof.
  unfold Translate_spec. change (entry_spec (set_memory m mem)) with (entry_spec m).
  destruct (negb (u32 a mod size =? 0)); [done|]. destruct (entry_spec m _) as [x|[r e]]; [done|].
  destruct (readOnly e && w)%bool; [done|]. destruct (_ <=? _); [done|]. by destruct r.
Qed.

(** A page that could be written can be read, at the same place. *)
Lemma Translate_spec_read m a size p m' :
  Translate_spec m a size true = (Phys p, m') →
  fst (Translate_spec m a size false) = Phys p.
Proof.
  unfold Translate_spec. intros H. repeat case_match; simplify_eq; try done.
  by rewrite andb_false_r in *.
Qed.

Lemma Translate_spec_wf m a size w tr m' :
  wf_translation m → Translate_spec m a size w = (tr, m') → wf_translation m'.
Proof.
  intros Hwf. unfold Translate_spec. intros H. repeat case_match; simplify_eq; try done.
  match goal with H : entry_spec m _ = inr _ |- _ => apply entry_spec_in in H as [_ Hin] end.
  destruct Hwf as [(Ht & p & pt & Hp & Hpt & Hl)|(Hp & ts & Ht & Hl)]; destruct e as [q v|i];
    unfold wf_translation;
    cbn [touch_entry set_tables set_tlb tables tlb pageTable pageTableSize] in *.
  - left. split; [done|]. destruct Hin as (_ & _ & pt' & Hq & _).
    destruct (decide (q = p)) as [->|Hne].
    + exists p, (alter (touch w) (Z.to_nat v) pt). rewrite lookup_alter, decide_True, Hpt by done. 
      split; [done|]. split; [done|]. by rewrite length_alter.
    + exists p, pt. by rewrite lookup_alter, decide_False by done.
  - destruct Hin as (? & ? & _). congruence.
  - destruct Hin as (_ & ? & _). congruence.
  - right. rewrite Ht. simpl. split; [done|]. eexists. split; [done|]. by rewrite length_alter.
Qed.

Lemma Translate_spec_machine_wf m a size w tr m' :
  wf_machine m → Translate_spec m a size w = (tr, m') → wf_machine m'.
Proof.
  intros [? ? ? ? ?] (Hmem & Hreg & _)%Translate_spec_frame.
  split; by rewrite ?Hreg, ?Hmem.
Qed.

(** ** Properties *)

(** C9: [Machine::Translate] computes the reference translation: it faults
    exactly on a misaligned address, an unmapped or invalid page, a write to a
    read-only page or a frame that does not exist, and otherwise gives the
    frame's base plus the page offset, marking the entry used (and dirty on a
    write).  The result is aligned and the whole access lies in physical
    memory, no ASSERT fails, and the tables stay well formed. *)
Theorem Translate_correct m a size writing :
  wf_translation m → access_size size →
  Translate m a size writing = Ok (Translate_spec m a size writing) ∧
  wf_translation (snd (Translate_spec m a size writing)) ∧
  (∀ p, fst (Translate_spec m a size writing) = Phys p →
     0 <= p ∧ p + size <= MemorySize ∧ p mod size = 0).
Proof.
  intros Hwf Hs. split; [by apply Translate_is_spec|].
  destruct (Translate_spec m a size writing) as [tr m'] eqn:Htr. simpl. split.
  - by eapply Translate_spec_wf.
  - intros p ->. by eapply Translate_spec_phys.
Qed.

(** User programs see little-endian memory on every host: on a big-endian
    host (bytes swapped by WordToHost and ShortToHost) and on a little-endian
    host, [ReadMem] and [WriteMem] have the same result and the same memory. *)
Theorem host_byte_order_irrelevant m a size v :
  wf_machine m → wf_translation m → access_size size →
  ReadMem true m a size = ReadMem false m a size ∧
  WriteMem true m a size v = WriteMem false m a size v.
Proof. intros Hm Ht Hs. by rewrite !ReadMem_spec, !WriteMem_spec. Qed.

(** C11: memory behaves as memory.  After a successful [WriteMem] a [ReadMem]
    of the same address and size succeeds with the value written (truncated to
    the size; a byte is sign extended, a halfword is not), and a read at an
    address that is mapped elsewhere in physical memory succeeds with the value
    it had before. *)
Theorem read_after_write be m a size v m' :
  wf_machine m → wf_translation m → access_size size →
  WriteMem be m a size v = Ok (Done tt, m') →
  (∃ m'', ReadMem be m' a size = Ok (Done (stored_value size v), m'')) ∧
  ∀ b s p q x mb, access_size s →
    fst (Translate_spec m a size true) = Phys p →
    fst (Translate_spec m b s false) = Phys q → q + s <= p ∨ p + size <= q →
    ReadMem be m b s = Ok (Done x, mb) →
    ∃ m'', ReadMem be m' b s = Ok (Done x, m'').
Proof.
  intros Hm Ht Hs. rewrite WriteMem_spec by done.
  destruct (Translate_spec m a size true) as [[e|p] m1] eqn:Htr;
    [by destruct (RaiseException m1 a)|]. intros [= <-].
  pose proof (Translate_spec_wf _ _ _ _ _ _ Ht Htr) as Ht1.
  pose proof (Translate_spec_machine_wf _ _ _ _ _ _ Hm Htr) as Hm1.
  destruct (Translate_spec_phys _ _ _ _ _ _ Hs Htr) as (Hlo & Hhi & _).
  pose proof (wf_mem_length _ Hm1) as Hlen.
  destruct (Translate_spec_frame _ _ _ _ _ _ Htr) as (Hmem & _).
  set (m2 := set_memory m1 _).
  assert (0 <= size) by (destruct Hs as [->|[->| ->]]; lia).
  assert (wf_machine m2).
  { destruct Hm1. split; simpl; try done; [|by apply store_byte].
    by rewrite length_store by lia. }
  assert (Hfst : ∀ b s, fst (Translate_spec m2 b s false) = fst (Translate_spec m b s false)).
  { intros b s. unfold m2. rewrite Translate_spec_set_memory.
    rewrite <- (Translate_spec_touch _ _ _ _ _ _ b s false Htr).
    by destruct (Translate_spec m1 b s false). }
  split.
  - rewrite ReadMem_spec by done. apply Translate_spec_read in Htr as Hr. rewrite <- Hfst in Hr.
    destruct (Translate_spec m2 a size false) as [tr m3] eqn:Htr3. simpl in Hr. subst tr.
    exists m3. do 3 f_equal. destruct (Translate_spec_frame _ _ _ _ _ _ Htr3) as (-> & _).
    simpl. apply load_store; [done|done|lia].
  - intros b s p' q x mb Hs' [= <-] Hq Hd. rewrite !ReadMem_spec by done. rewrite <- Hfst in Hq.
    specialize (Hfst b s).
    destruct (Translate_spec m2 b s false) as [tr m3] eqn:Htr3. simpl in Hq. subst tr.
    destruct (Translate_spec m b s false) as [tr m4] eqn:Htr4. simpl in Hfst. subst tr.
    destruct (Translate_spec_frame _ _ _ _ _ _ Htr3) as (-> & _).
    destruct (Translate_spec_frame _ _ _ _ _ _ Htr4) as (-> & _).
    destruct (Translate_spec_phys _ _ _ _ _ _ Hs' Htr4) as (? & _ & _).
    intros [= <- <-]. exists m3. do 3 f_equal. simpl. rewrite Hmem.
    assert (0 <= s) by (destruct Hs' as [->|[->| ->]]; lia).
    apply load_store_disjoint; try done. rewrite <- Hmem. lia.
Qed.

(** ** A machine to try the properties on *)

(** Two pages: page 0 in frame 3, page 1 read-only in frame 5. *)
Definition demo_machine : Machine :=
  set_pageTable
    (newMachine false (mkTE 0 0 false false false false) 0
       {[ 7 := [mkTE 0 3 true false false false; mkTE 1 5 true true false false] ]})
    (Some 7) 2.

Lemma demo_wf : wf_machine demo_machine.
Proof.
  split.
  - done.
  - by apply Forall_replicate.
  - by exists 0.
  - vm_compute. done.
  - by apply Forall_replicate.
Qed.

Lemma demo_wf_translation : wf_translation demo_machine.
Proof. left. split; [done|]. by exists 7, [mkTE 0 3 true false false false; mkTE 1 5 true true false false]. Qed.

Lemma Translate_correct_witness :
  Translate demo_machine 36 4 true = Ok (Translate_spec demo_machine 36 4 true) ∧
  fst (Translate_spec demo_machine 36 4 true) = Phys 804 ∧ 804 mod 4 = 0.
Proof.
  destruct (Translate_correct demo_machine 36 4 true) as (H1 & _ & H3).
  - apply demo_wf_translation.
  - right; right; reflexivity.
  - split; [exact H1|]. split; [reflexivity|]. apply (H3 804). reflexivity.
Defined.

Lemma host_byte_order_irrelevant_witness :
  ReadMem true demo_machine 262 2 = ReadMem false demo_machine 262 2 ∧
  WriteMem true demo_machine 36 4 (-2) = WriteMem false demo_machine 36 4 (-2).
Proof.
  split.
  - apply (host_byte_order_irrelevant demo_machine 262 2 0);
      [apply demo_wf|apply demo_wf_translation|right; left; reflexivity].
  - apply (host_byte_order_irrelevant demo_machine 36 4 (-2));
      [apply demo_wf|apply demo_wf_translation|right; right; reflexivity].
Defined.

Lemma read_after_write_witness :
  ∃ m' m'', WriteMem false demo_machine 36 4 (-2) = Ok (Done tt, m') ∧
    ReadMem false m' 36 4 = Ok (Done (-2), m'').
Proof.
  eexists.
  destruct (read_after_write false demo_machine 36 4 (-2)
    (snd (match WriteMem false demo_machine 36 4 (-2) with
          | Ok r => r | _ => (Done tt, demo_machine) end))) as [[m'' H] _].
  - apply demo_wf.
  - apply demo_wf_translation.
  - right; right; reflexivity.
  - vm_compute. reflexivity.
  - exists m''. split; [|exact H]. vm_compute. reflexivity.
Defined.
