(* ===== verification/MipsSim.v ===== *)
(** * machine/mipssim.cc: the MIPS R2/3000 simulator

    Instruction decoding, multiplication and [Machine::OneInstruction].  The
    [switch] of [OneInstruction] is one definition per run of cases, in the
    order of the source, each handing the opcodes it does not know to the next;
    a case that returns early (after [RaiseException], or because a memory
    access trapped) is the outcome [Trap].  Signed [int] arithmetic wraps
    around and [>>] of a negative [int] shifts in the sign, as on the compilers
    the simulator is written for; [INT_MIN / -1], which traps on the i386 host,
    is undefined.  Instruction tracing (debug flag 'm') is not modelled. *)

From S2P Require Import Prelude Params Machine.
Local Open Scope Z_scope.

(** ** Opcodes *)

Inductive OpCode :=
| OP_ADD | OP_ADDI | OP_ADDIU | OP_ADDU | OP_AND | OP_ANDI | OP_BEQ | OP_BGEZ
| OP_BGEZAL | OP_BGTZ | OP_BLEZ | OP_BLTZ | OP_BLTZAL | OP_BNE | OP_DIV | OP_DIVU
| OP_J | OP_JAL | OP_JALR | OP_JR | OP_LB | OP_LBU | OP_LH | OP_LHU | OP_LUI
| OP_LW | OP_LWL | OP_LWR | OP_MFHI | OP_MFLO | OP_MTHI | OP_MTLO | OP_MULT
| OP_MULTU | OP_NOR | OP_OR | OP_ORI | OP_RFE | OP_SB | OP_SH | OP_SLL | OP_SLLV
| OP_SLT | OP_SLTI | OP_SLTIU | OP_SLTU | OP_SRA | OP_SRAV | OP_SRL | OP_SRLV
| OP_SUB | OP_SUBU | OP_SW | OP_SWL | OP_SWR | OP_XOR | OP_XORI | OP_SYSCALL
| OP_UNIMP | OP_RES
| SPECIAL | BCOND.

Inductive Format := IFMT | JFMT | RFMT.

Definition is_OP_LB (o : OpCode) : bool := match o with OP_LB => true | _ => false end.
Definition is_OP_LH (o : OpCode) : bool := match o with OP_LH => true | _ => false end.

Definition IndexToAddr (x : Z) : Z := wrap32 (Z.shiftl x 2).
Definition SIGN_BIT : Z := 0x80000000.
Definition R31 : Z := 31.

Definition opTable : list (OpCode * Format) :=
  [(SPECIAL, RFMT); (BCOND, IFMT); (OP_J, JFMT); (OP_JAL, JFMT);
   (OP_BEQ, IFMT); (OP_BNE, IFMT); (OP_BLEZ, IFMT); (OP_BGTZ, IFMT);
   (OP_ADDI, IFMT); (OP_ADDIU, IFMT); (OP_SLTI, IFMT); (OP_SLTIU, IFMT);
   (OP_ANDI, IFMT); (OP_ORI, IFMT); (OP_XORI, IFMT); (OP_LUI, IFMT);
   (OP_UNIMP, IFMT); (OP_UNIMP, IFMT); (OP_UNIMP, IFMT); (OP_UNIMP, IFMT);
   (OP_RES, IFMT); (OP_RES, IFMT); (OP_RES, IFMT); (OP_RES, IFMT);
   (OP_RES, IFMT); (OP_RES, IFMT); (OP_RES, IFMT); (OP_RES, IFMT);
   (OP_RES, IFMT); (OP_RES, IFMT); (OP_RES, IFMT); (OP_RES, IFMT);
   (OP_LB, IFMT); (OP_LH, IFMT); (OP_LWL, IFMT); (OP_LW, IFMT);
   (OP_LBU, IFMT); (OP_LHU, IFMT); (OP_LWR, IFMT); (OP_RES, IFMT);
   (OP_SB, IFMT); (OP_SH, IFMT); (OP_SWL, IFMT); (OP_SW, IFMT);
   (OP_RES, IFMT); (OP_RES, IFMT); (OP_SWR, IFMT); (OP_RES, IFMT);
   (OP_UNIMP, IFMT); (OP_UNIMP, IFMT); (OP_UNIMP, IFMT); (OP_UNIMP, IFMT);
   (OP_RES, IFMT); (OP_RES, IFMT); (OP_RES, IFMT); (OP_RES, IFMT);
   (OP_UNIMP, IFMT); (OP_UNIMP, IFMT); (OP_UNIMP, IFMT); (OP_UNIMP, IFMT);
   (OP_RES, IFMT); (OP_RES, IFMT); (OP_RES, IFMT); (OP_RES, IFMT)].

Definition specialTable : list OpCode :=
  [OP_SLL; OP_RES; OP_SRL; OP_SRA; OP_SLLV; OP_RES; OP_SRLV; OP_SRAV;
   OP_JR; OP_JALR; OP_RES; OP_RES; OP_SYSCALL; OP_UNIMP; OP_RES; OP_RES;
   OP_MFHI; OP_MTHI; OP_MFLO; OP_MTLO; OP_RES; OP_RES; OP_RES; OP_RES;
   OP_MULT; OP_MULTU; OP_DIV; OP_DIVU; OP_RES; OP_RES; OP_RES; OP_RES;
   OP_ADD; OP_ADDU; OP_SUB; OP_SUBU; OP_AND; OP_OR; OP_XOR; OP_NOR;
   OP_RES; OP_RES; OP_SLT; OP_SLTU; OP_RES; OP_RES; OP_RES; OP_RES;
   OP_RES; OP_RES; OP_RES; OP_RES; OP_RES; OP_RES; OP_RES; OP_RES;
   OP_RES; OP_RES; OP_RES; OP_RES; OP_RES; OP_RES; OP_RES; OP_RES].

(** ** Decoding *)

Record Instruction := mkInstr {
  value : Z;
  opCode : OpCode;
  rs : Z;
  rt : Z;
  rd : Z;
  extra : Z }.

(** Sub-opcodes of a BCOND word. *)
Definition decode_bcond (v : Z) : OpCode :=
  let i := Z.land v 0x1f0000 in
  if i =? 0 then OP_BLTZ
  else if i =? 0x10000 then OP_BGEZ
  else if i =? 0x100000 then OP_BLTZAL
  else if i =? 0x110000 then OP_BGEZAL
  else OP_UNIMP.

(** [v] is the instruction word as an [unsigned int]. *)
Definition Decode (v : Z) : result Instruction :=
  let rs := Z.land (Z.shiftr v 21) 0x1f in
  let rt := Z.land (Z.shiftr v 16) 0x1f in
  let rd := Z.land (Z.shiftr v 11) 0x1f in
  '(op, format) ← aget opTable (Z.land (Z.shiftr v 26) 0x3f);
  let extra :=
    match format with
    | IFMT =>
        let extra := Z.land v 0xffff in
        if negb (Z.land extra 0x8000 =? 0) then wrap32 (Z.lor extra 0xffff0000) else extra
    | RFMT => Z.land (Z.shiftr v 6) 0x1f
    | JFMT => Z.land v 0x3ffffff
    end in
  op ← match op with
       | SPECIAL => aget specialTable (Z.land v 0x3f)
       | BCOND => Ok (decode_bcond v)
       | _ => Ok op
       end;
  Ok (mkInstr v op rs rt rd extra).

(** ** Multiplication *)

(** The loop over the bits of [a]: [n] iterations are left. *)
Fixpoint Mult_loop (n : nat) (a bHi bLo hi lo : Z) : Z * Z :=
  match n with
  | O => (hi, lo)
  | S n =>
      let odd := negb (Z.land a 1 =? 0) in
      let lo' := if odd then u32 (lo + bLo) else lo in
      let hi' := if odd then u32 ((if lo' <? bLo then u32 (hi + 1) else hi) + bHi) else hi in
      if odd && (Z.land (u32 a) 0xfffffffe =? 0) then (hi', lo')
      else
        let bHi := u32 (Z.shiftl bHi 1) in
        let bHi := if negb (Z.land bLo 0x80000000 =? 0) then Z.lor bHi 1 else bHi in
        Mult_loop n (Z.shiftr a 1) bHi (u32 (Z.shiftl bLo 1)) hi' lo'
  end.

(** The pair is what is left in [*hiPtr] and [*loPtr]. *)
Definition Mult (a b : Z) (signedArith : bool) : Z * Z :=
  if (a =? 0) || (b =? 0) then (0, 0)
  else
    let '(negative, a) :=
      if signedArith && (a <? 0) then (true, wrap32 (- a)) else (false, a) in
    let '(negative, b) :=
      if signedArith && (b <? 0) then (negb negative, wrap32 (- b)) else (negative, b) in
    let '(hi, lo) := Mult_loop 32 a 0 (u32 b) 0 0 in
    if negative then
      let hi := u32 (Z.lnot hi) in
      let lo := u32 (u32 (Z.lnot lo) + 1) in
      (wrap32 (if lo =? 0 then u32 (hi + 1) else hi), wrap32 lo)
    else (wrap32 hi, wrap32 lo).

(** ** Execution *)

(** [registers[i]] as an r-value and as an l-value. *)
Definition reg (m : Machine) (i : Z) : result Z := aget (registers m) i.
Definition setreg (m : Machine) (i v : Z) : result Machine :=
  r ← aset (registers m) i v; Ok (set_registers m r).

(** [x & SIGN_BIT], as a condition. *)
Definition sign_bit (x : Z) : bool := negb (Z.land (u32 x) SIGN_BIT =? 0).

Inductive outcome :=
| Trap (e : ExceptionType) (m : Machine)
| Next (m : Machine) (pcAfter nextLoadReg nextLoadValue : Z).

(** [RaiseException(e, badVAddr); return;] *)
Definition raise (m : Machine) (e : ExceptionType) (badVAddr : Z) : result outcome :=
  m ← RaiseException m badVAddr; Ok (Trap e m).

Section Execute.
Variable be : bool.  (* HOST_IS_BIG_ENDIAN *)

(** [if (!machine->ReadMem(addr, size, &value)) return;] *)
Definition read_or_return (m : Machine) (addr size : Z)
    (k : Z → Machine → result outcome) : result outcome :=
  '(a, m) ← ReadMem be m addr size;
  match a with Trapped e => Ok (Trap e m) | Done v => k v m end.

Definition write_or_return (m : Machine) (addr size v : Z)
    (k : Machine → result outcome) : result outcome :=
  '(a, m) ← WriteMem be m addr size v;
  match a with Trapped e => Ok (Trap e m) | Done _ => k m end.

(** OP_SRA ... OP_RES and the default case *)
Definition exec_rest (m : Machine) (instr : Instruction) (pcAfter : Z) : result outcome :=
  let next m := Ok (Next m pcAfter 0 0) in
  s ← reg m (rs instr); t ← reg m (rt instr);
  match opCode instr with
  | OP_SRA => m ← setreg m (rd instr) (Z.shiftr t (extra instr)); next m
  | OP_SRAV => m ← setreg m (rd instr) (Z.shiftr t (Z.land s 0x1f)); next m
  | OP_SRL => m ← setreg m (rd instr) (Z.shiftr t (extra instr)); next m
  | OP_SRLV => m ← setreg m (rd instr) (Z.shiftr t (Z.land s 0x1f)); next m
  | OP_SUB =>
      let diff := wrap32 (s - t) in
      if sign_bit (Z.lxor s t) && sign_bit (Z.lxor s diff)
      then raise m OverflowException 0
      else m ← setreg m (rd instr) diff; next m
  | OP_SUBU => m ← setreg m (rd instr) (wrap32 (s - t)); next m
  | OP_SW =>
      write_or_return m (wrap32 (s + extra instr)) 4 t next
  | OP_SWL =>
      let tmp := wrap32 (s + extra instr) in
      ASSERT (Z.land tmp 0x3 =? 0);;
      read_or_return m (Z.land tmp (Z.lnot 0x3)) 4 (λ value m,
        let value :=
          match Z.land tmp 0x3 with
          | 0 => t
          | 1 => wrap32 (Z.lor (Z.land (u32 value) 0xff000000) (Z.land (Z.shiftr t 8) 0xffffff))
          | 2 => wrap32 (Z.lor (Z.land (u32 value) 0xffff0000) (Z.land (Z.shiftr t 16) 0xffff))
          | 3 => wrap32 (Z.lor (Z.land (u32 value) 0xffffff00) (Z.land (Z.shiftr t 24) 0xff))
          | _ => value
          end in
        write_or_return m (Z.land tmp (Z.lnot 0x3)) 4 value next)
  | OP_SWR =>
      let tmp := wrap32 (s + extra instr) in
      ASSERT (Z.land tmp 0x3 =? 0);;
      read_or_return m (Z.land tmp (Z.lnot 0x3)) 4 (λ value m,
        let value :=
          match Z.land tmp 0x3 with
          | 0 => wrap32 (Z.lor (Z.land value 0xffffff) (Z.shiftl t 24))
          | 1 => wrap32 (Z.lor (Z.land value 0xffff) (Z.shiftl t 16))
          | 2 => wrap32 (Z.lor (Z.land value 0xff) (Z.shiftl t 8))
          | 3 => t
          | _ => value
          end in
        write_or_return m (Z.land tmp (Z.lnot 0x3)) 4 value next)
  | OP_SYSCALL => raise m SyscallException 0
  | OP_XOR => m ← setreg m (rd instr) (Z.lxor s t); next m
  | OP_XORI => m ← setreg m (rt instr) (Z.lxor s (Z.land (extra instr) 0xffff)); next m
  | OP_RES | OP_UNIMP => raise m IllegalInstrException 0
  | _ => AssertFail
  end.

(** OP_MFHI ... OP_SLTU *)
Definition exec_middle (m : Machine) (instr : Instruction) (pcAfter : Z) : result outcome :=
  let next m := Ok (Next m pcAfter 0 0) in
  s ← reg m (rs instr); t ← reg m (rt instr);
  match opCode instr with
  | OP_MFHI => h ← reg m HiReg; m ← setreg m (rd instr) h; next m
  | OP_MFLO => l ← reg m LoReg; m ← setreg m (rd instr) l; next m
  | OP_MTHI => m ← setreg m HiReg s; next m
  | OP_MTLO => m ← setreg m LoReg s; next m
  | OP_MULT =>
      let '(hi, lo) := Mult s t true in
      m ← setreg m HiReg hi; m ← setreg m LoReg lo; next m
  | OP_MULTU =>
      let '(hi, lo) := Mult s t false in
      m ← setreg m HiReg hi; m ← setreg m LoReg lo; next m
  | OP_NOR => m ← setreg m (rd instr) (Z.lnot (Z.lor s t)); next m
  | OP_OR => m ← setreg m (rd instr) (Z.lor s s); next m
  | OP_ORI => m ← setreg m (rt instr) (Z.lor s (Z.land (extra instr) 0xffff)); next m
  | OP_SB => write_or_return m (wrap32 (s + extra instr)) 1 t next
  | OP_SH => write_or_return m (wrap32 (s + extra instr)) 2 t next
  | OP_SLL => m ← setreg m (rd instr) (wrap32 (Z.shiftl t (extra instr))); next m
  | OP_SLLV => m ← setreg m (rd instr) (wrap32 (Z.shiftl t (Z.land s 0x1f))); next m
  | OP_SLT => m ← setreg m (rd instr) (if s <? t then 1 else 0); next m
  | OP_SLTI => m ← setreg m (rt instr) (if s <? extra instr then 1 else 0); next m
  | OP_SLTIU => m ← setreg m (rt instr) (if u32 s <? u32 (extra instr) then 1 else 0); next m
  | OP_SLTU => m ← setreg m (rd instr) (if u32 s <? u32 t then 1 else 0); next m
  | _ => exec_rest m instr pcAfter
  end.

(** OP_LB ... OP_LWR: the value read, for the delay slot *)
Definition exec_load (m : Machine) (instr : Instruction) (pcAfter : Z) : result outcome :=
  s ← reg m (rs instr); t ← reg m (rt instr);
  let tmp := wrap32 (s + extra instr) in
  match opCode instr with
  | OP_LB | OP_LBU =>
      read_or_return m tmp 1 (λ value m,
        let value :=
          if negb (Z.land value 0x80 =? 0) && is_OP_LB (opCode instr)
          then wrap32 (Z.lor (u32 value) 0xffffff00) else Z.land value 0xff in
        Ok (Next m pcAfter (rt instr) value))
  | OP_LH | OP_LHU =>
      if negb (Z.land tmp 0x1 =? 0) then raise m AddressErrorException tmp
      else read_or_return m tmp 2 (λ value m,
        let value :=
          if negb (Z.land value 0x8000 =? 0) && is_OP_LH (opCode instr)
          then wrap32 (Z.lor (u32 value) 0xffff0000) else Z.land value 0xffff in
        Ok (Next m pcAfter (rt instr) value))
  | OP_LUI =>
      m ← setreg m (rt instr) (wrap32 (Z.shiftl (extra instr) 16));
      Ok (Next m pcAfter 0 0)
  | OP_LW =>
      if negb (Z.land tmp 0x3 =? 0) then raise m AddressErrorException tmp
      else read_or_return m tmp 4 (λ value m, Ok (Next m pcAfter (rt instr) value))
  | OP_LWL =>
      ASSERT (Z.land tmp 0x3 =? 0);;
      read_or_return m tmp 4 (λ value m,
        lr ← reg m LoadReg; lv ← reg m LoadValueReg; t ← reg m (rt instr);
        let nlv := if lr =? rt instr then lv else t in
        let nlv :=
          match Z.land tmp 0x3 with
          | 0 => value
          | 1 => wrap32 (Z.lor (Z.land nlv 0xff) (Z.shiftl value 8))
          | 2 => wrap32 (Z.lor (Z.land nlv 0xffff) (Z.shiftl value 16))
          | 3 => wrap32 (Z.lor (Z.land nlv 0xffffff) (Z.shiftl value 24))
          | _ => nlv
          end in
        Ok (Next m pcAfter (rt instr) nlv))
  | OP_LWR =>
      ASSERT (Z.land tmp 0x3 =? 0);;
      read_or_return m tmp 4 (λ value m,
        lr ← reg m LoadReg; lv ← reg m LoadValueReg; t ← reg m (rt instr);
        let nlv := if lr =? rt instr then lv else t in
        let nlv :=
          match Z.land tmp 0x3 with
          | 0 => wrap32 (Z.lor (Z.land (u32 nlv) 0xffffff00) (Z.land (Z.shiftr value 24) 0xff))
          | 1 => wrap32 (Z.lor (Z.land (u32 nlv) 0xffff0000) (Z.land (Z.shiftr value 16) 0xffff))
          | 2 => wrap32 (Z.lor (Z.land (u32 nlv) 0xff000000) (Z.land (Z.shiftr value 8) 0xffffff))
          | 3 => value
          | _ => nlv
          end in
        Ok (Next m pcAfter (rt instr) nlv))
  | _ => exec_middle m instr pcAfter
  end.

(** OP_BEQ ... OP_JR: branches, divisions and jumps *)
Definition exec_branch (m : Machine) (instr : Instruction) (pcAfter : Z) : result outcome :=
  let next m pc := Ok (Next m pc 0 0) in
  npc ← reg m NextPCReg;
  let target := wrap32 (npc + IndexToAddr (extra instr)) in
  s ← reg m (rs instr); t ← reg m (rt instr);
  match opCode instr with
  | OP_BEQ => next m (if s =? t then target else pcAfter)
  | OP_BGEZAL =>
      m ← setreg m R31 (wrap32 (npc + 4));
      s ← reg m (rs instr);
      next m (if negb (sign_bit s) then target else pcAfter)
  | OP_BGEZ => next m (if negb (sign_bit s) then target else pcAfter)
  | OP_BGTZ => next m (if 0 <? s then target else pcAfter)
  | OP_BLEZ => next m (if s <=? 0 then target else pcAfter)
  | OP_BLTZAL =>
      m ← setreg m R31 (wrap32 (npc + 4));
      s ← reg m (rs instr);
      next m (if sign_bit s then target else pcAfter)
  | OP_BLTZ => next m (if sign_bit s then target else pcAfter)
  | OP_BNE => next m (if negb (s =? t) then target else pcAfter)
  | OP_DIV =>
      if t =? 0 then
        m ← setreg m LoReg 0; m ← setreg m HiReg 0; next m pcAfter
      else if (s =? - 2 ^ 31) && (t =? -1) then Undefined
      else
        m ← setreg m LoReg (Z.quot s t); m ← setreg m HiReg (Z.rem s t); next m pcAfter
  | OP_DIVU =>
      if u32 t =? 0 then
        m ← setreg m LoReg 0; m ← setreg m HiReg 0; next m pcAfter
      else
        m ← setreg m LoReg (wrap32 (u32 s / u32 t));
        m ← setreg m HiReg (wrap32 (u32 s mod u32 t)); next m pcAfter
  | OP_JAL =>
      m ← setreg m R31 (wrap32 (npc + 4));
      next m (wrap32 (Z.lor (Z.land (u32 pcAfter) 0xf0000000) (u32 (IndexToAddr (extra instr)))))
  | OP_J =>
      next m (wrap32 (Z.lor (Z.land (u32 pcAfter) 0xf0000000) (u32 (IndexToAddr (extra instr)))))
  | OP_JALR =>
      m ← setreg m (rd instr) (wrap32 (npc + 4));
      s ← reg m (rs instr);
      next m s
  | OP_JR => next m s
  | _ => exec_load m instr pcAfter
  end.

(** OP_ADD ... OP_ANDI *)
Definition exec (m : Machine) (instr : Instruction) (pcAfter : Z) : result outcome :=
  let next m := Ok (Next m pcAfter 0 0) in
  s ← reg m (rs instr); t ← reg m (rt instr);
  match opCode instr with
  | OP_ADD =>
      let sum := wrap32 (s + t) in
      if negb (sign_bit (Z.lxor s t)) && sign_bit (Z.lxor s sum)
      then raise m OverflowException 0
      else m ← setreg m (rd instr) sum; next m
  | OP_ADDI =>
      let sum := wrap32 (s + extra instr) in
      if negb (sign_bit (Z.lxor s (extra instr))) && sign_bit (Z.lxor (extra instr) sum)
      then raise m OverflowException 0
      else m ← setreg m (rt instr) sum; next m
  | OP_ADDIU => m ← setreg m (rt instr) (wrap32 (s + extra instr)); next m
  | OP_ADDU => m ← setreg m (rd instr) (wrap32 (s + t)); next m
  | OP_AND => m ← setreg m (rd instr) (Z.land s t); next m
  | OP_ANDI => m ← setreg m (rt instr) (Z.land s (Z.land (extra instr) 0xffff)); next m
  | _ => exec_branch m instr pcAfter
  end.

(** [Some e]: an exception, to be handled by the kernel; [None]: the
    instruction completed. *)
Definition OneInstruction (m : Machine) : result (option ExceptionType * Machine) :=
  pc ← reg m PCReg;
  '(a, m) ← ReadMem be m pc 4;
  match a with
  | Trapped e => Ok (Some e, m)
  | Done raw =>
      instr ← Decode (u32 raw);
      npc ← reg m NextPCReg;
      o ← exec m instr (wrap32 (npc + 4));
      match o with
      | Trap e m => Ok (Some e, m)
      | Next m pcAfter nextLoadReg nextLoadValue =>
          m ← DelayedLoad m nextLoadReg nextLoadValue;
          pc ← reg m PCReg; m ← setreg m PrevPCReg pc;
          npc ← reg m NextPCReg; m ← setreg m PCReg npc;
          m ← setreg m NextPCReg pcAfter;
          Ok (None, m)
      end
  end.

End Execute.

(** ** Bits of words *)

Lemma testbit31 x : uint32 x → Z.testbit x 31 = (2 ^ 31 <=? x).
Proof.
  intros [? ?]. rewrite Z.testbit_eqb by lia.
  destruct (Z.leb_spec (2 ^ 31) x).
  - replace (x / 2 ^ 31) with 1; [done|]. apply Z.div_unique with (x - 2 ^ 31); lia.
  - rewrite Z.div_small by lia. done.
Qed.

Lemma land_sign x : uint32 x → (Z.land x 0x80000000 =? 0) = (x <? 2 ^ 31).
Proof.
  intros Hx. change 0x80000000 with (2 ^ 31). rewrite land_pow2, testbit31 by (done || lia).
  rewrite Z.ltb_antisym. by destruct (2 ^ 31 <=? x).
Qed.

Lemma sign_bit_int32 x : int32 x → sign_bit x = (x <? 0).
Proof.
  intros Hx. unfold sign_bit, SIGN_BIT. rewrite land_sign by apply u32_uint32.
  unfold int32 in Hx. destruct (Z.ltb_spec x 0).
  - rewrite u32_neg by done. destruct (Z.ltb_spec (x + 2 ^ 32) (2 ^ 31)); [lia|done].
  - rewrite u32_nonneg_id by done. destruct (Z.ltb_spec x (2 ^ 31)); [done|lia].
Qed.

(** A word fits an [int] iff its bits from 31 on are all the sign. *)
Lemma int32_shiftr x : int32 x ↔ Z.shiftr x 31 = 0 ∨ Z.shiftr x 31 = -1.
Proof.
  rewrite Z.shiftr_div_pow2 by lia. unfold int32. split.
  - intros [? ?]. destruct (decide (0 <= x)).
    + left. apply Z.div_small. lia.
    + right. symmetry. apply Z.div_unique with (x + 2 ^ 31); lia.
  - pose proof (Z.div_mod x (2 ^ 31)). pose proof (Z.mod_pos_bound x (2 ^ 31)). lia.
Qed.

Lemma int32_land a b : int32 a → int32 b → int32 (Z.land a b).
Proof. rewrite !int32_shiftr, Z.shiftr_land. intros [-> | ->] [-> | ->]; auto. Qed.

Lemma int32_lor a b : int32 a → int32 b → int32 (Z.lor a b).
Proof. rewrite !int32_shiftr, Z.shiftr_lor. intros [-> | ->] [-> | ->]; auto. Qed.

Lemma int32_lxor a b : int32 a → int32 b → int32 (Z.lxor a b).
Proof. rewrite !int32_shiftr, Z.shiftr_lxor. intros [-> | ->] [-> | ->]; auto. Qed.

Lemma int32_lnot a : int32 a → int32 (Z.lnot a).
Proof. unfold int32, Z.lnot. lia. Qed.

Lemma int32_asr a k : int32 a → 0 <= k → int32 (Z.shiftr a k).
Proof.
  rewrite !int32_shiftr. intros Ha Hk. rewrite Z.shiftr_shiftr by lia.
  rewrite Z.add_comm, <- Z.shiftr_shiftr by lia.
  destruct Ha as [-> | ->]; [left; apply Z.shiftr_0_l|right].
  rewrite Z.shiftr_div_pow2 by lia. symmetry.
  assert (0 < 2 ^ k) by (apply Z.pow_pos_nonneg; lia).
  apply Z.div_unique with (2 ^ k - 1); lia.
Qed.

Lemma int32_low a n : 0 <= n < 31 → int32 (Z.land a (Z.ones n)).
Proof.
  intros. rewrite Z.land_ones by lia.
  assert (0 < 2 ^ n) by (apply Z.pow_pos_nonneg; lia).
  assert (2 ^ n < 2 ^ 31) by (apply Z.pow_lt_mono_r; lia).
  pose proof (Z.mod_pos_bound a (2 ^ n)). unfold int32. lia.
Qed.

(** ** Multiplication lemmas *)

Lemma u32_carry s :
  0 <= s < 2 * 2 ^ 32 → u32 s = if s <? 2 ^ 32 then s else s - 2 ^ 32.
Proof.
  intros. destruct (Z.ltb_spec s (2 ^ 32)).
  - apply u32_id. unfold uint32. lia.
  - unfold u32. symmetry. apply Z.mod_unique with 1; lia.
Qed.

(** The double-word addition of the loop. *)
Lemma add64 lo hi bLo bHi :
  uint32 lo → uint32 hi → uint32 bLo → uint32 bHi →
  let lo' := u32 (lo + bLo) in
  let hi' := u32 ((if lo' <? bLo then u32 (hi + 1) else hi) + bHi) in
  lo' + 2 ^ 32 * hi' = (lo + 2 ^ 32 * hi + (bLo + 2 ^ 32 * bHi)) mod 2 ^ 64.
Proof.
  unfold uint32. intros Hlo Hhi HbL HbH. cbv zeta.
  rewrite (u32_carry (lo + bLo)) by lia. destruct (Z.ltb_spec (lo + bLo) (2 ^ 32)).
  - destruct (Z.ltb_spec (lo + bLo) bLo); [lia|]. rewrite (u32_carry (hi + bHi)) by lia.
    destruct (Z.ltb_spec (hi + bHi) (2 ^ 32)).
    + apply Z.mod_unique with 0; lia.
    + apply Z.mod_unique with 1; lia.
  - destruct (Z.ltb_spec (lo + bLo - 2 ^ 32) bLo); [|lia]. rewrite (u32_carry (hi + 1)) by lia.
    destruct (Z.ltb_spec (hi + 1) (2 ^ 32)); (rewrite u32_carry by lia);
      match goal with |- context [?x <? 2 ^ 32] => destruct (Z.ltb_spec x (2 ^ 32)) end;
      first [apply Z.mod_unique with 0; lia | apply Z.mod_unique with 1; lia].
Qed.

(** The double-word left shift of the loop. *)
Lemma shift64 bLo bHi :
  uint32 bLo → uint32 bHi →
  let bHi' := u32 (Z.shiftl bHi 1) in
  let bHi' := if negb (Z.land bLo 0x80000000 =? 0) then Z.lor bHi' 1 else bHi' in
  uint32 bHi' ∧
  u32 (Z.shiftl bLo 1) + 2 ^ 32 * bHi' = (2 * (bLo + 2 ^ 32 * bHi)) mod 2 ^ 64.
Proof.
  intros HL HH. cbv zeta. rewrite land_sign by done. unfold uint32 in *.
  rewrite !Z.shiftl_mul_pow2, Z.pow_1_r by lia.
  assert (∃ k, u32 (bHi * 2) = 2 * k ∧ 0 <= k < 2 ^ 31 ∧
    (bHi = k ∨ bHi = k + 2 ^ 31)) as (k & -> & Hk & HkH).
  { rewrite u32_carry by lia. destruct (Z.ltb_spec (bHi * 2) (2 ^ 32)).
    - exists bHi. lia.
    - exists (bHi - 2 ^ 31). lia. }
  assert (Z.lor (2 * k) 1 = 2 * k + 1) as ->.
  { rewrite Z.lor_comm, Z.mul_comm. change 2 with (2 ^ 1). rewrite lor_low_high by lia. lia. }
  rewrite (u32_carry (bLo * 2)) by lia.
  destruct (Z.ltb_spec bLo (2 ^ 31)), (Z.ltb_spec (bLo * 2) (2 ^ 32)); try lia; simpl negb;
    cbv iota; (split; [lia|]);
    destruct HkH; first [apply Z.mod_unique with 0; lia | apply Z.mod_unique with 1; lia].
Qed.

Lemma mod_split a n :
  a mod 2 ^ Z.of_nat (S n) = a mod 2 + 2 * ((a / 2) mod 2 ^ Z.of_nat n).
Proof.
  replace (Z.of_nat (S n)) with (1 + Z.of_nat n) by lia.
  rewrite Z.pow_add_r, Z.pow_1_r by lia. apply Z.rem_mul_r; lia.
Qed.

(** One bit is left: the loop may stop. *)
Lemma last_bit a n :
  Z.land (u32 a) 0xfffffffe = 0 → a mod 2 = 1 → (n <= 31)%nat →
  a mod 2 ^ Z.of_nat (S n) = 1.
Proof.
  intros Hz Ho Hn. change 0xfffffffe with (Z.shiftl (Z.ones 31) 1) in Hz.
  rewrite land_field in Hz by lia.
  assert (u32 a = 1) as Ha.
  { pose proof (u32_uint32 a) as Hu. unfold uint32 in Hu.
    rewrite (Z.mod_small (u32 a / 2 ^ 1)) in Hz by
      (split; [apply Z.div_pos; lia|apply Z.div_lt_upper_bound; lia]).
    assert (u32 a mod 2 = 1) by (rewrite <- Ho; unfold u32;
      apply Z.mod_mod_divide; by exists (2 ^ 31)).
    rewrite Z.pow_1_r in Hz. pose proof (Z.div_mod (u32 a) 2 ltac:(lia)). lia. }
  rewrite <- (Z.mod_mod_divide a (2 ^ 32) (2 ^ Z.of_nat (S n))).
  - change (a mod 2 ^ 32) with (u32 a). rewrite Ha. apply Z.mod_1_l.
    apply Z.pow_gt_1; lia.
  - exists (2 ^ (32 - Z.of_nat (S n))). rewrite <- Z.pow_add_r by lia. f_equal. lia.
Qed.

Lemma Mult_loop_spec n a bHi bLo hi lo :
  (n <= 32)%nat → uint32 bHi → uint32 bLo → uint32 hi → uint32 lo →
  let '(hi', lo') := Mult_loop n a bHi bLo hi lo in
  uint32 hi' ∧ uint32 lo' ∧
  lo' + 2 ^ 32 * hi' =
  (lo + 2 ^ 32 * hi + a mod 2 ^ Z.of_nat n * (bLo + 2 ^ 32 * bHi)) mod 2 ^ 64.
Proof.
  revert a bHi bLo hi lo. induction n as [|n IH]; intros a bHi bLo hi lo Hn HbH HbL Hh Hl.
  { simpl. rewrite Z.mod_1_r. split; [done|]. split; [done|].
    unfold uint32 in *. rewrite Z.mod_small; lia. }
  cbn [Mult_loop]. rewrite mod_split.
  assert (Z.land a 1 = a mod 2) as -> by (change 1 with (Z.ones 1); by rewrite Z.land_ones by lia).
  rewrite Z.shiftr_div_pow2, Z.pow_1_r by lia.
  destruct (shift64 bLo bHi HbL HbH) as [HbH' HB]. cbv zeta in HbH', HB |- *.
  set (bHi' := if negb (Z.land bLo 0x80000000 =? 0) then _ else _) in *.
  pose proof (Z.mod_pos_bound a 2 ltac:(lia)) as Ha.
  destruct (Z.eqb_spec (a mod 2) 0) as [Hev|Hodd]; simpl negb; cbv iota; simpl andb.
  - cbv iota. specialize (IH (a / 2) bHi' (u32 (Z.shiftl bLo 1)) hi lo).
    destruct (Mult_loop n (a / 2) bHi' _ hi lo) as [hi' lo'].
    destruct IH as (? & ? & ->); [lia|auto with nachos..]. split; [done|]. split; [done|].
    rewrite HB, Hev. rewrite <- Zplus_mod_idemp_r, Zmult_mod_idemp_r, Zplus_mod_idemp_r.
    f_equal. lia.
  - assert (a mod 2 = 1) as Hone by lia. clear Hodd.
    pose proof (add64 lo hi bLo bHi Hl Hh HbL HbH) as Hadd. cbv zeta in Hadd.
    set (lo' := u32 (lo + bLo)) in *.
    set (hi' := u32 ((if lo' <? bLo then _ else _) + bHi)) in *.
    destruct (Z.eqb_spec (Z.land (u32 a) 0xfffffffe) 0) as [Hz|Hz].
    + pose proof (last_bit a n Hz Hone ltac:(lia)) as Hlast. rewrite mod_split in Hlast.
      split; [apply u32_uint32|]. split; [apply u32_uint32|]. rewrite Hlast, Hadd. f_equal. lia.
    + specialize (IH (a / 2) bHi' (u32 (Z.shiftl bLo 1)) hi' lo').
      destruct (Mult_loop n (a / 2) bHi' _ hi' lo') as [hi'' lo''].
      destruct IH as (? & ? & ->); [lia|done|apply u32_uint32..|].
      split; [done|]. split; [done|]. rewrite HB, Hadd, Hone.
      rewrite <- Zplus_mod_idemp_r, Zmult_mod_idemp_r, Zplus_mod_idemp_r, Zplus_mod_idemp_l.
      f_equal. lia.
Qed.

Lemma Mult_loop_product a b :
  let '(hi, lo) := Mult_loop 32 a 0 (u32 b) 0 0 in
  uint32 hi ∧ uint32 lo ∧ lo + 2 ^ 32 * hi = u32 a * u32 b.
Proof.
  pose proof (Mult_loop_spec 32 a 0 (u32 b) 0 0) as H.
  destruct (Mult_loop 32 a 0 (u32 b) 0 0) as [hi lo].
  destruct H as (? & ? & ->); [lia|done|apply u32_uint32|done|done|].
  split; [done|]. split; [done|].
  change (a mod 2 ^ Z.of_nat 32) with (u32 a).
  replace (0 + 2 ^ 32 * 0 + u32 a * (u32 b + 2 ^ 32 * 0)) with (u32 a * u32 b) by lia.
  pose proof (u32_uint32 a) as Ha. pose proof (u32_uint32 b) as Hb. unfold uint32 in *.
  apply Z.mod_small. nia.
Qed.

Lemma u32_lnot x : uint32 x → u32 (Z.lnot x) = 2 ^ 32 - 1 - x.
Proof.
  unfold uint32, u32, Z.lnot. intros. symmetry. apply Z.mod_unique with (-1); lia.
Qed.

(** The double-word negation. *)
Lemma neg64 hi lo :
  uint32 hi → uint32 lo → 0 < lo + 2 ^ 32 * hi →
  let lo' := u32 (u32 (Z.lnot lo) + 1) in
  let hi' := if lo' =? 0 then u32 (u32 (Z.lnot hi) + 1) else u32 (Z.lnot hi) in
  uint32 lo' ∧ uint32 hi' ∧ lo' + 2 ^ 32 * hi' = 2 ^ 64 - (lo + 2 ^ 32 * hi).
Proof.
  intros Hh Hl Hp. cbv zeta. split; [apply u32_uint32|].
  split; [destruct (_ =? _); apply u32_uint32|].
  rewrite !u32_lnot by done. unfold uint32 in *.
  destruct (Z.eqb_spec (u32 (2 ^ 32 - 1 - lo + 1)) 0) as [Hz|Hz];
    rewrite u32_carry in Hz |- * by lia; try rewrite u32_carry by lia;
    repeat match goal with
    | H : context [?x <? 2 ^ 32] |- _ => destruct (Z.ltb_spec x (2 ^ 32))
    | |- context [?x <? 2 ^ 32] => destruct (Z.ltb_spec x (2 ^ 32))
    end; lia.
Qed.

Lemma wrap32_half x : uint32 x → wrap32 x = if x <? 2 ^ 31 then x else x - 2 ^ 32.
Proof.
  unfold uint32. intros. destruct (Z.ltb_spec x (2 ^ 31)).
  - apply wrap32_id. unfold int32. lia.
  - rewrite (wrap32_eqm x (x - 2 ^ 32)).
    + apply wrap32_id. unfold int32. lia.
    + rewrite <- (Z_mod_plus_full (x - 2 ^ 32) 1). f_equal. lia.
Qed.

Lemma u32_abs a : int32 a → u32 (if a <? 0 then wrap32 (- a) else a) = Z.abs a.
Proof.
  intros Ha. destruct (Z.ltb_spec a 0).
  - rewrite u32_wrap32. unfold int32 in Ha. rewrite u32_id; [lia|]. unfold uint32. lia.
  - rewrite u32_nonneg_id by done. lia.
Qed.

(** What [Mult] computes on the magnitudes and the sign. *)
Lemma Mult_signed a b :
  int32 a → int32 b → a ≠ 0 → b ≠ 0 →
  Mult a b true =
  let '(hi, lo) := Mult_loop 32 (if a <? 0 then wrap32 (- a) else a) 0
                     (u32 (if b <? 0 then wrap32 (- b) else b)) 0 0 in
  if xorb (a <? 0) (b <? 0) then
    let lo := u32 (u32 (Z.lnot lo) + 1) in
    (wrap32 (if lo =? 0 then u32 (u32 (Z.lnot hi) + 1) else u32 (Z.lnot hi)), wrap32 lo)
  else (wrap32 hi, wrap32 lo).
Proof.
  intros. unfold Mult. destruct (Z.eqb_spec a 0), (Z.eqb_spec b 0); try done.
  by destruct (a <? 0), (b <? 0).
Qed.

(** ** Properties of multiplication *)

(** C13: the bit-serial multiplication of the simulator is multiplication: the
    two words it leaves in HI and LO are the 64-bit product, signed for MULT and
    unsigned for MULTU, for all 2^64 operand pairs (INT_MIN included). *)
Theorem Mult_correct a b signedArith :
  int32 a → int32 b →
  let '(hi, lo) := Mult a b signedArith in
  int32 hi ∧ int32 lo ∧
  if (signedArith : bool) then hi * 2 ^ 32 + u32 lo = a * b
  else u32 hi * 2 ^ 32 + u32 lo = u32 a * u32 b.
Proof.
  intros Ha Hb. destruct (decide (a = 0)) as [->|Ha0]; [by destruct signedArith|].
  destruct (decide (b = 0)) as [->|Hb0].
  { unfold Mult. rewrite orb_true_r. destruct signedArith; (split; [done|]); (split; [done|]).
    - by rewrite Z.mul_0_r.
    - change (u32 0) with 0. by rewrite Z.mul_0_r. }
  destruct signedArith.
  - rewrite Mult_signed by done.
    pose proof (Mult_loop_product (if a <? 0 then wrap32 (- a) else a)
                  (if b <? 0 then wrap32 (- b) else b)) as H.
    destruct (Mult_loop 32 _ _ _ _ _) as [hi lo]. destruct H as (Hh & Hl & Hp).
    rewrite !u32_abs in Hp by done.
    assert (0 < Z.abs a * Z.abs b <= 2 ^ 62) as Hmag by (unfold int32 in *; nia).
    destruct (xorb (a <? 0) (b <? 0)) eqn:Hx.
    + destruct (neg64 hi lo Hh Hl) as (Hl' & Hh' & Hv); [lia|]. cbv zeta in *.
      set (lo' := u32 (u32 (Z.lnot lo) + 1)) in *.
      set (hi' := if lo' =? 0 then _ else _) in *.
      split; [apply wrap32_int32|]. split; [apply wrap32_int32|].
      rewrite u32_wrap32, (u32_id lo'), wrap32_half by done.
      assert (Z.abs a * Z.abs b = - (a * b)) as Hneg.
      { destruct (Z.ltb_spec a 0), (Z.ltb_spec b 0); try done; nia. }
      unfold uint32 in *. destruct (Z.ltb_spec hi' (2 ^ 31)); lia.
    + split; [apply wrap32_int32|]. split; [apply wrap32_int32|].
      rewrite u32_wrap32, (u32_id lo), wrap32_half by done.
      assert (Z.abs a * Z.abs b = a * b) as Hpos.
      { destruct (Z.ltb_spec a 0), (Z.ltb_spec b 0); try done; nia. }
      unfold uint32 in *. destruct (Z.ltb_spec hi (2 ^ 31)); lia.
  - unfold Mult. destruct (Z.eqb_spec a 0), (Z.eqb_spec b 0); try done. cbn [orb andb].
    pose proof (Mult_loop_product a b) as H.
    destruct (Mult_loop 32 a 0 (u32 b) 0 0) as [hi lo]. destruct H as (Hh & Hl & Hp).
    split; [apply wrap32_int32|]. split; [apply wrap32_int32|].
    rewrite !u32_wrap32, !u32_id by done. lia.
Qed.

(** ** Decoding lemmas *)

(** A word from its fields, as the architecture manual draws them. *)
Definition encode (op rs rt rd shamt funct : Z) : Z :=
  op * 2 ^ 26 + rs * 2 ^ 21 + rt * 2 ^ 16 + rd * 2 ^ 11 + shamt * 2 ^ 6 + funct.

(** The sign extension of a 16-bit immediate. *)
Definition sext16 (i : Z) : Z := if i <? 2 ^ 15 then i else i - 2 ^ 16.

(** The encodings of the architecture manual (MIPS R2000/R3000): the operation of an
    opcode, of a function field (opcode 0), and of the rt field (opcode 1).  The
    numbers of the coprocessor instructions and of BREAK are those of operations that
    the simulator leaves out; all others are reserved. *)
Definition major_op (op : Z) : OpCode :=
  match op with
  | 2 => OP_J | 3 => OP_JAL | 4 => OP_BEQ | 5 => OP_BNE | 6 => OP_BLEZ | 7 => OP_BGTZ
  | 8 => OP_ADDI | 9 => OP_ADDIU | 10 => OP_SLTI | 11 => OP_SLTIU
  | 12 => OP_ANDI | 13 => OP_ORI | 14 => OP_XORI | 15 => OP_LUI
  | 32 => OP_LB | 33 => OP_LH | 34 => OP_LWL | 35 => OP_LW | 36 => OP_LBU | 37 => OP_LHU | 38 => OP_LWR
  | 40 => OP_SB | 41 => OP_SH | 42 => OP_SWL | 43 => OP_SW | 46 => OP_SWR
  | 16 | 17 | 18 | 19 | 48 | 49 | 50 | 51 | 56 | 57 | 58 | 59 => OP_UNIMP
  | _ => OP_RES
  end.

Definition special_op (funct : Z) : OpCode :=
  match funct with
  | 0 => OP_SLL | 2 => OP_SRL | 3 => OP_SRA | 4 => OP_SLLV | 6 => OP_SRLV | 7 => OP_SRAV
  | 8 => OP_JR | 9 => OP_JALR | 12 => OP_SYSCALL | 13 => OP_UNIMP
  | 16 => OP_MFHI | 17 => OP_MTHI | 18 => OP_MFLO | 19 => OP_MTLO
  | 24 => OP_MULT | 25 => OP_MULTU | 26 => OP_DIV | 27 => OP_DIVU
  | 32 => OP_ADD | 33 => OP_ADDU | 34 => OP_SUB | 35 => OP_SUBU
  | 36 => OP_AND | 37 => OP_OR | 38 => OP_XOR | 39 => OP_NOR | 42 => OP_SLT | 43 => OP_SLTU
  | _ => OP_RES
  end.

Definition bcond_op (rt : Z) : OpCode :=
  match rt with 0 => OP_BLTZ | 1 => OP_BGEZ | 16 => OP_BLTZAL | 17 => OP_BGEZAL | _ => OP_UNIMP end.

Definition op_of (op rt funct : Z) : OpCode :=
  if op =? 0 then special_op funct else if op =? 1 then bcond_op rt else major_op op.

(** The shift amount of the register format (opcode 0), the target of the jump format
    (J and JAL), the immediate of all others *)
Definition extra_of (op rs rt rd shamt funct : Z) : Z :=
  if op =? 0 then shamt
  else if (op =? 2) || (op =? 3) then rs * 2 ^ 21 + rt * 2 ^ 16 + rd * 2 ^ 11 + shamt * 2 ^ 6 + funct
  else sext16 (rd * 2 ^ 11 + shamt * 2 ^ 6 + funct).

(** The tables of the code have these encodings. *)
Definition manual_entry (op : Z) : OpCode * Format :=
  if op =? 0 then (SPECIAL, RFMT) else if op =? 1 then (BCOND, IFMT)
  else (major_op op, if (op =? 2) || (op =? 3) then JFMT else IFMT).

Lemma aget_map_seqZ {A} (f : Z → A) n i : 0 <= i < n → aget (f <$> seqZ 0 n) i = Ok (f i).
Proof.
  intros Hi. apply aget_Ok. split; [lia|]. rewrite list_lookup_fmap, lookup_seqZ_lt by lia. cbn. do 2 f_equal. lia.
Qed.

Lemma opTable_manual op : 0 <= op < 64 → aget opTable op = Ok (manual_entry op).
Proof. intros. rewrite <- (aget_map_seqZ manual_entry 64) by done. reflexivity. Qed.

Lemma specialTable_manual funct : 0 <= funct < 64 → aget specialTable funct = Ok (special_op funct).
Proof. intros. rewrite <- (aget_map_seqZ special_op 64) by done. reflexivity. Qed.

Lemma land_shiftr v k n : 0 <= k → 0 <= n → Z.land (Z.shiftr v k) (Z.ones n) = v / 2 ^ k mod 2 ^ n.
Proof. intros. by rewrite Z.land_ones, Z.shiftr_div_pow2 by lia. Qed.

(** A field above its low neighbours and below its high ones. *)
Lemma div_field hi f lo k n :
  0 <= k → 0 <= n → 0 <= lo < 2 ^ k → 0 <= f < 2 ^ n →
  (hi * 2 ^ (n + k) + f * 2 ^ k + lo) / 2 ^ k mod 2 ^ n = f.
Proof.
  intros Hk Hn Hlo Hf.
  replace (hi * 2 ^ (n + k) + f * 2 ^ k + lo) with (lo + (hi * 2 ^ n + f) * 2 ^ k)
    by (rewrite Z.pow_add_r by lia; ring).
  rewrite Z.div_add, Z.div_small by lia. rewrite Z.add_0_l, Z.add_comm, Z.mod_add by lia.
  by apply Z.mod_small.
Qed.

Lemma sext16_lor i :
  0 <= i < 2 ^ 16 →
  (if negb (Z.land i 0x8000 =? 0) then wrap32 (Z.lor i 0xffff0000) else i) = sext16 i.
Proof.
  intros Hi. change 0x8000 with (2 ^ 15). rewrite land_pow2 by lia. unfold sext16.
  assert (Z.testbit i 15 = (2 ^ 15 <=? i)) as ->.
  { rewrite Z.testbit_eqb by lia. destruct (Z.leb_spec (2 ^ 15) i).
    - replace (i / 2 ^ 15) with 1; [done|]. apply Z.div_unique with (i - 2 ^ 15); lia.
    - rewrite Z.div_small by lia. done. }
  destruct (Z.leb_spec (2 ^ 15) i), (Z.ltb_spec i (2 ^ 15)); try lia; simpl negb; cbv iota;
    [|done].
  change 0xffff0000 with (0xffff * 2 ^ 16). rewrite lor_low_high by lia.
  rewrite (wrap32_eqm _ (i - 2 ^ 16)); [apply wrap32_id; unfold int32; lia|].
  rewrite <- (Z_mod_plus_full (i - 2 ^ 16) 1). f_equal. lia.
Qed.

Lemma bcond_op_if x : bcond_op x =
  if x =? 0 then OP_BLTZ else if x =? 1 then OP_BGEZ
  else if x =? 16 then OP_BLTZAL else if x =? 17 then OP_BGEZAL else OP_UNIMP.
Proof. by destruct x as [|[[[[[]|[]|]|[[]|[]|]|]|[[[]|[]|]|[[]|[]|]|]|]|[[[[]|[]|]|[[]|[]|]|]|[[[]|[]|]|[[]|[]|]|]|]|]|]. Qed.

Lemma decode_bcond_spec v : decode_bcond v = bcond_op (v / 2 ^ 16 mod 2 ^ 5).
Proof.
  unfold decode_bcond. change 0x1f0000 with (Z.shiftl (Z.ones 5) 16).
  rewrite land_field by lia. change (2 ^ 16) with 65536. change (2 ^ 5) with 32.
  generalize (v / 65536 mod 32). intros x. rewrite bcond_op_if.
  destruct (Z.eqb_spec x 0), (Z.eqb_spec (x * 65536) 0); try lia; [done|].
  destruct (Z.eqb_spec x 1), (Z.eqb_spec (x * 65536) 0x10000); try lia; [done|].
  destruct (Z.eqb_spec x 16), (Z.eqb_spec (x * 65536) 0x100000); try lia; [done|].
  destruct (Z.eqb_spec x 17), (Z.eqb_spec (x * 65536) 0x110000); try lia; done.
Qed.

(** Where the fields of a word are. *)
Lemma encode_fields op rs rt rd shamt funct :
  0 <= op < 64 → 0 <= rs < 32 → 0 <= rt < 32 → 0 <= rd < 32 →
  0 <= shamt < 32 → 0 <= funct < 64 →
  let v := encode op rs rt rd shamt funct in
  v / 2 ^ 26 mod 2 ^ 6 = op ∧ v / 2 ^ 21 mod 2 ^ 5 = rs ∧ v / 2 ^ 16 mod 2 ^ 5 = rt ∧
  v / 2 ^ 11 mod 2 ^ 5 = rd ∧ v / 2 ^ 6 mod 2 ^ 5 = shamt ∧ v mod 2 ^ 6 = funct ∧
  v mod 2 ^ 16 = rd * 2 ^ 11 + shamt * 2 ^ 6 + funct ∧
  v mod 2 ^ 26 = rs * 2 ^ 21 + rt * 2 ^ 16 + rd * 2 ^ 11 + shamt * 2 ^ 6 + funct.
Proof.
  intros Hop Hrs Hrt Hrd Hsh Hfn v. repeat split.
  - replace v with (0 * 2 ^ (6 + 26) + op * 2 ^ 26 +
      (rs * 2 ^ 21 + rt * 2 ^ 16 + rd * 2 ^ 11 + shamt * 2 ^ 6 + funct)) by (unfold v, encode; lia).
    apply div_field; lia.
  - replace v with (op * 2 ^ (5 + 21) + rs * 2 ^ 21 +
      (rt * 2 ^ 16 + rd * 2 ^ 11 + shamt * 2 ^ 6 + funct)) by (unfold v, encode; lia).
    apply div_field; lia.
  - replace v with ((op * 2 ^ 5 + rs) * 2 ^ (5 + 16) + rt * 2 ^ 16 +
      (rd * 2 ^ 11 + shamt * 2 ^ 6 + funct)) by (unfold v, encode; lia).
    apply div_field; lia.
  - replace v with ((op * 2 ^ 10 + rs * 2 ^ 5 + rt) * 2 ^ (5 + 11) + rd * 2 ^ 11 +
      (shamt * 2 ^ 6 + funct)) by (unfold v, encode; lia).
    apply div_field; lia.
  - replace v with ((op * 2 ^ 15 + rs * 2 ^ 10 + rt * 2 ^ 5 + rd) * 2 ^ (5 + 6) + shamt * 2 ^ 6 +
      funct) by (unfold v, encode; lia).
    apply div_field; lia.
  - symmetry. apply Z.mod_unique with
      (op * 2 ^ 20 + rs * 2 ^ 15 + rt * 2 ^ 10 + rd * 2 ^ 5 + shamt); unfold v, encode; lia.
  - symmetry. apply Z.mod_unique with (op * 2 ^ 10 + rs * 2 ^ 5 + rt); unfold v, encode; lia.
  - symmetry. apply Z.mod_unique with op; unfold v, encode; lia.
Qed.

(** C12: decoding inverts the encoding of the architecture manual.  Every field
    of every instruction word is recovered, the 16-bit immediate sign extended,
    the jump target and the shift amount not, and the operation is the one that the
    manual gives to the opcode, function and branch-condition fields, with the
    coprocessor instructions and BREAK decoded as unimplemented and the remaining
    numbers as reserved. *)
Theorem Decode_encode op rs rt rd shamt funct :
  0 <= op < 64 → 0 <= rs < 32 → 0 <= rt < 32 → 0 <= rd < 32 →
  0 <= shamt < 32 → 0 <= funct < 64 →
  Decode (encode op rs rt rd shamt funct) =
  Ok (mkInstr (encode op rs rt rd shamt funct) (op_of op rt funct) rs rt rd
        (extra_of op rs rt rd shamt funct)).
Proof.
  intros Hop Hrs Hrt Hrd Hsh Hfn. unfold Decode.
  destruct (encode_fields op rs rt rd shamt funct) as (Ho & Hs & Ht & Hd & Ha & Hf & Hi & Hj);
    [done..|]. set (v := encode op rs rt rd shamt funct) in *.
  change 0x3ffffff with (Z.ones 26). change 0xffff with (Z.ones 16).
  change 0x3f with (Z.ones 6). change 0x1f with (Z.ones 5).
  rewrite !land_shiftr, !Z.land_ones by lia.
  rewrite Ho, Hs, Ht, Hd, Ha, Hf, Hi, Hj, sext16_lor, decode_bcond_spec, Ht by lia.
  rewrite opTable_manual by done. unfold manual_entry, op_of, extra_of.
  destruct (Z.eqb_spec op 0) as [->|]; cbn [mbind result_bind]; [by rewrite specialTable_manual|].
  destruct (Z.eqb_spec op 1) as [->|]; [done|].
  assert (major_op op ≠ SPECIAL ∧ major_op op ≠ BCOND) as [] by (unfold major_op; repeat case_match; done).
  destruct (major_op op), ((op =? 2) || (op =? 3)); done.
Qed.
