(* ===== verification/MipsExec.v ===== *)
(** * What executing an instruction does

    The properties of [Machine::OneInstruction] (MipsSim.v): it is total on
    well-formed machines but for the cases the source rules out, keeps them well
    formed, computes what the architecture manual says for the arithmetic
    instructions, applies delayed loads after exactly one instruction and
    branches after exactly one delay slot. *)

From S2P Require Import Prelude Params Machine MipsSim.
Local Open Scope Z_scope.

(** ** The register file as a function *)

Definition R (m : Machine) (i : Z) : Z := default 0 (registers m !! Z.to_nat i).
Definition setR (m : Machine) (i v : Z) : Machine :=
  set_registers m (<[Z.to_nat i := v]> (registers m)).

(** What every decoded instruction satisfies. *)
Record wf_instr (i : Instruction) : Prop := {
  wf_rs : 0 <= rs i < 32;
  wf_rt : 0 <= rt i < 32;
  wf_rd : 0 <= rd i < 32;
  wf_extra : int32 (extra i);
  wf_shift : opCode i = OP_SRA ∨ opCode i = OP_SRL ∨ opCode i = OP_SLL → 0 <= extra i < 32;
  wf_op : opCode i ≠ SPECIAL ∧ opCode i ≠ BCOND ∧ opCode i ≠ OP_RFE }.

(** From [m] to [m'] only general registers, HI, LO, memory and the use and
    dirty bits may have changed. *)
Record keeps (m m' : Machine) : Prop := {
  keeps_wf : wf_machine m';
  keeps_tr : wf_translation m';
  keeps_special : ∀ j, 34 <= j < NumTotalRegs → R m' j = R m j }.

(** The addresses on which LWL, LWR, SWL and SWR fail their ASSERT. *)
Definition unaligned_op (m : Machine) (i : Instruction) : Prop :=
  (opCode i = OP_LWL ∨ opCode i = OP_LWR ∨ opCode i = OP_SWL ∨ opCode i = OP_SWR) ∧
  wrap32 (R m (rs i) + extra i) mod 4 ≠ 0.

Definition div_overflow (m : Machine) (i : Instruction) : Prop :=
  opCode i = OP_DIV ∧ R m (rs i) = - 2 ^ 31 ∧ R m (rt i) = -1.

Definition exec_post (m : Machine) (i : Instruction) (r : result outcome) : Prop :=
  match r with
  | Ok (Next m' pc lr lv) => keeps m m' ∧ int32 pc ∧ 0 <= lr < 32 ∧ int32 lv
  | Ok (Trap e m') => ∃ m1 a, keeps m m1 ∧ int32 a ∧ RaiseException m1 a = Ok m'
  | AssertFail => unaligned_op m i
  | Undefined => div_overflow m i
  | _ => False
  end.

(** ** The reference semantics of the arithmetic instructions *)

Definition checked (z : Z) : option Z :=
  if (- 2 ^ 31 <=? z) && (z <? 2 ^ 31) then Some z else None.

(** [Some (dest_is_rd, f)]: [f s t e] is the new value of the destination, from
    the operands as signed words and the [extra] field; [None] an overflow. *)
Definition isa_alu (o : OpCode) : option (bool * (Z → Z → Z → option Z)) :=
  match o with
  | OP_ADD => Some (true, λ s t e, checked (s + t))
  | OP_ADDI => Some (false, λ s t e, checked (s + e))
  | OP_SUB => Some (true, λ s t e, checked (s - t))
  | OP_ADDU => Some (true, λ s t e, Some (wrap32 (u32 s + u32 t)))
  | OP_ADDIU => Some (false, λ s t e, Some (wrap32 (u32 s + u32 e)))
  | OP_SUBU => Some (true, λ s t e, Some (wrap32 (u32 s - u32 t)))
  | OP_AND => Some (true, λ s t e, Some (wrap32 (Z.land (u32 s) (u32 t))))
  | OP_OR => Some (true, λ s t e, Some (wrap32 (Z.lor (u32 s) (u32 t))))
  | OP_XOR => Some (true, λ s t e, Some (wrap32 (Z.lxor (u32 s) (u32 t))))
  | OP_NOR => Some (true, λ s t e, Some (wrap32 (Z.lnot (Z.lor (u32 s) (u32 t)))))
  | OP_ANDI => Some (false, λ s t e, Some (wrap32 (Z.land (u32 s) (u16 e))))
  | OP_ORI => Some (false, λ s t e, Some (wrap32 (Z.lor (u32 s) (u16 e))))
  | OP_XORI => Some (false, λ s t e, Some (wrap32 (Z.lxor (u32 s) (u16 e))))
  | OP_LUI => Some (false, λ s t e, Some (wrap32 (u16 e * 2 ^ 16)))
  | OP_SLL => Some (true, λ s t e, Some (wrap32 (u32 t * 2 ^ e)))
  | OP_SLLV => Some (true, λ s t e, Some (wrap32 (u32 t * 2 ^ (u32 s mod 32))))
  | OP_SRL => Some (true, λ s t e, Some (wrap32 (u32 t / 2 ^ e)))
  | OP_SRLV => Some (true, λ s t e, Some (wrap32 (u32 t / 2 ^ (u32 s mod 32))))
  | OP_SRA => Some (true, λ s t e, Some (t / 2 ^ e))
  | OP_SRAV => Some (true, λ s t e, Some (t / 2 ^ (u32 s mod 32)))
  | OP_SLT => Some (true, λ s t e, Some (Z.b2z (s <? t)))
  | OP_SLTI => Some (false, λ s t e, Some (Z.b2z (s <? e)))
  | OP_SLTU => Some (true, λ s t e, Some (Z.b2z (u32 s <? u32 t)))
  | OP_SLTIU => Some (false, λ s t e, Some (Z.b2z (u32 s <? u32 e)))
  | _ => None
  end.

Definition alu_dest (i : Instruction) (is_rd : bool) : Z := if is_rd then rd i else rt i.

(** The word at the PC, decoded: what [OneInstruction] is about to execute. *)
Definition fetched (be : bool) (m : Machine) : option Instruction :=
  match ReadMem be m (R m PCReg) 4 with
  | Ok (Done raw, _) => match Decode (u32 raw) with Ok i => Some i | _ => None end
  | _ => None
  end.

(** After the delayed load and the advance of the program counters. *)
Definition retired (m m' : Machine) (pcAfter lr lv : Z) : Prop :=
  wf_machine m' ∧ wf_translation m' ∧ R m' 0 = 0 ∧
  R m' PCReg = R m NextPCReg ∧ R m' PrevPCReg = R m PCReg ∧ R m' NextPCReg = pcAfter ∧
  R m' LoadReg = lr ∧ R m' LoadValueReg = lv ∧
  (R m LoadReg ≠ 0 → R m' (R m LoadReg) = R m LoadValueReg) ∧
  (∀ j, 0 < j < 34 → j ≠ R m LoadReg → R m' j = R m j).

(** The instructions whose code is not what the manual says: OR gives its first
    operand, and SRL and SRLV shift in copies of the sign. *)
Definition deviation (o : OpCode) : option (Z → Z → Z → Z) :=
  match o with
  | OP_OR => Some (λ s t e, s)
  | OP_SRL => Some (λ s t e, t / 2 ^ e)
  | OP_SRLV => Some (λ s t e, t / 2 ^ (u32 s mod 32))
  | _ => None
  end.

Definition alu_result (o : OpCode) (f : Z → Z → Z → option Z) (s t e : Z) : option Z :=
  match deviation o with Some g => Some (g s t e) | None => f s t e end.

(** When such an instruction gives the result of the manual nevertheless *)
Definition manual_agrees (o : OpCode) (s t e : Z) : Prop :=
  match o with
  | OP_OR => Z.lor (u32 s) (u32 t) = u32 s
  | OP_SRL => 0 <= t ∨ e = 0
  | OP_SRLV => 0 <= t ∨ u32 s mod 32 = 0
  | _ => True
  end.

(** The loads of the manual: the size read and how the bytes become a word. *)
Definition isa_load (o : OpCode) : option (Z * (list Z → Z)) :=
  match o with
  | OP_LB => Some (1, λ bs, schar (le_val bs))
  | OP_LBU => Some (1, le_val)
  | OP_LH => Some (2, λ bs, sext16 (le_val bs))
  | OP_LHU => Some (2, le_val)
  | OP_LW => Some (4, λ bs, wrap32 (le_val bs))
  | _ => None
  end.

Definition isa_store (o : OpCode) : option Z :=
  match o with OP_SB => Some 1 | OP_SH => Some 2 | OP_SW => Some 4 | _ => None end.

(** ** Registers *)

Lemma reg_R m i : wf_machine m → 0 <= i < NumTotalRegs → reg m i = Ok (R m i).
Proof.
  intros Hm Hi. pose proof (wf_reg_length _ Hm) as Hl. unfold reg, R.
  destruct (aget_in (registers m) i) as [x Hx]; [lia|]. rewrite Hx.
  apply aget_Ok in Hx as [_ ->]. done.
Qed.

Lemma setreg_setR m i v :
  wf_machine m → 0 <= i < NumTotalRegs → setreg m i v = Ok (setR m i v).
Proof.
  intros Hm Hi. pose proof (wf_reg_length _ Hm) as Hl. unfold setreg.
  by rewrite aset_Ok by lia.
Qed.

Lemma R_int32 m i : wf_machine m → int32 (R m i).
Proof.
  intros Hm. unfold R. destruct (registers m !! Z.to_nat i) as [x|] eqn:Hx; [|done].
  simpl. eapply Forall_lookup_1; [apply (wf_reg_int32 _ Hm)|done].
Qed.

Lemma R_setR m i j v :
  wf_machine m → 0 <= i < NumTotalRegs → 0 <= j < NumTotalRegs →
  R (setR m i v) j = if i =? j then v else R m j.
Proof.
  intros Hm Hi Hj. pose proof (wf_reg_length _ Hm) as Hl. unfold R, setR. simpl.
  destruct (Z.eqb_spec i j) as [->|].
  - by rewrite list_lookup_insert_eq by lia.
  - by rewrite list_lookup_insert_ne by lia.
Qed.

Lemma setR_wf m i v :
  wf_machine m → 0 <= i < NumTotalRegs → i ≠ LoadReg → int32 v → wf_machine (setR m i v).
Proof.
  intros [Hl Hi (t & Ht & Htr) ? ?] Hir Hne Hv. split; simpl; try done.
  - by rewrite length_insert.
  - by apply Forall_insert.
  - exists t. split; [|done]. rewrite aget_insert_ne by (done || lia). done.
Qed.

Lemma setR_tr m i v : wf_translation m → wf_translation (setR m i v).
Proof. done. Qed.

Lemma keeps_refl m : wf_machine m → wf_translation m → keeps m m.
Proof. by split. Qed.

Lemma keeps_trans m1 m2 m3 : keeps m1 m2 → keeps m2 m3 → keeps m1 m3.
Proof.
  intros [_ _ H1] [? ? H2]. split; try done. intros j Hj. by rewrite H2, H1.
Qed.

Lemma keeps_setR m m' i v : keeps m m' → 0 <= i < 34 → int32 v → keeps m (setR m' i v).
Proof.
  intros [Hm Ht Hk] Hi Hv. unfold NumTotalRegs, LoadReg in *.
  split; [apply setR_wf; unfold NumTotalRegs, LoadReg; (done || lia)|done|].
  intros j Hj. unfold NumTotalRegs in Hj. rewrite R_setR by (unfold NumTotalRegs; (done || lia)).
  destruct (Z.eqb_spec i j); [lia|]. apply Hk. unfold NumTotalRegs. lia.
Qed.

Lemma keeps_translate m a size w tr m' :
  wf_machine m → wf_translation m → Translate_spec m a size w = (tr, m') → keeps m m'.
Proof.
  intros Hm Ht Htr. split.
  - by eapply Translate_spec_machine_wf.
  - by eapply Translate_spec_wf.
  - intros j _. unfold R. destruct (Translate_spec_frame _ _ _ _ _ _ Htr) as (_ & -> & _). done.
Qed.

Lemma keeps_store m m' a size w p v :
  access_size size → wf_machine m → wf_translation m →
  Translate_spec m a size w = (Phys p, m') →
  keeps m (set_memory m' (store (mainMemory m') p size v)).
Proof.
  intros Hs Hm Ht Htr. pose proof (keeps_translate _ _ _ _ _ _ Hm Ht Htr) as [Hm' Ht' Hk].
  destruct (Translate_spec_phys _ _ _ _ _ _ Hs Htr) as (Hlo & Hhi & _).
  split; [|done|exact Hk]. destruct Hm'. split; simpl; try done; [|by apply store_byte].
  rewrite length_store; [done|done|destruct Hs as [->|[->| ->]]; lia|lia].
Qed.

(** ** Decoded instructions *)

Lemma opTable_ops op o f :
  aget opTable op = Ok (o, f) →
  o ≠ OP_RFE ∧ o ≠ OP_SRA ∧ o ≠ OP_SRL ∧ o ≠ OP_SLL ∧ (o = SPECIAL → f = RFMT).
Proof.
  intros H. eapply (aget_Forall (λ x, fst x ≠ OP_RFE ∧ fst x ≠ OP_SRA ∧ fst x ≠ OP_SRL ∧
    fst x ≠ OP_SLL ∧ (fst x = SPECIAL → snd x = RFMT))) in H; [done|].
  unfold opTable. repeat (apply Forall_cons; split; [done|]). constructor.
Qed.

Lemma specialTable_ops k o :
  aget specialTable k = Ok o → o ≠ SPECIAL ∧ o ≠ BCOND ∧ o ≠ OP_RFE.
Proof.
  intros H. eapply (aget_Forall (λ x, x ≠ SPECIAL ∧ x ≠ BCOND ∧ x ≠ OP_RFE)) in H; [done|].
  unfold specialTable. repeat (apply Forall_cons; split; [done|]). constructor.
Qed.

Lemma decode_bcond_ops v :
  decode_bcond v ∈ [OP_BLTZ; OP_BGEZ; OP_BLTZAL; OP_BGEZAL; OP_UNIMP].
Proof. unfold decode_bcond. repeat case_match; set_solver. Qed.

Lemma field_range v k n : 0 <= k → 0 <= n → 0 <= Z.land (Z.shiftr v k) (Z.ones n) < 2 ^ n.
Proof. intros. rewrite land_shiftr by lia. apply Z.mod_pos_bound, Z.pow_pos_nonneg; lia. Qed.

Lemma Decode_wf v : ∃ i, Decode v = Ok i ∧ wf_instr i.
Proof.
  unfold Decode. change 0x1f with (Z.ones 5). change 0x3f with (Z.ones 6).
  destruct (aget_in opTable (Z.land (Z.shiftr v 26) (Z.ones 6))) as [[o f] Ho];
    [apply (field_range v 26 6); lia|].
  rewrite Ho. apply opTable_ops in Ho as (H1 & H2 & H3 & H4 & Hf). simpl.
  destruct (aget_in specialTable (Z.land v (Z.ones 6))) as [so Hso].
  { rewrite Z.land_ones by lia. apply (Z.mod_pos_bound v (2 ^ 6)). done. }
  apply specialTable_ops in Hso as Hso'.
  set (e := match f with IFMT => _ | JFMT => _ | RFMT => _ end).
  assert (int32 e) as He.
  { unfold e. destruct f.
    - rewrite sext16_lor; [unfold sext16, int32; case_match|];
        change 0xffff with (Z.ones 16); rewrite Z.land_ones by lia;
        pose proof (Z.mod_pos_bound v (2 ^ 16) ltac:(lia)); b2p; lia.
    - apply (int32_low v 26). lia.
    - apply (int32_low (Z.shiftr v 6) 5). lia. }
  assert (o = SPECIAL → 0 <= e < 32) as Hsh.
  { intros ->. unfold e. rewrite Hf by done. apply (field_range v 6 5); lia. }
  pose proof (decode_bcond_ops v) as Hbc. rewrite !elem_of_cons, elem_of_nil in Hbc.
  clearbody e.
  assert (∃ o', match o with SPECIAL => aget specialTable (Z.land v (Z.ones 6))
                | BCOND => Ok (decode_bcond v) | _ => Ok o end = Ok o' ∧
    (o' = OP_SRA ∨ o' = OP_SRL ∨ o' = OP_SLL → 0 <= e < 32) ∧
    o' ≠ SPECIAL ∧ o' ≠ BCOND ∧ o' ≠ OP_RFE) as (o' & -> & Hsh' & Hop').
  { destruct o; try done; try (eexists; split; [done|]; split; [by intros [?|[?|?]]|done]).
    - exists so. split; [done|]. split; [by intros; apply Hsh|done].
    - eexists. split; [done|].
      destruct Hbc as [->|[->|[->|[->|[->|[]]]]]]; (split; [by intros [?|[?|?]]|done]). }
  eexists. split; [done|].
  split; simpl; [apply (field_range v 21 5); lia|apply (field_range v 16 5); lia|
    apply (field_range v 11 5); lia|done..].
Qed.

(** ** Memory accesses *)

Lemma load_int32 mem p size : access_size size → Forall byte mem → int32 (load mem p size).
Proof.
  intros Hs Hb. unfold load. destruct Hs as [->|[->| ->]]; cbn [Z.eqb Pos.eqb].
  - unfold schar, int32. pose proof (Z.mod_pos_bound
      (le_val (take (Z.to_nat 1) (drop (Z.to_nat p) mem)) + 2 ^ 7) (2 ^ 8)). lia.
  - pose proof (le_val_bound (take (Z.to_nat 2) (drop (Z.to_nat p) mem))) as Hv.
    rewrite length_take in Hv.
    destruct Hv as [? Hv]; [by apply Forall_take, Forall_drop|].
    assert (2 ^ (8 * Z.of_nat (Z.to_nat 2 `min` length (drop (Z.to_nat p) mem))) <= 2 ^ 16).
    { apply Z.pow_le_mono_r; lia. }
    unfold int32. lia.
  - apply wrap32_int32.
Qed.

Section Posts.
Context (be : bool) (m0 : Machine) (i : Instruction).

Lemma raise_post m e a : keeps m0 m → int32 a → exec_post m0 i (raise m e a).
Proof.
  intros Hk Ha. unfold raise.
  destruct (RaiseException_Ok m a (keeps_wf _ _ Hk) Ha) as (m' & Hr & _). rewrite Hr.
  exists m, a. done.
Qed.

Lemma read_post m a size k :
  keeps m0 m → access_size size → int32 a →
  (∀ v m', keeps m0 m' → int32 v → exec_post m0 i (k v m')) →
  exec_post m0 i (read_or_return be m a size k).
Proof.
  intros Hk Hs Ha Hp. unfold read_or_return.
  rewrite ReadMem_spec by (apply Hk || done).
  destruct (Translate_spec m a size false) as [[e|p] m'] eqn:Htr;
    (assert (keeps m0 m') as Hk' by
      (eapply keeps_trans; [done|eapply keeps_translate; [apply Hk..|done]])).
  - destruct (RaiseException_Ok m' a (keeps_wf _ _ Hk') Ha) as (m'' & Hr & _). rewrite Hr.
    exists m', a. done.
  - apply Hp; [done|]. apply load_int32; [done|]. apply (wf_mem_byte _ (keeps_wf _ _ Hk')).
Qed.

Lemma write_post m a size v k :
  keeps m0 m → access_size size → int32 a →
  (∀ m', keeps m0 m' → exec_post m0 i (k m')) →
  exec_post m0 i (write_or_return be m a size v k).
Proof.
  intros Hk Hs Ha Hp. unfold write_or_return.
  rewrite WriteMem_spec by (apply Hk || done).
  destruct (Translate_spec m a size true) as [[e|p] m'] eqn:Htr.
  - assert (keeps m0 m') as Hk' by
      (eapply keeps_trans; [done|eapply keeps_translate; [apply Hk..|done]]).
    destruct (RaiseException_Ok m' a (keeps_wf _ _ Hk') Ha) as (m'' & Hr & _). rewrite Hr.
    exists m', a. done.
  - apply Hp. eapply keeps_trans; [done|]. eapply keeps_store; [done|apply Hk..|done].
Qed.

Lemma next_post m pc lr lv :
  keeps m0 m → int32 pc → 0 <= lr < 32 → int32 lv → exec_post m0 i (Ok (Next m pc lr lv)).
Proof. done. Qed.

Lemma assert_post (b : bool) (k : result outcome) :
  (b = false → unaligned_op m0 i) → (b = true → exec_post m0 i k) →
  exec_post m0 i (ASSERT b;; k).
Proof. destruct b; simpl; auto. Qed.

End Posts.

(** ** Every instruction *)

Lemma Mult_int32 a b sgn :
  int32 a → int32 b → int32 (fst (Mult a b sgn)) ∧ int32 (snd (Mult a b sgn)).
Proof.
  intros _ _. unfold Mult. repeat case_match; simpl; auto using wrap32_int32; done.
Qed.

Lemma int32_quot a b :
  int32 a → int32 b → b ≠ 0 → ¬ (a = - 2 ^ 31 ∧ b = -1) → int32 (Z.quot a b) ∧ int32 (Z.rem a b).
Proof.
  unfold int32. intros. pose proof (Z.quot_rem a b ltac:(lia)).
  assert (Z.abs (Z.rem a b) < Z.abs b) by (rewrite <- Z.rem_abs by lia; apply Z.rem_bound_pos; lia).
  assert (Z.abs (Z.rem a b) <= Z.abs a).
  { rewrite <- Z.rem_abs by lia. apply Z.rem_le; lia. }
  assert (Z.abs (Z.quot a b) = Z.quot (Z.abs a) (Z.abs b)) as Hq by (by rewrite Z.quot_abs by lia).
  assert (Z.quot (Z.abs a) (Z.abs b) <= Z.abs a).
  { rewrite Z.quot_div_nonneg by lia. apply Z.div_le_upper_bound; nia. }
  destruct (decide (Z.abs b = 1)); [nia|].
  assert (Z.quot (Z.abs a) (Z.abs b) <= 2 ^ 30).
  { rewrite Z.quot_div_nonneg by lia. apply Z.div_le_upper_bound; nia. }
  lia.
Qed.

Ltac reg_range :=
  unfold NumTotalRegs, HiReg, LoReg, PCReg, NextPCReg, R31, LoadReg, LoadValueReg; lia.

Ltac i32 :=
  match goal with
  | |- int32 (wrap32 _) => apply wrap32_int32
  | |- int32 (R _ _) => apply R_int32; keep
  | |- int32 (Z.land _ 0xffff) => apply (int32_low _ 16); lia
  | |- int32 (Z.land _ 0xff) => apply (int32_low _ 8); lia
  | |- int32 (Z.land _ _) => apply int32_land; i32
  | |- int32 (Z.lor _ _) => apply int32_lor; i32
  | |- int32 (Z.lxor _ _) => apply int32_lxor; i32
  | |- int32 (Z.lnot _) => apply int32_lnot; i32
  | |- int32 (Z.shiftr _ (Z.land ?x 0x1f)) => apply int32_asr;
      [i32|change 0x1f with (Z.ones 5); rewrite Z.land_ones by lia; apply Z.mod_pos_bound; lia]
  | |- int32 (Z.shiftr _ _) => apply int32_asr; [i32|match goal with H : _ → 0 <= extra _ < 32 |- _ => apply H; auto end]
  | |- int32 (if ?b then _ else _) => destruct b; i32
  | |- int32 (match ?z with Z0 => _ | Zpos _ => _ | Zneg _ => _ end) => repeat case_match; i32
  | |- int32 _ => assumption || (unfold int32; lia) || done
  end
with keep :=
  match goal with
  | |- keeps _ (setR _ _ _) => apply keeps_setR; [keep|reg_range|i32]
  | |- keeps _ _ => eassumption
  | |- wf_machine _ => assumption || (eapply keeps_wf; keep)
  end.

(** One step of the code: a register access, a memory access, a test. *)
Ltac exec_step :=
  match goal with
  | |- exec_post _ _ (reg ?m ?j ≫= _) =>
      rewrite (reg_R m j) by (keep || reg_range); cbn [mbind result_bind]
  | |- exec_post _ _ (setreg ?m ?j ?v ≫= _) =>
      rewrite (setreg_setR m j v) by (keep || reg_range); cbn [mbind result_bind]
  | |- exec_post _ _ (raise _ _ _) => apply raise_post; [keep|i32]
  | |- exec_post _ _ (read_or_return _ _ _ _ _) =>
      apply read_post; [keep|by (left + (right; left) + (right; right))|i32|intros; cbv zeta beta]
  | |- exec_post _ _ (write_or_return _ _ _ _ _ _) =>
      apply write_post; [keep|by (left + (right; left) + (right; right))|i32|intros; cbv zeta beta]
  | |- exec_post _ _ (Ok (Next _ _ _ _)) => apply next_post; [keep|i32|lia|i32]
  | |- exec_post _ _ (ASSERT _;; _) => apply assert_post; intros
  | |- exec_post _ _ (if ?b then _ else _) => destruct b eqn:?
  end.

(** Enter the next part of the [switch] when a part does not know the opcode. *)
Ltac exec_case :=
  match goal with
  | |- exec_post _ _ (exec_branch _ _ _ _) => unfold exec_branch
  | |- exec_post _ _ (exec_load _ _ _ _) => unfold exec_load
  | |- exec_post _ _ (exec_middle _ _ _ _) => unfold exec_middle
  | |- exec_post _ _ (exec_rest _ _ _ _) => unfold exec_rest
  end; cbv zeta; repeat exec_step;
  match goal with H : opCode _ = _ |- _ => rewrite H; cbv iota beta end.

Lemma exec_post_holds be m i pc :
  wf_machine m → wf_translation m → wf_instr i → int32 pc →
  exec_post m i (exec be m i pc).
Proof.
  intros Hm Ht [Hrs Hrt Hrd He Hsh (Hop1 & Hop2 & Hop3)] Hpc.
  assert (keeps m m) as Hk by (by apply keeps_refl).
  unfold exec. cbv zeta. repeat exec_step.
  destruct (opCode i) eqn:Ho; try done.
  all: repeat exec_case.
  all: repeat exec_step.
  all: try (match goal with H : (Z.land _ 3 =? 0) = false |- _ =>
    split; [tauto|]; change 3 with (Z.ones 2) in H; rewrite Z.land_ones in H by lia; by b2p end).
  - b2p. done.
  - assert (int32 (Z.quot (R m (rs i)) (R m (rt i))) ∧ int32 (Z.rem (R m (rs i)) (R m (rt i))))
      as [? ?].
    { apply int32_quot; [by apply R_int32..|by b2p|]. intros [E1 E2]. by rewrite E1, E2 in *. }
    repeat exec_step.
  - destruct (Mult_int32 (R m (rs i)) (R m (rt i)) true) as [? ?]; [by apply R_int32..|].
    destruct (Mult _ _ _) as [hi lo]. simpl in *. repeat exec_step.
  - destruct (Mult_int32 (R m (rs i)) (R m (rt i)) false) as [? ?]; [by apply R_int32..|].
    destruct (Mult _ _ _) as [hi lo]. simpl in *. repeat exec_step.
Qed.

(** ** One instruction *)

Lemma R_load_target m : wf_machine m → 0 <= R m LoadReg < NumGPRegs.
Proof.
  intros Hm. destruct (wf_load_target _ Hm) as (t & Ht & Hr). unfold R.
  by apply aget_Ok in Ht as [_ ->].
Qed.

Lemma DelayedLoad_R m r v :
  wf_machine m → 0 <= r < NumGPRegs → int32 v →
  ∃ m', DelayedLoad m r v = Ok m' ∧ wf_machine m' ∧ m' = set_registers m (registers m') ∧
  ∀ j, 0 <= j < NumTotalRegs →
    R m' j = if j =? 0 then 0 else if j =? LoadValueReg then v else if j =? LoadReg then r
             else if j =? R m LoadReg then R m LoadValueReg else R m j.
Proof.
  intros Hm Hr Hv. destruct (DelayedLoad_Ok m r v Hm Hr Hv) as (m' & Hd & Hm' & Heq & _).
  exists m'. split; [done|]. split; [done|]. split; [done|]. intros j Hj.
  pose proof (wf_reg_length _ Hm) as Hl. pose proof (R_load_target _ Hm) as Hlt.
  unfold DelayedLoad in Hd. unfold NumTotalRegs, NumGPRegs, LoadReg, LoadValueReg in *.
  change (aget (registers m) 37) with (reg m 37) in Hd.
  change (aget (registers m) 38) with (reg m 38) in Hd.
  rewrite !reg_R in Hd by (done || reg_range). cbn [mbind result_bind] in Hd.
  repeat (rewrite aset_Ok in Hd by (rewrite ?length_insert; lia); cbn [mbind result_bind] in Hd).
  injection Hd as <-. unfold R at 1. cbn [registers set_registers].
  repeat match goal with
  | |- context [j =? ?a] => destruct (Z.eqb_spec j a) as [->|];
      [rewrite list_lookup_insert_eq by (rewrite ?length_insert; lia); done|
       rewrite list_lookup_insert_ne by lia]
  end. done.
Qed.

(** The tail of [OneInstruction] after a completed instruction. *)
Lemma advance m pcAfter lr lv :
  wf_machine m → wf_translation m → int32 pcAfter → 0 <= lr < 32 → int32 lv →
  ∃ m', (m ← DelayedLoad m lr lv;
         pc ← reg m PCReg; m ← setreg m PrevPCReg pc;
         npc ← reg m NextPCReg; m ← setreg m PCReg npc;
         m ← setreg m NextPCReg pcAfter;
         Ok (@None ExceptionType, m)) = Ok (None, m') ∧ retired m m' pcAfter lr lv.
Proof.
  intros Hm Ht Hpc Hlr Hlv.
  destruct (DelayedLoad_R m lr lv Hm Hlr Hlv) as (m1 & Hd & Hm1 & Heq & HR).
  rewrite Hd. cbn [mbind result_bind].
  pose proof (R_load_target _ Hm) as Hlt.
  assert (wf_machine (setR m1 PrevPCReg (R m1 PCReg))) as Hm2
    by (apply setR_wf; [done|done|done|by apply R_int32]).
  assert (wf_machine (setR (setR m1 PrevPCReg (R m1 PCReg)) PCReg (R m1 NextPCReg))) as Hm3
    by (apply setR_wf; [done|done|done|by apply R_int32]).
  assert (R (setR m1 PrevPCReg (R m1 PCReg)) NextPCReg = R m1 NextPCReg) as Hn by (by rewrite R_setR).
  repeat (rewrite ?Hn, ?(reg_R _ PCReg), ?(reg_R _ NextPCReg), ?setreg_setR by done;
          cbn [mbind result_bind]).
  eexists. split; [done|]. unfold retired.
  split; [by apply setR_wf|]. split; [rewrite Heq; done|].
  unfold NumGPRegs, NumTotalRegs, LoadReg, LoadValueReg, PCReg, NextPCReg, PrevPCReg in *.
  repeat match goal with |- _ ∧ _ => split end; intros;
    rewrite !R_setR, ?HR by (done || reg_range); btest; try lia; done.
Qed.

(** The registers the exception handler finds. *)
Lemma raised m a m' :
  wf_machine m → int32 a → RaiseException m a = Ok m' →
  wf_machine m' ∧ m' = set_registers m (registers m') ∧ R m' 0 = 0 ∧ R m' BadVAddrReg = a ∧
  R m' LoadReg = 0 ∧
  (R m LoadReg ≠ 0 → R m' (R m LoadReg) = R m LoadValueReg) ∧
  (∀ j, 0 < j < LoadReg → j ≠ R m LoadReg → R m' j = R m j).
Proof.
  intros Hm Ha. pose proof (wf_reg_length _ Hm) as Hl. unfold RaiseException.
  rewrite aset_Ok by (unfold BadVAddrReg, NumTotalRegs in *; lia). cbn [mbind result_bind].
  change (DelayedLoad (set_registers m _)) with (DelayedLoad (setR m BadVAddrReg a)).
  assert (wf_machine (setR m BadVAddrReg a)) as Hm1 by (by apply setR_wf).
  destruct (DelayedLoad_R (setR m BadVAddrReg a) 0 0) as (m1 & Hd & Hm1' & Heq & HR); [done..|].
  rewrite Hd. intros [= <-]. pose proof (R_load_target _ Hm) as Hlt.
  split; [done|]. split; [by rewrite Heq|].
  rewrite !R_setR in HR by (done || reg_range).
  unfold NumGPRegs, NumTotalRegs, LoadReg, LoadValueReg, BadVAddrReg in *. simpl (39 =? _) in HR.
  repeat match goal with |- _ ∧ _ => split end; intros;
    rewrite HR, ?R_setR by (done || reg_range); btest; try lia; done.
Qed.

(** Instruction fetch leaves the registers alone. *)
Lemma fetch_cases be m :
  wf_machine m → wf_translation m →
  (∃ e m1 m', ReadMem be m (R m PCReg) 4 = Ok (Trapped e, m') ∧ keeps m m1 ∧
     registers m1 = registers m ∧ RaiseException m1 (R m PCReg) = Ok m') ∨
  (∃ raw m1 i, ReadMem be m (R m PCReg) 4 = Ok (Done raw, m1) ∧ keeps m m1 ∧
     registers m1 = registers m ∧ Decode (u32 raw) = Ok i ∧ wf_instr i ∧
     fetched be m = Some i).
Proof.
  intros Hm Ht. unfold fetched. rewrite ReadMem_spec by (done || by right; right).
  destruct (Translate_spec m (R m PCReg) 4 false) as [[e|p] m1] eqn:Htr;
    pose proof (keeps_translate _ _ _ _ _ _ Hm Ht Htr) as Hk;
    destruct (Translate_spec_frame _ _ _ _ _ _ Htr) as (_ & Hr & _).
  - left. destruct (RaiseException_Ok m1 (R m PCReg)) as (m' & Hx & _);
      [apply Hk|by apply R_int32|]. rewrite Hx. by exists e, m1, m'.
  - right. destruct (Decode_wf (u32 (load (mainMemory m1) p 4))) as (i & Hi & Hwf).
    eexists _, m1, i. rewrite Hi. done.
Qed.

Lemma R_registers m m' j : registers m' = registers m → R m' j = R m j.
Proof. unfold R. by intros ->. Qed.

(** How an instruction can end. *)
Lemma OneInstruction_cases be m :
  wf_machine m → wf_translation m →
  (* the fetch trapped, or the instruction did *)
  (∃ e m1 a m', OneInstruction be m = Ok (Some e, m') ∧ keeps m m1 ∧ int32 a ∧
     RaiseException m1 a = Ok m') ∨
  ∃ i m1, fetched be m = Some i ∧ wf_instr i ∧ keeps m m1 ∧ registers m1 = registers m ∧
    match exec be m1 i (wrap32 (R m NextPCReg + 4)) with
    | Ok (Next m2 pcAfter lr lv) => keeps m m2 ∧ ∃ m', OneInstruction be m = Ok (None, m') ∧
        retired m2 m' pcAfter lr lv
    | Ok (Trap _ _) => False
    | AssertFail => OneInstruction be m = AssertFail ∧ unaligned_op m i
    | Undefined => OneInstruction be m = Undefined ∧ div_overflow m i
    | _ => False
    end.
Proof.
  intros Hm Ht. unfold OneInstruction. rewrite reg_R by done. cbn [mbind result_bind].
  destruct (fetch_cases be m Hm Ht) as [(e & m1 & m' & -> & Hk & _ & Hr)|
    (raw & m1 & i & Hrd & Hk & Hreg & Hi & Hwf & Hf)]; [left|].
  { eexists e, m1, _, m'. split; [done|]. split; [done|]. split; [by apply R_int32|done]. }
  rewrite Hrd. cbn [mbind result_bind]. rewrite Hi. cbn [mbind result_bind].
  rewrite reg_R by (apply Hk || done). cbn [mbind result_bind].
  rewrite (R_registers m m1 NextPCReg Hreg).
  pose proof (exec_post_holds be m1 i (wrap32 (R m NextPCReg + 4)) (keeps_wf _ _ Hk)
    (keeps_tr _ _ Hk) Hwf (wrap32_int32 _)) as Hp.
  destruct (exec be m1 i _) as [[e m2|m2 pc' lr lv]| | | |] eqn:Hx; simpl in Hp.
  - left. destruct Hp as (m3 & a & Hk3 & Ha & Hra). exists e, m3, a, m2.
    split; [done|]. split; [by eapply keeps_trans|done].
  - right. exists i, m1. rewrite Hx. destruct Hp as (Hk2 & Hpc & Hlr & Hlv).
    do 4 (split; [done|]). split; [by eapply keeps_trans|].
    apply advance; [apply Hk2|apply Hk2|done..].
  - right. exists i, m1. rewrite Hx. do 5 (split; [done|]).
    destruct Hp as [? Hu]. split; [done|]. by rewrite (R_registers _ _ _ Hreg) in Hu.
  - right. exists i, m1. rewrite Hx. do 5 (split; [done|]).
    destruct Hp as (? & Hs & Hv). rewrite (R_registers _ _ _ Hreg) in Hs. rewrite (R_registers _ _ _ Hreg) in Hv. done.
  - done.
  - done.
Qed.

(** C14: an instruction never goes wrong.  From a well-formed machine
    [OneInstruction] returns, having completed the instruction or trapped, with
    the machine well formed and R0 still zero; the only exceptions are LWL, LWR,
    SWL and SWR at an unaligned address (an ASSERT of the source) and DIV of
    INT_MIN by -1 (undefined in the host's C++). *)
Theorem OneInstruction_safe be m :
  wf_machine m → wf_translation m →
  match OneInstruction be m with
  | Ok (_, m') => wf_machine m' ∧ wf_translation m' ∧ R m' 0 = 0
  | AssertFail => ∃ i, fetched be m = Some i ∧ unaligned_op m i
  | Undefined => ∃ i, fetched be m = Some i ∧ div_overflow m i
  | Exited _ | NoFuel => False
  end.
Proof.
  intros Hm Ht. destruct (OneInstruction_cases be m Hm Ht) as
    [(e & m1 & a & m' & -> & Hk & Ha & Hr)|(i & m1 & Hf & Hwf & Hk & Hreg & Hx)].
  - destruct (raised _ _ _ (keeps_wf _ _ Hk) Ha Hr) as (? & Heq & ? & _).
    split; [done|]. split; [|done]. rewrite Heq. apply Hk.
  - destruct (exec be m1 i _) as [[e m2|m2 pc' lr lv]| | | |]; try done.
    + destruct Hx as (_ & m' & -> & Hret). destruct Hret as (? & ? & ? & _). done.
    + destruct Hx as [-> ?]. by exists i.
    + destruct Hx as [-> ?]. by exists i.
Qed.

(** C15: traps are restartable and delay slots have length one.  When an
    instruction completes, the PC moves to NextPC and the old PC is kept in
    PrevPC; when it traps, PC and NextPC are unchanged, so that the instruction
    can be retried.  Either way a load that was pending is applied now, to the
    register and with the value the load before left in LoadReg and
    LoadValueReg. *)
Theorem OneInstruction_delay be m r m' :
  wf_machine m → wf_translation m → OneInstruction be m = Ok (r, m') →
  match r with
  | None => R m' PCReg = R m NextPCReg ∧ R m' PrevPCReg = R m PCReg
  | Some e => R m' PCReg = R m PCReg ∧ R m' NextPCReg = R m NextPCReg ∧ R m' LoadReg = 0
  end ∧
  (R m LoadReg ≠ 0 → R m' (R m LoadReg) = R m LoadValueReg).
Proof.
  intros Hm Ht Hone. pose proof (R_load_target _ Hm) as Hlt.
  destruct (OneInstruction_cases be m Hm Ht) as
    [(e & m1 & a & m2 & Ho & Hk & Ha & Hr)|(i & m1 & Hf & Hwf & Hk & Hreg & Hx)].
  - rewrite Ho in Hone. injection Hone as <- <-.
    destruct (raised _ _ _ (keeps_wf _ _ Hk) Ha Hr) as (_ & _ & _ & _ & Hz & Hl & Hj).
    rewrite !(keeps_special _ _ Hk) in Hl by (unfold LoadReg, LoadValueReg, NumTotalRegs; lia).
    split; [|done]. rewrite (keeps_special _ _ Hk) in Hj by (unfold LoadReg, NumTotalRegs; lia).
    unfold NumGPRegs, LoadReg, PCReg, NextPCReg, NumTotalRegs in *.
    rewrite !Hj, !(keeps_special _ _ Hk) by (unfold NumTotalRegs; lia). done.
  - destruct (exec be m1 i _) as [[e m2|m2 pc' lr lv]| | | |]; try done.
    + destruct Hx as (Hk2 & m3 & Ho & Hret). rewrite Ho in Hone. injection Hone as <- <-.
      destruct Hret as (_ & _ & _ & Hpc & Hprev & _ & _ & _ & Hl & _).
      rewrite !(keeps_special _ _ Hk2) in Hl, Hpc, Hprev
        by (unfold LoadReg, LoadValueReg, PCReg, NextPCReg, NumTotalRegs; lia).
      rewrite (keeps_special _ _ Hk2 LoadValueReg) in Hl by reg_range.
      split; [by split|done].
    + destruct Hx. congruence.
    + destruct Hx. congruence.
Qed.

(** ** Arithmetic *)

Lemma lxor_sign a b : int32 a → int32 b → sign_bit (Z.lxor a b) = xorb (a <? 0) (b <? 0).
Proof.
  intros Ha Hb. rewrite sign_bit_int32 by (by apply int32_lxor).
  pose proof (Z.lxor_nonneg a b) as Hn.
  destruct (Z.ltb_spec (Z.lxor a b) 0), (Z.ltb_spec a 0), (Z.ltb_spec b 0); simpl; try done; lia.
Qed.

Lemma wrap32_wide z :
  - 2 ^ 32 <= z < 2 ^ 32 →
  wrap32 z = if z <? - 2 ^ 31 then z + 2 ^ 32 else if z <? 2 ^ 31 then z else z - 2 ^ 32.
Proof.
  intros. destruct (Z.ltb_spec z (- 2 ^ 31)); [|destruct (Z.ltb_spec z (2 ^ 31))].
  - rewrite <- (wrap32_id (z + 2 ^ 32)) by (unfold int32; lia). apply wrap32_eqm.
    by rewrite <- (Z_mod_plus_full z 1).
  - apply wrap32_id. unfold int32. lia.
  - rewrite <- (wrap32_id (z - 2 ^ 32)) by (unfold int32; lia). apply wrap32_eqm.
    rewrite <- (Z_mod_plus_full (z - 2 ^ 32) 1). f_equal. lia.
Qed.

(** The overflow tests of ADD/ADDI (from either operand) and of SUB. *)
Lemma add_overflow a b :
  int32 a → int32 b →
  (negb (sign_bit (Z.lxor a b)) && sign_bit (Z.lxor a (wrap32 (a + b))))%bool =
  negb ((- 2 ^ 31 <=? a + b) && (a + b <? 2 ^ 31)).
Proof.
  intros Ha Hb. rewrite !lxor_sign by auto with nachos. unfold int32 in *.
  rewrite wrap32_wide by lia.
  destruct (Z.ltb_spec (a + b) (- 2 ^ 31)); [|destruct (Z.ltb_spec (a + b) (2 ^ 31))];
  repeat match goal with |- context [?x <? ?y] => destruct (Z.ltb_spec x y) end;
    repeat match goal with |- context [?x <=? ?y] => destruct (Z.leb_spec x y) end;
    simpl; try done; lia.
Qed.

Lemma sub_overflow a b :
  int32 a → int32 b →
  (sign_bit (Z.lxor a b) && sign_bit (Z.lxor a (wrap32 (a - b))))%bool =
  negb ((- 2 ^ 31 <=? a - b) && (a - b <? 2 ^ 31)).
Proof.
  intros Ha Hb. rewrite !lxor_sign by auto with nachos. unfold int32 in *.
  rewrite wrap32_wide by lia.
  destruct (Z.ltb_spec (a - b) (- 2 ^ 31)); [|destruct (Z.ltb_spec (a - b) (2 ^ 31))];
  repeat match goal with |- context [?x <? ?y] => destruct (Z.ltb_spec x y) end;
    repeat match goal with |- context [?x <=? ?y] => destruct (Z.leb_spec x y) end;
    simpl; try done; lia.
Qed.

Lemma checked_add a b :
  int32 a → int32 b →
  checked (a + b) = if negb (sign_bit (Z.lxor a b)) && sign_bit (Z.lxor a (wrap32 (a + b)))
                    then None else Some (wrap32 (a + b)).
Proof.
  intros. rewrite add_overflow by done. unfold checked.
  destruct (_ && _)%bool eqn:E; [|done]. b2p. simpl. by rewrite wrap32_id.
Qed.

Lemma checked_sub a b :
  int32 a → int32 b →
  checked (a - b) = if sign_bit (Z.lxor a b) && sign_bit (Z.lxor a (wrap32 (a - b)))
                    then None else Some (wrap32 (a - b)).
Proof.
  intros. rewrite sub_overflow by done. unfold checked.
  destruct (_ && _)%bool eqn:E; [|done]. b2p. simpl. by rewrite wrap32_id.
Qed.

(** A word operation computed on unsigned operands. *)
Lemma as_word x y : int32 x → u32 x = u32 y → x = wrap32 y.
Proof. intros Hx He. rewrite <- (wrap32_id x) by done. by apply wrap32_eqm. Qed.

Lemma u32_u32 z : u32 (u32 z) = u32 z.
Proof. apply u32_mod. Qed.

Lemma land_imm e : Z.land e 0xffff = u16 e.
Proof. change 0xffff with (Z.ones 16). unfold u16. by rewrite Z.land_ones by lia. Qed.

Lemma int32_u16 e : int32 (u16 e).
Proof. unfold u16, int32. pose proof (Z.mod_pos_bound e (2 ^ 16)). lia. Qed.

Lemma u32_u16 e : u32 (u16 e) = u16 e.
Proof. apply u32_id. unfold u16, uint32. pose proof (Z.mod_pos_bound e (2 ^ 16)). lia. Qed.

Lemma land_shift s : Z.land s 0x1f = u32 s mod 32.
Proof.
  change 0x1f with (Z.ones 5). rewrite Z.land_ones by lia. change 32 with (2 ^ 5).
  unfold u32. symmetry. apply Z.mod_mod_divide. by exists (2 ^ 27).
Qed.

Lemma u32_add a b : u32 (u32 a + u32 b) = u32 (a + b).
Proof. unfold u32. symmetry. apply Zplus_mod. Qed.

Lemma u32_sub a b : u32 (u32 a - u32 b) = u32 (a - b).
Proof. unfold u32. symmetry. apply Zminus_mod. Qed.

Lemma u32_mul a b : u32 (u32 a * b) = u32 (a * b).
Proof. unfold u32. apply Zmult_mod_idemp_l. Qed.

Lemma u32_lnot_gen a : u32 (Z.lnot (u32 a)) = u32 (Z.lnot a).
Proof.
  replace (Z.lnot (u32 a)) with (-1 - u32 a) by (unfold Z.lnot; lia).
  replace (Z.lnot a) with (-1 - a) by (unfold Z.lnot; lia).
  unfold u32. apply Zminus_mod_idemp_r.
Qed.

Ltac exec_open :=
  repeat (match goal with
  | |- exec _ _ _ _ = _ => unfold exec
  | |- exec_branch _ _ _ _ = _ => unfold exec_branch
  | |- exec_load _ _ _ _ = _ => unfold exec_load
  | |- exec_middle _ _ _ _ = _ => unfold exec_middle
  | |- exec_rest _ _ _ _ = _ => unfold exec_rest
  end; cbv zeta;
  repeat (rewrite reg_R by (assumption || reg_range); cbn [mbind result_bind]);
  match goal with H : opCode _ = _ |- _ => rewrite H; cbv iota beta end).

Lemma exec_alu be m i pc d f :
  wf_machine m → wf_instr i → isa_alu (opCode i) = Some (d, f) →
  exec be m i pc =
  match alu_result (opCode i) f (R m (rs i)) (R m (rt i)) (extra i) with
  | Some v => Ok (Next (setR m (alu_dest i d) v) pc 0 0)
  | None => raise m OverflowException 0
  end.
Proof.
  intros Hm [Hrs Hrt Hrd He Hsh _] Hf.
  pose proof (R_int32 m (rs i) Hm) as Hs. pose proof (R_int32 m (rt i) Hm) as Ht.
  assert (Hset : ∀ j v v', 0 <= j < 32 → v = v' →
    (m' ← setreg m j v; Ok (Next m' pc 0 0)) = Ok (Next (setR m j v') pc 0 0)).
  { intros j v v' Hj ->. by rewrite setreg_setR by (done || reg_range). }
  destruct (opCode i) eqn:Ho; try discriminate Hf;
    injection Hf as <- <-; exec_open; unfold alu_dest, alu_result; cbn [deviation];
    try (apply Hset; [done|]).
  - rewrite checked_add by done. destruct (_ && _)%bool; [done|by apply Hset].
  - rewrite (Z.add_comm (R m (rs i)) (extra i)), (Z.lxor_comm (R m (rs i)) (extra i)).
    rewrite checked_add by done. destruct (_ && _)%bool; [done|by apply Hset].
  - symmetry. apply wrap32_eqm, u32_add.
  - symmetry. apply wrap32_eqm, u32_add.
  - apply as_word; [i32|]. by rewrite !u32_land, !u32_u32.
  - apply as_word; [i32|]. by rewrite !land_imm, !u32_land, u32_u32.
  - apply wrap32_eqm. unfold u16. rewrite Z.shiftl_mul_pow2 by lia.
    change (2 ^ 32) with (2 ^ 16 * 2 ^ 16). rewrite !Z.mul_mod_distr_r by lia.
    by rewrite Z.mod_mod by lia.
  - apply as_word; [i32|]. by rewrite <- u32_lor, u32_lnot_gen.
  - apply Z.lor_diag.
  - apply as_word; [i32|]. by rewrite !land_imm, !u32_lor, u32_u32.
  - rewrite Z.shiftl_mul_pow2 by (apply Hsh; auto). symmetry. apply wrap32_eqm, u32_mul.
  - rewrite land_shift, Z.shiftl_mul_pow2 by (apply Z.mod_pos_bound; lia).
    symmetry. apply wrap32_eqm, u32_mul.
  - by destruct (_ <? _).
  - by destruct (_ <? _).
  - by destruct (_ <? _).
  - by destruct (_ <? _).
  - apply Z.shiftr_div_pow2, Hsh; auto.
  - rewrite land_shift. apply Z.shiftr_div_pow2, Z.mod_pos_bound. lia.
  - apply Z.shiftr_div_pow2, Hsh; auto.
  - rewrite land_shift. apply Z.shiftr_div_pow2, Z.mod_pos_bound. lia.
  - rewrite checked_sub by done. destruct (_ && _)%bool; [done|by apply Hset].
  - symmetry. apply wrap32_eqm, u32_sub.
  - apply as_word; [i32|]. by rewrite !u32_lxor, !u32_u32.
  - apply as_word; [i32|]. by rewrite !land_imm, !u32_lxor, u32_u32.
Qed.

Lemma OneInstruction_fetched be m i :
  wf_machine m → wf_translation m → fetched be m = Some i →
  ∃ m1, keeps m m1 ∧ registers m1 = registers m ∧ wf_instr i ∧
  match exec be m1 i (wrap32 (R m NextPCReg + 4)) with
  | Ok (Next m2 pcAfter lr lv) =>
      ∃ m', OneInstruction be m = Ok (None, m') ∧ retired m2 m' pcAfter lr lv
  | Ok (Trap e m') => OneInstruction be m = Ok (Some e, m')
  | _ => True
  end.
Proof.
  intros Hm Ht Hf. unfold OneInstruction. rewrite reg_R by done. cbn [mbind result_bind].
  destruct (fetch_cases be m Hm Ht) as [(e & m1 & m' & Hr & _)|
    (raw & m1 & i' & Hrd & Hk & Hreg & Hi & Hwf & Hf')].
  { unfold fetched in Hf. by rewrite Hr in Hf. }
  rewrite Hf in Hf'. injection Hf' as <-.
  exists m1. split; [done|]. split; [done|]. split; [done|].
  rewrite Hrd. cbn [mbind result_bind]. rewrite Hi. cbn [mbind result_bind].
  rewrite reg_R by (apply Hk || done). cbn [mbind result_bind].
  rewrite (R_registers m m1 NextPCReg Hreg).
  pose proof (exec_post_holds be m1 i (wrap32 (R m NextPCReg + 4)) (keeps_wf _ _ Hk)
    (keeps_tr _ _ Hk) Hwf (wrap32_int32 _)) as Hp.
  destruct (exec be m1 i _) as [[e m2|m2 pc' lr lv]| | | |]; try done.
  destruct Hp as (Hk2 & Hpc & Hlr & Hlv). apply advance; [apply Hk2|apply Hk2|done..].
Qed.

(** A logical shift is an arithmetic one for non-negative words only. *)
Lemma shift_agrees t e : int32 t → 0 <= e < 32 → t / 2 ^ e = wrap32 (u32 t / 2 ^ e) ↔ 0 <= t ∨ e = 0.
Proof.
  intros Ht He. assert (0 < 2 ^ e) by (apply Z.pow_pos_nonneg; lia).
  destruct (Z.le_gt_cases 0 t) as [Hp|Hn].
  - rewrite u32_nonneg_id by done. split; [by left|]. intros _. rewrite wrap32_id; [done|]. unfold int32 in *.
    split; [pose proof (Z.div_pos t (2 ^ e)); lia|]. apply Z.div_lt_upper_bound; nia.
  - destruct (Z.eq_dec e 0) as [->|He0].
    { rewrite Z.pow_0_r, !Z.div_1_r. split; [by right|]. intros _. symmetry. rewrite <- (wrap32_id t) at 2 by done.
      apply wrap32_eqm, u32_u32. }
    split; [|lia]. assert (2 <= 2 ^ e) by (change 2 with (2 ^ 1) at 1; apply Z.pow_le_mono_r; lia).
    pose proof (u32_uint32 t) as [? ?].
    assert (t / 2 ^ e < 0) by (apply Z.div_lt_upper_bound; lia).
    assert (0 <= u32 t / 2 ^ e < 2 ^ 31) by (split; [apply Z.div_pos; lia|apply Z.div_lt_upper_bound; lia]).
    rewrite wrap32_id by (unfold int32; lia). lia.
Qed.

Lemma deviation_agrees i d f g s t : wf_instr i → int32 s → int32 t →
  isa_alu (opCode i) = Some (d, f) → deviation (opCode i) = Some g →
  Some (g s t (extra i)) = f s t (extra i) ↔ manual_agrees (opCode i) s t (extra i).
Proof.
  intros [_ _ _ _ Hsh _] Hs Ht Hf Hg.
  destruct (opCode i) eqn:Ho; try discriminate Hg; injection Hf as <- <-; injection Hg as <-; cbn [manual_agrees].
  - split; [intros [= E]|intros ->; by rewrite wrap32_u32, wrap32_id].
    assert (uint32 (Z.lor (u32 s) (u32 t))) as Hu by (apply uint32_lor; apply u32_uint32).
    apply (f_equal u32) in E. by rewrite u32_wrap32, (u32_id _ Hu) in E.
  - rewrite <- shift_agrees by (done || (apply Hsh; auto)). by split; [intros [=]|intros <-].
  - rewrite <- shift_agrees by (done || (apply Z.mod_pos_bound; lia)). by split; [intros [=]|intros <-].
Qed.

(** C16: arithmetic, logical, shift and comparison instructions.  The result of every
    one of them but OR, SRL and SRLV is what the architecture manual defines, the
    overflow traps of ADD, ADDI and SUB included (exactly when the exact result does
    not fit a signed word).  OR gives its first operand, and SRL and SRLV shift in
    copies of the sign bit ([deviation]): they give the result of the manual exactly
    when the second operand of OR has no bit that the first lacks, and the operand of
    the shift is not negative or the amount is 0.  No other register changes; the
    delayed load of the instruction before wins over the result. *)
Theorem OneInstruction_alu be m i d f :
  wf_machine m → wf_translation m → fetched be m = Some i →
  isa_alu (opCode i) = Some (d, f) →
  match alu_result (opCode i) f (R m (rs i)) (R m (rt i)) (extra i) with
  | Some v => ∃ m', OneInstruction be m = Ok (None, m') ∧
      R m' NextPCReg = wrap32 (R m NextPCReg + 4) ∧
      ∀ j, 0 < j < 34 → j ≠ R m LoadReg →
        R m' j = if j =? alu_dest i d then v else R m j
  | None => ∃ m', OneInstruction be m = Ok (Some OverflowException, m')
  end ∧
  (alu_result (opCode i) f (R m (rs i)) (R m (rt i)) (extra i) = f (R m (rs i)) (R m (rt i)) (extra i) ↔
   manual_agrees (opCode i) (R m (rs i)) (R m (rt i)) (extra i)).
Proof.
  intros Hm Ht Hf Ha.
  destruct (OneInstruction_fetched be m i Hm Ht Hf) as (m1 & Hk & Hreg & Hwf & Hx).
  split.
  - rewrite (exec_alu _ _ _ _ _ _ (keeps_wf _ _ Hk) Hwf Ha) in Hx.
    rewrite !(R_registers m m1 _ Hreg) in Hx.
    assert (0 <= alu_dest i d < 32) as Hdest by (destruct Hwf, d; simpl; lia).
    destruct (alu_result _ _ _ _ _) as [v|].
    + destruct Hx as (m' & Ho & (_ & _ & _ & _ & _ & Hn & _ & _ & _ & Hj)).
      exists m'. split; [done|]. split; [done|]. intros j Hj0 Hjl.
      pose proof (keeps_wf _ _ Hk) as Hm1.
      rewrite !R_setR in Hj by (done || reg_range).
      rewrite Hj, R_setR by (done || reg_range || (rewrite (R_registers m m1 _ Hreg);
        destruct (Z.eqb_spec (alu_dest i d) LoadReg); [unfold LoadReg in *; lia|done])).
      rewrite (R_registers m m1 _ Hreg), Z.eqb_sym. done.
    + unfold raise in Hx. destruct (RaiseException_Ok m1 0 (keeps_wf _ _ Hk)) as (m' & Hr & _);
        [done|]. rewrite Hr in Hx. by exists m'.
  - unfold alu_result. destruct (deviation (opCode i)) as [g|] eqn:Hg.
    + by eapply deviation_agrees; [done|apply R_int32..|done|].
    + split; [|done]. by destruct (opCode i).
Qed.

Lemma raise_misaligned m a size :
  access_size size → Z.land a (size - 1) ≠ 0 →
  Translate_spec m a size false = (Fault AddressErrorException, m).
Proof.
  intros Hs Ha. unfold Translate_spec. rewrite <- misaligned_spec by done.
  unfold misaligned. destruct Hs as [->|[->| ->]]; simpl in Ha |- *.
  - by rewrite Z.land_0_r in Ha.
  - destruct (Z.eqb_spec (Z.land a 1) 0); done.
  - destruct (Z.eqb_spec (Z.land a 3) 0); done.
Qed.

Lemma byte_range mem p :
  Forall byte mem → 0 <= p < Z.of_nat (length mem) →
  0 <= le_val (take (Z.to_nat 1) (drop (Z.to_nat p) mem)) < 2 ^ 8.
Proof.
  intros Hb Hp. pose proof (le_val_bound (take (Z.to_nat 1) (drop (Z.to_nat p) mem))) as H.
  rewrite length_take, length_drop in H.
  replace (Z.to_nat 1 `min` (length mem - Z.to_nat p))%nat with 1%nat in H by lia.
  apply H. by apply Forall_take, Forall_drop.
Qed.

Lemma half_range mem p :
  Forall byte mem → 0 <= p → p + 2 <= Z.of_nat (length mem) →
  0 <= le_val (take (Z.to_nat 2) (drop (Z.to_nat p) mem)) < 2 ^ 16.
Proof.
  intros Hb Hp Hl. pose proof (le_val_bound (take (Z.to_nat 2) (drop (Z.to_nat p) mem))) as H.
  rewrite length_take, length_drop in H.
  replace (Z.to_nat 2 `min` (length mem - Z.to_nat p))%nat with 2%nat in H by lia.
  apply H. by apply Forall_take, Forall_drop.
Qed.

(** The sign extension of LB, from the sign-extended byte [ReadMem] gives. *)
Lemma lb_value b :
  0 <= b < 2 ^ 8 →
  (if negb (Z.land (schar b) 0x80 =? 0) then wrap32 (Z.lor (u32 (schar b)) 0xffffff00)
   else Z.land (schar b) 0xff) = schar b ∧
  Z.land (schar b) 0xff = b.
Proof.
  intros Hb. assert (Z.land (schar b) 0xff = b) as Hlow.
  { change 0xff with (Z.ones 8). rewrite Z.land_ones by lia. by apply schar_mod. }
  split; [|done]. rewrite Hlow. change 0x80 with (2 ^ 7). rewrite land_pow2 by lia.
  assert (schar b = if b <? 2 ^ 7 then b else b - 2 ^ 8) as Hsc.
  { unfold schar. destruct (Z.ltb_spec b (2 ^ 7)).
    - rewrite Z.mod_small; lia.
    - rewrite <- (Z_mod_plus_full (b + 2 ^ 7) (-1)), Z.mod_small; lia. }
  assert (Z.testbit (schar b) 7 = negb (b <? 2 ^ 7)) as ->.
  { rewrite Z.testbit_eqb, Hsc by lia. destruct (Z.ltb_spec b (2 ^ 7)).
    - by rewrite Z.div_small by lia.
    - replace ((b - 2 ^ 8) / 2 ^ 7) with (-1); [done|].
      apply Z.div_unique with (b - 2 ^ 7); lia. }
  rewrite Hsc. destruct (Z.ltb_spec b (2 ^ 7)); simpl negb; cbv iota; simpl; [done|].
  symmetry. apply as_word; [unfold int32; lia|].
  rewrite u32_lor, u32_u32, (u32_neg (b - 2 ^ 8)) by (unfold int32; lia).
  replace (b - 2 ^ 8 + 2 ^ 32) with (b + 0xffffff * 2 ^ 8) by lia.
  rewrite <- (lor_low_high b 0xffffff 8) by lia.
  change (u32 4294967040) with (0xffffff * 2 ^ 8).
  by rewrite <- Z.lor_assoc, Z.lor_diag.
Qed.

Lemma lh_value h :
  0 <= h < 2 ^ 16 →
  (if negb (Z.land h 0x8000 =? 0) then wrap32 (Z.lor (u32 h) 0xffff0000)
   else Z.land h 0xffff) = sext16 h.
Proof.
  intros Hh. rewrite <- sext16_lor by done.
  rewrite u32_id by (unfold uint32; lia). destruct (negb _); [done|].
  change 0xffff with (Z.ones 16). rewrite Z.land_ones by lia. apply Z.mod_small. lia.
Qed.

(** C18: loads and stores.  LB and LH sign extend, LBU and LHU zero extend, LW
    takes the word; the register is written one instruction later.  SB, SH and
    SW change exactly the bytes of the access.  An address that does not
    translate traps, with the exception of the translation and the address in
    BadVAddr. *)
Theorem exec_memory be m i pc :
  wf_machine m → wf_translation m → wf_instr i →
  let a := wrap32 (R m (rs i) + extra i) in
  (∀ size ext, isa_load (opCode i) = Some (size, ext) →
     exec be m i pc =
     match Translate_spec m a size false with
     | (Phys p, m') => Ok (Next m' pc (rt i)
         (ext (take (Z.to_nat size) (drop (Z.to_nat p) (mainMemory m)))))
     | (Fault e, m') => raise m' e a
     end) ∧
  (∀ size, isa_store (opCode i) = Some size →
     exec be m i pc =
     match Translate_spec m a size true with
     | (Phys p, m') =>
         Ok (Next (set_memory m' (store (mainMemory m) p size (R m (rt i)))) pc 0 0)
     | (Fault e, m') => raise m' e a
     end).
Proof.
  intros Hm Ht [Hrs Hrt Hrd He _ _] a. pose proof (wf_mem_byte _ Hm) as Hb.
  pose proof (wf_mem_length _ Hm) as Hl.
  split; [intros size ext Hi|intros size Hi]; destruct (opCode i) eqn:Ho; try discriminate Hi;
    injection Hi; intros; subst; exec_open; unfold read_or_return, write_or_return; fold a.
  3,4: destruct (Z.eqb_spec (Z.land a 1) 0) as [Hz|Hz]; cbv iota beta; cbn [negb];
    [|by rewrite raise_misaligned by (done || by right; left)].
  5: destruct (Z.eqb_spec (Z.land a 3) 0) as [Hz|Hz]; cbv iota beta; cbn [negb];
    [|by rewrite raise_misaligned by (done || by right; right)].
  all: rewrite ?ReadMem_spec, ?WriteMem_spec
         by (done || by (left + (right; left) + (right; right))).
  all: match goal with |- context [Translate_spec ?x ?y ?s ?w] =>
         destruct (Translate_spec x y s w) as [[e|p] m'] eqn:Htr end;
       [unfold raise; by match goal with |- context [RaiseException ?x ?y] =>
          destruct (RaiseException x y) end|];
       apply Translate_spec_phys in Htr as Hp; [|by (left + (right; left) + (right; right))];
       apply Translate_spec_frame in Htr as (-> & _); try done;
       cbn [mbind result_bind]; unfold load; cbn [Z.eqb Pos.eqb]; cbv beta iota zeta;
       cbn [is_OP_LB is_OP_LH]; rewrite ?andb_true_r, ?andb_false_r; try done; do 2 f_equal.
  - apply lb_value, byte_range; [done|lia].
  - apply lb_value, byte_range; [done|lia].
  - apply lh_value, half_range; [done|lia..].
  - pose proof (half_range (mainMemory m) p Hb ltac:(lia) ltac:(lia)).
    change 0xffff with (Z.ones 16). rewrite Z.land_ones by lia. by apply Z.mod_small.
Qed.

(** ** Programs to try the properties on *)

(** A machine about to execute [word], with [a] in R1 and [b] in R2. *)
Definition demo_cpu (word a b : Z) : Machine :=
  setR (setR (setR (set_memory demo_machine (store (mainMemory demo_machine) 768 4 word))
    1 a) 2 b) NextPCReg 4.

Lemma demo_cpu_wf word a b : int32 a → int32 b → wf_machine (demo_cpu word a b).
Proof.
  intros Ha Hb. unfold demo_cpu. pose proof demo_wf as [? ? ? Hl ?].
  do 3 (apply setR_wf; [|reg_range|done|done]).
  split; [done|done|done| |by apply store_byte].
  cbn [mainMemory set_memory]. by rewrite length_store by (rewrite ?Hl; done).
Qed.

Lemma demo_cpu_tr word a b : wf_translation (demo_cpu word a b).
Proof. apply demo_wf_translation. Qed.

Lemma Mult_correct_witness :
  int32 (- 2 ^ 31) ∧ Mult (- 2 ^ 31) (- 2 ^ 31) true = (2 ^ 30, 0) ∧
  2 ^ 30 * 2 ^ 32 + u32 0 = (- 2 ^ 31) * (- 2 ^ 31).
Proof.
  assert (Mult (- 2 ^ 31) (- 2 ^ 31) true = (2 ^ 30, 0)) as E by (vm_compute; reflexivity).
  pose proof (Mult_correct (- 2 ^ 31) (- 2 ^ 31) true) as H. rewrite E in H.
  assert (int32 (- 2 ^ 31)) as Hi by (unfold int32; lia).
  split; [exact Hi|]. split; [exact E|]. apply (H Hi Hi).
Defined.

(** ADDI r2, r1, -1 *)
Lemma Decode_encode_witness :
  Decode (encode 8 1 2 31 31 63) =
  Ok (mkInstr 0x2022ffff OP_ADDI 1 2 31 (-1)).
Proof. apply (Decode_encode 8 1 2 31 31 63); lia. Defined.

Definition completes (r : result (option ExceptionType * Machine)) : bool :=
  match r with Ok (None, _) => true | _ => false end.

Lemma OneInstruction_safe_witness :
  ∃ m', OneInstruction false (demo_cpu 0x2022ffff 5 7) = Ok (None, m') ∧ R m' 0 = 0.
Proof.
  pose proof (OneInstruction_safe false (demo_cpu 0x2022ffff 5 7)
    (demo_cpu_wf _ 5 7 ltac:(done) ltac:(done)) (demo_cpu_tr _ _ _)) as H.
  assert (completes (OneInstruction false (demo_cpu 0x2022ffff 5 7)) = true) as E
    by (vm_compute; reflexivity).
  destruct (OneInstruction false (demo_cpu 0x2022ffff 5 7)) as [[[e|] m']| | | |];
    try discriminate E.
  exists m'. split; [reflexivity|apply H].
Defined.

Lemma OneInstruction_delay_witness :
  ∃ m', OneInstruction false (demo_cpu 0x2022ffff 5 7) = Ok (None, m') ∧
    R m' PCReg = R (demo_cpu 0x2022ffff 5 7) NextPCReg.
Proof.
  pose proof (demo_cpu_wf 0x2022ffff 5 7 ltac:(done) ltac:(done)) as Hm.
  pose proof (demo_cpu_tr 0x2022ffff 5 7) as Ht.
  assert (completes (OneInstruction false (demo_cpu 0x2022ffff 5 7)) = true) as E
    by (vm_compute; reflexivity).
  revert Hm Ht E. generalize (demo_cpu 0x2022ffff 5 7). intros m Hm Ht E.
  destruct (OneInstruction false m) as [[[e|] m']| | | |] eqn:Ho; try discriminate E.
  exists m'. split; [reflexivity|].
  apply (OneInstruction_delay false m None m' Hm Ht Ho).
Defined.

(** Overflow: 2^31 - 1 plus 1, by ADD r3, r1, r2. *)
Lemma OneInstruction_alu_witness :
  (∃ m', OneInstruction false (demo_cpu 0x00221820 (2 ^ 31 - 1) 1) = Ok (Some OverflowException, m')) ∧
  (∃ m', OneInstruction false (demo_cpu 0x00221825 1 2) = Ok (None, m') ∧ R m' 3 = 1).
Proof.
  split.
  - apply (OneInstruction_alu false (demo_cpu 0x00221820 (2 ^ 31 - 1) 1)
      (mkInstr 0x00221820 OP_ADD 1 2 3 0) true (λ s t e, checked (s + t))).
    + apply demo_cpu_wf; done.
    + apply demo_cpu_tr.
    + vm_compute. reflexivity.
    + reflexivity.
  - destruct (OneInstruction_alu false (demo_cpu 0x00221825 1 2)
      (mkInstr 0x00221825 OP_OR 1 2 3 0) true (λ s t e, Some (wrap32 (Z.lor (u32 s) (u32 t)))))
      as [(m' & Hrun & _ & Hr) _].
    + apply demo_cpu_wf; done.
    + apply demo_cpu_tr.
    + vm_compute. reflexivity.
    + reflexivity.
    + exists m'. split; [exact Hrun|]. rewrite Hr by (vm_compute; done). vm_compute. reflexivity.
Defined.

(** LB r2, 0(r1) of a byte 0xfe. *)
Lemma exec_memory_witness :
  exec false (demo_cpu 0xfe 0 7) (mkInstr 0x80220000 OP_LB 1 2 0 0) 8 =
    Ok (Next (snd (Translate_spec (demo_cpu 0xfe 0 7) 0 1 false)) 8 2 (-2)).
Proof.
  destruct (exec_memory false (demo_cpu 0xfe 0 7) (mkInstr 0x80220000 OP_LB 1 2 0 0) 8)
    as [H _].
  - apply demo_cpu_wf; done.
  - apply demo_cpu_tr.
  - split; simpl; try lia; done.
  - rewrite (H 1 (λ bs, schar (le_val bs)) eq_refl).
    assert (fst (Translate_spec (demo_cpu 0xfe 0 7) 0 1 false) = Phys 768) as Hp
      by (vm_compute; reflexivity).
    assert (wrap32 (R (demo_cpu 0xfe 0 7) 1 + 0) = 0) as Ha by (vm_compute; reflexivity).
    assert (schar (le_val (take (Z.to_nat 1) (drop (Z.to_nat 768)
      (mainMemory (demo_cpu 0xfe 0 7))))) = -2) as Hv by (vm_compute; reflexivity).
    cbn [rs rt extra]. rewrite Ha.
    destruct (Translate_spec (demo_cpu 0xfe 0 7) 0 1 false) as [tr m'] eqn:Htr.
    cbn [fst snd] in *. subst tr. by rewrite Hv.
Defined.
