(* ===== verification/SectorStore.v ===== *)
(** * The interface between the file system and the disk

    filesys/filehdr.cc and filesys/openfile.cc reach the disk through two calls,
    [synchDisk->ReadSector] and [synchDisk->WriteSector].  [SectorStore] is what
    they promise: a store of [NumSectors] sectors of [SectorSize] bytes, of which
    each call reads or replaces one, and whose ASSERT rejects a sector number
    that does not exist.  The file system is developed against this interface;
    SynchDisk.v shows that the simulated disk with its interrupt and semaphore
    implements it. *)

From S2P Require Import Prelude Params.
Local Open Scope Z_scope.

(** A sector's worth of bytes. *)
Definition is_sector (s : list Z) : Prop :=
  Z.of_nat (length s) = SectorSize ∧ Forall byte s.

Definition sector_range (s : Z) : Prop := 0 <= s < NumSectors.

Class SectorStore (D : Type) := {
  ReadSector : Z → D → result (list Z * D);
  WriteSector : Z → list Z → D → result D;
  (** the sectors, and the states between two requests *)
  contents : D → list (list Z);
  ready : D → Prop }.

Class SectorStoreLaws (D : Type) `{SectorStore D} := {
  contents_shape d : ready d →
    Z.of_nat (length (contents d)) = NumSectors ∧ Forall is_sector (contents d);
  ReadSector_ok d s x : ready d → contents d !! Z.to_nat s = Some x → 0 <= s →
    ∃ d', ReadSector s d = Ok (x, d') ∧ ready d' ∧ contents d' = contents d;
  ReadSector_bad d s : ready d → ¬ sector_range s → ReadSector s d = AssertFail;
  WriteSector_ok d s x : ready d → sector_range s → is_sector x →
    ∃ d', WriteSector s x d = Ok d' ∧ ready d' ∧
      contents d' = <[Z.to_nat s := x]> (contents d);
  WriteSector_bad d s x : ready d → ¬ sector_range s → WriteSector s x d = AssertFail }.

(** The sector [s] of a disk image. *)
Definition sect (cs : list (list Z)) (s : Z) : list Z := default [] (cs !! Z.to_nat s).

Definition disk_image (cs : list (list Z)) : Prop :=
  Z.of_nat (length cs) = NumSectors ∧ Forall is_sector cs.

Lemma sect_lookup cs s :
  disk_image cs → sector_range s → cs !! Z.to_nat s = Some (sect cs s).
Proof.
  intros [Hl _] Hs. unfold sect, sector_range in *.
  destruct (lookup_lt_is_Some_2 cs (Z.to_nat s)) as [x Hx]; [lia|]. by rewrite Hx.
Qed.

Lemma sect_is_sector cs s : disk_image cs → sector_range s → is_sector (sect cs s).
Proof.
  intros Hi Hs. eapply Forall_lookup_1; [apply Hi|]. by apply sect_lookup.
Qed.

Lemma sect_insert cs s t x :
  disk_image cs → sector_range s → sector_range t →
  sect (<[Z.to_nat s := x]> cs) t = if s =? t then x else sect cs t.
Proof.
  intros [Hl _] Hs Ht. unfold sect, sector_range in *. destruct (Z.eqb_spec s t) as [->|].
  - by rewrite list_lookup_insert_eq by lia.
  - by rewrite list_lookup_insert_ne by lia.
Qed.

Lemma disk_image_insert cs s x :
  disk_image cs → is_sector x → disk_image (<[Z.to_nat s := x]> cs).
Proof.
  intros [Hl Hf] Hx. split; [by rewrite length_insert|by apply Forall_insert].
Qed.

Section Laws.
Context `{SectorStoreLaws D}.

Lemma ready_image d : ready d → disk_image (contents d).
Proof. apply contents_shape. Qed.

Lemma read_sector d s :
  ready d → sector_range s →
  ∃ d', ReadSector s d = Ok (sect (contents d) s, d') ∧ ready d' ∧ contents d' = contents d.
Proof.
  intros Hr Hs. apply ReadSector_ok; [done| |apply Hs].
  apply sect_lookup; [by apply ready_image|done].
Qed.

End Laws.

#[export] Hint Resolve ready_image disk_image_insert : nachos.
