(* ===== verification/FileHdr.v ===== *)
(** * filesys/filehdr.cc: file headers (i-nodes)

    A header is one sector: the file length, the number of data sectors and a
    table of [NumDirect] sector numbers.  The uninitialised table of a fresh
    header is part of the record, as it ends up on the disk with the rest. *)

From S2P Require Import Prelude Params SectorStore.
From S2P Require Import BitMap.
Local Open Scope Z_scope.

(** ** Data *)

Definition sizeof_int : Z := 4.
Definition NumDirect : Z := (SectorSize - 2 * sizeof_int) / sizeof_int.
Definition MaxFileSize : Z := NumDirect * SectorSize.

Record FileHeader := mkHdr {
  numBytes : Z;
  numSectors : Z;
  dataSectors : list Z }.

(** [(char * )this]: the header as the bytes of a sector, and back. *)
Definition hdr_bytes (h : FileHeader) : list Z :=
  le_bytes 4 (numBytes h) ++ le_bytes 4 (numSectors h) ++ (dataSectors h ≫= le_bytes 4).

Definition read_int (bs : list Z) (i : nat) : Z :=
  wrap32 (le_val (take 4 (drop (4 * i) bs))).

Definition hdr_of_bytes (bs : list Z) : FileHeader :=
  mkHdr (read_int bs 0) (read_int bs 1)
        ((λ i, read_int bs (2 + i)) <$> seq 0 (Z.to_nat NumDirect)).

(** ** Operations *)

(** [for (i = 0; i < numSectors; i++) dataSectors[i] = freeMap->Find()] *)
Fixpoint Allocate_loop (n : nat) (i : Z) (ds : list Z) (freeMap : BitMap)
  : result (list Z * BitMap) :=
  match n with
  | O => Ok (ds, freeMap)
  | S n =>
      '(s, freeMap) ← BitMap.Find freeMap;
      ds ← aset ds i s;
      Allocate_loop n (i + 1) ds freeMap
  end.

Definition Allocate (h : FileHeader) (freeMap : BitMap) (fileSize : Z)
  : result (bool * FileHeader * BitMap) :=
  let nB := fileSize in
  let nS := divRoundUp fileSize SectorSize in
  c ← NumClear freeMap;
  if c <? nS then Ok (false, mkHdr nB nS (dataSectors h), freeMap)
  else
    '(ds, freeMap) ← Allocate_loop (Z.to_nat nS) 0 (dataSectors h) freeMap;
    Ok (true, mkHdr nB nS ds, freeMap).

Fixpoint Deallocate_loop (n : nat) (i : Z) (h : FileHeader) (freeMap : BitMap)
  : result BitMap :=
  match n with
  | O => Ok freeMap
  | S n =>
      s ← aget (dataSectors h) i;
      t ← Test freeMap s;
      ASSERT t;;
      freeMap ← Clear freeMap s;
      Deallocate_loop n (i + 1) h freeMap
  end.

Definition Deallocate (h : FileHeader) (freeMap : BitMap) : result BitMap :=
  Deallocate_loop (Z.to_nat (numSectors h)) 0 h freeMap.

Definition ByteToSector (h : FileHeader) (offset : Z) : result Z :=
  aget (dataSectors h) (Z.quot offset SectorSize).

Definition FileLength (h : FileHeader) : Z := numBytes h.

Section Disk.
Context {D : Type} `{SectorStore D}.

Definition FetchFrom (sector : Z) (d : D) : result (FileHeader * D) :=
  '(bs, d) ← ReadSector sector d; Ok (hdr_of_bytes bs, d).

Definition WriteBack (h : FileHeader) (sector : Z) (d : D) : result D :=
  WriteSector sector (hdr_bytes h) d.

End Disk.

(** ** Well-formed headers *)

(** The sectors that hold the file. *)
Definition data (h : FileHeader) : list Z := take (Z.to_nat (numSectors h)) (dataSectors h).

Record wf_hdr (h : FileHeader) : Prop := {
  wf_bytes : 0 <= numBytes h;
  wf_sectors : numSectors h = divRoundUp (numBytes h) SectorSize;
  wf_fits : numSectors h <= NumDirect;
  wf_table : Z.of_nat (length (dataSectors h)) = NumDirect;
  wf_ints : Forall int32 (dataSectors h);
  wf_range : Forall sector_range (data h);
  wf_nodup : NoDup (data h) }.

(** ** Bytes *)

Lemma length_chunks (l : list Z) : length (l ≫= le_bytes 4) = (4 * length l)%nat.
Proof.
  induction l as [|x l IH]; [done|]. change ((x :: l) ≫= le_bytes 4) with
    (le_bytes 4 x ++ (l ≫= le_bytes 4)).
  rewrite length_app, IH, length_le_bytes. simpl. lia.
Qed.

Lemma chunks_byte (l : list Z) : Forall byte (l ≫= le_bytes 4).
Proof.
  induction l as [|x l IH]; [constructor|]. apply Forall_app. split; [apply le_bytes_byte|done].
Qed.

Lemma read_int_chunks (l tl : list Z) i x :
  Forall int32 l → l !! i = Some x → read_int ((l ≫= le_bytes 4) ++ tl) i = x.
Proof.
  intros Hl. revert i. induction Hl as [|y l Hy Hl IH]; intros [|i] Hi; try done.
  - injection Hi as ->. unfold read_int. rewrite Nat.mul_0_r, drop_0.
    change ((x :: l) ≫= le_bytes 4) with (le_bytes 4 x ++ (l ≫= le_bytes 4)).
    rewrite <- app_assoc, take_app_length' by done. by apply wrap32_le_val.
  - rewrite <- (IH i Hi). unfold read_int.
    change ((y :: l) ≫= le_bytes 4) with (le_bytes 4 y ++ (l ≫= le_bytes 4)).
    replace (4 * S i)%nat with (4 + 4 * i)%nat by lia.
    rewrite <- drop_drop, <- app_assoc. by rewrite (drop_app_length' _ _ 4) by done.
Qed.

Lemma hdr_bytes_chunks h :
  hdr_bytes h = (numBytes h :: numSectors h :: dataSectors h) ≫= le_bytes 4.
Proof. unfold hdr_bytes. cbn. by rewrite <- ?app_assoc. Qed.

Lemma hdr_bytes_sector h :
  Z.of_nat (length (dataSectors h)) = NumDirect → is_sector (hdr_bytes h).
Proof.
  intros Hl. rewrite hdr_bytes_chunks. split; [|apply chunks_byte].
  rewrite length_chunks. simpl length.
  change NumDirect with 62 in Hl. unfold SectorSize. lia.
Qed.

Lemma hdr_of_hdr_bytes h :
  int32 (numBytes h) → int32 (numSectors h) → Forall int32 (dataSectors h) →
  Z.of_nat (length (dataSectors h)) = NumDirect →
  hdr_of_bytes (hdr_bytes h) = h.
Proof.
  intros Hb Hs Hd Hl. rewrite hdr_bytes_chunks. unfold hdr_of_bytes.
  assert (Forall int32 (numBytes h :: numSectors h :: dataSectors h)) as Hall by (by constructor; [|constructor]).
  set (l := numBytes h :: numSectors h :: dataSectors h) in *.
  assert (Hr : ∀ i x, l !! i = Some x → read_int (l ≫= le_bytes 4) i = x).
  { intros i x Hx. rewrite <- (app_nil_r (l ≫= le_bytes 4)). by apply read_int_chunks. }
  destruct h as [nb ns ds]. cbn [numBytes numSectors dataSectors] in *. f_equal.
  - by apply Hr.
  - by apply Hr.
  - apply list_eq. intros i. rewrite list_lookup_fmap.
    destruct (decide (i < Z.to_nat NumDirect)%nat).
    + rewrite lookup_seq_lt by done. simpl.
      destruct (lookup_lt_is_Some_2 ds i) as [x Hx]; [lia|]. rewrite Hx. f_equal.
      apply (Hr (S (S i))). done.
    + rewrite lookup_seq_ge, lookup_ge_None_2 by lia. done.
Qed.

(** A file header survives the trip to its sector and back, uninitialised
    table entries included: [FetchFrom] after [WriteBack] gives the header. *)
Theorem hdr_roundtrip h :
  int32 (numBytes h) → int32 (numSectors h) → Forall int32 (dataSectors h) →
  Z.of_nat (length (dataSectors h)) = NumDirect →
  hdr_of_bytes (hdr_bytes h) = h.
Proof. apply hdr_of_hdr_bytes. Qed.

(** ** Allocation *)

Lemma view_bit bm bm' k b j :
  numBits bm' = numBits bm → view bm' = <[k := b]> (view bm) → 0 <= j < numBits bm →
  bit bm' j = if decide (j = Z.of_nat k) then b else bit bm j.
Proof.
  intros Hn Hv Hj. pose proof (view_lookup bm' j) as H'. pose proof (view_lookup bm j Hj) as H.
  rewrite Hn in H'. specialize (H' Hj). rewrite Hv in H'.
  case_decide as Hd.
  - subst j. rewrite Nat2Z.id in H'. rewrite list_lookup_insert_eq in H'; [congruence|].
    rewrite length_view. lia.
  - rewrite list_lookup_insert_ne in H' by lia. congruence.
Qed.

Lemma view_of_bits bm bm' :
  numBits bm' = numBits bm → (∀ j, 0 <= j < numBits bm → bit bm' j = bit bm j) →
  view bm' = view bm.
Proof.
  intros Hn Hb. unfold view. rewrite Hn. apply list_fmap_ext.
  intros i x [-> Hx]%lookup_seq. apply Hb. lia.
Qed.

(** [Find] on a bitmap with a clear bit. *)
Lemma Find_fresh bm :
  wf bm → 0 < count_clear (view bm) →
  ∃ s bm', BitMap.Find bm = Ok (s, bm') ∧ wf bm' ∧ numBits bm' = numBits bm ∧
    0 <= s < numBits bm ∧ bit bm s = false ∧
    (∀ j, 0 <= j < numBits bm → bit bm' j = if decide (j = s) then true else bit bm j) ∧
    count_clear (view bm') = count_clear (view bm) - 1.
Proof.
  intros Hwf Hc. pose proof (Find_spec bm Hwf) as Hf.
  destruct (first_clear (view bm)) as [k|] eqn:Hk; [|apply first_clear_None in Hk; lia].
  destruct Hf as (bm' & Hf & Hwf' & Hn & Hv).
  apply first_clear_Some in Hk as [Hk _]. pose proof (lookup_lt_Some _ _ _ Hk) as Hlt.
  rewrite length_view in Hlt.
  assert (bit bm (Z.of_nat k) = false) as Hb.
  { rewrite view_lookup_nat in Hk by done. congruence. }
  exists (Z.of_nat k), bm'. repeat (split; [done || lia|]).
  split; [intros j Hj; by apply view_bit|].
  rewrite Hv, (count_clear_insert _ _ false) by done. lia.
Qed.

Lemma Allocate_loop_spec n i ds bm :
  wf bm → Z.of_nat n <= count_clear (view bm) → 0 <= i →
  i + Z.of_nat n <= Z.of_nat (length ds) →
  ∃ ns bm', Allocate_loop n i ds bm =
      Ok (take (Z.to_nat i) ds ++ ns ++ drop (Z.to_nat i + n) ds, bm') ∧
    wf bm' ∧ numBits bm' = numBits bm ∧ length ns = n ∧ NoDup ns ∧
    Forall (λ s, 0 <= s < numBits bm ∧ bit bm s = false) ns ∧
    (∀ j, 0 <= j < numBits bm → bit bm' j = bool_decide (j ∈ ns) || bit bm j).
Proof.
  revert i ds bm. induction n as [|n IH]; intros i ds bm Hwf Hc Hi Hl.
  { exists [], bm. rewrite Nat.add_0_r. simpl. rewrite take_drop.
    repeat (split; [done || constructor|]). done. }
  cbn [Allocate_loop].
  destruct (Find_fresh bm Hwf) as (s & bm1 & -> & Hwf1 & Hn1 & Hs & Hclr & Hbit & Hcnt); [lia|].
  cbn [mbind result_bind]. rewrite aset_Ok by lia. cbn [mbind result_bind].
  destruct (IH (i + 1) (<[Z.to_nat i := s]> ds) bm1) as
    (ns & bm2 & -> & Hwf2 & Hn2 & Hlen & Hnd & Hfr & Hb2); [done|lia|lia|rewrite length_insert; lia|].
  exists (s :: ns), bm2. rewrite Hn1 in *.
  assert (s ∉ ns) as Hsn.
  { intros Hin. rewrite Forall_forall in Hfr. destruct (Hfr _ Hin) as [_ Hx].
    rewrite Hbit, decide_True in Hx by done. done. }
  split; [|split; [done|split; [done|split; [simpl; lia|split; [by constructor|split]]]]].
  - do 2 f_equal. replace (Z.to_nat (i + 1)) with (S (Z.to_nat i)) by lia.
    rewrite (take_S_r _ _ s) by (apply list_lookup_insert_eq; lia).
    rewrite take_insert_ge, drop_insert_lt by lia.
    rewrite <- app_assoc. simpl. do 4 f_equal. lia.
  - constructor; [done|]. eapply Forall_impl; [exact Hfr|]. intros x [Hx Hxb].
    split; [done|]. rewrite Hbit in Hxb by done. by case_decide.
  - intros j Hj. rewrite Hb2, Hbit by done.
    destruct (decide (j = s)) as [->|Hne].
    + rewrite (bool_decide_eq_true_2 (s ∈ s :: ns)) by left. by rewrite orb_true_r.
    + f_equal. apply bool_decide_ext. rewrite elem_of_cons. tauto.
Qed.

Lemma Allocate_loop_overflow n i ds bm :
  wf bm → Z.of_nat n <= count_clear (view bm) → 0 <= i <= Z.of_nat (length ds) →
  Z.of_nat (length ds) < i + Z.of_nat n → Allocate_loop n i ds bm = Undefined.
Proof.
  revert i ds bm. induction n as [|n IH]; intros i ds bm Hwf Hc Hi Hl; [lia|].
  cbn [Allocate_loop].
  destruct (Find_fresh bm Hwf) as (s & bm1 & -> & Hwf1 & _ & _ & _ & _ & Hcnt); [lia|].
  cbn [mbind result_bind]. destruct (decide (i = Z.of_nat (length ds))).
  - unfold aset. destruct (Z.ltb_spec i (Z.of_nat (length ds))); [lia|].
    by rewrite andb_false_r.
  - rewrite aset_Ok by lia. cbn [mbind result_bind]. apply IH; [done|lia|..];
      rewrite length_insert; lia.
Qed.

Lemma Allocate_spec h bm fileSize :
  wf bm → numBits bm = NumSectors → 0 <= fileSize → int32 fileSize →
  Z.of_nat (length (dataSectors h)) = NumDirect → Forall int32 (dataSectors h) →
  let free := count_clear (view bm) in
  let need := divRoundUp fileSize SectorSize in
  if free <? need then
    ∃ h', Allocate h bm fileSize = Ok (false, h', bm)
  else if fileSize <=? MaxFileSize then
    ∃ h' bm', Allocate h bm fileSize = Ok (true, h', bm') ∧
      wf bm' ∧ numBits bm' = NumSectors ∧ wf_hdr h' ∧ numBytes h' = fileSize ∧
      Forall (λ s, bit bm s = false) (data h') ∧
      (∀ j, sector_range j → bit bm' j = bool_decide (j ∈ data h') || bit bm j)
  else Allocate h bm fileSize = Undefined.
Proof.
  intros Hwf Hn Hf Hi Hl Hds free need. unfold Allocate. rewrite NumClear_spec by done.
  cbn [mbind result_bind]. fold free need.
  destruct (Z.ltb_spec free need) as [|Hge]; [by eexists|].
  pose proof (divRoundUp_bounds fileSize SectorSize Hf ltac:(done)) as Hneed. fold need in Hneed.
  unfold MaxFileSize. change NumDirect with 62 in *. unfold SectorSize in Hneed |- *.
  destruct (Z.leb_spec fileSize (62 * 256)).
  - destruct (Allocate_loop_spec (Z.to_nat need) 0 (dataSectors h) bm) as
      (ns & bm' & -> & Hwf' & Hn' & Hlen & Hnd & Hfr & Hb); [done|unfold free in *; lia|lia|lia|].
    cbn [mbind result_bind]. rewrite Hn in *.
    eexists _, bm'. split; [done|]. split; [done|]. split; [done|].
    rewrite take_0, app_nil_l.
    assert (data (mkHdr fileSize need (ns ++ drop (Z.to_nat 0 + Z.to_nat need) (dataSectors h)))
      = ns) as Hdata by (unfold data; simpl; by rewrite take_app_length').
    rewrite Hdata. split; [|split; [done|split; [|done]]].
    + split; cbn [numBytes numSectors dataSectors]; try done.
      * change NumDirect with 62. lia.
      * change NumDirect with 62. rewrite length_app, length_drop. lia.
      * apply Forall_app. split; [|by apply Forall_drop].
        eapply Forall_impl; [exact Hfr|]. intros x [Hx _]. unfold NumSectors, SectorsPerTrack,
          NumTracks, int32 in *. lia.
      * rewrite Hdata. eapply Forall_impl; [exact Hfr|]. by intros x [Hx _].
      * by rewrite Hdata.
    + eapply Forall_impl; [exact Hfr|]. by intros x [_ Hx].
  - rewrite Allocate_loop_overflow; [done|done|unfold free in *; lia|lia|lia].
Qed.

(** C20: [FileHeader::Allocate], on each of its branches.  With too few free
    sectors it fails and takes none.  With enough, and a file that fits the
    header, it succeeds with a well-formed header of the size asked for, whose
    sectors were all free, are all different and are the only ones marked.  A
    file larger than [MaxFileSize] for which there is space is not refused: the
    code then writes past the end of [dataSectors]. *)
Theorem Allocate_correct h bm fileSize :
  wf bm → numBits bm = NumSectors → 0 <= fileSize → int32 fileSize →
  Z.of_nat (length (dataSectors h)) = NumDirect → Forall int32 (dataSectors h) →
  let free := count_clear (view bm) in
  let need := divRoundUp fileSize SectorSize in
  if free <? need then
    ∃ h', Allocate h bm fileSize = Ok (false, h', bm)
  else if fileSize <=? MaxFileSize then
    ∃ h' bm', Allocate h bm fileSize = Ok (true, h', bm') ∧
      wf bm' ∧ numBits bm' = NumSectors ∧ wf_hdr h' ∧ numBytes h' = fileSize ∧
      Forall (λ s, bit bm s = false) (data h') ∧
      (∀ j, sector_range j → bit bm' j = bool_decide (j ∈ data h') || bit bm j)
  else Allocate h bm fileSize = Undefined.
Proof. apply Allocate_spec. Qed.

(** ** Deallocation *)

Lemma Deallocate_loop_spec l h i bm :
  wf bm → 0 <= i → NoDup l → Forall (λ s, 0 <= s < numBits bm) l →
  (∀ k s, l !! k = Some s → dataSectors h !! (Z.to_nat i + k)%nat = Some s) →
  if decide (Forall (λ s, bit bm s = true) l) then
    ∃ bm', Deallocate_loop (length l) i h bm = Ok bm' ∧ wf bm' ∧ numBits bm' = numBits bm ∧
      ∀ j, 0 <= j < numBits bm → bit bm' j = negb (bool_decide (j ∈ l)) && bit bm j
  else Deallocate_loop (length l) i h bm = AssertFail.
Proof.
  revert i bm. induction l as [|s l IH]; intros i bm Hwf Hi Hnd Hr Hl; cbn [length Deallocate_loop].
  { rewrite decide_True by constructor. exists bm. done. }
  apply NoDup_cons in Hnd as [Hs Hnd]. apply Forall_cons in Hr as [Hsr Hr].
  assert (aget (dataSectors h) i = Ok s) as ->.
  { apply aget_Ok. split; [done|]. rewrite <- (Hl 0%nat s) by done. f_equal. lia. }
  cbn [mbind result_bind]. rewrite Test_spec by done. cbn [mbind result_bind].
  destruct (bit bm s) eqn:Hb; cbn [ASSERT mbind result_bind].
  - destruct (Clear_spec bm s Hwf Hsr) as (bm1 & -> & Hwf1 & Hn1 & Hv1).
    cbn [mbind result_bind].
    assert (Hb1 : ∀ j, 0 <= j < numBits bm → bit bm1 j = if decide (j = s) then false else bit bm j).
    { intros j Hj. rewrite (view_bit bm bm1 _ _ j Hn1 Hv1 Hj).
      rewrite Z2Nat.id by lia. done. }
    specialize (IH (i + 1) bm1). rewrite Hn1 in IH.
    assert (Hiff : Forall (λ x, bit bm1 x = true) l ↔ Forall (λ x, bit bm x = true) (s :: l)).
    { rewrite Forall_cons. rewrite !Forall_forall in *. split.
      - intros H. split; [done|]. intros x Hx. specialize (H x Hx).
        rewrite Hb1 in H by auto. by case_decide.
      - intros [_ H] x Hx. rewrite Hb1 by auto. rewrite decide_False by congruence. auto. }
    destruct (decide (Forall (λ x, bit bm x = true) (s :: l))) as [Hall|Hall];
      [rewrite decide_True in IH by tauto|rewrite decide_False in IH by tauto].
    + destruct IH as (bm2 & -> & Hwf2 & Hn2 & Hb2); [done|lia|done|done| |].
      { intros k x Hk. rewrite <- (Hl (S k) x Hk). f_equal. lia. }
      exists bm2. split; [done|]. split; [done|]. split; [congruence|].
      intros j Hj. rewrite Hb2, Hb1 by done. destruct (decide (j = s)) as [->|Hne].
      * rewrite (bool_decide_eq_true_2 (s ∈ s :: l)) by left. by rewrite andb_false_r.
      * f_equal. f_equal. apply bool_decide_ext. rewrite elem_of_cons. tauto.
    + apply IH; [done|lia|done|done|].
      intros k x Hk. rewrite <- (Hl (S k) x Hk). f_equal. lia.
  - rewrite decide_False; [done|]. rewrite Forall_cons. by intros [? _]; congruence.
Qed.

(** Deallocating clears the bits of the file's sectors and no others; if one of
    them was not marked, the ASSERT fails. *)
Lemma Deallocate_spec h bm :
  wf bm → numBits bm = NumSectors → wf_hdr h →
  if decide (Forall (λ s, bit bm s = true) (data h)) then
    ∃ bm', Deallocate h bm = Ok bm' ∧ wf bm' ∧ numBits bm' = NumSectors ∧
      ∀ j, sector_range j → bit bm' j = negb (bool_decide (j ∈ data h)) && bit bm j
  else Deallocate h bm = AssertFail.
Proof.
  intros Hwf Hn [Hb Hs Hfit Ht _ Hr Hnd]. unfold Deallocate.
  assert (Z.to_nat (numSectors h) = length (data h)) as ->.
  { unfold data. rewrite length_take. lia. }
  pose proof (Deallocate_loop_spec (data h) h 0 bm Hwf ltac:(lia) Hnd) as H. rewrite Hn in H.
  apply H; [done|]. intros k s Hk. unfold data in Hk.
  apply lookup_take_Some in Hk as [Hk _]. done.
Qed.

(** Allocation and deallocation cancel: [Deallocate] on a header that
    [Allocate] filled gives back the bitmap [Allocate] started from. *)
Theorem Allocate_Deallocate h bm fileSize h' bm' :
  wf bm → numBits bm = NumSectors → 0 <= fileSize → int32 fileSize →
  Z.of_nat (length (dataSectors h)) = NumDirect → Forall int32 (dataSectors h) →
  Allocate h bm fileSize = Ok (true, h', bm') →
  ∃ bm'', Deallocate h' bm' = Ok bm'' ∧ wf bm'' ∧ view bm'' = view bm.
Proof.
  intros Hwf Hn Hf Hi Hl Hds Ha.
  pose proof (Allocate_spec h bm fileSize Hwf Hn Hf Hi Hl Hds) as H. cbv zeta in H.
  destruct (_ <? _); [destruct H as (? & H); congruence|].
  destruct (_ <=? _); [|congruence].
  destruct H as (h1 & bm1 & H & Hwf' & Hn' & Hh & _ & Hfree & Hb).
  rewrite Ha in H. injection H as <- <-.
  pose proof (wf_range _ Hh) as Hr. rewrite Forall_forall in Hr.
  pose proof (Deallocate_spec h' bm' Hwf' Hn' Hh) as Hd.
  rewrite decide_True in Hd.
  - destruct Hd as (bm'' & Hd & Hwf'' & Hn'' & Hb''). exists bm''. split; [done|].
    split; [done|]. apply view_of_bits; [congruence|]. rewrite Hn. intros j Hj.
    rewrite Hb'', Hb by done. destruct (decide (j ∈ data h')) as [Hin|Hin].
    + rewrite Forall_forall in Hfree. rewrite bool_decide_eq_true_2, (Hfree _ Hin) by done. done.
    + by rewrite bool_decide_eq_false_2 by done.
  - rewrite Forall_forall. intros s Hs. rewrite Hb by auto. by rewrite bool_decide_eq_true_2.
Qed.

(** ** Witnesses *)

Definition demo_hdr : FileHeader := mkHdr 300 2 (7 :: 9 :: replicate 60 (-5)).

Lemma demo_bm : ∃ bm, newBitMap (λ _, 12345) NumSectors = Ok bm ∧ wf bm ∧
  numBits bm = NumSectors ∧ view bm = replicate (Z.to_nat NumSectors) false.
Proof. by apply newBitMap_spec. Qed.

Lemma hdr_roundtrip_witness : hdr_of_bytes (hdr_bytes demo_hdr) = demo_hdr.
Proof.
  apply (hdr_roundtrip demo_hdr).
  - by unfold int32.
  - by unfold int32.
  - apply Forall_cons. split; [by unfold int32|]. apply Forall_cons.
    split; [by unfold int32|]. by apply Forall_replicate.
  - reflexivity.
Defined.

Lemma Allocate_correct_witness :
  ∃ bm h' bm', Allocate demo_hdr bm 600 = Ok (true, h', bm') ∧ numBytes h' = 600.
Proof.
  destruct demo_bm as (bm & _ & Hwf & Hn & Hv).
  pose proof (Allocate_correct demo_hdr bm 600 Hwf Hn ltac:(done) ltac:(done) eq_refl) as H.
  cbv zeta in H. rewrite Hv in H.
  replace (count_clear (replicate (Z.to_nat NumSectors) false)) with 1024 in H
    by (vm_compute; reflexivity).
  destruct H as (h' & bm' & Ha & _ & _ & _ & Hb & _).
  - apply Forall_cons. split; [by unfold int32|]. apply Forall_cons.
    split; [by unfold int32|]. by apply Forall_replicate.
  - by exists bm, h', bm'.
Defined.

Lemma Allocate_Deallocate_witness :
  ∃ bm h' bm' bm'', Allocate demo_hdr bm 600 = Ok (true, h', bm') ∧
    Deallocate h' bm' = Ok bm'' ∧ view bm'' = view bm.
Proof.
  assert (Forall int32 (dataSectors demo_hdr)) as Hi.
  { apply Forall_cons. split; [by unfold int32|]. apply Forall_cons.
    split; [by unfold int32|]. by apply Forall_replicate. }
  destruct demo_bm as (bm & _ & Hwf & Hn & Hv).
  pose proof (Allocate_spec demo_hdr bm 600 Hwf Hn ltac:(done) ltac:(done) eq_refl Hi) as H.
  cbv zeta in H. rewrite Hv in H.
  replace (count_clear (replicate (Z.to_nat NumSectors) false)) with 1024 in H
    by (vm_compute; reflexivity).
  destruct H as (h' & bm' & Ha & _).
  destruct (Allocate_Deallocate demo_hdr bm 600 h' bm' Hwf Hn ltac:(done) ltac:(done) eq_refl Hi Ha)
    as (bm'' & ? & _ & ?).
  by exists bm, h', bm', bm''.
Defined.
