(* ===== verification/OpenFile.v ===== *)
(** * filesys/openfile.cc: reading and writing open files

    The disk transfers whole sectors; [ReadAt] and [WriteAt] turn that into byte
    ranges, through a buffer whose uninitialised bytes ([junk]) are modelled.
    The reference is the file as the list of its bytes ([file_bytes]): reading
    is taking a slice, writing is replacing one. *)

From S2P Require Import Prelude Params SectorStore.
From S2P Require Import BitMap.
From S2P Require Import FileHdr.
Local Open Scope Z_scope.

(** ** The code *)

Record OpenFile := mkOpen {
  hdr : FileHeader;
  seekPosition : Z }.

Section Code.
Context {D : Type} `{SectorStore D}.
Variable junk : nat → Z.

(** [new char[n]] *)
Definition new_buf (n : Z) : list Z := (λ i, u8 (junk i)) <$> seq 0 (Z.to_nat n).

Definition newOpenFile (sector : Z) (d : D) : result (OpenFile * D) :=
  '(h, d) ← FetchFrom sector d; Ok (mkOpen h 0, d).

Definition Seek (f : OpenFile) (position : Z) : OpenFile := mkOpen (hdr f) position.

(** [for (i = firstSector; i <= lastSector; i++) ReadSector(...)]: [n]
    iterations are left, from [i]. *)
Fixpoint read_loop (n : nat) (i firstSector : Z) (h : FileHeader) (buf : list Z) (d : D)
  : result (list Z * D) :=
  match n with
  | O => Ok (buf, d)
  | S n =>
      s ← ByteToSector h (i * SectorSize);
      '(bs, d) ← ReadSector s d;
      buf ← asplice buf ((i - firstSector) * SectorSize) bs;
      read_loop n (i + 1) firstSector h buf d
  end.

(** The bytes copied to [into], their number being the return value. *)
Definition ReadAt (f : OpenFile) (numBytes position : Z) (d : D)
  : result (Z * list Z * D) :=
  let fileLength := FileLength (hdr f) in
  if (numBytes <=? 0) || (position >=? fileLength) then Ok (0, [], d)
  else
    let numBytes :=
      if wrap32 (position + numBytes) >? fileLength then fileLength - position else numBytes in
    let firstSector := divRoundDown position SectorSize in
    let lastSector := divRoundDown (position + numBytes - 1) SectorSize in
    let numSectors := 1 + lastSector - firstSector in
    '(buf, d) ← read_loop (Z.to_nat numSectors) firstSector firstSector (hdr f)
                  (new_buf (numSectors * SectorSize)) d;
    bs ← aslice buf (position - firstSector * SectorSize) numBytes;
    Ok (numBytes, bs, d).

Fixpoint write_loop (n : nat) (i firstSector : Z) (h : FileHeader) (buf : list Z) (d : D)
  : result D :=
  match n with
  | O => Ok d
  | S n =>
      s ← ByteToSector h (i * SectorSize);
      bs ← aslice buf ((i - firstSector) * SectorSize) SectorSize;
      d ← WriteSector s bs d;
      write_loop n (i + 1) firstSector h buf d
  end.

(** [ReadAt(&buf[off], SectorSize, pos)], for its effect on [buf]. *)
Definition read_into (f : OpenFile) (buf : list Z) (off pos : Z) (d : D)
  : result (list Z * D) :=
  '(_, bs, d) ← ReadAt f SectorSize pos d;
  buf ← asplice buf off bs;
  Ok (buf, d).

Definition WriteAt (f : OpenFile) (from : list Z) (numBytes position : Z) (d : D)
  : result (Z * D) :=
  let fileLength := FileLength (hdr f) in
  if (numBytes <=? 0) || (position >=? fileLength) then Ok (0, d)
  else
    let numBytes :=
      if wrap32 (position + numBytes) >? fileLength then fileLength - position else numBytes in
    let firstSector := divRoundDown position SectorSize in
    let lastSector := divRoundDown (position + numBytes - 1) SectorSize in
    let numSectors := 1 + lastSector - firstSector in
    let buf := new_buf (numSectors * SectorSize) in
    let firstAligned := position =? firstSector * SectorSize in
    let lastAligned := position + numBytes =? (lastSector + 1) * SectorSize in
    '(buf, d) ← (if negb firstAligned
                 then read_into f buf 0 (firstSector * SectorSize) d else Ok (buf, d));
    '(buf, d) ← (if negb lastAligned && (negb (firstSector =? lastSector) || firstAligned)
                 then read_into f buf ((lastSector - firstSector) * SectorSize)
                        (lastSector * SectorSize) d
                 else Ok (buf, d));
    bs ← aslice from 0 numBytes;
    buf ← asplice buf (position - firstSector * SectorSize) bs;
    d ← write_loop (Z.to_nat numSectors) firstSector firstSector (hdr f) buf d;
    Ok (numBytes, d).

Definition Read (f : OpenFile) (numBytes : Z) (d : D) : result (Z * list Z * OpenFile * D) :=
  '(r, bs, d) ← ReadAt f numBytes (seekPosition f) d;
  Ok (r, bs, mkOpen (hdr f) (seekPosition f + r), d).

Definition Write (f : OpenFile) (into : list Z) (numBytes : Z) (d : D)
  : result (Z * OpenFile * D) :=
  '(r, d) ← WriteAt f into numBytes (seekPosition f) d;
  Ok (r, mkOpen (hdr f) (seekPosition f + r), d).

Definition Length (f : OpenFile) : Z := FileLength (hdr f).

End Code.

(** ** The reference *)

(** The bytes of all the sectors of a file, and of the file. *)
Definition file_image (cs : list (list Z)) (h : FileHeader) : list Z :=
  mjoin (sect cs <$> data h).
Definition file_bytes (cs : list (list Z)) (h : FileHeader) : list Z :=
  take (Z.to_nat (numBytes h)) (file_image cs h).

(** How many bytes a request moves. *)
Definition transfer (len numBytes position : Z) : Z :=
  if (numBytes <=? 0) || (len <=? position) then 0 else Z.min numBytes (len - position).

(** ** Files as bytes *)

Lemma join_lookup {A} (ls : list (list A)) (c j : nat) :
  (0 < c)%nat → Forall (λ l, length l = c) ls →
  mjoin ls !! j = ls !! (j / c)%nat ≫= λ l, l !! (j mod c)%nat.
Proof.
  intros Hc Hls. revert j. induction Hls as [|l ls Hl Hls IH]; intros j; [done|].
  change (mjoin (l :: ls)) with (l ++ mjoin ls).
  destruct (decide (j < c)%nat).
  - rewrite lookup_app_l by lia. rewrite Nat.div_small, Nat.mod_small by lia. done.
  - rewrite lookup_app_r by lia. rewrite IH, Hl.
    assert (j / c = S ((j - c) / c))%nat as ->.
    { replace j with ((j - c) + 1 * c)%nat at 1 by lia. rewrite Nat.div_add by lia. lia. }
    assert (j mod c = (j - c) mod c)%nat as ->; [|done].
    replace j with ((j - c) + 1 * c)%nat at 1 by lia. by rewrite Nat.Div0.mod_add.
Qed.

Lemma join_length {A} (ls : list (list A)) (c : nat) :
  Forall (λ l, length l = c) ls → length (mjoin ls) = (c * length ls)%nat.
Proof.
  induction 1 as [|l ls Hl Hls IH]; [simpl; lia|].
  change (mjoin (l :: ls)) with (l ++ mjoin ls). rewrite length_app, IH, Hl. simpl. lia.
Qed.

Section Image.
Context (cs : list (list Z)) (h : FileHeader).
Hypothesis (Hcs : disk_image cs) (Hh : wf_hdr h).

Lemma data_length : length (data h) = Z.to_nat (numSectors h).
Proof. unfold data. rewrite length_take. destruct Hh. lia. Qed.

Lemma data_sectors : Forall (λ l, length l = 256%nat) (sect cs <$> data h).
Proof.
  apply Forall_fmap. eapply Forall_impl; [apply (wf_range _ Hh)|]. intros s Hs.
  destruct (sect_is_sector cs s Hcs Hs) as [Hl _]. unfold SectorSize in Hl. simpl. lia.
Qed.

Lemma image_length : Z.of_nat (length (file_image cs h)) = SectorSize * numSectors h.
Proof.
  unfold file_image. rewrite (join_length _ 256) by apply data_sectors.
  rewrite length_fmap, data_length. unfold SectorSize. destruct Hh.
  pose proof (divRoundUp_bounds (numBytes h) SectorSize). unfold SectorSize in *. lia.
Qed.

Lemma bytes_fit : numBytes h <= SectorSize * numSectors h.
Proof. destruct Hh as [? ->]. by apply divRoundUp_bounds. Qed.

Lemma file_bytes_length : Z.of_nat (length (file_bytes cs h)) = numBytes h.
Proof.
  unfold file_bytes. rewrite length_take. pose proof image_length. pose proof bytes_fit.
  destruct Hh. lia.
Qed.

Lemma file_image_lookup (j : nat) s :
  data h !! (j / 256)%nat = Some s → file_image cs h !! j = sect cs s !! (j mod 256)%nat.
Proof.
  intros Hs. unfold file_image. rewrite (join_lookup _ 256) by (lia || apply data_sectors).
  rewrite list_lookup_fmap, Hs. done.
Qed.

Lemma data_at (j : nat) :
  (j < Z.to_nat (numSectors h))%nat →
  ∃ s, data h !! j = Some s ∧ sector_range s ∧
    ByteToSector h (Z.of_nat j * SectorSize) = Ok s.
Proof.
  intros Hj. destruct (lookup_lt_is_Some_2 (data h) j) as [s Hs]; [rewrite data_length; lia|].
  exists s. split; [done|]. split; [eapply Forall_lookup_1; [apply (wf_range _ Hh)|done]|].
  unfold ByteToSector. rewrite Z.quot_mul by done. apply aget_Ok. split; [lia|].
  rewrite Nat2Z.id. unfold data in Hs. by apply lookup_take_Some in Hs as [? _].
Qed.

End Image.

(** ** Loops over sectors *)

Lemma asplice_lookup {A} (l src : list A) (off : nat) :
  (off + length src <= length l)%nat →
  ∃ l', asplice l (Z.of_nat off) src = Ok l' ∧ length l' = length l ∧
    ∀ k, l' !! k = if decide (off <= k < off + length src)%nat then src !! (k - off)%nat
                   else l !! k.
Proof.
  intros Hl. eexists. split; [apply asplice_Ok; lia|]. rewrite Nat2Z.id. split.
  - rewrite !length_app, length_take, length_drop. lia.
  - intros k. by apply lookup_splice.
Qed.

Lemma aslice_lookup {A} (l : list A) (off n : nat) :
  (off + n <= length l)%nat →
  ∃ l', aslice l (Z.of_nat off) (Z.of_nat n) = Ok l' ∧ length l' = n ∧
    ∀ k, (k < n)%nat → l' !! k = l !! (off + k)%nat.
Proof.
  intros Hl. eexists. split; [apply aslice_Ok; lia|]. rewrite !Nat2Z.id. split.
  - rewrite length_take, length_drop. lia.
  - intros k Hk. rewrite lookup_take_lt by done. apply lookup_drop.
Qed.

Lemma asplice_Forall {A} (P : A → Prop) (l src l' : list A) off :
  asplice l off src = Ok l' → Forall P l → Forall P src → Forall P l'.
Proof.
  unfold asplice. destruct (_ && _); [|done]. intros [= <-] Hl Hs.
  apply Forall_app. split; [by apply Forall_take|]. apply Forall_app.
  split; [done|by apply Forall_drop].
Qed.

Section Loops.
Context `{SectorStoreLaws D} (junk : nat → Z).
Implicit Types (h : FileHeader) (d : D) (n i first : nat).

Lemma read_loop_spec n i first h buf d :
  wf_hdr h → ready d → (first <= i)%nat → (i + n <= Z.to_nat (numSectors h))%nat →
  ((i - first + n) * 256 <= length buf)%nat →
  ∃ buf' d', read_loop n (Z.of_nat i) (Z.of_nat first) h buf d = Ok (buf', d') ∧
    ready d' ∧ contents d' = contents d ∧ length buf' = length buf ∧
    ∀ k, buf' !! k =
      if decide ((i - first) * 256 <= k < (i - first + n) * 256)%nat
      then file_image (contents d) h !! (first * 256 + k)%nat else buf !! k.
Proof.
  intros Hh. revert i buf d. induction n as [|n IH]; intros i buf d Hr Hfi Hi Hl.
  { exists buf, d. do 4 (split; [done|]). intros k. by rewrite decide_False by lia. }
  cbn [read_loop]. destruct (data_at h Hh i) as (s & Hs & Hsr & ->); [lia|].
  cbn [mbind result_bind]. destruct (read_sector d s Hr Hsr) as (d1 & -> & Hr1 & Hc1).
  cbn [mbind result_bind].
  destruct (sect_is_sector (contents d) s) as [Hsl _]; [by apply ready_image|done|].
  unfold SectorSize in Hsl.
  replace ((Z.of_nat i - Z.of_nat first) * SectorSize) with (Z.of_nat ((i - first) * 256))
    by (unfold SectorSize; lia).
  destruct (asplice_lookup buf (sect (contents d) s) ((i - first) * 256)) as
    (buf1 & -> & Hl1 & Hk1); [lia|]. cbn [mbind result_bind].
  replace (Z.of_nat i + 1) with (Z.of_nat (S i)) by lia.
  destruct (IH (S i) buf1 d1) as (buf2 & d2 & -> & Hr2 & Hc2 & Hl2 & Hk2); [done|lia..|].
  exists buf2, d2. split; [done|]. split; [done|]. split; [congruence|]. split; [lia|].
  intros k. rewrite Hk2, Hk1, Hc1.
  replace (length (sect (contents d) s)) with 256%nat by lia.
  destruct (decide ((S i - first) * 256 <= k < (S i - first + n) * 256)%nat).
  - by rewrite decide_True by lia.
  - destruct (decide ((i - first) * 256 <= k < (i - first) * 256 + 256)%nat) as [Hk|Hk].
    + rewrite decide_True by lia. symmetry.
      assert ((first * 256 + k) / 256 = i)%nat as Hdiv.
      { symmetry. apply Nat.div_unique with (k - (i - first) * 256)%nat; lia. }
      rewrite (file_image_lookup _ _ (ready_image _ Hr) Hh _ s) by (by rewrite Hdiv).
      f_equal. symmetry. apply Nat.mod_unique with i; lia.
    + by rewrite decide_False by lia.
Qed.

Lemma write_loop_spec n i first h buf d :
  wf_hdr h → ready d → (first <= i)%nat → (i + n <= Z.to_nat (numSectors h))%nat →
  ((i - first + n) * 256 <= length buf)%nat → Forall byte buf →
  ∃ d', write_loop n (Z.of_nat i) (Z.of_nat first) h buf d = Ok d' ∧ ready d' ∧
    (∀ s, sector_range s → s ∉ data h → sect (contents d') s = sect (contents d) s) ∧
    ∀ j, file_image (contents d') h !! j =
      if decide (i * 256 <= j < (i + n) * 256)%nat
      then buf !! (j - first * 256)%nat else file_image (contents d) h !! j.
Proof.
  intros Hh. revert i d. induction n as [|n IH]; intros i d Hr Hfi Hi Hl Hb.
  { exists d. do 3 (split; [done|]). intros k. by rewrite decide_False by lia. }
  cbn [write_loop]. destruct (data_at h Hh i) as (s & Hs & Hsr & ->); [lia|].
  cbn [mbind result_bind].
  replace ((Z.of_nat i - Z.of_nat first) * SectorSize) with (Z.of_nat ((i - first) * 256))
    by (unfold SectorSize; lia).
  change SectorSize with (Z.of_nat 256).
  destruct (aslice_lookup buf ((i - first) * 256) 256) as (bs & Hbs & Hbl & Hbk); [lia|].
  rewrite Hbs. cbn [mbind result_bind].
  assert (is_sector bs) as Hsec.
  { split; [unfold SectorSize; lia|]. apply aslice_inv in Hbs as (_ & _ & _ & ->).
    by apply Forall_take, Forall_drop. }
  destruct (WriteSector_ok d s bs Hr Hsr Hsec) as (d1 & -> & Hr1 & Hc1).
  cbn [mbind result_bind]. replace (Z.of_nat i + 1) with (Z.of_nat (S i)) by lia.
  destruct (IH (S i) d1) as (d2 & -> & Hr2 & Hoth & Himg); [done|lia..|done|].
  exists d2. split; [done|]. split; [done|].
  pose proof (ready_image _ Hr) as Hdi.
  assert (Hsect1 : ∀ t, sector_range t → sect (contents d1) t =
    if s =? t then bs else sect (contents d) t).
  { intros t Ht. rewrite Hc1. by apply sect_insert. }
  split.
  - intros t Ht Hn. rewrite Hoth, Hsect1 by done. destruct (Z.eqb_spec s t) as [->|]; [|done].
    by apply list_elem_of_lookup_2 in Hs.
  - intros j. rewrite Himg.
    destruct (decide (S i * 256 <= j < (S i + n) * 256)%nat).
    { by rewrite decide_True by lia. }
    destruct (decide (i * 256 <= j < (i + 1) * 256)%nat) as [Hj|Hj].
    + rewrite decide_True by lia.
      assert (j / 256 = i)%nat as Hdiv.
      { symmetry. apply Nat.div_unique with (j - i * 256)%nat; lia. }
      rewrite (file_image_lookup _ _ (ready_image _ Hr1) Hh _ s) by (by rewrite Hdiv).
      rewrite Hsect1, Z.eqb_refl by done.
      assert (j mod 256 = j - i * 256)%nat as ->.
      { symmetry. apply Nat.mod_unique with i; lia. }
      rewrite Hbk by lia. f_equal. lia.
    + rewrite decide_False by lia.
      destruct (decide (j / 256 < Z.to_nat (numSectors h))%nat) as [Hin|Hout].
      * destruct (data_at h Hh (j / 256)) as (t & Ht & Htr & _); [done|].
        rewrite (file_image_lookup _ _ (ready_image _ Hr1) Hh _ t) by done.
        rewrite (file_image_lookup _ _ (ready_image _ Hr) Hh _ t) by done.
        rewrite Hsect1 by done. destruct (Z.eqb_spec s t) as [->|]; [|done]. exfalso.
        pose proof (NoDup_lookup _ _ _ _ (wf_nodup _ Hh) Hs Ht) as Heq.
        pose proof (Nat.div_mod j 256 ltac:(lia)).
        pose proof (Nat.mod_upper_bound j 256 ltac:(lia)). lia.
      * pose proof (Nat.div_mod j 256 ltac:(lia)).
        pose proof (image_length _ h (ready_image _ Hr) Hh).
        pose proof (image_length _ h (ready_image _ Hr1) Hh). unfold SectorSize in *.
        rewrite !lookup_ge_None_2 by lia. done.
Qed.

End Loops.

(** ** Requests *)

(** The sectors a request of [count] bytes at [pos] touches. *)
Lemma request_sectors h pos count :
  wf_hdr h → 0 <= pos → 0 < count → pos + count <= numBytes h →
  ∃ first last : nat,
    divRoundDown pos SectorSize = Z.of_nat first ∧
    divRoundDown (pos + count - 1) SectorSize = Z.of_nat last ∧
    (first <= last < Z.to_nat (numSectors h))%nat ∧
    Z.of_nat first * 256 <= pos < (Z.of_nat first + 1) * 256 ∧
    Z.of_nat last * 256 < pos + count <= (Z.of_nat last + 1) * 256.
Proof.
  intros Hh Hp Hc Hl. pose proof (bytes_fit h Hh) as Hfit. unfold SectorSize in *.
  exists (Z.to_nat (pos / 256)), (Z.to_nat ((pos + count - 1) / 256)).
  rewrite !divRoundDown_nonneg by lia.
  pose proof (Z.div_mod pos 256 ltac:(lia)). pose proof (Z.mod_pos_bound pos 256 ltac:(lia)).
  pose proof (Z.div_mod (pos + count - 1) 256 ltac:(lia)).
  pose proof (Z.mod_pos_bound (pos + count - 1) 256 ltac:(lia)).
  assert (0 <= pos / 256) by (apply Z.div_pos; lia).
  assert (pos / 256 <= (pos + count - 1) / 256) by (apply Z.div_le_mono; lia).
  rewrite !Z2Nat.id by lia. repeat split; lia.
Qed.

(** The clipping of a request to the file. *)
Lemma clip_request len numBytes position :
  0 <= len → int32 len → 0 <= position → position + numBytes < 2 ^ 31 →
  (numBytes <=? 0) || (position >=? len) = false →
  (if wrap32 (position + numBytes) >? len then len - position else numBytes) =
    transfer len numBytes position ∧
  0 < transfer len numBytes position ∧ position + transfer len numBytes position <= len ∧
  transfer len numBytes position <= numBytes.
Proof.
  intros Hl Hi Hp Ho Hc. apply orb_false_iff in Hc as [Hc1 Hc2]. b2p.
  rewrite wrap32_id by (unfold int32; lia). unfold transfer.
  rewrite (proj2 (Z.leb_gt _ _)), (proj2 (Z.leb_gt len position)) by lia. simpl.
  rewrite Z.gtb_ltb. destruct (Z.ltb_spec len (position + numBytes)); lia.
Qed.

Lemma transfer_none len numBytes position :
  (numBytes <=? 0) || (position >=? len) = true → transfer len numBytes position = 0.
Proof. unfold transfer. rewrite Z.geb_leb. by intros ->. Qed.

Lemma file_bytes_lookup cs h j :
  (j < Z.to_nat (numBytes h))%nat → file_bytes cs h !! j = file_image cs h !! j.
Proof. intros. unfold file_bytes. by rewrite lookup_take_lt by done. Qed.

Section Requests.
Context `{SectorStoreLaws D} (junk : nat → Z).
Implicit Types (f : OpenFile) (d : D).

Lemma new_buf_length n : 0 <= n → Z.of_nat (length (new_buf junk n)) = n.
Proof. intros. unfold new_buf. rewrite length_fmap, length_seq. lia. Qed.

Lemma new_buf_byte n : Forall byte (new_buf junk n).
Proof. apply Forall_fmap, Forall_true. intros. apply u8_byte. Qed.

Lemma file_small h : wf_hdr h → 0 <= numBytes h <= MaxFileSize ∧ int32 (numBytes h).
Proof.
  intros Hh. pose proof (bytes_fit h Hh). destruct Hh. unfold MaxFileSize, int32.
  change NumDirect with 62 in *. unfold SectorSize in *. lia.
Qed.

Lemma ReadAt_spec f numBytes position d :
  wf_hdr (hdr f) → ready d →
  0 <= position → position + numBytes < 2 ^ 31 →
  let count := transfer (FileHdr.numBytes (hdr f)) numBytes position in
  ∃ d', ReadAt junk f numBytes position d =
      Ok (count, take (Z.to_nat count) (drop (Z.to_nat position) (file_bytes (contents d) (hdr f))), d') ∧
    ready d' ∧ contents d' = contents d.
Proof.
  intros Hh Hr Hp Ho count. unfold ReadAt, FileLength.
  pose proof (proj2 (file_small _ Hh)) as Hlen.
  destruct (_ || _) eqn:Hc.
  { exists d. unfold count. rewrite transfer_none by done. done. }
  destruct (clip_request _ _ _ (wf_bytes _ Hh) Hlen Hp Ho Hc) as (-> & Hpos & Hfit & _).
  fold count in Hpos, Hfit |- *.
  destruct (request_sectors (hdr f) position count Hh Hp Hpos Hfit) as
    (first & last & -> & -> & Hfl & Hf & Hl). cbv zeta.
  replace (Z.to_nat (1 + Z.of_nat last - Z.of_nat first)) with (1 + last - first)%nat by lia.
  destruct (read_loop_spec (1 + last - first) first first (hdr f)
    (new_buf junk ((1 + Z.of_nat last - Z.of_nat first) * SectorSize)) d) as
    (buf & d' & -> & Hr' & Hc' & Hbl & Hbk); [done|done|lia|lia| |].
  { pose proof (new_buf_length ((1 + Z.of_nat last - Z.of_nat first) * SectorSize)).
    unfold SectorSize in *. lia. }
  cbn [mbind result_bind].
  replace (position - Z.of_nat first * SectorSize) with
    (Z.of_nat (Z.to_nat position - first * 256)) by (unfold SectorSize; lia).
  destruct (aslice_lookup buf (Z.to_nat position - first * 256) (Z.to_nat count)) as
    (bs & Hs & Hsl & Hsk).
  { rewrite Hbl. pose proof (new_buf_length ((1 + Z.of_nat last - Z.of_nat first) * SectorSize)).
    unfold SectorSize in *. lia. }
  rewrite Z2Nat.id in Hs by lia. rewrite Hs.
  exists d'. split; [|done]. cbn [mbind result_bind]. do 3 f_equal.
  - pose proof (file_bytes_length _ _ (ready_image _ Hr) Hh) as Hfb.
    apply list_eq. intros k. destruct (decide (k < Z.to_nat count)%nat) as [Hk|Hk].
    + rewrite Hsk, Hbk by done. rewrite decide_True by lia.
      rewrite lookup_take_lt, lookup_drop, file_bytes_lookup by lia. f_equal. lia.
    + rewrite !lookup_ge_None_2; [done|rewrite length_take; lia|lia].
Qed.

Lemma image_byte cs h : disk_image cs → wf_hdr h → Forall byte (file_image cs h).
Proof.
  intros Hcs Hh. apply Forall_join. apply Forall_fmap.
  eapply Forall_impl; [apply (wf_range _ Hh)|]. intros s Hs. by apply sect_is_sector.
Qed.

(** Reading sector [s] of the file into the buffer. *)
Lemma read_into_spec f buf (off s : nat) d :
  wf_hdr (hdr f) → ready d → Z.of_nat s * 256 < numBytes (hdr f) →
  (off + 256 <= length buf)%nat → Forall byte buf →
  ∃ buf' d', read_into junk f buf (Z.of_nat off) (Z.of_nat s * SectorSize) d = Ok (buf', d') ∧
    ready d' ∧ contents d' = contents d ∧ length buf' = length buf ∧ Forall byte buf' ∧
    ∀ k, buf' !! k =
      if decide (off <= k < off + 256 ∧ s * 256 + (k - off) < Z.to_nat (numBytes (hdr f)))%nat
      then file_image (contents d) (hdr f) !! (s * 256 + (k - off))%nat else buf !! k.
Proof.
  intros Hh Hr Hs Hl Hb. unfold read_into. destruct (file_small _ Hh) as [Hmax _].
  change MaxFileSize with 15872 in Hmax.
  destruct (ReadAt_spec f SectorSize (Z.of_nat s * SectorSize) d) as (d' & -> & Hr' & Hc');
    [done|done|unfold SectorSize; lia..|].
  cbn [mbind result_bind].
  set (count := transfer _ _ _). set (bs := take _ _).
  pose proof (file_bytes_length _ _ (ready_image _ Hr) Hh) as Hfb.
  assert (count = Z.min 256 (numBytes (hdr f) - Z.of_nat s * 256)) as Hcount.
  { unfold count, transfer, SectorSize.
    rewrite (proj2 (Z.leb_gt _ _)), (proj2 (Z.leb_gt _ (Z.of_nat s * 256))) by lia. done. }
  assert (length bs = Z.to_nat count) as Hbs.
  { unfold bs. rewrite length_take, length_drop. unfold SectorSize. lia. }
  destruct (asplice_lookup buf bs off) as (buf' & Hsp & Hlb & Hk); [lia|].
  rewrite Hsp. exists buf', d'. do 3 (split; [done|]). split; [done|]. split.
  - eapply asplice_Forall; [exact Hsp|done|]. unfold bs, file_bytes.
    apply Forall_take, Forall_drop, Forall_take, image_byte; [by apply ready_image|done].
  - intros k. rewrite Hk, Hbs. destruct (decide (off <= k < off + Z.to_nat count)%nat).
    + rewrite decide_True by lia. unfold bs.
      rewrite lookup_take_lt, lookup_drop, file_bytes_lookup
        by (unfold SectorSize; lia). f_equal. unfold SectorSize. lia.
    + by rewrite decide_False by lia.
Qed.

(** Before the new bytes are copied in, the buffer holds the bytes of the file
    around them. *)
Lemma prefill_spec f (first last : nat) pos count buf d :
  wf_hdr (hdr f) → ready d → (first <= last)%nat →
  Z.of_nat first * 256 <= pos < (Z.of_nat first + 1) * 256 →
  Z.of_nat last * 256 < pos + count <= (Z.of_nat last + 1) * 256 →
  pos + count <= numBytes (hdr f) → 0 < count →
  Forall byte buf → length buf = ((1 + last - first) * 256)%nat →
  ∃ buf1 d1 buf2 d2,
    (if negb (pos =? Z.of_nat first * SectorSize)
     then read_into junk f buf 0 (Z.of_nat first * SectorSize) d else Ok (buf, d)) = Ok (buf1, d1) ∧
    (if negb (pos + count =? (Z.of_nat last + 1) * SectorSize) &&
        (negb (Z.of_nat first =? Z.of_nat last) || (pos =? Z.of_nat first * SectorSize))
     then read_into junk f buf1 ((Z.of_nat last - Z.of_nat first) * SectorSize)
            (Z.of_nat last * SectorSize) d1
     else Ok (buf1, d1)) = Ok (buf2, d2) ∧
    ready d2 ∧ contents d2 = contents d ∧ length buf2 = length buf ∧ Forall byte buf2 ∧
    ∀ j : nat, (first * 256 <= j < (last + 1) * 256)%nat → Z.of_nat j < numBytes (hdr f) →
      Z.of_nat j < pos ∨ pos + count <= Z.of_nat j →
      buf2 !! (j - first * 256)%nat = file_image (contents d) (hdr f) !! j.
Proof.
  intros Hh Hr Hfl Hf Hl Hfit Hc Hb Hlen.
  assert (∃ buf1 d1,
    (if negb (pos =? Z.of_nat first * SectorSize)
     then read_into junk f buf 0 (Z.of_nat first * SectorSize) d else Ok (buf, d)) = Ok (buf1, d1) ∧
    ready d1 ∧ contents d1 = contents d ∧ length buf1 = length buf ∧ Forall byte buf1 ∧
    (pos ≠ Z.of_nat first * 256 → ∀ j : nat, (first * 256 <= j < (first + 1) * 256)%nat →
      Z.of_nat j < numBytes (hdr f) →
      buf1 !! (j - first * 256)%nat = file_image (contents d) (hdr f) !! j)) as
    (buf1 & d1 & H1 & Hr1 & Hc1 & Hl1 & Hb1 & Hk1).
  { destruct (Z.eqb_spec pos (Z.of_nat first * SectorSize)) as [->|Hne]; simpl negb; cbv iota.
    - exists buf, d. do 5 (split; [done|]). by intros [].
    - destruct (read_into_spec f buf 0 first d) as (buf1 & d1 & H1 & ? & ? & ? & ? & Hk);
        [done|done|lia|lia|done|].
      exists buf1, d1. do 5 (split; [done|]). intros _ j Hj Hjl. rewrite Hk, decide_True by lia.
      f_equal. lia. }
  exists buf1, d1. rewrite H1.
  destruct (negb (pos + count =? (Z.of_nat last + 1) * SectorSize) &&
    (negb (Z.of_nat first =? Z.of_nat last) || (pos =? Z.of_nat first * SectorSize))) eqn:Hcond.
  - destruct (read_into_spec f buf1 ((last - first) * 256) last d1) as
      (buf2 & d2 & H2 & Hr2 & Hc2 & Hl2 & Hb2 & Hk2); [done|done|lia|lia|done|].
    exists buf2, d2. split; [done|].
    replace ((Z.of_nat last - Z.of_nat first) * SectorSize) with
      (Z.of_nat ((last - first) * 256)) by (unfold SectorSize; lia).
    split; [done|]. split; [done|]. split; [congruence|]. split; [congruence|]. split; [done|].
    intros j Hj Hjl Hout. rewrite Hk2, Hc1. case_decide as Hd; [f_equal; lia|].
    destruct (decide (j < (first + 1) * 256)%nat); [|lia].
    apply Hk1; lia.
  - exists buf1, d1. split; [done|]. split; [done|]. split; [done|]. split; [done|].
    split; [done|]. split; [done|]. intros j Hj Hjl Hout. unfold SectorSize in Hcond.
    apply andb_false_iff in Hcond. rewrite orb_false_iff in Hcond.
    destruct Hcond as [Hcond|[Hcond Hcond']]; b2p; apply Hk1; lia.
Qed.

Lemma WriteAt_spec f from numBytes position d :
  wf_hdr (hdr f) → ready d → Forall byte from →
  0 <= position → position + numBytes < 2 ^ 31 → numBytes <= Z.of_nat (length from) →
  let count := transfer (FileHdr.numBytes (hdr f)) numBytes position in
  let fb := file_bytes (contents d) (hdr f) in
  ∃ d', WriteAt junk f from numBytes position d = Ok (count, d') ∧ ready d' ∧
    (∀ s, sector_range s → s ∉ data (hdr f) → sect (contents d') s = sect (contents d) s) ∧
    file_bytes (contents d') (hdr f) =
      take (Z.to_nat position) fb ++ take (Z.to_nat count) from ++
      drop (Z.to_nat position + Z.to_nat count) fb.
Proof.
  intros Hh Hr Hfrom Hp Ho Hn count fb. unfold WriteAt, FileLength.
  destruct (_ || _) eqn:Hc.
  { exists d. unfold count. rewrite transfer_none by done. split; [done|]. split; [done|].
    split; [done|]. rewrite Nat.add_0_r, take_0, app_nil_l. by rewrite take_drop. }
  destruct (file_small _ Hh) as [Hmax Hlen].
  destruct (clip_request _ _ _ (wf_bytes _ Hh) Hlen Hp Ho Hc) as (-> & Hpos & Hfit & Hle).
  fold count in Hpos, Hfit, Hle |- *.
  destruct (request_sectors (hdr f) position count Hh Hp Hpos Hfit) as
    (first & last & -> & -> & Hfl & Hf & Hl). cbv zeta.
  pose proof (new_buf_length ((1 + Z.of_nat last - Z.of_nat first) * SectorSize)) as Hbl.
  destruct (prefill_spec f first last position count
    (new_buf junk ((1 + Z.of_nat last - Z.of_nat first) * SectorSize)) d) as
    (buf1 & d1 & buf2 & d2 & -> & H2 & Hr2 & Hc2 & Hl2 & Hb2 & Hk2);
    [done|done|lia|done|done|done|done|apply new_buf_byte|unfold SectorSize in *; lia|].
  cbn [mbind result_bind]. rewrite H2. cbn [mbind result_bind].
  destruct (aslice_lookup from 0 (Z.to_nat count)) as (bs & Hs & Hsl & Hsk); [lia|].
  rewrite Z2Nat.id in Hs by lia. change (Z.of_nat 0) with 0 in Hs.
  rewrite Hs. cbn [mbind result_bind].
  replace (position - Z.of_nat first * SectorSize) with
    (Z.of_nat (Z.to_nat position - first * 256)) by (unfold SectorSize; lia).
  destruct (asplice_lookup buf2 bs (Z.to_nat position - first * 256)) as
    (buf3 & Hsp & Hl3 & Hk3); [unfold SectorSize in *; lia|].
  rewrite Hsp. cbn [mbind result_bind].
  replace (Z.to_nat (1 + Z.of_nat last - Z.of_nat first)) with (1 + last - first)%nat by lia.
  destruct (write_loop_spec (1 + last - first) first first (hdr f) buf3 d2) as
    (d3 & -> & Hr3 & Hoth & Himg); [done|done|lia|lia|unfold SectorSize in *; lia| |].
  { eapply asplice_Forall; [exact Hsp|done|]. apply aslice_inv in Hs as (_ & _ & _ & ->).
    by apply Forall_take, Forall_drop. }
  cbn [mbind result_bind]. exists d3. split; [done|]. split; [done|]. rewrite Hc2 in *.
  split; [done|].
  pose proof (file_bytes_length _ _ (ready_image _ Hr) Hh) as Hfb. fold fb in Hfb.
  pose proof (file_bytes_length _ _ (ready_image _ Hr3) Hh) as Hfb3.
  assert (length (take (Z.to_nat count) from) = Z.to_nat count) as Htk
    by (rewrite length_take; lia).
  apply list_eq. intros j. rewrite <- Htk at 2. rewrite lookup_splice by lia. rewrite Htk.
  destruct (decide (j < Z.to_nat (FileHdr.numBytes (hdr f)))%nat) as [Hj|Hj].
  - rewrite file_bytes_lookup, Himg by done.
    destruct (decide (Z.to_nat position <= j < Z.to_nat position + Z.to_nat count)%nat) as [Hin|Hin].
    + rewrite decide_True by lia. rewrite Hk3, decide_True by lia.
      rewrite Hsk by lia. rewrite lookup_take_lt by lia. f_equal. lia.
    + unfold fb. rewrite file_bytes_lookup by done.
      destruct (decide (first * 256 <= j < (first + (1 + last - first)) * 256)%nat) as [Hs'|Hs'];
        [|done].
      rewrite Hk3, decide_False by lia. apply Hk2; lia.
  - rewrite decide_False by lia. rewrite !lookup_ge_None_2; [done|lia|lia].
Qed.

End Requests.

(** ** The properties *)

(** C22.  [OpenFile::ReadAt] on a well-formed file returns the bytes of the file
    from [position] on, as many as asked for and present, and reports how many;
    it never fails, whatever the request, and leaves the disk as it is. *)
Theorem ReadAt_correct `{SectorStoreLaws D} junk f numBytes position (d : D) :
  wf_hdr (hdr f) → ready d → 0 <= position → position + numBytes < 2 ^ 31 →
  let bytes := file_bytes (contents d) (hdr f) in
  let count := transfer (Z.of_nat (length bytes)) numBytes position in
  ∃ d', ReadAt junk f numBytes position d =
      Ok (count, take (Z.to_nat count) (drop (Z.to_nat position) bytes), d') ∧
    ready d' ∧ contents d' = contents d.
Proof.
  intros Hh Hr Hp Ho. cbv zeta.
  rewrite file_bytes_length by (done || by apply ready_image). by apply ReadAt_spec.
Qed.

(** C23.  [OpenFile::WriteAt] replaces the bytes of the file from [position] on by
    those of the buffer, up to the end of the file, and reports how many it
    replaced; the bytes before and after keep their values although whole
    sectors are rewritten, and no sector of another file changes. *)
Theorem WriteAt_correct `{SectorStoreLaws D} junk f from numBytes position (d : D) :
  wf_hdr (hdr f) → ready d → Forall byte from → 0 <= position →
  position + numBytes < 2 ^ 31 → numBytes <= Z.of_nat (length from) →
  let bytes := file_bytes (contents d) (hdr f) in
  let count := transfer (Z.of_nat (length bytes)) numBytes position in
  ∃ d', WriteAt junk f from numBytes position d = Ok (count, d') ∧ ready d' ∧
    file_bytes (contents d') (hdr f) =
      take (Z.to_nat position) bytes ++ take (Z.to_nat count) from ++
      drop (Z.to_nat position + Z.to_nat count) bytes ∧
    ∀ s, sector_range s → s ∉ data (hdr f) → sect (contents d') s = sect (contents d) s.
Proof.
  intros Hh Hr Hb Hp Ho Hn. cbv zeta.
  rewrite file_bytes_length by (done || by apply ready_image).
  destruct (WriteAt_spec junk f from numBytes position d) as (d' & Hw & Hr' & Hc & Hf);
    [done..|]. by exists d'.
Qed.
