(* ===== verification/Directory.v ===== *)
(** * filesys/directory.cc: the directory

    A table of fixed size, with a file name of at most [FileNameMaxLen]
    characters and the sector of the file header in each entry in use.  Names
    are C strings: a name is the list of its (non-NUL) bytes.  An entry is kept
    with the padding bytes the compiler lays out, as the table is written to the
    disk byte by byte. *)

From S2P Require Import Prelude Params SectorStore.
From S2P Require Import BitMap.
From S2P Require Import FileHdr OpenFile.
Local Open Scope Z_scope.

(** ** Data *)

Definition FileNameMaxLen : Z := 9.

Record DirectoryEntry := mkDE {
  inUse : bool;
  pad1 : list Z;       (* 3 bytes, before the int *)
  sector : Z;
  name : list Z;       (* char name[FileNameMaxLen + 1] *)
  pad2 : list Z }.     (* 2 bytes, at the end *)

Record Directory := mkDir {
  table : list DirectoryEntry;
  tableSize : Z }.

Definition set_inUse (e : DirectoryEntry) (b : bool) : DirectoryEntry :=
  mkDE b (pad1 e) (sector e) (name e) (pad2 e).

(** [strncmp(a, b, n) == 0]; past the end of the list is the terminator. *)
Fixpoint strneq (n : nat) (a b : list Z) : bool :=
  match n with
  | O => true
  | S n =>
      let x := hd 0 a in
      let y := hd 0 b in
      if x =? y then (if x =? 0 then true else strneq n (tail a) (tail b)) else false
  end.

(** The [n] bytes that [strncpy(dst, src, n)] stores. *)
Fixpoint strncpy (n : nat) (src : list Z) : list Z :=
  match n with
  | O => []
  | S n =>
      match src with
      | [] => replicate (S n) 0
      | c :: src => c :: strncpy n src
      end
  end.

(** ** Operations *)

(** The constructor: [junk] is the uninitialised table. *)
Definition newDirectory (junk : nat → DirectoryEntry) (size : Z) : Directory :=
  mkDir ((λ i, set_inUse (junk i) false) <$> seq 0 (Z.to_nat size)) size.

Fixpoint FindIndex_loop (n : nat) (i : Z) (dir : Directory) (nm : list Z) : result Z :=
  match n with
  | O => Ok (-1)
  | S n =>
      e ← aget (table dir) i;
      if inUse e && strneq (Z.to_nat FileNameMaxLen) (name e) nm then Ok i
      else FindIndex_loop n (i + 1) dir nm
  end.

Definition FindIndex (dir : Directory) (nm : list Z) : result Z :=
  FindIndex_loop (Z.to_nat (tableSize dir)) 0 dir nm.

Definition Find (dir : Directory) (nm : list Z) : result Z :=
  i ← FindIndex dir nm;
  if negb (i =? -1) then e ← aget (table dir) i; Ok (sector e) else Ok (-1).

Fixpoint Add_loop (n : nat) (i : Z) (dir : Directory) (nm : list Z) (newSector : Z)
  : result (bool * Directory) :=
  match n with
  | O => Ok (false, dir)
  | S n =>
      e ← aget (table dir) i;
      if negb (inUse e) then
        t ← aset (table dir) i
              (mkDE true (pad1 e) newSector
                 (strncpy (Z.to_nat FileNameMaxLen) nm ++
                  drop (Z.to_nat FileNameMaxLen) (name e)) (pad2 e));
        Ok (true, mkDir t (tableSize dir))
      else Add_loop n (i + 1) dir nm newSector
  end.

Definition Add (dir : Directory) (nm : list Z) (newSector : Z) : result (bool * Directory) :=
  i ← FindIndex dir nm;
  if negb (i =? -1) then Ok (false, dir)
  else Add_loop (Z.to_nat (tableSize dir)) 0 dir nm newSector.

Definition Remove (dir : Directory) (nm : list Z) : result (bool * Directory) :=
  i ← FindIndex dir nm;
  if i =? -1 then Ok (false, dir)
  else
    e ← aget (table dir) i;
    t ← aset (table dir) i (set_inUse e false);
    Ok (true, mkDir t (tableSize dir)).

(** The names [List] prints.  [printf("%s\n")] reads up to the terminator; a
    name without one makes it read past the array. *)
Fixpoint cstring (bs : list Z) : result (list Z) :=
  match bs with
  | [] => Undefined
  | c :: bs => if c =? 0 then Ok [] else r ← cstring bs; Ok (c :: r)
  end.

Fixpoint List_loop (n : nat) (i : Z) (dir : Directory) : result (list (list Z)) :=
  match n with
  | O => Ok []
  | S n =>
      e ← aget (table dir) i;
      if inUse e then
        s ← cstring (name e);
        rest ← List_loop n (i + 1) dir;
        Ok (s :: rest)
      else List_loop n (i + 1) dir
  end.

Definition List (dir : Directory) : result (list (list Z)) :=
  List_loop (Z.to_nat (tableSize dir)) 0 dir.

(** ** On disk *)

Definition sizeof_DirectoryEntry : Z := 20.

Definition entry_bytes (e : DirectoryEntry) : list Z :=
  (if inUse e then 1 else 0) :: pad1 e ++ le_bytes 4 (sector e) ++ name e ++ pad2 e.

Definition entry_of_bytes (bs : list Z) : DirectoryEntry :=
  mkDE (negb (hd 0 bs =? 0)) (take 3 (drop 1 bs)) (wrap32 (le_val (take 4 (drop 4 bs))))
       (take 10 (drop 8 bs)) (take 2 (drop 18 bs)).

(** [(char * )table] *)
Definition table_bytes (t : list DirectoryEntry) : list Z := t ≫= entry_bytes.

Fixpoint table_of_bytes (n : nat) (bs : list Z) : list DirectoryEntry :=
  match n with
  | O => []
  | S n => entry_of_bytes (take 20 bs) :: table_of_bytes n (drop 20 bs)
  end.

Section Disk.
Context {D : Type} `{SectorStore D}.
Variable junk : nat → Z.

Definition FetchFrom (dir : Directory) (file : OpenFile) (d : D) : result (Directory * D) :=
  '(_, bs, d) ← ReadAt junk file (tableSize dir * sizeof_DirectoryEntry) 0 d;
  img ← asplice (table_bytes (table dir)) 0 bs;
  Ok (mkDir (table_of_bytes (length (table dir)) img) (tableSize dir), d).

Definition WriteBack (dir : Directory) (file : OpenFile) (d : D) : result D :=
  '(_, d) ← WriteAt junk file (table_bytes (table dir))
              (tableSize dir * sizeof_DirectoryEntry) 0 d;
  Ok d.

End Disk.

(** ** The abstract directory *)

(** What two names have to agree on to be the same file. *)
Fixpoint trunc (n : nat) (l : list Z) : list Z :=
  match n, l with
  | S n, c :: l => if c =? 0 then [] else c :: trunc n l
  | _, _ => []
  end.

Definition key (nm : list Z) : list Z := trunc (Z.to_nat FileNameMaxLen) nm.

Definition used (dir : Directory) : list DirectoryEntry :=
  filter (λ e, inUse e = true) (table dir).
Definition entry_pair (e : DirectoryEntry) : list Z * Z := (key (name e), sector e).
Definition entries (dir : Directory) : list (list Z * Z) := entry_pair <$> used dir.

Record wf_entry (e : DirectoryEntry) : Prop := {
  we_pad1 : length (pad1 e) = 3%nat ∧ Forall byte (pad1 e);
  we_sector : int32 (sector e);
  we_name : length (name e) = 10%nat ∧ Forall byte (name e);
  we_pad2 : length (pad2 e) = 2%nat ∧ Forall byte (pad2 e) }.

Record wf_dir (dir : Directory) : Prop := {
  wd_size : Z.of_nat (length (table dir)) = tableSize dir;
  wd_entries : Forall wf_entry (table dir);
  wd_names : NoDup (fst <$> entries dir) }.

(** The finite map a directory stands for. *)
Definition dir_map (dir : Directory) : gmap (list Z) Z := list_to_map (entries dir).

(** A file name as callers pass it: bytes, none of them NUL. *)
Definition c_name (nm : list Z) : Prop := Forall (λ c, 0 < c < 256) nm.

(** ** Names *)

Lemma trunc_S n l : trunc (S n) l = if hd 0 l =? 0 then [] else hd 0 l :: trunc n (tail l).
Proof. by destruct l. Qed.

Lemma strneq_trunc n a b : strneq n a b = bool_decide (trunc n a = trunc n b).
Proof.
  revert a b. induction n as [|n IH]; intros a b.
  { by destruct a, b. }
  cbn [strneq]. rewrite !trunc_S. destruct (Z.eqb_spec (hd 0 a) (hd 0 b)) as [->|Hne].
  - destruct (hd 0 b =? 0); [by rewrite bool_decide_eq_true_2|]. rewrite IH.
    apply bool_decide_ext. split; [by intros ->|congruence].
  - symmetry. apply bool_decide_eq_false_2.
    destruct (Z.eqb_spec (hd 0 a) 0), (Z.eqb_spec (hd 0 b) 0); congruence.
Qed.

Lemma length_strncpy n src : length (strncpy n src) = n.
Proof.
  revert src. induction n as [|n IH]; intros [|c src]; simpl; auto.
  by rewrite length_replicate.
Qed.

Lemma strncpy_byte n src : c_name src → Forall byte (strncpy n src).
Proof.
  revert src. induction n as [|n IH]; intros src Hs; [constructor|].
  destruct src as [|c src]; cbn [strncpy].
  - by apply Forall_replicate.
  - apply Forall_cons in Hs as [Hc Hs]. constructor; [unfold byte; lia|by apply IH].
Qed.

Lemma trunc_strncpy n src rest : c_name src → trunc n (strncpy n src ++ rest) = trunc n src.
Proof.
  revert src. induction n as [|n IH]; intros src Hs; [by destruct src|].
  destruct src as [|c src]; [done|]. apply Forall_cons in Hs as [Hc Hs].
  cbn [strncpy app trunc]. destruct (Z.eqb_spec c 0); [lia|]. f_equal. by apply IH.
Qed.

(** ** Searching *)

Definition matches (nm : list Z) (e : DirectoryEntry) : Prop :=
  inUse e = true ∧ key (name e) = key nm.

#[export] Instance matches_dec nm e : Decision (matches nm e).
Proof. unfold matches. apply _. Defined.

Lemma FindIndex_loop_spec n i dir nm :
  (i + n = length (table dir))%nat →
  FindIndex_loop n (Z.of_nat i) dir nm =
  Ok match list_find (matches nm) (drop i (table dir)) with
     | Some (k, _) => Z.of_nat (i + k) | None => -1 end.
Proof.
  revert i. induction n as [|n IH]; intros i Hl; cbn [FindIndex_loop].
  - by rewrite drop_ge by lia.
  - destruct (lookup_lt_is_Some_2 (table dir) i) as [e He]; [lia|].
    assert (aget (table dir) (Z.of_nat i) = Ok e) as ->.
    { apply aget_Ok. split; [lia|]. by rewrite Nat2Z.id. }
    cbn [mbind result_bind]. rewrite (drop_S _ e) by done. cbn [list_find].
    rewrite strneq_trunc. fold (key (name e)) (key nm).
    destruct (decide (matches nm e)) as [Hm|Hm].
    + destruct Hm as [-> Hk]. rewrite bool_decide_eq_true_2 by done. simpl. do 2 f_equal. lia.
    + assert (inUse e && bool_decide (key (name e) = key nm) = false) as ->.
      { apply not_true_iff_false. rewrite andb_true_iff, bool_decide_eq_true. done. }
      replace (Z.of_nat i + 1) with (Z.of_nat (S i)) by lia. rewrite IH by lia.
      destruct (list_find _ (drop (S i) (table dir))) as [[k e']|]; simpl; [|done].
      do 2 f_equal. lia.
Qed.

Lemma FindIndex_spec dir nm :
  Z.of_nat (length (table dir)) = tableSize dir →
  FindIndex dir nm =
  Ok match list_find (matches nm) (table dir) with
     | Some (k, _) => Z.of_nat k | None => -1 end.
Proof.
  intros Hl. unfold FindIndex. rewrite (FindIndex_loop_spec _ 0) by lia. by rewrite drop_0.
Qed.

Lemma find_entry dir nm :
  match list_find (matches nm) (table dir) with
  | Some (i, e) => table dir !! i = Some e ∧ inUse e = true ∧ key (name e) = key nm ∧
      (key nm, sector e) ∈ entries dir
  | None => key nm ∉ (fst <$> entries dir)
  end.
Proof.
  destruct (list_find (matches nm) (table dir)) as [[i e]|] eqn:Hf.
  - apply list_find_Some in Hf as (Hi & [Hu Hk] & _). split; [done|]. split; [done|].
    split; [done|]. apply list_elem_of_fmap. exists e. unfold entry_pair. rewrite Hk.
    split; [done|]. apply list_elem_of_filter. split; [done|]. by eapply list_elem_of_lookup_2.
  - apply list_find_None in Hf. rewrite Forall_forall in Hf.
    intros ([k s] & Hk & Hin)%list_elem_of_fmap. apply list_elem_of_fmap in Hin as (e & He & Hin).
    apply list_elem_of_filter in Hin as [Hu Hin]. apply (Hf e Hin). split; [done|].
    simpl in Hk. injection He as -> ->. done.
Qed.

(** ** Updating the table *)

Local Arguments strncpy : simpl never.
Local Arguments trunc : simpl never.

Section FilterInsert.
Context {A : Type} (P : A → Prop) `{!∀ x, Decision (P x)}.

Lemma filter_insert_add l i x y :
  l !! i = Some x → ¬ P x → P y → filter P (<[i := y]> l) ≡ₚ y :: filter P l.
Proof.
  intros Hi Hx Hy. rewrite insert_take_drop by (by eapply lookup_lt_Some).
  rewrite <- (take_drop_middle l i x) at 3 by done.
  rewrite !filter_app, !filter_cons, decide_True, decide_False by done.
  by rewrite Permutation_middle.
Qed.

Lemma filter_insert_remove l i x y :
  l !! i = Some x → P x → ¬ P y → filter P l ≡ₚ x :: filter P (<[i := y]> l).
Proof.
  intros Hi Hx Hy. rewrite insert_take_drop by (by eapply lookup_lt_Some).
  rewrite <- (take_drop_middle l i x) at 1 by done.
  rewrite !filter_app, !filter_cons, decide_True, decide_False by done.
  by rewrite Permutation_middle.
Qed.

End FilterInsert.

Lemma Add_loop_spec n i dir nm s :
  (i + n = length (table dir))%nat →
  Add_loop n (Z.of_nat i) dir nm s =
  Ok match list_find (λ e, inUse e = false) (drop i (table dir)) with
     | Some (k, e) =>
         (true, mkDir (<[(i + k)%nat := mkDE true (pad1 e) s
            (strncpy 9 nm ++ drop 9 (name e)) (pad2 e)]> (table dir)) (tableSize dir))
     | None => (false, dir) end.
Proof.
  revert i. induction n as [|n IH]; intros i Hl; cbn [Add_loop].
  - by rewrite drop_ge by lia.
  - destruct (lookup_lt_is_Some_2 (table dir) i) as [e He]; [lia|].
    assert (aget (table dir) (Z.of_nat i) = Ok e) as ->.
    { apply aget_Ok. split; [lia|]. by rewrite Nat2Z.id. }
    cbn [mbind result_bind]. rewrite (drop_S _ e) by done. cbn [list_find].
    destruct (inUse e) eqn:Hu; cbn [negb].
    + rewrite decide_False by done. replace (Z.of_nat i + 1) with (Z.of_nat (S i)) by lia.
      rewrite IH by lia.
      destruct (list_find _ (drop (S i) (table dir))) as [[k e']|]; simpl; [|done].
      by rewrite Nat.add_succ_r.
    + rewrite decide_True by done. rewrite aset_Ok by lia. cbn [mbind result_bind].
      rewrite Nat2Z.id, Nat.add_0_r. done.
Qed.

Lemma new_name_wf e nm s :
  wf_entry e → c_name nm → int32 s →
  wf_entry (mkDE true (pad1 e) s (strncpy 9 nm ++ drop 9 (name e)) (pad2 e)).
Proof.
  intros [? ? [Hl Hb] ?] Hn Hs. split; cbn [pad1 sector name pad2]; try done. split.
  - rewrite length_app, length_strncpy, length_drop. lia.
  - apply Forall_app. split; [by apply strncpy_byte|by apply Forall_drop].
Qed.

(** Adding a name that is not there, when an entry is free. *)
Lemma Add_spec dir nm s :
  wf_dir dir → c_name nm → int32 s →
  if decide (key nm ∈ (fst <$> entries dir) ∨ Z.of_nat (length (entries dir)) = tableSize dir)
  then Add dir nm s = Ok (false, dir)
  else ∃ dir', Add dir nm s = Ok (true, dir') ∧ wf_dir dir' ∧ tableSize dir' = tableSize dir ∧
    entries dir' ≡ₚ (key nm, s) :: entries dir.
Proof.
  intros [Hsz Hwe Hnd] Hn Hs. unfold Add. rewrite FindIndex_spec by done.
  cbn [mbind result_bind]. pose proof (find_entry dir nm) as Hf.
  destruct (list_find (matches nm) (table dir)) as [[k e]|].
  { destruct Hf as (_ & _ & _ & Hin).
    destruct (Z.eqb_spec (Z.of_nat k) (-1)); [lia|]. cbn [negb].
    rewrite decide_True; [done|]. left. apply list_elem_of_fmap. by eexists (_, _). }
  rewrite Z.eqb_refl. cbn [negb]. rewrite (Add_loop_spec _ 0), drop_0 by lia. simpl plus.
  assert (length (entries dir) = length (used dir)) as Hlen by apply length_fmap.
  destruct (list_find (λ e, inUse e = false) (table dir)) as [[k e]|] eqn:Hfree.
  - apply list_find_Some in Hfree as (Hk & Hu & _).
    assert (Hpu : used (mkDir (<[k := mkDE true (pad1 e) s (strncpy 9 nm ++ drop 9 (name e))
      (pad2 e)]> (table dir)) (tableSize dir)) ≡ₚ
      mkDE true (pad1 e) s (strncpy 9 nm ++ drop 9 (name e)) (pad2 e) :: used dir).
    { unfold used. simpl. eapply filter_insert_add; [done|congruence|done]. }
    rewrite decide_False.
    + eexists. split; [done|].
      assert (Hp : entries (mkDir (<[k := mkDE true (pad1 e) s (strncpy 9 nm ++ drop 9 (name e))
        (pad2 e)]> (table dir)) (tableSize dir)) ≡ₚ (key nm, s) :: entries dir).
      { unfold entries. rewrite Hpu. cbn [fmap list_fmap]. unfold entry_pair at 1. simpl name.
        simpl sector. unfold key. change (Z.to_nat FileNameMaxLen) with 9%nat.
        by rewrite trunc_strncpy. }
      split; [|done]. split; simpl.
      * by rewrite length_insert.
      * apply Forall_insert; [done|]. apply new_name_wf; [|done..].
        by eapply Forall_lookup_1.
      * rewrite Hp. simpl. by constructor.
    + intros [?|Hfull]; [done|].
      assert (length (used dir) <= length (table dir) - 1)%nat; [|apply lookup_lt_Some in Hk; lia].
      assert (length (used (mkDir (<[k := mkDE true (pad1 e) s
        (strncpy 9 nm ++ drop 9 (name e)) (pad2 e)]> (table dir)) (tableSize dir))) <=
        length (table dir))%nat as Hle.
      { unfold used. simpl. etransitivity; [apply length_filter|]. by rewrite length_insert. }
      rewrite Hpu in Hle. simpl in Hle. lia.
  - rewrite decide_True; [done|]. right. apply list_find_None in Hfree.
    rewrite Hlen. unfold used. rewrite filter_all; [done|].
    eapply Forall_impl; [exact Hfree|]. simpl. intros e He. by destruct (inUse e).
Qed.

Lemma dir_Find_spec dir nm :
  wf_dir dir →
  match list_find (matches nm) (table dir) with
  | Some (i, e) => Find dir nm = Ok (sector e) ∧ (key nm, sector e) ∈ entries dir
  | None => Find dir nm = Ok (-1) ∧ key nm ∉ (fst <$> entries dir)
  end.
Proof.
  intros [Hsz _ _]. unfold Find. rewrite FindIndex_spec by done. cbn [mbind result_bind].
  pose proof (find_entry dir nm) as Hf.
  destruct (list_find (matches nm) (table dir)) as [[k e]|]; [|done].
  destruct Hf as (Hk & _ & _ & Hin). destruct (Z.eqb_spec (Z.of_nat k) (-1)); [lia|].
  cbn [negb]. split; [|done].
  assert (aget (table dir) (Z.of_nat k) = Ok e) as ->; [|done].
  apply aget_Ok. split; [lia|]. by rewrite Nat2Z.id.
Qed.

Lemma dir_Remove_spec dir nm :
  wf_dir dir →
  match list_find (matches nm) (table dir) with
  | Some (i, e) => ∃ dir', Remove dir nm = Ok (true, dir') ∧ wf_dir dir' ∧
      tableSize dir' = tableSize dir ∧ entries dir ≡ₚ (key nm, sector e) :: entries dir'
  | None => Remove dir nm = Ok (false, dir)
  end.
Proof.
  intros [Hsz Hwe Hnd]. unfold Remove. rewrite FindIndex_spec by done. cbn [mbind result_bind].
  pose proof (find_entry dir nm) as Hf.
  destruct (list_find (matches nm) (table dir)) as [[k e]|]; [|done].
  destruct Hf as (Hk & Hu & Hkey & _). destruct (Z.eqb_spec (Z.of_nat k) (-1)); [lia|].
  assert (aget (table dir) (Z.of_nat k) = Ok e) as ->.
  { apply aget_Ok. split; [lia|]. by rewrite Nat2Z.id. }
  cbn [mbind result_bind]. pose proof (lookup_lt_Some _ _ _ Hk).
  rewrite aset_Ok by lia. cbn [mbind result_bind]. rewrite Nat2Z.id.
  eexists. split; [done|].
  assert (Hp : entries dir ≡ₚ (key nm, sector e) ::
    entries (mkDir (<[k := set_inUse e false]> (table dir)) (tableSize dir))).
  { unfold entries, used. simpl table. rewrite (filter_insert_remove _ _ _ e (set_inUse e false))
      by done. simpl. unfold entry_pair at 1. by rewrite Hkey. }
  split; [|done]. split; simpl.
  - by rewrite length_insert.
  - apply Forall_insert; [done|]. eapply Forall_lookup_1 in Hwe as [? ? ? ?]; [|done]. by split.
  - rewrite Hp in Hnd. simpl in Hnd. by apply NoDup_cons in Hnd as [_ ?].
Qed.

(** ** The table as bytes *)

Lemma length_entry_bytes e : wf_entry e → length (entry_bytes e) = 20%nat.
Proof.
  intros [[H1 _] _ [H2 _] [H3 _]]. unfold entry_bytes. cbn [length].
  rewrite !length_app, H1, H2, H3. done.
Qed.

Lemma entry_bytes_byte e : wf_entry e → Forall byte (entry_bytes e).
Proof.
  intros [[_ H1] _ [_ H2] [_ H3]]. unfold entry_bytes. constructor; [by destruct (inUse e)|].
  rewrite !Forall_app. auto using le_bytes_byte.
Qed.

Lemma entry_of_entry_bytes e : wf_entry e → entry_of_bytes (entry_bytes e) = e.
Proof.
  intros [[H1 _] Hs [H2 _] [H3 _]]. destruct e as [u p1 s nm p2]. simpl in *.
  destruct p1 as [|a [|b [|c [|? ?]]]]; try done.
  unfold entry_bytes, entry_of_bytes. simpl inUse. simpl pad1. simpl sector. simpl name. simpl pad2.
  assert (∀ x, take 4 (le_bytes 4 s ++ x) = le_bytes 4 s) as Ht4 by done.
  f_equal.
  - by destruct u.
  - change (take 4 (drop 4 ((if u then 1 else 0) :: [a; b; c] ++ le_bytes 4 s ++ nm ++ p2)))
      with (le_bytes 4 s). by apply wrap32_le_val.
  - change (drop 8 ((if u then 1 else 0) :: [a; b; c] ++ le_bytes 4 s ++ nm ++ p2))
      with (nm ++ p2). by apply take_app_length'.
  - change (drop 18 ((if u then 1 else 0) :: [a; b; c] ++ le_bytes 4 s ++ nm ++ p2))
      with (drop 10 (nm ++ p2)).
    rewrite (drop_app_length' nm p2 10) by done. by apply take_ge; rewrite H3.
Qed.

Lemma length_table_bytes t :
  Forall wf_entry t → length (table_bytes t) = (20 * length t)%nat.
Proof.
  induction 1 as [|e t He Ht IH]; [done|].
  change (table_bytes (e :: t)) with (entry_bytes e ++ table_bytes t).
  rewrite length_app, IH, length_entry_bytes by done. simpl. lia.
Qed.

Lemma table_bytes_byte t : Forall wf_entry t → Forall byte (table_bytes t).
Proof.
  induction 1 as [|e t He Ht IH]; [constructor|].
  change (table_bytes (e :: t)) with (entry_bytes e ++ table_bytes t).
  apply Forall_app. split; [by apply entry_bytes_byte|done].
Qed.

Lemma table_of_table_bytes t :
  Forall wf_entry t → table_of_bytes (length t) (table_bytes t) = t.
Proof.
  induction 1 as [|e t He Ht IH]; [done|].
  change (table_bytes (e :: t)) with (entry_bytes e ++ table_bytes t). cbn [length table_of_bytes].
  rewrite take_app_length', drop_app_length' by (by rewrite length_entry_bytes).
  by rewrite entry_of_entry_bytes, IH.
Qed.

(** ** Properties *)

Lemma dir_map_lookup dir k s :
  wf_dir dir → dir_map dir !! k = Some s ↔ (k, s) ∈ entries dir.
Proof. intros [_ _ Hnd]. symmetry. by apply elem_of_list_to_map. Qed.

Lemma dir_map_None dir k : dir_map dir !! k = None ↔ k ∉ (fst <$> entries dir).
Proof. unfold dir_map. by rewrite not_elem_of_list_to_map. Qed.

Lemma dir_map_size dir : wf_dir dir → size (dir_map dir) = length (entries dir).
Proof.
  intros [_ _ Hnd]. unfold dir_map. rewrite <- (length_fmap fst).
  rewrite <- (size_list_to_set (C := gset (list Z))) by done.
  rewrite <- dom_list_to_map_L. symmetry. apply size_dom.
Qed.

(** C24: the directory is a finite map with room for [tableSize] names.  [Find]
    looks a name up, [Add] inserts it unless it is there or the table is full,
    [Remove] deletes it; names count up to their first nine characters. *)
Theorem Directory_refine dir nm s :
  wf_dir dir → c_name nm → int32 s →
  let m := dir_map dir in
  Find dir nm = Ok (default (-1) (m !! key nm)) ∧
  (∃ b dir', Add dir nm s = Ok (b, dir') ∧ wf_dir dir' ∧ tableSize dir' = tableSize dir ∧
     b = bool_decide (m !! key nm = None ∧ Z.of_nat (size m) ≠ tableSize dir) ∧
     dir_map dir' = if (b : bool) then <[key nm := s]> m else m) ∧
  (∃ b dir', Remove dir nm = Ok (b, dir') ∧ wf_dir dir' ∧ tableSize dir' = tableSize dir ∧
     b = bool_decide (is_Some (m !! key nm)) ∧ dir_map dir' = delete (key nm) m).
Proof.
  intros Hwf Hn Hs m. split; [|split].
  - pose proof (dir_Find_spec dir nm Hwf) as Hf.
    destruct (list_find _ _) as [[i e]|]; destruct Hf as [-> Hin].
    + apply dir_map_lookup in Hin; [|done]. unfold m. by rewrite Hin.
    + apply dir_map_None in Hin. unfold m. by rewrite Hin.
  - pose proof (Add_spec dir nm s Hwf Hn Hs) as Ha.
    assert (key nm ∈ (fst <$> entries dir) ∨ Z.of_nat (length (entries dir)) = tableSize dir ↔
      ¬ (m !! key nm = None ∧ Z.of_nat (size m) ≠ tableSize dir)) as Hiff.
    { unfold m. rewrite dir_map_None, dir_map_size by done. split.
      - intros [?|?] [? ?]; done.
      - intros Hno. destruct (decide (key nm ∈ (fst <$> entries dir))); [by left|]. right.
        destruct (decide (Z.of_nat (length (entries dir)) = tableSize dir)); [done|]. tauto. }
    destruct (decide (_ ∨ _)) as [Hyes|Hno]; rewrite Hiff in *.
    + exists false, dir. rewrite bool_decide_eq_false_2 by done. done.
    + destruct Ha as (dir' & Ha & Hwf' & Hsz & Hp). exists true, dir'.
      split; [done|]. split; [done|]. split; [done|].
      rewrite bool_decide_eq_true_2 by (by apply dec_stable). split; [done|].
      unfold dir_map. rewrite (list_to_map_proper _ _ (wd_names _ Hwf') Hp). done.
  - pose proof (dir_Remove_spec dir nm Hwf) as Hr. pose proof (dir_Find_spec dir nm Hwf) as Hf.
    destruct (list_find _ _) as [[i e]|].
    + destruct Hr as (dir' & Hr & Hwf' & Hsz & Hp). destruct Hf as [_ Hin].
      apply dir_map_lookup in Hin; [|done]. exists true, dir'.
      split; [done|]. split; [done|]. split; [done|].
      rewrite bool_decide_eq_true_2 by (unfold m; by rewrite Hin). split; [done|].
      unfold m, dir_map. rewrite (list_to_map_proper _ _ (wd_names _ Hwf) Hp). simpl.
      rewrite delete_insert_id; [done|]. apply dir_map_None.
      pose proof (wd_names _ Hwf) as Hnd. rewrite Hp in Hnd. simpl in Hnd.
      by apply NoDup_cons in Hnd as [? _].
    + destruct Hf as [_ Hno]. apply dir_map_None in Hno. exists false, dir.
      split; [done|]. split; [done|]. split; [done|].
      rewrite bool_decide_eq_false_2 by (unfold m; rewrite Hno; by intros [? ?]).
      split; [done|]. symmetry. by apply delete_id.
Qed.
