(* ===== verification/FileSys.v ===== *)
(** * filesys/filesys.cc: the file system

    The free-sector bitmap and the directory are files, whose headers sit in
    sectors 0 and 1; both stay open while Nachos runs.  [Create] and [Remove]
    work on copies of the two in memory and write them back at the end.  What
    [new] leaves uninitialised is a parameter ([junk...]), as is the disk, of
    which only the interface [SectorStore] is used. *)

From S2P Require Import Prelude Params SectorStore.
From S2P Require Import BitMap.
From S2P Require Import FileHdr OpenFile.
From S2P Require Import Directory.
Local Open Scope Z_scope.

(** ** The code *)

Definition FreeMapSector : Z := 0.
Definition DirectorySector : Z := 1.
Definition FreeMapFileSize : Z := NumSectors / BitsInByte.
Definition NumDirEntries : Z := 10.
Definition DirectoryFileSize : Z := sizeof_DirectoryEntry * NumDirEntries.

Record FileSystem := mkFS {
  freeMapFile : OpenFile;
  directoryFile : OpenFile }.

Section Code.
Context {D : Type} `{SectorStore D}.
Variables (junk : nat → Z) (junkMap : nat → Z) (junkEntry : nat → DirectoryEntry)
  (junkHdr : FileHeader).

(** userprog/bitmap.cc: [BitMap::FetchFrom] and [BitMap::WriteBack] *)
Definition map_FetchFrom (bm : BitMap) (file : OpenFile) (d : D) : result (BitMap * D) :=
  '(_, bs, d) ← ReadAt junk file (numWords bm * 4) 0 d;
  bm ← overwrite bm bs;
  Ok (bm, d).

Definition map_WriteBack (bm : BitMap) (file : OpenFile) (d : D) : result D :=
  '(_, d) ← WriteAt junk file (to_bytes bm) (numWords bm * 4) 0 d;
  Ok d.

Definition newFileSystem (format : bool) (d : D) : result (FileSystem * D) :=
  if format then
    freeMap ← newBitMap junkMap NumSectors;
    let directory := newDirectory junkEntry NumDirEntries in
    freeMap ← Mark freeMap FreeMapSector;
    freeMap ← Mark freeMap DirectorySector;
    '(ok, mapHdr, freeMap) ← Allocate junkHdr freeMap FreeMapFileSize;
    ASSERT ok;;
    '(ok, dirHdr, freeMap) ← Allocate junkHdr freeMap DirectoryFileSize;
    ASSERT ok;;
    d ← FileHdr.WriteBack mapHdr FreeMapSector d;
    d ← FileHdr.WriteBack dirHdr DirectorySector d;
    '(freeMapFile, d) ← newOpenFile FreeMapSector d;
    '(directoryFile, d) ← newOpenFile DirectorySector d;
    d ← map_WriteBack freeMap freeMapFile d;
    d ← Directory.WriteBack junk directory directoryFile d;
    Ok (mkFS freeMapFile directoryFile, d)
  else
    '(freeMapFile, d) ← newOpenFile FreeMapSector d;
    '(directoryFile, d) ← newOpenFile DirectorySector d;
    Ok (mkFS freeMapFile directoryFile, d).

(** [directory = new Directory(NumDirEntries); directory->FetchFrom(...)] *)
Definition get_directory (fs : FileSystem) (d : D) : result (Directory * D) :=
  Directory.FetchFrom junk (newDirectory junkEntry NumDirEntries) (directoryFile fs) d.

(** [freeMap = new BitMap(NumSectors); freeMap->FetchFrom(...)] *)
Definition get_freeMap (fs : FileSystem) (d : D) : result (BitMap * D) :=
  freeMap ← newBitMap junkMap NumSectors;
  map_FetchFrom freeMap (freeMapFile fs) d.

Definition Create (fs : FileSystem) (nm : list Z) (initialSize : Z) (d : D)
  : result (bool * D) :=
  '(directory, d) ← get_directory fs d;
  found ← Directory.Find directory nm;
  if negb (found =? -1) then Ok (false, d)
  else
    '(freeMap, d) ← get_freeMap fs d;
    '(sector, freeMap) ← BitMap.Find freeMap;
    if sector =? -1 then Ok (false, d)
    else
      '(added, directory) ← Directory.Add directory nm sector;
      if negb added then Ok (false, d)
      else
        '(ok, hdr, freeMap) ← Allocate junkHdr freeMap initialSize;
        if negb ok then Ok (false, d)
        else
          d ← FileHdr.WriteBack hdr sector d;
          d ← Directory.WriteBack junk directory (directoryFile fs) d;
          d ← map_WriteBack freeMap (freeMapFile fs) d;
          Ok (true, d).

Definition Open (fs : FileSystem) (nm : list Z) (d : D) : result (option OpenFile * D) :=
  '(directory, d) ← get_directory fs d;
  sector ← Directory.Find directory nm;
  if sector >=? 0 then '(f, d) ← newOpenFile sector d; Ok (Some f, d)
  else Ok (None, d).

Definition Remove (fs : FileSystem) (nm : list Z) (d : D) : result (bool * D) :=
  '(directory, d) ← get_directory fs d;
  sector ← Directory.Find directory nm;
  if sector =? -1 then Ok (false, d)
  else
    '(fileHdr, d) ← FileHdr.FetchFrom sector d;
    '(freeMap, d) ← get_freeMap fs d;
    freeMap ← Deallocate fileHdr freeMap;
    freeMap ← Clear freeMap sector;
    '(_, directory) ← Directory.Remove directory nm;
    d ← map_WriteBack freeMap (freeMapFile fs) d;
    d ← Directory.WriteBack junk directory (directoryFile fs) d;
    Ok (true, d).

Definition List (fs : FileSystem) (d : D) : result (list (list Z) * D) :=
  '(directory, d) ← get_directory fs d;
  names ← Directory.List directory;
  Ok (names, d).

End Code.

(** ** What is on a formatted disk *)

Definition hdr_at (cs : list (list Z)) (s : Z) : FileHeader := hdr_of_bytes (sect cs s).

(** The sectors of the file whose header is in sector [s]. *)
Definition file_sectors (cs : list (list Z)) (s : Z) : list Z := s :: data (hdr_at cs s).

Definition file_at (cs : list (list Z)) (s : Z) : list Z := file_bytes cs (hdr_at cs s).

Definition allocated (cs : list (list Z)) (dir : Directory) : list Z :=
  file_sectors cs FreeMapSector ++ file_sectors cs DirectorySector ++
  ((entries dir).*2 ≫= file_sectors cs).

(** The invariant: the two system files hold the directory [dir] and the bitmap
    [bm]; every header is well formed; no sector belongs to two files; and the
    bitmap marks exactly the sectors in use. *)
Record fs_inv (fs : FileSystem) (cs : list (list Z)) (dir : Directory) (bm : BitMap) : Prop := {
  fi_map_hdr : hdr (freeMapFile fs) = hdr_at cs FreeMapSector;
  fi_dir_hdr : hdr (directoryFile fs) = hdr_at cs DirectorySector;
  fi_map_wf : wf_hdr (hdr_at cs FreeMapSector);
  fi_dir_wf : wf_hdr (hdr_at cs DirectorySector);
  fi_map_size : numBytes (hdr_at cs FreeMapSector) = FreeMapFileSize;
  fi_dir_size : numBytes (hdr_at cs DirectorySector) = DirectoryFileSize;
  fi_bm : wf bm ∧ numBits bm = NumSectors;
  fi_dir : wf_dir dir ∧ tableSize dir = NumDirEntries;
  fi_map_bytes : file_at cs FreeMapSector = to_bytes bm;
  fi_dir_bytes : file_at cs DirectorySector = table_bytes (table dir);
  fi_files : Forall (λ s, sector_range s ∧ wf_hdr (hdr_at cs s)) (entries dir).*2;
  fi_nodup : NoDup (allocated cs dir);
  fi_bits : ∀ j, sector_range j → bit bm j = bool_decide (j ∈ allocated cs dir) }.

(** The abstract file system: contents by name. *)
Definition files (cs : list (list Z)) (dir : Directory) : gmap (list Z) (list Z) :=
  file_at cs <$> dir_map dir.

(** [f] is the file [nm], open. *)
Definition opened (cs : list (list Z)) (dir : Directory) (nm : list Z) (f : OpenFile) : Prop :=
  ∃ s, dir_map dir !! key nm = Some s ∧ hdr f = hdr_at cs s.

(** Uninitialised memory is bytes, and a header on the stack is ints. *)
Definition junk_ok (junkEntry : nat → DirectoryEntry) (junkHdr : FileHeader) : Prop :=
  (∀ i, wf_entry (junkEntry i)) ∧
  Z.of_nat (length (dataSectors junkHdr)) = NumDirect ∧ Forall int32 (dataSectors junkHdr).

(** Only sectors of [L] differ. *)
Definition changes_only (L : list Z) (cs cs' : list (list Z)) : Prop :=
  ∀ t, sector_range t → t ∉ L → sect cs' t = sect cs t.

(** ** Frames *)

Lemma bind_ext_in {A B} (f g : A → list B) l :
  (∀ x, x ∈ l → f x = g x) → (l ≫= f) = (l ≫= g).
Proof.
  induction l as [|a l IH]; intros Hl; [done|].
  change ((a :: l) ≫= ?h) with (h a ++ (l ≫= h)). rewrite Hl by left.
  rewrite IH; [done|]. intros x Hx. apply Hl. by right.
Qed.

Lemma NoDup_of_bind {A B} (f : A → list B) l :
  NoDup (l ≫= f) → (∀ x, ∃ t, t ∈ f x) → NoDup l.
Proof.
  intros Hnd Hne. induction l as [|a l IH]; [constructor|].
  change ((a :: l) ≫= f) with (f a ++ (l ≫= f)) in Hnd.
  apply NoDup_app in Hnd as (_ & Hdis & Hnd). constructor; [|by apply IH].
  intros Ha. destruct (Hne a) as [t Ht]. apply (Hdis t Ht).
  apply list_elem_of_bind. by exists a.
Qed.

(** In a duplicate-free concatenation, an element tells which part it is in. *)
Lemma NoDup_bind_inj {A B} (f : A → list B) l x y t :
  NoDup (l ≫= f) → x ∈ l → y ∈ l → t ∈ f x → t ∈ f y → x = y.
Proof.
  induction l as [|a l IH]; intros Hnd Hx Hy Htx Hty; [by apply elem_of_nil in Hx|].
  change ((a :: l) ≫= f) with (f a ++ (l ≫= f)) in Hnd.
  apply NoDup_app in Hnd as (_ & Hdis & Hnd).
  apply elem_of_cons in Hx as [->|Hx]; apply elem_of_cons in Hy as [->|Hy]; try done.
  - exfalso. apply (Hdis t Htx). apply list_elem_of_bind. by exists y.
  - exfalso. apply (Hdis t Hty). apply list_elem_of_bind. by exists x.
  - by apply IH.
Qed.

Lemma changes_only_trans L1 L2 cs1 cs2 cs3 :
  changes_only L1 cs1 cs2 → changes_only L2 cs2 cs3 → changes_only (L1 ++ L2) cs1 cs3.
Proof.
  intros H1 H2 t Ht Hn. apply not_elem_of_app in Hn as [? ?]. by rewrite H2, H1.
Qed.

Lemma changes_only_refl L cs : changes_only L cs cs.
Proof. done. Qed.

(** A file none of whose sectors changed is the same file. *)
Lemma file_frame L cs cs' s :
  changes_only L cs cs' → sector_range s → wf_hdr (hdr_at cs s) →
  (∀ t, t ∈ file_sectors cs s → t ∉ L) →
  hdr_at cs' s = hdr_at cs s ∧ file_sectors cs' s = file_sectors cs s ∧
  file_at cs' s = file_at cs s.
Proof.
  intros Hc Hs Hw Hd. assert (hdr_at cs' s = hdr_at cs s) as Hh.
  { unfold hdr_at. by rewrite Hc by (done || (apply Hd; left)). }
  split; [done|]. unfold file_sectors, file_at, file_bytes, file_image. rewrite Hh.
  split; [done|]. do 2 f_equal. apply list_fmap_ext. intros i t Ht.
  apply list_elem_of_lookup_2 in Ht. apply Hc.
  - pose proof (wf_range _ Hw) as Hr. rewrite Forall_forall in Hr. auto.
  - apply Hd. by right.
Qed.

(** ** The two system files *)

Lemma transfer_all n : 0 < n → transfer n n 0 = n.
Proof.
  intros. unfold transfer. rewrite (proj2 (Z.leb_gt n 0)) by lia. simpl. lia.
Qed.

Section SystemFiles.
Context `{SectorStoreLaws D} (junk junkMap : nat → Z) (junkEntry : nat → DirectoryEntry)
  (junkHdr : FileHeader).
Hypothesis Hjunk : junk_ok junkEntry junkHdr.
Implicit Types (d : D) (fs : FileSystem).

(** Replacing a whole file. *)
Lemma write_whole f bs d :
  wf_hdr (hdr f) → ready d → Forall byte bs → 0 < numBytes (hdr f) →
  Z.of_nat (length bs) = numBytes (hdr f) →
  ∃ n d', WriteAt junk f bs (numBytes (hdr f)) 0 d = Ok (n, d') ∧ ready d' ∧
    changes_only (data (hdr f)) (contents d) (contents d') ∧
    file_bytes (contents d') (hdr f) = bs.
Proof.
  intros Hh Hr Hb Hp Hl. destruct (file_small _ Hh) as [_ Hi]. unfold int32 in Hi.
  destruct (WriteAt_spec junk f bs (numBytes (hdr f)) 0 d) as (d' & Hw & Hr' & Hc & Hf);
    [done|done|done|lia|lia|lia|].
  eexists _, d'. split; [done|]. split; [done|]. split; [done|]. rewrite Hf.
  rewrite transfer_all by done.
  pose proof (file_bytes_length _ _ (ready_image _ Hr) Hh).
  rewrite take_0, app_nil_l, drop_ge, app_nil_r by lia. by rewrite take_ge by lia.
Qed.

(** Reading a whole file. *)
Lemma read_whole f d :
  wf_hdr (hdr f) → ready d → 0 < numBytes (hdr f) →
  ∃ n d', ReadAt junk f (numBytes (hdr f)) 0 d = Ok (n, file_bytes (contents d) (hdr f), d') ∧
    ready d' ∧ contents d' = contents d.
Proof.
  intros Hh Hr Hp. destruct (file_small _ Hh) as [_ Hi]. unfold int32 in Hi.
  destruct (ReadAt_spec junk f (numBytes (hdr f)) 0 d) as (d' & Hw & Hr' & Hc);
    [done|done|lia|lia|].
  eexists _, d'. split; [|done]. rewrite Hw, transfer_all by done.
  pose proof (file_bytes_length _ _ (ready_image _ Hr) Hh).
  rewrite drop_0. do 3 f_equal. by rewrite take_ge by lia.
Qed.

Lemma junk_dir :
  Forall wf_entry (table (newDirectory junkEntry NumDirEntries)) ∧
  length (table (newDirectory junkEntry NumDirEntries)) = 10%nat.
Proof.
  unfold newDirectory. cbn [table]. split; [|by rewrite length_fmap, length_seq].
  apply Forall_fmap, Forall_true. intros i. destruct Hjunk as [He _].
  destruct (He i). by split.
Qed.

Lemma get_directory_spec fs dir bm d :
  ready d → fs_inv fs (contents d) dir bm →
  ∃ d', get_directory junk junkEntry fs d = Ok (dir, d') ∧ ready d' ∧ contents d' = contents d.
Proof.
  intros Hr Hi. unfold get_directory, Directory.FetchFrom.
  pose proof (fi_dir_wf _ _ _ _ Hi) as Hw. pose proof (fi_dir_hdr _ _ _ _ Hi) as Hh.
  pose proof (fi_dir_size _ _ _ _ Hi) as Hs. rewrite <- Hh in Hw, Hs.
  destruct (read_whole (directoryFile fs) d Hw Hr) as (n & d' & Hrd & Hr' & Hc').
  { rewrite Hs. done. }
  rewrite Hs in Hrd. change (tableSize _ * _) with DirectoryFileSize. rewrite Hrd.
  cbn [mbind result_bind].
  pose proof (fi_dir_bytes _ _ _ _ Hi) as Hb. unfold file_at in Hb. rewrite Hh, Hb.
  destruct (fi_dir _ _ _ _ Hi) as [Hwd Hts]. pose proof (wd_entries _ Hwd) as Hwe.
  pose proof (wd_size _ Hwd) as Hsz. rewrite Hts in Hsz. unfold NumDirEntries in Hsz.
  destruct junk_dir as [Hje Hjl].
  pose proof (length_table_bytes _ Hje) as Hlj. pose proof (length_table_bytes _ Hwe) as Hlt.
  rewrite asplice_Ok by lia. cbn [mbind result_bind].
  rewrite take_0, app_nil_l, drop_ge, app_nil_r by lia.
  exists d'. split; [|done]. do 2 f_equal. rewrite Hjl.
  replace 10%nat with (length (table dir)) by lia. rewrite table_of_table_bytes by done.
  destruct dir as [t sz]. cbn [tableSize table newDirectory] in *. by rewrite Hts.
Qed.

Lemma map_bytes_length bm :
  wf bm → numBits bm = NumSectors →
  Z.of_nat (length (to_bytes bm)) = FreeMapFileSize ∧ numWords bm * 4 = FreeMapFileSize.
Proof.
  intros Hw Hn. pose proof (wf_length _ Hw) as Hl. pose proof (wf_numWords _ Hw) as Hnw.
  rewrite Hn in Hnw. change (divRoundUp NumSectors BitsInWord) with 32 in Hnw.
  rewrite length_to_bytes. change FreeMapFileSize with 128. lia.
Qed.

Lemma get_freeMap_spec fs dir bm d :
  ready d → fs_inv fs (contents d) dir bm →
  ∃ d', get_freeMap junk junkMap fs d = Ok (bm, d') ∧ ready d' ∧ contents d' = contents d.
Proof.
  intros Hr Hi. unfold get_freeMap, map_FetchFrom.
  destruct (newBitMap_spec junkMap NumSectors) as (bm0 & -> & Hw0 & Hn0 & _); [done|].
  cbn [mbind result_bind].
  pose proof (fi_map_wf _ _ _ _ Hi) as Hw. pose proof (fi_map_hdr _ _ _ _ Hi) as Hh.
  pose proof (fi_map_size _ _ _ _ Hi) as Hs. rewrite <- Hh in Hw, Hs.
  destruct (read_whole (freeMapFile fs) d Hw Hr) as (n & d' & Hrd & Hr' & Hc').
  { rewrite Hs. done. }
  destruct (map_bytes_length bm0 Hw0 Hn0) as [_ ->]. rewrite Hs in Hrd. rewrite Hrd.
  cbn [mbind result_bind].
  pose proof (fi_map_bytes _ _ _ _ Hi) as Hb. unfold file_at in Hb. rewrite Hh, Hb.
  destruct (fi_bm _ _ _ _ Hi) as [Hwb Hnb].
  rewrite overwrite_spec by (done || congruence). by exists d'.
Qed.

Lemma map_WriteBack_spec f bm d :
  ready d → wf_hdr (hdr f) → numBytes (hdr f) = FreeMapFileSize →
  wf bm → numBits bm = NumSectors →
  ∃ d', map_WriteBack junk bm f d = Ok d' ∧ ready d' ∧
    changes_only (data (hdr f)) (contents d) (contents d') ∧
    file_bytes (contents d') (hdr f) = to_bytes bm.
Proof.
  intros Hr Hh Hs Hw Hn. unfold map_WriteBack.
  destruct (map_bytes_length bm Hw Hn) as [Hl ->]. rewrite <- Hs in Hl |- *.
  destruct (write_whole f (to_bytes bm) d) as (n & d' & -> & Hr' & Hc & Hb);
    [done|done|apply to_bytes_byte|by rewrite Hs|done|]. by exists d'.
Qed.

Lemma dir_WriteBack_spec f dir d :
  ready d → wf_hdr (hdr f) → numBytes (hdr f) = DirectoryFileSize →
  Forall wf_entry (table dir) → Z.of_nat (length (table dir)) = NumDirEntries →
  tableSize dir = NumDirEntries →
  ∃ d', Directory.WriteBack junk dir f d = Ok d' ∧ ready d' ∧
    changes_only (data (hdr f)) (contents d) (contents d') ∧
    file_bytes (contents d') (hdr f) = table_bytes (table dir).
Proof.
  intros Hr Hh Hs Hw Hl Hn. unfold Directory.WriteBack.
  assert (Z.of_nat (length (table_bytes (table dir))) = numBytes (hdr f)) as Hlen.
  { rewrite length_table_bytes by done. rewrite Hs.
    change DirectoryFileSize with 200. change NumDirEntries with 10 in Hl. lia. }
  rewrite Hn. change (NumDirEntries * sizeof_DirectoryEntry) with DirectoryFileSize.
  rewrite <- Hs.
  destruct (write_whole f (table_bytes (table dir)) d) as (n & d' & -> & Hr' & Hc & Hb);
    [done|done|by apply table_bytes_byte|by rewrite Hs|done|]. by exists d'.
Qed.

End SystemFiles.

(** ** Updates keep the invariant *)

Definition sys_sectors (cs : list (list Z)) : list Z :=
  file_sectors cs FreeMapSector ++ file_sectors cs DirectorySector.

Lemma allocated_sys cs dir :
  allocated cs dir = sys_sectors cs ++ ((entries dir).*2 ≫= file_sectors cs).
Proof. unfold allocated, sys_sectors. by rewrite app_assoc. Qed.

Section Update.
Context (fs : FileSystem) (cs cs' : list (list Z)) (dir : Directory) (bm : BitMap) (X : list Z).
Hypothesis Hinv : fs_inv fs cs dir bm.
Hypothesis Hch : changes_only
  (X ++ data (hdr_at cs DirectorySector) ++ data (hdr_at cs FreeMapSector)) cs cs'.
Hypothesis HX : ∀ t, t ∈ X → t ∉ sys_sectors cs.

Lemma sys_headers :
  hdr_at cs' FreeMapSector = hdr_at cs FreeMapSector ∧
  hdr_at cs' DirectorySector = hdr_at cs DirectorySector.
Proof.
  pose proof (fi_nodup _ _ _ _ Hinv) as Hnd. rewrite allocated_sys in Hnd.
  apply NoDup_app in Hnd as (Hnd & _ & _). unfold sys_sectors in Hnd.
  apply NoDup_app in Hnd as (Hn0 & Hdis & Hn1). unfold file_sectors in Hn0, Hn1.
  apply NoDup_cons in Hn0 as [H0 _]. apply NoDup_cons in Hn1 as [H1 _].
  assert (∀ t, t ∈ sys_sectors cs → t ∉ X) as Hx by (intros t Ht Hin; by apply (HX t)).
  split; unfold hdr_at at 1; (rewrite Hch; [done|done|]); rewrite !not_elem_of_app;
    (split; [apply Hx; unfold sys_sectors; rewrite elem_of_app|split]).
  - left. by left.
  - intros Hin. apply (Hdis FreeMapSector); [by left|by right].
  - done.
  - right. by left.
  - done.
  - intros Hin. apply (Hdis DirectorySector); [by right|by left].
Qed.

(** A file of the directory that has no sector in [X] is untouched. *)
Lemma user_file s :
  s ∈ (entries dir).*2 → (∀ t, t ∈ file_sectors cs s → t ∉ X) →
  sector_range s ∧ wf_hdr (hdr_at cs s) ∧
  hdr_at cs' s = hdr_at cs s ∧ file_sectors cs' s = file_sectors cs s ∧
  file_at cs' s = file_at cs s.
Proof.
  intros Hs Hx. pose proof (fi_files _ _ _ _ Hinv) as Hf. rewrite Forall_forall in Hf.
  destruct (Hf s Hs) as [Hr Hw]. split; [done|]. split; [done|].
  eapply file_frame; [done..|]. intros t Ht. rewrite !not_elem_of_app.
  split; [by apply Hx|].
  pose proof (fi_nodup _ _ _ _ Hinv) as Hnd. rewrite allocated_sys in Hnd.
  apply NoDup_app in Hnd as (_ & Hdis & _).
  assert (t ∈ ((entries dir).*2 ≫= file_sectors cs)) as Hin.
  { apply list_elem_of_bind. by exists s. }
  split; intros Ht'; apply (Hdis t); try done; unfold sys_sectors, file_sectors; set_solver.
Qed.

Lemma user_bind l :
  (∀ s, s ∈ l → s ∈ (entries dir).*2) →
  (∀ s, s ∈ l → ∀ t, t ∈ file_sectors cs s → t ∉ X) →
  (l ≫= file_sectors cs') = (l ≫= file_sectors cs).
Proof.
  intros Hsub Hx. apply bind_ext_in. intros s Hs.
  by destruct (user_file s) as (_ & _ & _ & -> & _); [apply Hsub|apply Hx|].
Qed.

Lemma user_files :
  (∀ t, t ∈ ((entries dir).*2 ≫= file_sectors cs) → t ∉ X) →
  ((entries dir).*2 ≫= file_sectors cs') = ((entries dir).*2 ≫= file_sectors cs) ∧
  files cs' dir = files cs dir ∧
  Forall (λ s, sector_range s ∧ wf_hdr (hdr_at cs' s)) (entries dir).*2.
Proof.
  intros Hx.
  assert (Hfr : ∀ s, s ∈ (entries dir).*2 → ∀ t, t ∈ file_sectors cs s → t ∉ X).
  { intros s Hs t Ht. apply Hx. apply list_elem_of_bind. by exists s. }
  split; [|split].
  - by apply user_bind.
  - unfold files. apply map_fmap_ext. intros k s Hks.
    apply dir_map_lookup in Hks; [|apply (fi_dir _ _ _ _ Hinv)].
    assert (s ∈ (entries dir).*2) as Hs by (apply list_elem_of_fmap; by exists (k, s)).
    by destruct (user_file s Hs (Hfr s Hs)) as (_ & _ & _ & _ & ->).
  - apply Forall_forall. intros s Hs.
    by destruct (user_file s Hs (Hfr s Hs)) as (? & ? & -> & _).
Qed.

Lemma inv_intro dir' bm' :
  wf bm' ∧ numBits bm' = NumSectors → wf_dir dir' ∧ tableSize dir' = NumDirEntries →
  file_bytes cs' (hdr_at cs FreeMapSector) = to_bytes bm' →
  file_bytes cs' (hdr_at cs DirectorySector) = table_bytes (table dir') →
  Forall (λ s, sector_range s ∧ wf_hdr (hdr_at cs' s)) (entries dir').*2 →
  NoDup (sys_sectors cs ++ ((entries dir').*2 ≫= file_sectors cs')) →
  (∀ j, sector_range j → bit bm' j =
     bool_decide (j ∈ sys_sectors cs ++ ((entries dir').*2 ≫= file_sectors cs'))) →
  fs_inv fs cs' dir' bm'.
Proof.
  intros Hbm Hdir H0 H1 Hf Hnd Hb. destruct sys_headers as [E0 E1]. destruct Hinv.
  assert (allocated cs' dir' = sys_sectors cs ++ ((entries dir').*2 ≫= file_sectors cs')) as Ha.
  { rewrite allocated_sys. unfold sys_sectors, file_sectors at 1 2. by rewrite E0, E1. }
  split; rewrite ?E0, ?E1, ?Ha; try done; unfold file_at; by rewrite ?E0, ?E1.
Qed.

End Update.

(** A new file: header sector [s], header [h]. *)
Lemma create_commit fs cs cs' dir dir' bm bm' nm s h :
  fs_inv fs cs dir bm → disk_image cs → disk_image cs' →
  changes_only ([s] ++ data (hdr_at cs DirectorySector) ++ data (hdr_at cs FreeMapSector)) cs cs' →
  sector_range s → bit bm s = false → wf_hdr h → s ∉ data h →
  Forall (λ t, bit bm t = false) (data h) →
  hdr_at cs' s = h → wf bm' ∧ numBits bm' = NumSectors →
  (∀ j, sector_range j → bit bm' j = bool_decide (j ∈ s :: data h) || bit bm j) →
  wf_dir dir' ∧ tableSize dir' = NumDirEntries →
  entries dir' ≡ₚ (key nm, s) :: entries dir →
  file_bytes cs' (hdr_at cs FreeMapSector) = to_bytes bm' →
  file_bytes cs' (hdr_at cs DirectorySector) = table_bytes (table dir') →
  fs_inv fs cs' dir' bm' ∧ files cs' dir' = <[key nm := file_bytes cs' h]> (files cs dir).
Proof.
  intros Hinv Hcs Hcs' Hch Hs Hfree Hh Hsh Hdfree Hhdr Hbm' Hbits Hdir' Hp H0 H1.
  pose proof (fi_bits _ _ _ _ Hinv) as Hb. rewrite allocated_sys in Hb.
  pose proof (wf_range _ Hh) as Hdr.
  assert (Hout : ∀ t, t ∈ s :: data h →
    t ∉ sys_sectors cs ++ ((entries dir).*2 ≫= file_sectors cs)).
  { intros t Ht. rewrite Forall_forall in Hdr, Hdfree.
    assert (sector_range t ∧ bit bm t = false) as [Hr Hbt].
    { apply elem_of_cons in Ht as [->|Ht]; [done|]. auto. }
    rewrite Hb in Hbt by done. by apply bool_decide_eq_false in Hbt. }
  assert (HX : ∀ t, t ∈ [s] → t ∉ sys_sectors cs).
  { intros t ->%list_elem_of_singleton Hin. apply (Hout s); [by left|]. apply elem_of_app. by left. }
  destruct (user_files fs cs cs' dir bm [s] Hinv Hch HX) as (Hbind & Hfiles & Hall).
  { intros t Ht ->%list_elem_of_singleton. apply (Hout s); [by left|]. apply elem_of_app. by right. }
  assert (((entries dir').*2 ≫= file_sectors cs') ≡ₚ
    (s :: data h) ++ ((entries dir).*2 ≫= file_sectors cs)) as Hperm.
  { rewrite Hp. change (((key nm, s) :: entries dir).*2 ≫= file_sectors cs') with
      (file_sectors cs' s ++ ((entries dir).*2 ≫= file_sectors cs')).
    rewrite Hbind. unfold file_sectors at 1. by rewrite Hhdr. }
  assert (sys_sectors cs ++ ((entries dir').*2 ≫= file_sectors cs') ≡ₚ
    (s :: data h) ++ (sys_sectors cs ++ ((entries dir).*2 ≫= file_sectors cs))) as Hperm'.
  { rewrite Hperm. by rewrite (Permutation_app_swap_app (sys_sectors cs)). }
  split.
  - eapply inv_intro; [done..| | |].
    + rewrite Hp. cbn [fmap list_fmap]. constructor; [|done]. simpl. by rewrite Hhdr.
    + rewrite Hperm'. apply NoDup_app. split; [apply NoDup_cons; split; [done|apply (wf_nodup _ Hh)]|].
      split; [done|]. rewrite <- allocated_sys. apply (fi_nodup _ _ _ _ Hinv).
    + intros j Hj. rewrite Hbits, Hb by done. rewrite <- bool_decide_or.
      apply bool_decide_ext. by rewrite Hperm', (elem_of_app (s :: data h)).
  - unfold files, dir_map at 1.
    rewrite (list_to_map_proper _ _ (wd_names _ (proj1 Hdir')) Hp). cbn [list_to_map].
    simpl. rewrite fmap_insert. change (list_to_map (entries dir)) with (dir_map dir).
    f_equal; [unfold file_at; by rewrite Hhdr|]. apply Hfiles.
Qed.

(** A file removed: header sector [s], header [h]. *)
Lemma remove_commit fs cs cs' dir dir' bm bm' nm s :
  fs_inv fs cs dir bm →
  changes_only (data (hdr_at cs DirectorySector) ++ data (hdr_at cs FreeMapSector)) cs cs' →
  entries dir ≡ₚ (key nm, s) :: entries dir' →
  wf bm' ∧ numBits bm' = NumSectors →
  (∀ j, sector_range j → bit bm' j = negb (bool_decide (j ∈ file_sectors cs s)) && bit bm j) →
  wf_dir dir' ∧ tableSize dir' = NumDirEntries →
  file_bytes cs' (hdr_at cs FreeMapSector) = to_bytes bm' →
  file_bytes cs' (hdr_at cs DirectorySector) = table_bytes (table dir') →
  fs_inv fs cs' dir' bm' ∧ files cs' dir' = delete (key nm) (files cs dir).
Proof.
  intros Hinv Hch Hp Hbm' Hbits Hdir' H0 H1.
  assert (HX : ∀ t, t ∈ [] → t ∉ sys_sectors cs) by (by intros t ?%elem_of_nil).
  assert (Hno : ∀ s, s ∈ (entries dir).*2 → ∀ t, t ∈ file_sectors cs s → t ∉ [])
    by (intros; by apply not_elem_of_nil).
  assert (Hsub : ∀ x, x ∈ (entries dir').*2 → x ∈ (entries dir).*2).
  { intros x Hx. rewrite Hp. cbn [fmap list_fmap]. by right. }
  destruct (user_files fs cs cs' dir bm [] Hinv Hch HX) as (_ & Hfiles & Hall).
  { intros. by apply not_elem_of_nil. }
  pose proof (user_bind fs cs cs' dir bm [] Hinv Hch HX (entries dir').*2 Hsub
    (λ x Hx, Hno x (Hsub x Hx))) as Hbind.
  pose proof (fi_nodup _ _ _ _ Hinv) as Hnd. pose proof (fi_bits _ _ _ _ Hinv) as Hb.
  rewrite allocated_sys in Hnd, Hb.
  assert (sys_sectors cs ++ ((entries dir).*2 ≫= file_sectors cs) ≡ₚ
    file_sectors cs s ++ (sys_sectors cs ++ ((entries dir').*2 ≫= file_sectors cs'))) as Hperm.
  { rewrite Hbind, Hp. change (((key nm, s) :: entries dir').*2 ≫= file_sectors cs) with
      (file_sectors cs s ++ ((entries dir').*2 ≫= file_sectors cs)).
    by rewrite (Permutation_app_swap_app (sys_sectors cs)). }
  rewrite Hperm in Hnd. apply NoDup_app in Hnd as (_ & Hdis & Hnd).
  split.
  - eapply (inv_intro fs cs cs' dir bm []); [done..| |done|].
    + rewrite Hp in Hall. cbn [fmap list_fmap] in Hall. by apply Forall_cons in Hall as [_ ?].
    + intros j Hj. rewrite Hbits, Hb by done.
      destruct (decide (j ∈ file_sectors cs s)) as [Hin|Hin].
      * rewrite (bool_decide_eq_true_2 (j ∈ file_sectors cs s)) by done. simpl. symmetry.
        apply bool_decide_eq_false_2. by apply Hdis.
      * rewrite (bool_decide_eq_false_2 (j ∈ file_sectors cs s)) by done. simpl.
        apply bool_decide_ext. rewrite Hperm, elem_of_app. tauto.
  - rewrite <- Hfiles. unfold files. rewrite <- fmap_delete. f_equal.
    unfold dir_map. rewrite (list_to_map_proper _ _ (wd_names _ (proj1 (fi_dir _ _ _ _ Hinv))) Hp).
    cbn [list_to_map foldr fst snd]. simpl. rewrite delete_insert_id; [done|].
    apply dir_map_None. pose proof (wd_names _ (proj1 (fi_dir _ _ _ _ Hinv))) as Hnames.
    rewrite Hp in Hnames. by apply NoDup_cons in Hnames as [? _].
Qed.

Lemma wf_hdr_roundtrip h : wf_hdr h → hdr_of_bytes (hdr_bytes h) = h.
Proof.
  intros Hh. destruct (file_small h Hh) as [_ Hi]. destruct Hh.
  apply hdr_of_hdr_bytes; try done.
  pose proof (divRoundUp_bounds (numBytes h) SectorSize). unfold int32, SectorSize in *.
  change NumDirect with 62 in *. lia.
Qed.

Lemma sector_int32 s : sector_range s → int32 s.
Proof. unfold sector_range, int32. change NumSectors with 1024. lia. Qed.

Lemma FetchFrom_hdr `{SectorStoreLaws D} s (d : D) :
  ready d → sector_range s →
  ∃ d', FileHdr.FetchFrom s d = Ok (hdr_at (contents d) s, d') ∧ ready d' ∧
    contents d' = contents d.
Proof.
  intros Hr Hs. unfold FileHdr.FetchFrom.
  destruct (read_sector d s Hr Hs) as (d' & -> & ? & ?). by exists d'.
Qed.

Lemma WriteBack_hdr `{SectorStoreLaws D} h s (d : D) :
  ready d → sector_range s → wf_hdr h →
  ∃ d', FileHdr.WriteBack h s d = Ok d' ∧ ready d' ∧
    changes_only [s] (contents d) (contents d') ∧ sect (contents d') s = hdr_bytes h.
Proof.
  intros Hr Hs Hh. unfold FileHdr.WriteBack.
  destruct (WriteSector_ok d s (hdr_bytes h) Hr Hs) as (d' & -> & Hr' & Hc);
    [apply hdr_bytes_sector, Hh|]. exists d'. split; [done|]. split; [done|].
  pose proof (ready_image _ Hr). rewrite Hc. split.
  - intros t Ht Hn. rewrite sect_insert by done.
    destruct (Z.eqb_spec s t); [|done]. subst. exfalso. apply Hn. by left.
  - rewrite sect_insert by done. by rewrite Z.eqb_refl.
Qed.

(** There is room for the header and the data of a file of [size] bytes. *)
Definition space_for (bm : BitMap) (size : Z) : Prop :=
  1 + divRoundUp size SectorSize <= count_clear (view bm).

#[export] Instance space_for_dec bm size : Decision (space_for bm size).
Proof. unfold space_for. apply _. Defined.

Section Operations.
Context `{SectorStoreLaws D} (junk junkMap : nat → Z) (junkEntry : nat → DirectoryEntry)
  (junkHdr : FileHeader).
Hypothesis Hjunk : junk_ok junkEntry junkHdr.
Implicit Types (d : D) (fs : FileSystem).

Lemma Create_ok fs dir bm nm size s bm1 dir' h bm' d :
  ready d → fs_inv fs (contents d) dir bm →
  sector_range s → bit bm s = false →
  (∀ j, sector_range j → bit bm1 j = if decide (j = s) then true else bit bm j) →
  wf_dir dir' → tableSize dir' = NumDirEntries → entries dir' ≡ₚ (key nm, s) :: entries dir →
  wf bm' → numBits bm' = NumSectors → wf_hdr h → numBytes h = size →
  Forall (λ t, bit bm1 t = false) (data h) →
  (∀ j, sector_range j → bit bm' j = bool_decide (j ∈ data h) || bit bm1 j) →
  ∃ d', (d ← FileHdr.WriteBack h s d;
         d ← Directory.WriteBack junk dir' (directoryFile fs) d;
         d ← map_WriteBack junk bm' (freeMapFile fs) d;
         Ok (true, d)) = Ok (true, d') ∧ ready d' ∧
    fs_inv fs (contents d') dir' bm' ∧
    files (contents d') dir' = <[key nm := file_bytes (contents d') h]> (files (contents d) dir).
Proof.
  intros Hr Hi Hs Hfree Hb1 Hd Hts Hp Hbm Hnb Hh Hsz Hdf Hb'.
  set (cs := contents d) in *.
  destruct (WriteBack_hdr h s d Hr Hs Hh) as (d1 & -> & Hr1 & Hc1 & Hsect).
  cbn [mbind result_bind].
  pose proof (fi_dir_hdr _ _ _ _ Hi) as Eh1. pose proof (fi_map_hdr _ _ _ _ Hi) as Eh0.
  destruct (dir_WriteBack_spec junk (directoryFile fs) dir' d1) as (d2 & -> & Hr2 & Hc2 & Hf2);
    [done|rewrite Eh1; apply Hi|rewrite Eh1; apply Hi|apply Hd|
     rewrite (wd_size _ Hd); done|done|].
  cbn [mbind result_bind].
  destruct (map_WriteBack_spec junk (freeMapFile fs) bm' d2) as (d3 & -> & Hr3 & Hc3 & Hf3);
    [done|rewrite Eh0; apply Hi|rewrite Eh0; apply Hi|done|done|].
  cbn [mbind result_bind]. exists d3. split; [done|]. split; [done|].
  rewrite Eh1 in Hc2, Hf2. rewrite Eh0 in Hc3, Hf3.
  assert (Hch := changes_only_trans _ _ _ _ _ Hc1 (changes_only_trans _ _ _ _ _ Hc2 Hc3)).
  assert (s ∉ data h) as Hsh.
  { rewrite Forall_forall in Hdf. intros Hin. specialize (Hdf s Hin).
    rewrite Hb1, decide_True in Hdf by done. done. }
  assert (Hdf' : Forall (λ t, bit bm t = false) (data h)).
  { pose proof (wf_range _ Hh) as Hrg. rewrite Forall_forall in Hdf, Hrg |- *. intros t Ht.
    specialize (Hdf t Ht). rewrite Hb1 in Hdf by auto. by case_decide. }
  (* the header and the directory survive the writes that follow *)
  pose proof (fi_nodup _ _ _ _ Hi) as Hnd. rewrite allocated_sys in Hnd.
  pose proof (fi_bits _ _ _ _ Hi s Hs) as Hbs. rewrite Hfree in Hbs. symmetry in Hbs.
  apply bool_decide_eq_false in Hbs. rewrite allocated_sys in Hbs.
  apply NoDup_app in Hnd as (Hnd & _ & _). unfold sys_sectors in Hnd, Hbs.
  apply NoDup_app in Hnd as (_ & Hdis & _).
  assert (hdr_at (contents d3) s = h) as Hhdr.
  { unfold hdr_at. rewrite Hc3, Hc2, Hsect by (done || (unfold file_sectors in Hbs; set_solver)).
    by apply wf_hdr_roundtrip. }
  assert (file_bytes (contents d3) (hdr_at cs DirectorySector) = table_bytes (table dir')) as Hf2'.
  { rewrite <- Hf2. unfold file_bytes, file_image. do 2 f_equal. apply list_fmap_ext.
    intros i t Ht%list_elem_of_lookup_2. apply Hc3.
    - pose proof (wf_range _ (fi_dir_wf _ _ _ _ Hi)) as Hrg. rewrite Forall_forall in Hrg. auto.
    - intros Ht0. apply (Hdis t); unfold file_sectors; by right. }
  eapply create_commit; try done; try (by apply ready_image).
  intros j Hj. rewrite Hb', Hb1 by done. destruct (decide (j = s)) as [->|Hne].
  - rewrite orb_true_r. rewrite bool_decide_eq_true_2 by left. done.
  - f_equal. apply bool_decide_ext. rewrite elem_of_cons. tauto.
Qed.

Lemma Create_spec fs dir bm nm size d :
  ready d → fs_inv fs (contents d) dir bm → c_name nm → 0 <= size <= MaxFileSize →
  if decide (dir_map dir !! key nm = None ∧
             Z.of_nat (base.size (dir_map dir)) ≠ NumDirEntries ∧ space_for bm size) then
    ∃ d' dir' bm' new, Create junk junkMap junkEntry junkHdr fs nm size d = Ok (true, d') ∧
      ready d' ∧ fs_inv fs (contents d') dir' bm' ∧ Z.of_nat (length new) = size ∧
      files (contents d') dir' = <[key nm := new]> (files (contents d) dir)
  else
    ∃ d', Create junk junkMap junkEntry junkHdr fs nm size d = Ok (false, d') ∧
      ready d' ∧ contents d' = contents d.
Proof.
  intros Hr Hi Hn Hsz. unfold Create.
  destruct (get_directory_spec junk junkEntry junkHdr Hjunk fs dir bm d Hr Hi)
    as (d1 & -> & Hr1 & Hc1). cbn [mbind result_bind].
  destruct (fi_dir _ _ _ _ Hi) as [Hwd Hts]. destruct (fi_bm _ _ _ _ Hi) as [Hwb Hnb].
  pose proof (dir_Find_spec dir nm Hwd) as Hf.
  destruct (list_find (matches nm) (table dir)) as [[i e]|]; destruct Hf as [-> Hin];
    cbn [mbind result_bind].
  { apply (dir_map_lookup dir (key nm) (sector e) Hwd) in Hin as Hlk.
    assert (sector_range (sector e)) as Hse.
    { pose proof (fi_files _ _ _ _ Hi) as Hfs. rewrite Forall_forall in Hfs.
      apply Hfs. apply list_elem_of_fmap. by exists (key nm, sector e). }
    destruct (Z.eqb_spec (sector e) (-1)) as [E|_]; [unfold sector_range in Hse; lia|].
    rewrite decide_False by (intros [? _]; congruence). cbn [negb]. by exists d1. }
  apply dir_map_None in Hin as Hnone. rewrite Z.eqb_refl. cbn [negb].
  rewrite <- Hc1 in Hi.
  destruct (get_freeMap_spec junk junkMap fs dir bm d1 Hr1 Hi) as (d2 & -> & Hr2 & Hc2).
  cbn [mbind result_bind].
  destruct (decide (0 < count_clear (view bm))) as [Hclr|Hclr].
  2: { pose proof (Find_spec bm Hwb) as Hfs.
       assert (count_clear (view bm) = 0) as Hz by (pose proof (count_clear_bound (view bm)); lia).
       apply first_clear_None in Hz as Hfc. rewrite Hfc in Hfs. rewrite Hfs. cbn [mbind result_bind].
       rewrite Z.eqb_refl, decide_False.
       - exists d2. by rewrite Hc2.
       - unfold space_for. intros (_ & _ & Hsp).
         pose proof (divRoundUp_bounds size SectorSize (proj1 Hsz) ltac:(done)).
         unfold SectorSize in *. lia. }
  destruct (Find_fresh bm Hwb Hclr) as (s & bm1 & -> & Hwb1 & Hnb1 & Hs & Hfree & Hb1 & Hcnt).
  cbn [mbind result_bind]. rewrite Hnb in *.
  destruct (Z.eqb_spec s (-1)) as [|_]; [lia|].
  pose proof (Add_spec dir nm s Hwd Hn (sector_int32 s Hs)) as Ha.
  rewrite <- (dir_map_size dir Hwd), Hts in Ha.
  destruct (decide (key nm ∈ (entries dir).*1 ∨ Z.of_nat (base.size (dir_map dir)) = NumDirEntries))
    as [Hfull|Hroom].
  { rewrite Ha. cbn [mbind result_bind negb]. rewrite decide_False by tauto.
    exists d2. by rewrite Hc2. }
  destruct Ha as (dir' & -> & Hwd' & Hts' & Hp). cbn [mbind result_bind negb].
  pose proof (Allocate_spec junkHdr bm1 size Hwb1 Hnb1 (proj1 Hsz)) as Hal. cbv zeta in Hal.
  rewrite Hcnt in Hal. rewrite (proj2 (Z.leb_le size MaxFileSize)) in Hal by lia.
  destruct Hjunk as (_ & Hjl & Hji).
  assert (int32 size) as Hsi.
  { change MaxFileSize with 15872 in Hsz. unfold int32. lia. }
  specialize (Hal Hsi Hjl Hji).
  destruct (Z.ltb_spec (count_clear (view bm) - 1) (divRoundUp size SectorSize)).
  { destruct Hal as (h' & ->). cbn [mbind result_bind negb].
    rewrite decide_False by (unfold space_for; intros (_ & _ & ?); lia).
    exists d2. by rewrite Hc2. }
  destruct Hal as (h & bm' & -> & Hwb' & Hnb' & Hh & Hhs & Hdf & Hb'). cbn [mbind result_bind negb].
  rewrite decide_True by (unfold space_for; repeat split; [done|tauto|lia]).
  rewrite <- Hc2 in Hi.
  destruct (Create_ok fs dir bm nm size s bm1 dir' h bm' d2) as (d3 & -> & Hr3 & Hi3 & Hf3);
    try done.
  exists d3, dir', bm', (file_bytes (contents d3) h). rewrite Hf3, Hc2, Hc1.
  split; [done|]. split; [done|]. split; [done|]. split; [|done].
  rewrite file_bytes_length; [done|by apply ready_image|done].
Qed.

Lemma Remove_spec fs dir bm nm d :
  ready d → fs_inv fs (contents d) dir bm →
  if decide (is_Some (dir_map dir !! key nm)) then
    ∃ d' dir' bm', Remove junk junkMap junkEntry fs nm d = Ok (true, d') ∧ ready d' ∧
      fs_inv fs (contents d') dir' bm' ∧
      files (contents d') dir' = delete (key nm) (files (contents d) dir)
  else
    ∃ d', Remove junk junkMap junkEntry fs nm d = Ok (false, d') ∧ ready d' ∧
      contents d' = contents d.
Proof.
  intros Hr Hi. unfold Remove.
  destruct (get_directory_spec junk junkEntry junkHdr Hjunk fs dir bm d Hr Hi)
    as (d1 & -> & Hr1 & Hc1). cbn [mbind result_bind].
  destruct (fi_dir _ _ _ _ Hi) as [Hwd Hts]. destruct (fi_bm _ _ _ _ Hi) as [Hwb Hnb].
  pose proof (dir_Find_spec dir nm Hwd) as Hf.
  pose proof (dir_Remove_spec dir nm Hwd) as Hrm.
  destruct (list_find (matches nm) (table dir)) as [[i e]|]; destruct Hf as [-> Hin];
    cbn [mbind result_bind].
  2: { apply dir_map_None in Hin. rewrite Z.eqb_refl, decide_False by (rewrite Hin; by intros []).
       by exists d1. }
  destruct Hrm as (dir' & Hrm & Hwd' & Hts' & Hp).
  assert (sector e ∈ (entries dir).*2) as Hse
    by (apply list_elem_of_fmap; by exists (key nm, sector e)).
  apply (dir_map_lookup dir (key nm) (sector e) Hwd) in Hin as Hlk.
  pose proof (fi_files _ _ _ _ Hi) as Hfs. rewrite Forall_forall in Hfs.
  destruct (Hfs _ Hse) as [Hsr Hhw]. clear Hfs. set (s := sector e) in *.
  destruct (Z.eqb_spec s (-1)) as [E|_]; [unfold sector_range in Hsr; lia|].
  rewrite decide_True by (by rewrite Hlk).
  destruct (FetchFrom_hdr s d1 Hr1 Hsr) as (d2 & -> & Hr2 & Hc2). cbn [mbind result_bind].
  rewrite Hc1. set (h := hdr_at (contents d) s) in *.
  rewrite <- Hc1, <- Hc2 in Hi.
  destruct (get_freeMap_spec junk junkMap fs dir bm d2 Hr2 Hi) as (d3 & -> & Hr3 & Hc3).
  cbn [mbind result_bind]. rewrite Hc2, Hc1 in Hi.
  assert (Hmem : ∀ t, t ∈ file_sectors (contents d) s → bit bm t = true).
  { intros t Ht. assert (sector_range t) as Htr.
    { unfold file_sectors in Ht. apply elem_of_cons in Ht as [->|Ht]; [done|].
      pose proof (wf_range _ Hhw) as Hrg. rewrite Forall_forall in Hrg. auto. }
    rewrite (fi_bits _ _ _ _ Hi) by done. apply bool_decide_eq_true_2.
    rewrite allocated_sys, elem_of_app. right. apply list_elem_of_bind. by exists s. }
  pose proof (Deallocate_spec h bm Hwb Hnb Hhw) as Hde. rewrite decide_True in Hde.
  2: { apply Forall_forall. intros t Ht. apply Hmem. by right. }
  destruct Hde as (bm1 & -> & Hwb1 & Hnb1 & Hb1). cbn [mbind result_bind].
  assert (0 <= s < numBits bm1) as Hsr' by (rewrite Hnb1; exact Hsr).
  destruct (Clear_spec bm1 s Hwb1 Hsr') as (bm2 & -> & Hwb2 & Hnb2 & Hv2). cbn [mbind result_bind].
  rewrite Hrm. cbn [mbind result_bind].
  pose proof (fi_dir_hdr _ _ _ _ Hi) as Eh1. pose proof (fi_map_hdr _ _ _ _ Hi) as Eh0.
  destruct (map_WriteBack_spec junk (freeMapFile fs) bm2 d3) as (d4 & -> & Hr4 & Hc4 & Hf4);
    [done|rewrite Eh0; apply Hi|rewrite Eh0; apply Hi|done|congruence|].
  cbn [mbind result_bind].
  destruct (dir_WriteBack_spec junk (directoryFile fs) dir' d4) as (d5 & -> & Hr5 & Hc5 & Hf5);
    [done|rewrite Eh1; apply Hi|rewrite Eh1; apply Hi|apply Hwd'|
     rewrite (wd_size _ Hwd'); congruence|congruence|].
  cbn [mbind result_bind]. exists d5, dir', bm2. split; [done|]. split; [done|].
  rewrite Eh1 in Hc5, Hf5. rewrite Eh0 in Hc4, Hf4. rewrite Hc3, Hc2, Hc1 in Hc4.
  pose proof (changes_only_trans _ _ _ _ _ Hc4 Hc5) as Hch.
  eapply remove_commit; [done| |done|split; [done|congruence]| |split; [done|congruence]| |done].
  - intros t Ht Hn. apply Hch; [done|]. set_solver.
  - intros j Hj. assert (0 <= j < numBits bm1) as Hj1 by (rewrite Hnb1; done).
    rewrite (view_bit bm1 bm2 _ _ j Hnb2 Hv2 Hj1), Z2Nat.id by lia.
    rewrite Hb1 by done. unfold file_sectors. fold h.
    destruct (decide (j = s)) as [->|Hne].
    + rewrite (bool_decide_eq_true_2 (s ∈ s :: data h)) by left. done.
    + do 2 f_equal. apply bool_decide_ext. rewrite elem_of_cons. tauto.
  - rewrite <- Hf4. unfold file_bytes, file_image. do 2 f_equal. apply list_fmap_ext.
    intros k t Ht%list_elem_of_lookup_2. apply Hc5.
    + pose proof (wf_range _ (fi_map_wf _ _ _ _ Hi)) as Hrg. rewrite Forall_forall in Hrg. auto.
    + pose proof (fi_nodup _ _ _ _ Hi) as Hnd. rewrite allocated_sys in Hnd.
      apply NoDup_app in Hnd as (Hnd & _ & _). unfold sys_sectors in Hnd.
      apply NoDup_app in Hnd as (_ & Hdis & _). intros Ht1.
      apply (Hdis t); unfold file_sectors; by right.
Qed.

Lemma opened_wf fs cs dir bm nm f :
  fs_inv fs cs dir bm → opened cs dir nm f →
  wf_hdr (hdr f) ∧ files cs dir !! key nm = Some (file_bytes cs (hdr f)).
Proof.
  intros Hi (s & Hlk & Hf). pose proof (fi_files _ _ _ _ Hi) as Hfs. rewrite Forall_forall in Hfs.
  apply dir_map_lookup in Hlk as Hin; [|apply (fi_dir _ _ _ _ Hi)].
  destruct (Hfs s) as [_ Hw]; [apply list_elem_of_fmap; by exists (key nm, s)|].
  rewrite Hf. split; [done|]. unfold files. by rewrite lookup_fmap, Hlk.
Qed.

Lemma Open_spec fs dir bm nm d :
  ready d → fs_inv fs (contents d) dir bm →
  ∃ r d', Open junk junkEntry fs nm d = Ok (r, d') ∧ ready d' ∧ contents d' = contents d ∧
    match r with
    | Some f => opened (contents d) dir nm f ∧ seekPosition f = 0
    | None => dir_map dir !! key nm = None
    end.
Proof.
  intros Hr Hi. unfold Open.
  destruct (get_directory_spec junk junkEntry junkHdr Hjunk fs dir bm d Hr Hi)
    as (d1 & -> & Hr1 & Hc1). cbn [mbind result_bind].
  destruct (fi_dir _ _ _ _ Hi) as [Hwd _].
  pose proof (dir_Find_spec dir nm Hwd) as Hf.
  destruct (list_find (matches nm) (table dir)) as [[i e]|]; destruct Hf as [-> Hin];
    cbn [mbind result_bind].
  - apply (dir_map_lookup dir (key nm) (sector e) Hwd) in Hin as Hlk.
    pose proof (fi_files _ _ _ _ Hi) as Hfs. rewrite Forall_forall in Hfs.
    destruct (Hfs (sector e)) as [Hs _];
      [apply list_elem_of_fmap; by exists (key nm, sector e)|].
    rewrite Z.geb_leb, (proj2 (Z.leb_le _ _)) by apply Hs.
    unfold newOpenFile. destruct (FetchFrom_hdr (sector e) d1 Hr1 Hs) as (d2 & -> & Hr2 & Hc2).
    cbn [mbind result_bind]. eexists _, d2. split; [done|]. split; [done|].
    split; [congruence|]. split; [|done]. exists (sector e). split; [done|].
    cbn [hdr]. by rewrite Hc1.
  - apply dir_map_None in Hin. cbn. exists None, d1. done.
Qed.

(** Writing to an open file changes that file and no other. *)
Lemma WriteAt_files fs dir bm nm f from n pos d :
  ready d → fs_inv fs (contents d) dir bm → opened (contents d) dir nm f →
  Forall byte from → 0 <= pos → pos + n < 2 ^ 31 → n <= Z.of_nat (length from) →
  let fb := file_bytes (contents d) (hdr f) in
  let count := transfer (Z.of_nat (length fb)) n pos in
  ∃ d', WriteAt junk f from n pos d = Ok (count, d') ∧ ready d' ∧
    fs_inv fs (contents d') dir bm ∧ opened (contents d') dir nm f ∧
    files (contents d') dir =
      <[key nm := take (Z.to_nat pos) fb ++ take (Z.to_nat count) from ++
                  drop (Z.to_nat pos + Z.to_nat count) fb]> (files (contents d) dir).
Proof.
  intros Hr Hi Hop Hb Hp Ho Hn fb count.
  destruct (opened_wf _ _ _ _ _ _ Hi Hop) as [Hw _]. destruct Hop as (s & Hlk & Hf).
  pose proof (file_bytes_length _ _ (ready_image _ Hr) Hw) as Hlen.
  destruct (WriteAt_spec junk f from n pos d) as (d' & Hwr & Hr' & Hc & Hfb);
    [done..|]. rewrite <- Hlen in Hwr, Hfb. fold fb in Hwr, Hfb. fold count in Hwr, Hfb.
  exists d'. split; [done|]. split; [done|].
  destruct (fi_dir _ _ _ _ Hi) as [Hwd _].
  apply dir_map_lookup in Hlk as Hin; [|done].
  assert (s ∈ (entries dir).*2) as Hse by (apply list_elem_of_fmap; by exists (key nm, s)).
  pose proof (fi_files _ _ _ _ Hi) as Hfs. rewrite Forall_forall in Hfs.
  destruct (Hfs s Hse) as [Hsr _].
  pose proof (fi_nodup _ _ _ _ Hi) as Hnd.
  set (cs := contents d) in *. set (cs' := contents d') in *.
  rewrite Hf in Hc, Hfb, Hw.
  assert (Hdata : ∀ t, t ∈ data (hdr_at cs s) → t ∈ ((entries dir).*2 ≫= file_sectors cs)).
  { intros t Ht. apply list_elem_of_bind. exists s. split; [by right|done]. }
  rewrite allocated_sys in Hnd. apply NoDup_app in Hnd as (Hnds & Hdis & Hndu).
  assert (Hfr : ∀ x, x ∈ (entries dir).*2 → x ≠ s →
    hdr_at cs' x = hdr_at cs x ∧ file_sectors cs' x = file_sectors cs x ∧ file_at cs' x = file_at cs x).
  { intros x Hx Hne. destruct (Hfs x Hx) as [Hxr Hxw]. eapply file_frame; [exact Hc|done|done|].
    intros t Ht Hts. apply Hne. eapply NoDup_bind_inj; [exact Hndu|done|done|done|by right]. }
  assert (s ∉ data (hdr_at cs s)) as Hss.
  { intros Hin'. apply list_elem_of_lookup_1 in Hse as [i Hi'].
    rewrite <- (take_drop_middle _ _ _ Hi') in Hndu. rewrite bind_app in Hndu.
    apply NoDup_app in Hndu as (_ & _ & Hndu).
    change ((s :: ?l) ≫= ?g) with (g s ++ (l ≫= g)) in Hndu.
    apply NoDup_app in Hndu as (Hndu & _ & _). by apply NoDup_cons in Hndu as [? _]. }
  assert (hdr_at cs' s = hdr_at cs s) as Hhs by (unfold hdr_at; by rewrite Hc).
  assert (Hsec : ∀ x, x ∈ (entries dir).*2 → file_sectors cs' x = file_sectors cs x).
  { intros x Hx. destruct (decide (x = s)) as [->|Hne]; [|by destruct (Hfr x Hx Hne) as (_ & -> & _)].
    unfold file_sectors. by rewrite Hhs. }
  assert (Hsys : ∀ t, t ∈ sys_sectors cs → t ∉ data (hdr_at cs s)).
  { intros t Ht Htd. by apply (Hdis t Ht), Hdata. }
  assert (∀ x, x = FreeMapSector ∨ x = DirectorySector → file_at cs' x = file_at cs x) as Hsysf.
  { intros x Hx. eapply file_frame; [exact Hc| | |].
    - by destruct Hx as [-> | ->].
    - destruct Hx as [-> | ->]; apply Hi.
    - intros t Ht. apply Hsys. unfold sys_sectors. apply elem_of_app.
      destruct Hx as [-> | ->]; auto. }
  assert (HX : ∀ t, t ∈ data (hdr_at cs s) → t ∉ sys_sectors cs) by (intros t Ht Hts; by apply (Hsys t)).
  assert (Hch : changes_only (data (hdr_at cs s) ++ data (hdr_at cs DirectorySector) ++
    data (hdr_at cs FreeMapSector)) cs cs').
  { intros t Ht Hno. apply Hc; [done|]. by apply not_elem_of_app in Hno as [? _]. }
  destruct (sys_headers fs cs cs' dir bm _ Hi Hch HX) as [E0 E1].
  split; [|split].
  - apply (inv_intro fs cs cs' dir bm _ Hi Hch HX); [apply Hi|apply Hi|..].
    + rewrite <- E0. change (file_at cs' FreeMapSector = to_bytes bm).
      rewrite Hsysf by auto. apply Hi.
    + rewrite <- E1. change (file_at cs' DirectorySector = table_bytes (table dir)).
      rewrite Hsysf by auto. apply Hi.
    + apply Forall_forall. intros x Hx. destruct (Hfs x Hx) as [? ?]. split; [done|].
      destruct (decide (x = s)) as [->|Hne]; [by rewrite Hhs|].
      by destruct (Hfr x Hx Hne) as (-> & _).
    + rewrite (bind_ext_in _ _ _ Hsec), <- allocated_sys. apply Hi.
    + intros j Hj. rewrite (fi_bits _ _ _ _ Hi) by done. rewrite (bind_ext_in _ _ _ Hsec).
      by rewrite allocated_sys.
  - exists s. by rewrite Hhs.
  - apply map_eq. intros k. unfold files. rewrite lookup_fmap, lookup_insert, lookup_fmap.
    destruct (decide (key nm = k)) as [<-|Hne].
    + rewrite Hlk. simpl. unfold file_at. by rewrite Hhs, Hfb.
    + destruct (dir_map dir !! k) as [x|] eqn:Hx; simpl; [|done]. f_equal.
      apply dir_map_lookup in Hx as Hxin; [|done].
      apply Hfr; [apply list_elem_of_fmap; by exists (k, x)|]. intros ->.
      apply Hne. pose proof (wd_names _ Hwd) as Hnames.
      apply list_elem_of_lookup_1 in Hin as [a Ha]. apply list_elem_of_lookup_1 in Hxin as [b Hb'].
      assert (a = b) as ->; [|congruence].
      (* the sector determines the entry *)
      clear -Hndu Ha Hb'. eapply (NoDup_lookup ((entries dir).*2)).
      * eapply NoDup_of_bind; [exact Hndu|]. intros y. by exists y; left.
      * by rewrite list_lookup_fmap, Ha.
      * by rewrite list_lookup_fmap, Hb'.
Qed.

Lemma newOpenFile_hdr s d :
  ready d → sector_range s →
  ∃ d', newOpenFile s d = Ok (mkOpen (hdr_at (contents d) s) 0, d') ∧ ready d' ∧
    contents d' = contents d.
Proof.
  intros Hr Hs. unfold newOpenFile. destruct (FetchFrom_hdr s d Hr Hs) as (d' & -> & ? & ?).
  by exists d'.
Qed.

(** The bitmap and the headers of a fresh file system. *)
Lemma format_alloc :
  ∃ h0 h1 bm,
    (freeMap ← newBitMap junkMap NumSectors;
     freeMap ← Mark freeMap FreeMapSector;
     freeMap ← Mark freeMap DirectorySector;
     '(ok, mapHdr, freeMap) ← Allocate junkHdr freeMap FreeMapFileSize;
     ASSERT ok;;
     '(ok, dirHdr, freeMap) ← Allocate junkHdr freeMap DirectoryFileSize;
     ASSERT ok;;
     Ok (mapHdr, dirHdr, freeMap)) = Ok (h0, h1, bm) ∧
    wf bm ∧ numBits bm = NumSectors ∧ wf_hdr h0 ∧ wf_hdr h1 ∧
    numBytes h0 = FreeMapFileSize ∧ numBytes h1 = DirectoryFileSize ∧
    NoDup ((FreeMapSector :: data h0) ++ DirectorySector :: data h1) ∧
    (∀ j, sector_range j → bit bm j =
       bool_decide (j ∈ (FreeMapSector :: data h0) ++ DirectorySector :: data h1)).
Proof.
  destruct (newBitMap_spec junkMap NumSectors) as (bm0 & -> & Hw0 & Hn0 & Hv0); [done|].
  cbn [mbind result_bind].
  destruct (Mark_spec bm0 FreeMapSector Hw0) as (bm1 & -> & Hw1 & Hn1 & Hv1); [by rewrite Hn0|].
  cbn [mbind result_bind].
  destruct (Mark_spec bm1 DirectorySector Hw1) as (bm2 & -> & Hw2 & Hn2 & Hv2);
    [by rewrite Hn1, Hn0|].
  cbn [mbind result_bind]. destruct Hjunk as (_ & Hjl & Hji).
  assert (numBits bm2 = NumSectors) as Hn2' by congruence.
  assert (count_clear (view bm2) = 1022) as Hc2.
  { rewrite Hv2, Hv1, Hv0. vm_compute. done. }
  assert (Hb2 : ∀ j, sector_range j → bit bm2 j = bool_decide (j = 0 ∨ j = 1)).
  { intros j Hj. assert (0 <= j < numBits bm1) as Hj1 by (rewrite Hn1, Hn0; done).
    assert (0 <= j < numBits bm0) as Hj0 by (rewrite Hn0; done).
    rewrite (view_bit bm1 bm2 _ _ j Hn2 Hv2 Hj1), (view_bit bm0 bm1 _ _ j Hn1 Hv1 Hj0).
    change (Z.of_nat (Z.to_nat DirectorySector)) with 1.
    change (Z.of_nat (Z.to_nat FreeMapSector)) with 0.
    destruct (decide (j = 1)) as [->|]; [done|]. destruct (decide (j = 0)) as [->|]; [done|].
    rewrite bool_decide_eq_false_2 by tauto.
    pose proof (view_lookup bm0 j Hj0) as Hl. rewrite Hv0 in Hl.
    apply lookup_replicate in Hl as [Hl _]. done. }
  pose proof (Allocate_spec junkHdr bm2 FreeMapFileSize Hw2 Hn2' ltac:(done) ltac:(done) Hjl Hji) as H1.
  cbv zeta in H1. rewrite Hc2 in H1.
  change (1022 <? divRoundUp FreeMapFileSize SectorSize) with false in H1.
  change (FreeMapFileSize <=? MaxFileSize) with true in H1.
  destruct H1 as (h0 & bm3 & -> & Hw3 & Hn3 & Hh0 & Hs0 & Hf0 & Hb3).
  cbn [mbind result_bind ASSERT].
  assert (length (data h0) = 1%nat) as Hd0.
  { rewrite data_length by done. rewrite (wf_sectors _ Hh0), Hs0. done. }
  destruct (data h0) as [|s0 [|? ?]] eqn:Ed0; try done.
  assert (count_clear (view bm3) = 1021) as Hc3.
  { assert (sector_range s0) as Hr0.
    { pose proof (wf_range _ Hh0) as Hr. rewrite Ed0 in Hr. by apply Forall_cons in Hr as [? _]. }
    apply Forall_cons in Hf0 as [Hf0 _].
    assert (view bm3 = <[Z.to_nat s0 := true]> (view bm2)) as ->.
    { apply view_ext; [congruence|apply Hr0|]. rewrite Hn2'. intros j Hj. rewrite Hb3 by done.
      destruct (Z.eqb_spec j s0) as [->|Hne].
      - by rewrite bool_decide_eq_true_2 by (by left).
      - rewrite bool_decide_eq_false_2; [done|]. by intros ?%list_elem_of_singleton. }
    rewrite (count_clear_insert _ _ false), Hc2; [done|].
    rewrite view_lookup by (rewrite Hn2'; apply Hr0). by rewrite Hf0. }
  pose proof (Allocate_spec junkHdr bm3 DirectoryFileSize Hw3 Hn3 ltac:(done) ltac:(done) Hjl Hji) as H1.
  cbv zeta in H1. rewrite Hc3 in H1.
  change (1021 <? divRoundUp DirectoryFileSize SectorSize) with false in H1.
  change (DirectoryFileSize <=? MaxFileSize) with true in H1.
  destruct H1 as (h1 & bm4 & -> & Hw4 & Hn4 & Hh1 & Hs1 & Hf1 & Hb4).
  cbn [mbind result_bind ASSERT]. exists h0, h1, bm4. rewrite Ed0.
  split; [done|]. do 6 (split; [done|]).
  rewrite Forall_forall in Hf0, Hf1.
  pose proof (wf_range _ Hh0) as Hr0. rewrite Ed0 in Hr0. rewrite Forall_forall in Hr0.
  pose proof (wf_range _ Hh1) as Hr1. rewrite Forall_forall in Hr1.
  assert (Hold : ∀ t, t ∈ [s0] → t ≠ 0 ∧ t ≠ 1).
  { intros t Ht. specialize (Hf0 t Ht). rewrite Hb2 in Hf0 by auto.
    apply bool_decide_eq_false in Hf0. tauto. }
  assert (Hnew : ∀ t, t ∈ data h1 → (t ∉ [s0]) ∧ t ≠ 0 ∧ t ≠ 1).
  { intros t Ht. specialize (Hf1 t Ht). rewrite Hb3, Hb2 in Hf1 by auto.
    apply orb_false_iff in Hf1 as [Ha Hb]. apply bool_decide_eq_false in Ha, Hb. tauto. }
  split.
  - unfold FreeMapSector, DirectorySector. apply NoDup_app. split; [|split].
    + apply NoDup_cons. split; [|apply NoDup_singleton]. intros H1.
      by destruct (Hold 0 H1).
    + intros x Hx Hx'. apply elem_of_cons in Hx as [->|Hx].
      * apply elem_of_cons in Hx' as [?|Hx']; [done|]. by destruct (Hnew 0 Hx') as (_ & ? & _).
      * apply elem_of_cons in Hx' as [->|Hx']; [by destruct (Hold 1 Hx) as [_ ?]|].
        by destruct (Hnew x Hx') as [? _].
    + apply NoDup_cons. split; [|apply (wf_nodup _ Hh1)]. intros H1. by destruct (Hnew 1 H1) as (_ & _ & ?).
  - intros j Hj. rewrite Hb4, Hb3, Hb2, <- !bool_decide_or by done. apply bool_decide_ext.
    unfold FreeMapSector, DirectorySector. rewrite elem_of_app, !elem_of_cons. tauto.
Qed.

Lemma new_directory_wf :
  wf_dir (newDirectory junkEntry NumDirEntries) ∧
  entries (newDirectory junkEntry NumDirEntries) = [].
Proof.
  destruct (junk_dir junkEntry junkHdr Hjunk) as [Hw Hl].
  assert (entries (newDirectory junkEntry NumDirEntries) = []) as He.
  { unfold entries, used, newDirectory. cbn [table].
    induction (seq 0 _) as [|i l IH]; [done|]. rewrite fmap_cons, filter_cons_False by done. done. }
  split; [|done]. split; [by rewrite Hl|done|]. rewrite He. constructor.
Qed.

(** Formatting leaves an empty file system. *)
Lemma format_spec d :
  ready d →
  ∃ fs d' bm, newFileSystem junk junkMap junkEntry junkHdr true d = Ok (fs, d') ∧ ready d' ∧
    fs_inv fs (contents d') (newDirectory junkEntry NumDirEntries) bm.
Proof.
  intros Hr.
  destruct format_alloc
    as (h0 & h1 & bm & Hal & Hwb & Hnb & Hh0 & Hh1 & Hs0 & Hs1 & Hnd & Hbits).
  destruct new_directory_wf as [Hwd Hent]. destruct (junk_dir junkEntry junkHdr Hjunk) as [Hje Hjl].
  unfold newFileSystem.
  set (dir := newDirectory junkEntry NumDirEntries) in *.
  inv_ok. rewrite E. cbn [mbind result_bind]. rewrite E0. cbn [mbind result_bind]. rewrite E1.
  cbn [mbind result_bind]. rewrite E2. cbn [mbind result_bind ASSERT]. rewrite E4.
  cbn [mbind result_bind ASSERT]. clear E E0 E1 E2 E4.
  destruct (WriteBack_hdr h0 FreeMapSector d Hr) as (d1 & -> & Hr1 & Hc1 & Hsec0); [done|done|].
  cbn [mbind result_bind].
  destruct (WriteBack_hdr h1 DirectorySector d1 Hr1) as (d2 & -> & Hr2 & Hc2 & Hsec1); [done|done|].
  cbn [mbind result_bind].
  destruct (newOpenFile_hdr FreeMapSector d2 Hr2) as (d3 & -> & Hr3 & Hc3); [done|].
  cbn [mbind result_bind].
  destruct (newOpenFile_hdr DirectorySector d3 Hr3) as (d4 & -> & Hr4 & Hc4); [done|].
  cbn [mbind result_bind].
  assert (hdr_at (contents d2) FreeMapSector = h0) as E0.
  { unfold hdr_at. rewrite Hc2, Hsec0 by (done || by intros ?%list_elem_of_singleton).
    by apply wf_hdr_roundtrip. }
  assert (hdr_at (contents d2) DirectorySector = h1) as E1.
  { unfold hdr_at. rewrite Hsec1. by apply wf_hdr_roundtrip. }
  rewrite Hc3, E0, E1.
  destruct (map_WriteBack_spec junk (mkOpen h0 0) bm d4) as (d5 & -> & Hr5 & Hc5 & Hf5); [done..|].
  cbn [mbind result_bind].
  destruct (dir_WriteBack_spec junk (mkOpen h1 0) dir d5) as (d6 & -> & Hr6 & Hc6 & Hf6);
    [done|done|done|done|by rewrite Hjl|done|].
  cbn [mbind result_bind hdr] in *.
  eexists _, d6, bm. split; [done|]. split; [done|].
  apply NoDup_app in Hnd as Hnd'. destruct Hnd' as (Hn0 & Hdis & Hn1).
  assert (hdr_at (contents d6) FreeMapSector = h0) as E0'.
  { unfold hdr_at. rewrite Hc6, Hc5, Hc4, Hc3; [done|done| |done|]; intros Hin.
    - by apply NoDup_cons in Hn0 as [? _].
    - apply (Hdis FreeMapSector); [by left|by right]. }
  assert (hdr_at (contents d6) DirectorySector = h1) as E1'.
  { unfold hdr_at. rewrite Hc6, Hc5, Hc4, Hc3; [done|done| |done|]; intros Hin.
    - apply (Hdis DirectorySector); [by right|by left].
    - by apply NoDup_cons in Hn1 as [? _]. }
  assert (allocated (contents d6) dir = (FreeMapSector :: data h0) ++ DirectorySector :: data h1) as Ha.
  { unfold allocated, file_sectors. by rewrite E0', E1', Hent, app_nil_r. }
  split; rewrite ?E0', ?E1', ?Ha, ?Hent; try done.
  - unfold file_at. rewrite E0', <- Hf5. unfold file_bytes, file_image. do 2 f_equal.
    apply list_fmap_ext. intros i t Ht%list_elem_of_lookup_2. apply Hc6.
    + pose proof (wf_range _ Hh0) as Hrg. rewrite Forall_forall in Hrg. auto.
    + intros Hin. apply (Hdis t); by right.
  - unfold file_at. by rewrite E1', <- Hf6.
Qed.
End Operations.

(** ** The property *)

(** Isolation.  Writing through an open file changes the bytes of that file
    in the range written and nothing else in the file system: no other file, not
    the directory, not the bitmap. *)
Theorem WriteAt_isolated `{SectorStoreLaws D} junk fs dir bm nm f from n position (d : D) :
  ready d → fs_inv fs (contents d) dir bm → opened (contents d) dir nm f →
  Forall byte from → 0 <= position → position + n < 2 ^ 31 → n <= Z.of_nat (length from) →
  let bytes := file_bytes (contents d) (hdr f) in
  let count := transfer (Z.of_nat (length bytes)) n position in
  files (contents d) dir !! key nm = Some bytes ∧
  ∃ d', WriteAt junk f from n position d = Ok (count, d') ∧ ready d' ∧
    fs_inv fs (contents d') dir bm ∧
    files (contents d') dir =
      <[key nm := take (Z.to_nat position) bytes ++ take (Z.to_nat count) from ++
                  drop (Z.to_nat position + Z.to_nat count) bytes]> (files (contents d) dir).
Proof.
  intros Hr Hi Ho Hb Hp Hl Hn bytes count.
  destruct (opened_wf _ _ _ _ _ _ Hi Ho) as [_ Hlk]. split; [done|].
  destruct (WriteAt_files junk fs dir bm nm f from n position d) as (d' & Hw & Hr' & Hi' & _ & Hf);
    [done..|]. by exists d'.
Qed.
