(* ===== verification/FsSpec.v ===== *)
(** * What the file system promises

    The abstract state of the file system of filesys/filesys.cc is a finite map
    from file names to contents.  This file says what each call does to it, and
    proves that any sequence of calls on a formatted disk behaves that way: the
    calls that can fail fail exactly when the map says so, a read returns what
    the map holds, and the state survives remounting the disk. *)

From S2P Require Import Prelude Params SectorStore.
From S2P Require Import BitMap.
From S2P Require Import FileHdr OpenFile.
From S2P Require Import Directory.
From S2P Require Import FileSys.
Local Open Scope Z_scope.

(** ** The abstract file system *)

Abbreviation Files := (gmap (list Z) (list Z)).

(** The sectors a file of [n] bytes takes, its header included. *)
Definition sectors_for (n : Z) : Z := 1 + divRoundUp n SectorSize.

(** Bitmap file and directory file take four sectors. *)
Definition sectors_used (F : Files) : Z :=
  4 + Z.of_nat (sum_list_with (λ kb, Z.to_nat (sectors_for (Z.of_nat (length kb.2))))
    (map_to_list F)).

(** When [Create] can succeed. *)
Definition can_create (F : Files) (nm : list Z) (size : Z) : Prop :=
  F !! key nm = None ∧ Z.of_nat (base.size F) < NumDirEntries ∧
  sectors_used F + sectors_for size <= NumSectors.

#[export] Instance can_create_dec F nm size : Decision (can_create F nm size).
Proof. unfold can_create. apply _. Defined.

(** Calls as a client makes them: a read or a write opens the file first. *)
Inductive fs_op :=
| OpCreate (nm : list Z) (size : Z)
| OpRemove (nm : list Z)
| OpRead (nm : list Z) (n position : Z)
| OpWrite (nm : list Z) (from : list Z) (position : Z).

Inductive fs_res :=
| RBool (b : bool)
| RNoFile
| RRead (count : Z) (into : list Z)
| RWrite (count : Z).

Definition valid_op (op : fs_op) : Prop :=
  match op with
  | OpCreate nm size => c_name nm ∧ 0 <= size <= MaxFileSize
  | OpRemove _ => True
  | OpRead _ n position => 0 <= position ∧ position + n < 2 ^ 31
  | OpWrite _ from position =>
      Forall byte from ∧ 0 <= position ∧ position + Z.of_nat (length from) < 2 ^ 31
  end.

(** One call.  What a new file holds is not specified: its sectors are not
    cleared. *)
Definition fs_step (F : Files) (op : fs_op) (r : fs_res) (F' : Files) : Prop :=
  match op with
  | OpCreate nm size =>
      if decide (can_create F nm size) then
        r = RBool true ∧ ∃ new, Z.of_nat (length new) = size ∧ F' = <[key nm := new]> F
      else r = RBool false ∧ F' = F
  | OpRemove nm =>
      r = RBool (bool_decide (is_Some (F !! key nm))) ∧ F' = delete (key nm) F
  | OpRead nm n position =>
      F' = F ∧
      match F !! key nm with
      | None => r = RNoFile
      | Some b => let count := transfer (Z.of_nat (length b)) n position in
          r = RRead count (take (Z.to_nat count) (drop (Z.to_nat position) b))
      end
  | OpWrite nm from position =>
      match F !! key nm with
      | None => r = RNoFile ∧ F' = F
      | Some b =>
          let count := transfer (Z.of_nat (length b)) (Z.of_nat (length from)) position in
          r = RWrite count ∧
          F' = <[key nm := take (Z.to_nat position) b ++ take (Z.to_nat count) from ++
                           drop (Z.to_nat position + Z.to_nat count) b]> F
      end
  end.

Inductive fs_steps : Files → list fs_op → list fs_res → Files → Prop :=
| fs_steps_nil F : fs_steps F [] [] F
| fs_steps_cons F op r F1 ops rs F2 :
    fs_step F op r F1 → fs_steps F1 ops rs F2 → fs_steps F (op :: ops) (r :: rs) F2.

(** ** The same calls on the disk *)

Section Exec.
Context {D : Type} `{SectorStore D}.
Variables (junk : nat → Z) (junkMap : nat → Z) (junkEntry : nat → DirectoryEntry)
  (junkHdr : FileHeader).

Definition fs_exec (fs : FileSystem) (op : fs_op) (d : D) : result (fs_res * D) :=
  match op with
  | OpCreate nm size =>
      '(b, d) ← Create junk junkMap junkEntry junkHdr fs nm size d; Ok (RBool b, d)
  | OpRemove nm => '(b, d) ← Remove junk junkMap junkEntry fs nm d; Ok (RBool b, d)
  | OpRead nm n position =>
      '(f, d) ← Open junk junkEntry fs nm d;
      match f with
      | None => Ok (RNoFile, d)
      | Some f => '(c, into, d) ← ReadAt junk f n position d; Ok (RRead c into, d)
      end
  | OpWrite nm from position =>
      '(f, d) ← Open junk junkEntry fs nm d;
      match f with
      | None => Ok (RNoFile, d)
      | Some f =>
          '(c, d) ← WriteAt junk f from (Z.of_nat (length from)) position d;
          Ok (RWrite c, d)
      end
  end.

Fixpoint fs_run (fs : FileSystem) (ops : list fs_op) (d : D) : result (list fs_res * D) :=
  match ops with
  | [] => Ok ([], d)
  | op :: ops =>
      '(r, d) ← fs_exec fs op d;
      '(rs, d) ← fs_run fs ops d;
      Ok (r :: rs, d)
  end.

End Exec.

(** ** Free space *)

Lemma count_clear_fmap {A} (g : A → bool) (l : list A) :
  count_clear (g <$> l) = Z.of_nat (length l) - Z.of_nat (length (filter (λ x, g x = true) l)).
Proof.
  induction l as [|x l IH]; [done|]. rewrite fmap_cons, filter_cons. cbn [count_clear length].
  rewrite IH. destruct (g x); case_decide; try done; cbn [length]; lia.
Qed.

Lemma header_sectors cs s :
  disk_image cs → sector_range s → wf_hdr (hdr_at cs s) →
  Z.of_nat (length (file_sectors cs s)) = sectors_for (Z.of_nat (length (file_at cs s))) ∧
  Forall sector_range (file_sectors cs s).
Proof.
  intros Hi Hs Hw. unfold file_sectors, file_at. rewrite file_bytes_length by done.
  pose proof (data_length _ Hw) as Hd. pose proof (wf_sectors _ Hw) as Hn.
  split; [|constructor; [done|apply Hw]]. cbn [length]. unfold sectors_for.
  pose proof (file_small _ Hw). pose proof (divRoundUp_bounds (numBytes (hdr_at cs s)) SectorSize).
  unfold SectorSize in *. lia.
Qed.

Lemma allocated_range fs cs dir bm :
  disk_image cs → fs_inv fs cs dir bm → Forall sector_range (allocated cs dir).
Proof.
  intros Hd Hi. pose proof (fi_files _ _ _ _ Hi) as Hf. rewrite Forall_forall in Hf.
  unfold allocated. rewrite !Forall_app. split; [|split].
  - apply header_sectors; [done|done|apply Hi].
  - apply header_sectors; [done|done|apply Hi].
  - apply Forall_forall. intros t (s & Ht & Hs)%list_elem_of_bind.
    destruct (Hf s Hs) as [Hr Hw]. destruct (header_sectors cs s Hd Hr Hw) as [_ H].
    rewrite Forall_forall in H. auto.
Qed.

Lemma free_sectors fs cs dir bm :
  disk_image cs → fs_inv fs cs dir bm →
  count_clear (view bm) = NumSectors - Z.of_nat (length (allocated cs dir)).
Proof.
  intros Hd Hi. destruct (fi_bm _ _ _ _ Hi) as [_ Hn]. unfold view.
  rewrite count_clear_fmap, length_seq, Hn. rewrite Z2Nat.id by done. f_equal. f_equal.
  rewrite <- (length_fmap Z.to_nat (allocated cs dir)).
  pose proof (allocated_range _ _ _ _ Hd Hi) as Hr. rewrite Forall_forall in Hr.
  apply Permutation_length, NoDup_Permutation.
  - apply NoDup_filter, NoDup_seq.
  - apply NoDup_fmap_2_strong; [|apply Hi]. intros x y Hx%Hr Hy%Hr. unfold sector_range in *. lia.
  - intros i. rewrite list_elem_of_filter, elem_of_seq, list_elem_of_fmap. split.
    + intros [Hb Hi']. exists (Z.of_nat i). split; [lia|].
      rewrite (fi_bits _ _ _ _ Hi) in Hb by (unfold sector_range; lia).
      by apply bool_decide_eq_true in Hb.
    + intros (j & -> & Hj). specialize (Hr j Hj) as Hjr. unfold sector_range in Hjr.
      rewrite Z2Nat.id by lia. split; [|lia].
      rewrite (fi_bits _ _ _ _ Hi) by done. by apply bool_decide_eq_true.
Qed.

Lemma length_bind {A B} (f : A → list B) l :
  length (l ≫= f) = sum_list_with (λ x, length (f x)) l.
Proof.
  induction l as [|x l IH]; [done|]. change ((x :: l) ≫= f) with (f x ++ (l ≫= f)).
  rewrite length_app, IH. done.
Qed.

Lemma sum_list_with_perm {A} (f : A → nat) l l' :
  l ≡ₚ l' → sum_list_with f l = sum_list_with f l'.
Proof. induction 1; simpl; lia. Qed.

Lemma files_perm cs dir :
  wf_dir dir → map_to_list (files cs dir) ≡ₚ prod_map id (file_at cs) <$> entries dir.
Proof.
  intros Hw. unfold files, dir_map. rewrite map_to_list_fmap, map_to_list_to_map by apply Hw.
  done.
Qed.

Lemma files_size cs dir : base.size (files cs dir) = base.size (dir_map dir).
Proof. unfold files. apply map_size_fmap. Qed.

Lemma files_None cs dir k : files cs dir !! k = None ↔ dir_map dir !! k = None.
Proof. unfold files. by rewrite lookup_fmap, fmap_None. Qed.

(** The bitmap has as many clear bits as the files leave sectors. *)
Lemma sectors_used_spec fs cs dir bm :
  disk_image cs → fs_inv fs cs dir bm →
  count_clear (view bm) = NumSectors - sectors_used (files cs dir).
Proof.
  intros Hd Hi. rewrite (free_sectors fs cs dir bm) by done. f_equal.
  destruct (fi_dir _ _ _ _ Hi) as [Hwd _].
  pose proof (header_sectors cs FreeMapSector Hd ltac:(done) (fi_map_wf _ _ _ _ Hi)) as [H0 _].
  pose proof (header_sectors cs DirectorySector Hd ltac:(done) (fi_dir_wf _ _ _ _ Hi)) as [H1 _].
  unfold file_at in H0, H1. rewrite file_bytes_length in H0, H1 by (done || apply Hi).
  rewrite (fi_map_size _ _ _ _ Hi) in H0. rewrite (fi_dir_size _ _ _ _ Hi) in H1.
  change (sectors_for FreeMapFileSize) with 2 in H0. change (sectors_for DirectoryFileSize) with 2 in H1.
  unfold allocated. rewrite !length_app, length_bind. unfold sectors_used.
  rewrite (sum_list_with_perm _ _ _ (files_perm cs dir Hwd)).
  assert (sum_list_with (λ x, length (file_sectors cs x)) (entries dir).*2 =
    sum_list_with (λ kb : list Z * list Z, Z.to_nat (sectors_for (Z.of_nat (length kb.2))))
      (prod_map id (file_at cs) <$> entries dir)) as ->; [|lia].
  pose proof (fi_files _ _ _ _ Hi) as Hf. rewrite Forall_forall in Hf. clear -Hf Hd.
  induction (entries dir) as [|[k s] l IH]; [done|]. rewrite !fmap_cons. cbn [sum_list_with prod_map fst snd]. f_equal.
  - destruct (Hf s) as [Hr Hw]; [left|]. destruct (header_sectors cs s Hd Hr Hw) as [H _].
    apply (f_equal Z.to_nat) in H. by rewrite Nat2Z.id in H.
  - apply IH. intros x Hx. apply Hf. by right.
Qed.

(** ** Refinement *)

Section Refine.
Context `{SectorStoreLaws D} (junk junkMap : nat → Z) (junkEntry : nat → DirectoryEntry)
  (junkHdr : FileHeader).
Hypothesis Hjunk : junk_ok junkEntry junkHdr.
Implicit Types (d : D) (fs : FileSystem).

(** The disk holds the files [F]. *)
Definition fs_state fs d (F : Files) : Prop :=
  ready d ∧ ∃ dir bm, fs_inv fs (contents d) dir bm ∧ files (contents d) dir = F.

Lemma can_create_iff fs dir bm nm size d :
  ready d → fs_inv fs (contents d) dir bm →
  can_create (files (contents d) dir) nm size ↔
  dir_map dir !! key nm = None ∧ Z.of_nat (base.size (dir_map dir)) ≠ NumDirEntries ∧
  space_for bm size.
Proof.
  intros Hr Hi. unfold can_create, space_for. rewrite files_None, files_size.
  rewrite (sectors_used_spec fs _ dir bm) by (done || by apply ready_image).
  destruct (fi_dir _ _ _ _ Hi) as [Hwd Hts]. rewrite (dir_map_size dir Hwd).
  assert (Z.of_nat (length (entries dir)) <= NumDirEntries) as Hle.
  { rewrite <- Hts, <- (wd_size _ Hwd). unfold entries, used. rewrite length_fmap.
    pose proof (length_filter (λ e, inUse e = true) (table dir)). lia. }
  unfold sectors_for. split; intros (? & ? & ?); repeat split; (done || lia).
Qed.

Lemma exec_create fs F nm size d :
  fs_state fs d F → c_name nm → 0 <= size <= MaxFileSize →
  ∃ b d' F', Create junk junkMap junkEntry junkHdr fs nm size d = Ok (b, d') ∧
    fs_state fs d' F' ∧ fs_step F (OpCreate nm size) (RBool b) F'.
Proof.
  intros (Hr & dir & bm & Hi & <-) Hn Hs. cbn [fs_step].
  pose proof (Create_spec junk junkMap junkEntry junkHdr Hjunk fs dir bm nm size d Hr Hi Hn Hs) as Hc.
  pose proof (can_create_iff fs dir bm nm size d Hr Hi) as Hiff.
  destruct (decide (can_create _ _ _)) as [Hcc|Hcc];
    [rewrite decide_True in Hc by tauto|rewrite decide_False in Hc by tauto].
  - destruct Hc as (d' & dir' & bm' & new & -> & Hr' & Hi' & Hl & Hf).
    eexists true, d', _. split; [done|]. split; [by split; [|exists dir', bm']|].
    split; [done|]. by exists new.
  - destruct Hc as (d' & -> & Hr' & Hc). exists false, d', (files (contents d) dir).
    split; [done|]. split; [|done]. split; [done|]. exists dir, bm. by rewrite Hc.
Qed.

Lemma exec_remove fs F nm d :
  fs_state fs d F →
  ∃ b d' F', Remove junk junkMap junkEntry fs nm d = Ok (b, d') ∧
    fs_state fs d' F' ∧ fs_step F (OpRemove nm) (RBool b) F'.
Proof.
  intros (Hr & dir & bm & Hi & <-). cbn [fs_step].
  pose proof (Remove_spec junk junkMap junkEntry junkHdr Hjunk fs dir bm nm d Hr Hi) as Hc.
  assert (Hk : is_Some (files (contents d) dir !! key nm) ↔ is_Some (dir_map dir !! key nm)).
  { unfold files. by rewrite lookup_fmap, fmap_is_Some. }
  case_decide as Hd.
  - destruct Hc as (d' & dir' & bm' & -> & Hr' & Hi' & Hf).
    eexists true, d', _. split; [done|]. split; [by split; [|exists dir', bm']|].
    rewrite bool_decide_eq_true_2 by tauto. done.
  - destruct Hc as (d' & -> & Hr' & Hc). exists false, d', (files (contents d) dir).
    split; [done|]. split; [split; [done|]; exists dir, bm; by rewrite Hc|].
    rewrite bool_decide_eq_false_2 by tauto. split; [done|]. rewrite delete_id; [done|].
    apply files_None. by apply eq_None_not_Some.
Qed.

Lemma exec_open fs F nm d :
  fs_state fs d F →
  ∃ r d', Open junk junkEntry fs nm d = Ok (r, d') ∧
    match r with
    | None => F !! key nm = None ∧ fs_state fs d' F
    | Some f => ready d' ∧ ∃ dir bm, fs_inv fs (contents d') dir bm ∧
        files (contents d') dir = F ∧ opened (contents d') dir nm f ∧
        F !! key nm = Some (file_bytes (contents d') (hdr f)) ∧ wf_hdr (hdr f) ∧ seekPosition f = 0
    end.
Proof.
  intros (Hr & dir & bm & Hi & <-).
  destruct (Open_spec junk junkEntry junkHdr Hjunk fs dir bm nm d Hr Hi) as (r & d' & -> & Hr' & Hc & Hf).
  exists r, d'. split; [done|]. rewrite <- Hc in Hi, Hf |- *. destruct r as [f|].
  - destruct Hf as [Hop Hseek]. destruct (opened_wf _ _ _ _ _ _ Hi Hop) as [Hw Hb].
    split; [done|]. by exists dir, bm.
  - split; [by apply files_None|]. split; [done|]. by exists dir, bm.
Qed.

Lemma exec_refine fs F op d :
  fs_state fs d F → valid_op op →
  ∃ r d' F', fs_exec junk junkMap junkEntry junkHdr fs op d = Ok (r, d') ∧
    fs_state fs d' F' ∧ fs_step F op r F'.
Proof.
  intros HF Hv. destruct op as [nm size|nm|nm n pos|nm from pos]; cbn [fs_exec].
  - destruct Hv as [Hn Hs]. destruct (exec_create fs F nm size d HF Hn Hs) as (b & d' & F' & -> & ? & ?).
    by exists (RBool b), d', F'.
  - destruct (exec_remove fs F nm d HF) as (b & d' & F' & -> & ? & ?). by exists (RBool b), d', F'.
  - destruct Hv as [Hp Ho]. destruct (exec_open fs F nm d HF) as (r & d1 & -> & Hop).
    cbn [mbind result_bind]. destruct r as [f|].
    + destruct Hop as (Hr1 & dir & bm & Hi & HF1 & _ & Hlk & Hw & _).
      destruct (ReadAt_spec junk f n pos d1 Hw Hr1 Hp Ho) as (d2 & -> & Hr2 & Hc2).
      cbn [mbind result_bind]. eexists _, d2, F. split; [done|]. split.
      * split; [done|]. exists dir, bm. by rewrite Hc2.
      * cbn [fs_step]. rewrite Hlk, file_bytes_length by (done || by apply ready_image). done.
    + destruct Hop as [Hlk HF1]. exists RNoFile, d1, F. split; [done|]. split; [done|].
      cbn [fs_step]. by rewrite Hlk.
  - destruct Hv as (Hb & Hp & Ho). destruct (exec_open fs F nm d HF) as (r & d1 & -> & Hop).
    cbn [mbind result_bind]. destruct r as [f|].
    + destruct Hop as (Hr1 & dir & bm & Hi & <- & Hop & Hlk & Hw & _).
      destruct (WriteAt_files junk fs dir bm nm f from (Z.of_nat (length from)) pos d1)
        as (d2 & -> & Hr2 & Hi2 & _ & Hf2); try done.
      cbn [mbind result_bind]. eexists _, d2, _. split; [done|]. split.
      * split; [done|]. by exists dir, bm.
      * cbn [fs_step]. by rewrite Hlk.
    + destruct Hop as [Hlk HF1]. exists RNoFile, d1, F. split; [done|]. split; [done|].
      cbn [fs_step]. by rewrite Hlk.
Qed.

Lemma run_refine fs F ops d :
  fs_state fs d F → Forall valid_op ops →
  ∃ rs d' F', fs_run junk junkMap junkEntry junkHdr fs ops d = Ok (rs, d') ∧
    fs_state fs d' F' ∧ fs_steps F ops rs F'.
Proof.
  revert F d. induction ops as [|op ops IH]; intros F d HF Hv; cbn [fs_run].
  { exists [], d, F. split; [done|]. split; [done|constructor]. }
  apply Forall_cons in Hv as [Hv Hvs].
  destruct (exec_refine fs F op d HF Hv) as (r & d1 & F1 & -> & HF1 & Hst). cbn [mbind result_bind].
  destruct (IH F1 d1 HF1 Hvs) as (rs & d2 & F2 & -> & HF2 & Hsts). cbn [mbind result_bind].
  exists (r :: rs), d2, F2. split; [done|]. split; [done|]. by econstructor.
Qed.

(** Mounting a disk written earlier finds the same files. *)
Lemma mount_state fs F d :
  fs_state fs d F →
  ∃ fs' d', newFileSystem junk junkMap junkEntry junkHdr false d = Ok (fs', d') ∧
    contents d' = contents d ∧ fs_state fs' d' F.
Proof.
  intros (Hr & dir & bm & Hi & <-). unfold newFileSystem.
  destruct (newOpenFile_hdr FreeMapSector d Hr) as (d1 & -> & Hr1 & Hc1); [done|].
  cbn [mbind result_bind].
  destruct (newOpenFile_hdr DirectorySector d1 Hr1) as (d2 & -> & Hr2 & Hc2); [done|].
  cbn [mbind result_bind]. eexists _, d2. split; [done|]. split; [congruence|].
  split; [done|]. exists dir, bm. rewrite Hc2, Hc1. split; [|done]. destruct Hi. by split.
Qed.

Lemma format_state d :
  ready d →
  ∃ fs d', newFileSystem junk junkMap junkEntry junkHdr true d = Ok (fs, d') ∧ fs_state fs d' ∅.
Proof.
  intros Hr. destruct (format_spec junk junkMap junkEntry junkHdr Hjunk d Hr) as (fs & d' & bm & -> & Hr' & Hi).
  exists fs, d'. split; [done|]. split; [done|]. eexists _, bm. split; [done|].
  unfold files, dir_map. destruct (new_directory_wf junkEntry junkHdr Hjunk) as [_ ->]. done.
Qed.

End Refine.

(** ** The properties *)

(** C25.  The file system refines the abstract one.  After formatting, any
    sequence of creations, removals, reads and writes runs without a failed
    assertion or an undefined access, and each call returns and changes what
    the abstract file system says; mounting the disk again later finds the same
    files. *)
Theorem fs_refine `{SectorStoreLaws D} junk junkMap junkEntry junkHdr ops (d : D) :
  junk_ok junkEntry junkHdr → ready d → Forall valid_op ops →
  ∃ fs d1 rs d2 F fs' d3,
    newFileSystem junk junkMap junkEntry junkHdr true d = Ok (fs, d1) ∧
    fs_run junk junkMap junkEntry junkHdr fs ops d1 = Ok (rs, d2) ∧
    fs_steps ∅ ops rs F ∧
    newFileSystem junk junkMap junkEntry junkHdr false d2 = Ok (fs', d3) ∧
    fs_state fs' d3 F.
Proof.
  intros Hj Hr Hv.
  destruct (format_state junk junkMap junkEntry junkHdr Hj d Hr) as (fs & d1 & Hf & Hs1).
  destruct (run_refine junk junkMap junkEntry junkHdr Hj fs ∅ ops d1 Hs1 Hv)
    as (rs & d2 & F & Hrun & Hs2 & Hst).
  destruct (mount_state junk junkMap junkEntry junkHdr fs F d2 Hs2) as (fs' & d3 & Hm & _ & Hs3).
  exists fs, d1, rs, d2, F, fs', d3. do 4 (split; [assumption|]). assumption.
Qed.

(** C26.  [FileSystem::Create] succeeds exactly when the name is new, the
    directory has a free entry and the disk has sectors for the header and the
    data; then a file of the given length is there beside the old ones, which
    are untouched.  When it fails, no sector of the disk has changed, although
    it may already have allocated sectors in its copy of the bitmap. *)
Theorem Create_correct `{SectorStoreLaws D} junk junkMap junkEntry junkHdr fs F nm size (d : D) :
  junk_ok junkEntry junkHdr → fs_state fs d F → c_name nm → 0 <= size <= MaxFileSize →
  let run := Create junk junkMap junkEntry junkHdr fs nm size d in
  if decide (can_create F nm size) then
    ∃ d' new, run = Ok (true, d') ∧ Z.of_nat (length new) = size ∧
      fs_state fs d' (<[key nm := new]> F)
  else
    ∃ d', run = Ok (false, d') ∧ contents d' = contents d ∧ fs_state fs d' F.
Proof.
  intros Hj (Hr & dir & bm & Hi & <-) Hn Hs run.
  pose proof (Create_spec junk junkMap junkEntry junkHdr Hj fs dir bm nm size d Hr Hi Hn Hs) as Hc.
  pose proof (can_create_iff fs dir bm nm size d Hr Hi) as Hiff.
  destruct (decide (can_create _ _ _)) as [Hcc|Hcc];
    [rewrite decide_True in Hc by tauto|rewrite decide_False in Hc by tauto].
  - destruct Hc as (d' & dir' & bm' & new & Hrun & Hr' & Hi' & Hl & Hf). exists d', new.
    split; [done|]. split; [done|]. split; [done|]. by exists dir', bm'.
  - destruct Hc as (d' & Hrun & Hr' & Hc). exists d'. split; [done|]. split; [done|].
    split; [done|]. exists dir, bm. by rewrite Hc.
Qed.

(** [FileSystem::Remove] removes exactly the named file and gives all its
    sectors back; it returns false, and changes nothing, when there is no such
    file. *)
Theorem Remove_correct `{SectorStoreLaws D} junk junkMap junkEntry junkHdr fs F nm (d : D) :
  junk_ok junkEntry junkHdr → fs_state fs d F →
  ∃ d', Remove junk junkMap junkEntry fs nm d =
      Ok (bool_decide (is_Some (F !! key nm)), d') ∧
    fs_state fs d' (delete (key nm) F) ∧
    sectors_used (delete (key nm) F) =
      sectors_used F -
      match F !! key nm with Some b => sectors_for (Z.of_nat (length b)) | None => 0 end.
Proof.
  intros Hj HF. destruct (exec_remove junk junkMap junkEntry junkHdr Hj fs F nm d HF)
    as (b & d' & F' & Hrm & HF' & Hb & ->).
  exists d'. injection Hb as ->. split; [done|]. split; [done|].
  destruct (F !! key nm) as [x|] eqn:E.
  - unfold sectors_used. rewrite <- (insert_delete_id F (key nm) x) at 2 by done.
    rewrite (sum_list_with_perm _ _ _ (map_to_list_insert (delete (key nm) F) (key nm) x
      (lookup_delete_eq _ _))). cbn [sum_list_with snd].
    assert (0 <= sectors_for (Z.of_nat (length x))).
    { unfold sectors_for. pose proof (divRoundUp_bounds (Z.of_nat (length x)) SectorSize).
      unfold SectorSize in *. lia. }
    lia.
  - by rewrite delete_id, Z.sub_0_r.
Qed.

(** Formatting a disk gives an empty file system that uses four sectors;
    mounting a disk changes nothing on it and finds the files that are there. *)
Theorem format_mount `{SectorStoreLaws D} junk junkMap junkEntry junkHdr (d : D) :
  junk_ok junkEntry junkHdr → ready d →
  (∃ fs d', newFileSystem junk junkMap junkEntry junkHdr true d = Ok (fs, d') ∧
     fs_state fs d' ∅) ∧
  sectors_used ∅ = 4 ∧
  ∀ fs F, fs_state fs d F →
    ∃ fs' d', newFileSystem junk junkMap junkEntry junkHdr false d = Ok (fs', d') ∧
      contents d' = contents d ∧ fs_state fs' d' F.
Proof.
  intros Hj Hr. split; [by apply format_state|]. split; [done|].
  intros fs F HF. by apply (mount_state junk junkMap junkEntry junkHdr fs).
Qed.
