(* ===== verification/FsPrint.v ===== *)
(** * FileSystem::Print: what the file system shows of itself

    [Print] of filesys/filehdr.cc, filesys/directory.cc and filesys/filesys.cc, which
    main calls for the option -D: text, as a list of characters, made from what the
    disk has. *)

From Stdlib Require Import String Ascii.
From S2P Require Import Prelude Params SectorStore BitMap FileHdr OpenFile Directory FileSys FsSpec.
Local Open Scope Z_scope.

(** The characters of a string of the source *)
Definition text (s : string) : list Z := (λ c, Z.of_nat (nat_of_ascii c)) <$> list_ascii_of_string s.

(** [printf("%x")] of an [unsigned char] *)
Definition hex_digit (z : Z) : Z := if z <? 10 then 48 + z else 87 + z.
Definition hex (z : Z) : list Z := if z <? 16 then [hex_digit z] else [hex_digit (z / 16); hex_digit (z mod 16)].

(** A byte of a file: as it is if it can be printed, and \%x if not *)
Definition show_byte (c : Z) : list Z := if (32 <=? c) && (c <=? 126) then [c] else 92 :: hex c.

Section Code.
Context {D : Type} `{SectorStore D}.
Variables (junk : nat → Z) (junkMap : nat → Z) (junkEntry : nat → DirectoryEntry).

(** ** FileHeader::Print *)

(** [for (...; (j < SectorSize) && (k < numBytes); j++, k++)], with [n] bytes of the
    sector left *)
Fixpoint Print_bytes (n : nat) (j k : Z) (h : FileHeader) (data : list Z) : result (list Z * Z) :=
  match n with
  | O => Ok ([], k)
  | S n =>
      if k <? numBytes h then
        c ← aget data j;
        '(out, k) ← Print_bytes n (j + 1) (k + 1) h data;
        Ok (show_byte c ++ out, k)
      else Ok ([], k)
  end.

(** The loop over the sectors *)
Fixpoint Print_sectors (n : nat) (i k : Z) (h : FileHeader) (d : D) : result (list Z * D) :=
  match n with
  | O => Ok ([], d)
  | S n =>
      s ← aget (dataSectors h) i;
      '(data, d) ← ReadSector s d;
      '(line, k) ← Print_bytes (Z.to_nat SectorSize) 0 k h data;
      '(rest, d) ← Print_sectors n (i + 1) k h d;
      Ok (line ++ [10] ++ rest, d)
  end.

Fixpoint Print_blocks (n : nat) (i : Z) (h : FileHeader) : result (list Z) :=
  match n with
  | O => Ok []
  | S n =>
      s ← aget (dataSectors h) i;
      rest ← Print_blocks n (i + 1) h;
      Ok (decimal s ++ [32] ++ rest)
  end.

Definition FileHeader_Print (h : FileHeader) (d : D) : result (list Z * D) :=
  blocks ← Print_blocks (Z.to_nat (numSectors h)) 0 h;
  '(lines, d) ← Print_sectors (Z.to_nat (numSectors h)) 0 0 h d;
  Ok (text "FileHeader contents.  File size: " ++ decimal (numBytes h) ++ text ".  File blocks:" ++ [10] ++ blocks ++
      [10] ++ text "File contents:" ++ [10] ++ lines, d).

(** ** Directory::Print *)

Fixpoint Print_entries (n : nat) (i : Z) (dir : Directory) (d : D) : result (list Z * D) :=
  match n with
  | O => Ok ([], d)
  | S n =>
      e ← aget (table dir) i;
      if inUse e then
        nm ← cstring (name e);
        '(hdr, d) ← FileHdr.FetchFrom (sector e) d;
        '(shown, d) ← FileHeader_Print hdr d;
        '(rest, d) ← Print_entries n (i + 1) dir d;
        Ok (text "Name: " ++ nm ++ text ", Sector: " ++ decimal (sector e) ++ [10] ++ shown ++ rest, d)
      else Print_entries n (i + 1) dir d
  end.

Definition Directory_Print (dir : Directory) (d : D) : result (list Z * D) :=
  '(out, d) ← Print_entries (Z.to_nat (tableSize dir)) 0 dir d;
  Ok (text "Directory contents:" ++ [10] ++ out ++ [10], d).

(** ** BitMap::Print, as text *)

Definition BitMap_Print (bm : BitMap) : result (list Z) :=
  bits ← BitMap.Print bm;
  Ok (text "Bitmap set:" ++ [10] ++ (Z.add 48 <$> bits) ++ [10]).

(** ** FileSystem::Print *)

Definition FileSystem_Print (fs : FileSystem) (d : D) : result (list Z * D) :=
  '(bitHdr, d) ← FileHdr.FetchFrom FreeMapSector d;
  '(shownBits, d) ← FileHeader_Print bitHdr d;
  '(dirHdr, d) ← FileHdr.FetchFrom DirectorySector d;
  '(shownDir, d) ← FileHeader_Print dirHdr d;
  '(freeMap, d) ← get_freeMap junk junkMap fs d;
  shownMap ← BitMap_Print freeMap;
  '(directory, d) ← get_directory junk junkEntry fs d;
  '(shownFiles, d) ← Directory_Print directory d;
  Ok (text "Bit map file header:" ++ [10] ++ shownBits ++ text "Directory file header:" ++ [10] ++ shownDir ++
      shownMap ++ shownFiles, d).
End Code.

(** ** What should be shown *)

(** The bytes of a file, a line for each of its sectors *)
Definition show_lines (n : nat) (bs : list Z) : list Z :=
  seq 0 n ≫= λ i, (take (Z.to_nat SectorSize) (drop (Z.to_nat SectorSize * i) bs) ≫= show_byte) ++ [10].

Definition show_file (h : FileHeader) (bs : list Z) : list Z :=
  text "FileHeader contents.  File size: " ++ decimal (numBytes h) ++ text ".  File blocks:" ++ [10] ++
  (data h ≫= λ s, decimal s ++ [32]) ++ [10] ++ text "File contents:" ++ [10] ++
  show_lines (Z.to_nat (numSectors h)) bs.

(** The file whose header is in sector [s] *)
Definition show_at (cs : list (list Z)) (s : Z) : list Z := show_file (hdr_at cs s) (file_at cs s).

Definition show_map (bm : BitMap) : list Z :=
  text "Bitmap set:" ++ [10] ++ ((λ b : bool, if b then 49 else 48) <$> view bm) ++ [10].

Definition show_entry (cs : list (list Z)) (e : list Z * Z) : list Z :=
  text "Name: " ++ e.1 ++ text ", Sector: " ++ decimal e.2 ++ [10] ++ show_at cs e.2.

Definition show_system (cs : list (list Z)) (dir : Directory) (bm : BitMap) : list Z :=
  text "Bit map file header:" ++ [10] ++ show_at cs FreeMapSector ++
  text "Directory file header:" ++ [10] ++ show_at cs DirectorySector ++
  show_map bm ++ text "Directory contents:" ++ [10] ++ (entries dir ≫= show_entry cs) ++ [10].

(** ** The headers *)

Section Headers.
Context {D : Type} `{SectorStoreLaws D}.

Lemma Print_bytes_spec n j k h dt : 0 <= j → j + Z.of_nat n <= Z.of_nat (length dt) → 0 <= k →
  Print_bytes n j k h dt =
  Ok (take (Z.to_nat (numBytes h - k)) (take n (drop (Z.to_nat j) dt)) ≫= show_byte,
      k + Z.max 0 (Z.min (Z.of_nat n) (numBytes h - k))).
Proof.
  revert j k. induction n as [|n IH]; intros j k Hj Hl Hk; cbn [Print_bytes].
  { rewrite take_0, take_nil. f_equal. f_equal. lia. }
  destruct (Z.ltb_spec k (numBytes h)).
  - destruct (lookup_lt_is_Some_2 dt (Z.to_nat j)) as [c Hc]; [lia|].
    rewrite (drop_S _ _ _ Hc). unfold aget. rewrite (proj2 (Z.ltb_ge j 0)) by lia. rewrite Hc. cbn [mbind result_bind].
    rewrite IH by lia. cbn [mbind result_bind firstn]. replace (Z.to_nat (j + 1)) with (S (Z.to_nat j)) by lia.
    replace (Z.to_nat (numBytes h - k)) with (S (Z.to_nat (numBytes h - (k + 1)))) by lia. cbn [firstn].
    rewrite bind_cons. f_equal. f_equal. lia.
  - replace (Z.to_nat (numBytes h - k)) with 0%nat by lia. rewrite take_0. f_equal. f_equal. lia.
Qed.

(** A sector of a file *)
Lemma image_sector cs h (i : nat) s : disk_image cs → wf_hdr h → data h !! i = Some s →
  take 256 (drop (256 * i) (file_image cs h)) = sect cs s.
Proof.
  intros Hcs Hh Hs. pose proof (data_sectors cs h Hcs Hh) as Hd. unfold file_image.
  apply list_elem_of_split_length in Hs as (a & b & Hab & ->). rewrite Hab, fmap_app in *.
  apply Forall_app in Hd as [Ha Hb]. rewrite fmap_cons in *. apply Forall_cons in Hb as [Hl _].
  rewrite join_app. pose proof (join_length _ 256 Ha) as Hla. rewrite length_fmap in Hla.
  rewrite drop_app_length' by done. change (mjoin (?x :: ?l)) with (x ++ mjoin l). by rewrite take_app_length'.
Qed.

Lemma data_aget h (i : nat) s : data h !! i = Some s → aget (dataSectors h) (Z.of_nat i) = Ok s.
Proof. intros Hs. apply aget_Ok. split; [lia|]. rewrite Nat2Z.id. unfold data in Hs. by apply lookup_take_Some in Hs as []. Qed.

Lemma Print_sectors_spec n (i : nat) h (d : D) : ready d → wf_hdr h → (i + n)%nat = Z.to_nat (numSectors h) →
  ∃ d', Print_sectors n (Z.of_nat i) (Z.min (SectorSize * Z.of_nat i) (numBytes h)) h d =
      Ok (seq i n ≫= (λ i, (take (Z.to_nat SectorSize) (drop (Z.to_nat SectorSize * i)
            (file_bytes (contents d) h)) ≫= show_byte) ++ [10]), d') ∧
    ready d' ∧ contents d' = contents d.
Proof.
  intros Hr Hh. revert i d Hr. induction n as [|n IH]; intros i d Hr Hin; cbn [Print_sectors]; [by exists d|].
  pose proof (data_length h Hh) as Hdl. destruct (lookup_lt_is_Some_2 (data h) i) as [s Hs]; [lia|].
  rewrite (data_aget _ _ _ Hs). cbn [mbind result_bind].
  assert (sector_range s) as Hsr by (eapply Forall_lookup_1; [apply (wf_range _ Hh)|done]).
  destruct (read_sector d s Hr Hsr) as (d1 & -> & Hr1 & Hc1). cbn [mbind result_bind].
  destruct (sect_is_sector (contents d) s (ready_image _ Hr) Hsr) as [Hsl _].
  pose proof (wf_bytes _ Hh) as Hb. change (Z.to_nat SectorSize) with 256%nat. unfold SectorSize in *.
  rewrite Print_bytes_spec by lia. cbn [mbind result_bind].
  replace (Z.min (256 * Z.of_nat i) (numBytes h) + _) with (Z.min (256 * Z.of_nat (S i)) (numBytes h)) by lia.
  replace (Z.of_nat i + 1) with (Z.of_nat (S i)) by lia.
  destruct (IH (S i) d1 Hr1 ltac:(lia)) as (d2 & Hrun & Hr2 & Hc2). rewrite Hrun. cbn [mbind result_bind].
  exists d2. split; [|by rewrite Hc2]. cbn [seq]. rewrite bind_cons, Hc1.
  do 2 f_equal. rewrite <- app_assoc. f_equal. f_equal. unfold file_bytes.
  rewrite <- (image_sector _ _ _ _ (ready_image _ Hr) Hh Hs). change (Z.to_nat 0) with 0%nat.
  rewrite drop_0, skipn_firstn_comm, !take_take. f_equal. lia.
Qed.

Lemma Print_blocks_spec n (i : nat) h : wf_hdr h → (i + n)%nat = Z.to_nat (numSectors h) →
  Print_blocks n (Z.of_nat i) h = Ok (drop i (data h) ≫= λ s, decimal s ++ [32]).
Proof.
  intros Hh. pose proof (data_length h Hh) as Hdl. revert i. induction n as [|n IH]; intros i Hin; cbn [Print_blocks].
  { by rewrite drop_ge by lia. }
  destruct (lookup_lt_is_Some_2 (data h) i) as [s Hs]; [lia|]. rewrite (data_aget _ _ _ Hs). cbn [mbind result_bind].
  replace (Z.of_nat i + 1) with (Z.of_nat (S i)) by lia. rewrite IH by lia. cbn [mbind result_bind].
  by rewrite (drop_S _ _ _ Hs), bind_cons, <- app_assoc.
Qed.

Lemma FileHeader_Print_spec h (d : D) : ready d → wf_hdr h →
  ∃ d', FileHeader_Print h d = Ok (show_file h (file_bytes (contents d) h), d') ∧ ready d' ∧ contents d' = contents d.
Proof.
  intros Hr Hh. unfold FileHeader_Print. pose proof (Print_blocks_spec _ 0 h Hh eq_refl) as Hbl.
  change (Z.of_nat 0) with 0 in Hbl. rewrite drop_0 in Hbl. rewrite Hbl. cbn [mbind result_bind].
  destruct (Print_sectors_spec _ 0 h d Hr Hh eq_refl) as (d' & Hrun & Hr' & Hc').
  change (Z.of_nat 0) with 0 in Hrun. rewrite Z.mul_0_r, Z.min_l in Hrun by apply Hh.
  rewrite Hrun. exists d'. split; [done|by split].
Qed.

(** ** The directory *)

(** A name of a file that ends within its array *)
Lemma cstring_trunc n l : 0 ∈ l → (length l <= S n)%nat → cstring l = Ok (trunc n l).
Proof.
  revert n. induction l as [|c l IH]; intros n Hin Hl; [by apply elem_of_nil in Hin|]. cbn [cstring].
  destruct (Z.eqb_spec c 0) as [->|Hc]; [by destruct n|].
  apply elem_of_cons in Hin as [|Hin]; [done|]. destruct n as [|n].
  { destruct l; [by apply elem_of_nil in Hin|cbn [length] in Hl; lia]. }
  rewrite (IH n) by (done || (cbn [length] in Hl; lia)). cbn [trunc]. by rewrite (proj2 (Z.eqb_neq c 0)).
Qed.

Lemma Print_entries_spec n (i : nat) dir (d : D) :
  ready d → (i + n)%nat = length (table dir) → Forall wf_entry (table dir) →
  Forall (λ e, 0 ∈ name e) (used dir) →
  Forall (λ s, sector_range s ∧ wf_hdr (hdr_at (contents d) s)) (entries dir).*2 →
  ∃ d', Print_entries n (Z.of_nat i) dir d =
      Ok ((entry_pair <$> filter (λ e, inUse e = true) (drop i (table dir))) ≫= show_entry (contents d), d') ∧
    ready d' ∧ contents d' = contents d.
Proof.
  intros Hr Hin Hwf Hnm Hfs. revert i d Hr Hin Hfs. induction n as [|n IH]; intros i d Hr Hin Hfs; cbn [Print_entries].
  { rewrite drop_ge by lia. by exists d. }
  destruct (lookup_lt_is_Some_2 (table dir) i) as [e He]; [lia|].
  assert (aget (table dir) (Z.of_nat i) = Ok e) as -> by (apply aget_Ok; rewrite Nat2Z.id; split; [lia|done]).
  cbn [mbind result_bind]. rewrite (drop_S _ _ _ He), filter_cons.
  replace (Z.of_nat i + 1) with (Z.of_nat (S i)) by lia.
  destruct (inUse e) eqn:Hu; [|rewrite decide_False by congruence; apply IH; (done || lia)].
  rewrite decide_True by done.
  assert (e ∈ used dir) as Heu by (apply list_elem_of_filter; split; [done|by eapply list_elem_of_lookup_2]).
  assert (wf_entry e) as Hwe by (by eapply Forall_lookup_1). destruct (we_name _ Hwe) as [Hl _].
  rewrite (cstring_trunc 9) by ((by eapply Forall_forall in Hnm) || lia). cbn [mbind result_bind].
  assert (sector_range (sector e) ∧ wf_hdr (hdr_at (contents d) (sector e))) as [Hs Hh].
  { rewrite Forall_forall in Hfs. apply Hfs. apply list_elem_of_fmap. exists (entry_pair e).
    split; [done|]. by apply list_elem_of_fmap_2. }
  destruct (FetchFrom_hdr (sector e) d Hr Hs) as (d1 & -> & Hr1 & Hc1). cbn [mbind result_bind].
  destruct (FileHeader_Print_spec (hdr_at (contents d) (sector e)) d1 Hr1 Hh) as (d2 & -> & Hr2 & Hc2).
  cbn [mbind result_bind]. destruct (IH (S i) d2 Hr2 ltac:(lia)) as (d3 & -> & Hr3 & Hc3); [by rewrite Hc2, Hc1|].
  cbn [mbind result_bind]. exists d3. rewrite Hc3, Hc2, Hc1. split; [|done].
  rewrite fmap_cons, bind_cons. unfold show_entry at 2, show_at, file_at. cbn [entry_pair fst snd].
  by rewrite <- !app_assoc.
Qed.

Lemma Directory_Print_spec dir (d : D) :
  ready d → wf_dir dir → Forall (λ e, 0 ∈ name e) (used dir) →
  Forall (λ s, sector_range s ∧ wf_hdr (hdr_at (contents d) s)) (entries dir).*2 →
  ∃ d', Directory_Print dir d =
      Ok (text "Directory contents:" ++ [10] ++ (entries dir ≫= show_entry (contents d)) ++ [10], d') ∧
    ready d' ∧ contents d' = contents d.
Proof.
  intros Hr Hw Hnm Hfs. unfold Directory_Print. rewrite <- (wd_size _ Hw), Nat2Z.id.
  destruct (Print_entries_spec (length (table dir)) 0 dir d) as (d' & Hrun & Hr' & Hc'); [done|done|apply Hw|done|done|].
  change (Z.of_nat 0) with 0 in Hrun. rewrite drop_0 in Hrun. rewrite Hrun. cbn [mbind result_bind].
  exists d'. by split.
Qed.

Lemma Print_loop_spec bm n (i : nat) : wf bm → (i + n)%nat = Z.to_nat (numBits bm) →
  Print_loop n (Z.of_nat i) bm = Ok ((λ b : bool, if b then 1 else 0) <$> drop i (view bm)).
Proof.
  intros Hw. assert (length (view bm) = Z.to_nat (numBits bm)) as Hl by (unfold view; by rewrite length_fmap, length_seq).
  revert i. induction n as [|n IH]; intros i Hin; cbn [Print_loop].
  { by rewrite drop_ge by lia. }
  rewrite Test_spec by (done || lia). cbn [mbind result_bind].
  replace (Z.of_nat i + 1) with (Z.of_nat (S i)) by lia. rewrite IH by lia. cbn [mbind result_bind].
  by rewrite (drop_S (view bm) _ i (view_lookup_nat bm i ltac:(lia))).
Qed.

Lemma BitMap_Print_spec bm : wf bm → BitMap_Print bm = Ok (show_map bm).
Proof.
  intros Hw. unfold BitMap_Print, BitMap.Print. pose proof (Print_loop_spec bm _ 0 Hw eq_refl) as Hp.
  change (Z.of_nat 0) with 0 in Hp. rewrite drop_0 in Hp. rewrite Hp. cbn [mbind result_bind].
  unfold show_map. do 4 f_equal. rewrite <- list_fmap_compose. apply list_fmap_ext. by intros i [] ?.
Qed.
End Headers.

(** What [FileSystem::Print] shows.  On a disk with the invariant of the file system
    and names that end within their arrays, [Print] returns and leaves the disk as it
    is; it shows the header and the bytes of the two system files, a digit for every
    sector of the disk that says whether it is in use, and the files of the directory
    in the order of the table, each with its name, the sector and the contents of its
    header and exactly its bytes, with a line for each sector. *)
Theorem FileSystem_Print_correct `{SectorStoreLaws D} junk junkMap junkEntry junkHdr fs dir bm (d : D) :
  junk_ok junkEntry junkHdr → ready d → fs_inv fs (contents d) dir bm → Forall (λ e, 0 ∈ name e) (used dir) →
  ∃ d', FileSystem_Print junk junkMap junkEntry fs d = Ok (show_system (contents d) dir bm, d') ∧
    ready d' ∧ contents d' = contents d.
Proof.
  intros Hj Hr Hi Hnm. unfold FileSystem_Print.
  destruct (FetchFrom_hdr FreeMapSector d Hr ltac:(done)) as (d1 & -> & Hr1 & Hc1). cbn [mbind result_bind].
  destruct (FileHeader_Print_spec (hdr_at (contents d) FreeMapSector) d1 Hr1 (fi_map_wf _ _ _ _ Hi))
    as (d2 & -> & Hr2 & Hc2). cbn [mbind result_bind].
  destruct (FetchFrom_hdr DirectorySector d2 Hr2 ltac:(done)) as (d3 & -> & Hr3 & Hc3). cbn [mbind result_bind].
  rewrite Hc2, Hc1.
  destruct (FileHeader_Print_spec (hdr_at (contents d) DirectorySector) d3 Hr3 (fi_dir_wf _ _ _ _ Hi))
    as (d4 & -> & Hr4 & Hc4). cbn [mbind result_bind]. rewrite Hc3, Hc2, Hc1 in *.
  destruct (get_freeMap_spec junk junkMap fs dir bm d4 Hr4 ltac:(by rewrite Hc4)) as (d5 & -> & Hr5 & Hc5).
  cbn [mbind result_bind]. rewrite BitMap_Print_spec by apply Hi. cbn [mbind result_bind].
  destruct (get_directory_spec junk junkEntry junkHdr Hj fs dir bm d5 Hr5 ltac:(by rewrite Hc5, Hc4))
    as (d6 & -> & Hr6 & Hc6). cbn [mbind result_bind]. rewrite Hc5, Hc4 in *.
  destruct (Directory_Print_spec dir d6 Hr6) as (d7 & -> & Hr7 & Hc7); [apply Hi|done|rewrite Hc6; apply Hi|].
  cbn [mbind result_bind]. exists d7. rewrite Hc7, Hc6. split; [|done]. done.
Qed.

(** A disk that has just been formatted is shown. *)
Lemma FileSystem_Print_formatted `{SectorStoreLaws D} junk junkMap junkEntry junkHdr (d : D) :
  junk_ok junkEntry junkHdr → ready d →
  ∃ fs d1 out d2, newFileSystem junk junkMap junkEntry junkHdr true d = Ok (fs, d1) ∧
    FileSystem_Print junk junkMap junkEntry fs d1 = Ok (out, d2) ∧ contents d2 = contents d1.
Proof.
  intros Hj Hr. destruct (format_state junk junkMap junkEntry junkHdr Hj d Hr) as (fs & d1 & Hf & Hr1 & dir & bm & Hi & HF).
  destruct (FileSystem_Print_correct junk junkMap junkEntry junkHdr fs dir bm d1 Hj Hr1 Hi) as (d2 & Hp & _ & Hc).
  - apply fmap_empty_inv in HF. unfold dir_map in HF. unfold entries in HF.
    destruct (used dir) as [|e l]; [constructor|]. exfalso. rewrite fmap_cons in HF.
    change (<[key (name e) := sector e]> (list_to_map (entry_pair <$> l) : gmap (list Z) Z) = ∅) in HF.
    exact (insert_non_empty _ _ _ HF).
  - eexists fs, d1, _, d2. split; [exact Hf|]. split; [exact Hp|exact Hc].
Qed.
