(* ===== verification/Kernel.v ===== *)
(** * The state of the kernel and of the simulated hardware

    The global objects of threads/system.cc as one record: the interrupt
    hardware, the statistics with the simulated clock, the threads with the
    scheduler's ready list, the semaphores, and the devices.

    Kernel code switches stacks in the middle of a routine ([SWITCH] in
    [Scheduler::Run]), so a thread's execution stack is part of the state: it is
    the list of [Frame]s still to execute, each the rest of a kernel routine
    from a point where that routine can lose the processor, or one of its
    loops.  The components define what each frame does; Sched.v composes
    them. *)

From S2P Require Import Prelude Params.
From S2P Require Import LList.
From S2P Require Machine.
Local Open Scope Z_scope.

(** ** machine/interrupt.h *)

Inductive IntStatus := IntOff | IntOn.
Inductive MachineStatus := IdleMode | SystemMode | UserMode.
Inductive IntType :=
| TimerInt | DiskInt | ConsoleWriteInt | ConsoleReadInt | NetworkSendInt | NetworkRecvInt.

#[export] Instance IntStatus_eq_dec : EqDecision IntStatus.
Proof. solve_decision. Defined.
#[export] Instance MachineStatus_eq_dec : EqDecision MachineStatus.
Proof. solve_decision. Defined.
#[export] Instance IntType_eq_dec : EqDecision IntType.
Proof. solve_decision. Defined.

(** The functions the device simulators hand to [Interrupt::Schedule].  Their
    argument is the device itself, of which there is one. *)
Inductive Handler := TimerHandler | DiskDone | ConsoleReadPoll | ConsoleWriteDone.

#[export] Instance Handler_eq_dec : EqDecision Handler.
Proof. solve_decision. Defined.

Record PendingInterrupt := mkPending {
  handler : Handler;
  when : Z;
  type : IntType }.

Record Interrupt := mkInterrupt {
  level : IntStatus;
  pending : alist PendingInterrupt;
  inHandler : bool;
  yieldOnReturn : bool;
  istatus : MachineStatus }.

Definition newInterrupt : Interrupt := mkInterrupt IntOff aempty false false SystemMode.

(** ** machine/stats.h *)

Record Statistics := mkStats {
  totalTicks : Z;
  idleTicks : Z;
  systemTicks : Z;
  userTicks : Z;
  numDiskReads : Z;
  numDiskWrites : Z;
  numConsoleCharsRead : Z;
  numConsoleCharsWritten : Z;
  numPageFaults : Z;
  numPacketsSent : Z;
  numPacketsRecvd : Z }.

Definition newStatistics : Statistics := mkStats 0 0 0 0 0 0 0 0 0 0 0.

(** ** threads/thread.h *)

Abbreviation tid := nat.
Abbreviation sem := nat.

Inductive ThreadStatus := JUST_CREATED | RUNNING | READY | BLOCKED.

#[export] Instance ThreadStatus_eq_dec : EqDecision ThreadStatus.
Proof. solve_decision. Defined.

(** What [PollFile] and [Read] find at the keyboard of the console: no character
    yet, a character, or the end of the file. *)
Inductive poll := NoKey | Key (c : Z) | AtEof.

#[export] Instance poll_eq_dec : EqDecision poll.
Proof. solve_decision. Defined.

(** Points of [ConsoleTest] of userprog/progtest.cc (Console.v). *)
Inductive ConsoleCall :=
| CConsoleTest (keys : nat → poll)
| CConsoleLoop                           (** the head of its loop *)
| CConsoleEcho                           (** after [readAvail->P()] *)
| CConsoleCheck (ch : Z).                (** after [writeDone->P()] *)

(** Points of a thread that runs a user program (Exception.v). *)
Inductive UserCall :=
| CStartProcess (filename : list Z)      (** progtest.cc *)
| CprocessCreator                        (** exception.cc *)
| CMachineRun                            (** the loop of [Machine::Run] *)
| CEndException                          (** [RaiseException] after the handler *)
| CAfterYield.                           (** the system call [Yield] after [Thread::Yield] *)

(** What a forked procedure does, as far as the kernel sees it: a sequence of
    calls on the thread system, the semaphores and the disk.  A [buffer] is the
    address of the caller's data. *)
#[warnings="-register-all"]
Inductive Call :=
| CPrint (which num : Z)
| CYield
| CFork (body : list Call)
| CP (s : sem)
| CV (s : sem)
| CReadSector (sectorNumber : Z) (buffer : nat)
| CWriteSector (sectorNumber : Z) (buffer : nat)
| CConsole (c : ConsoleCall)
| CUser (u : UserCall).

(** Points of the kernel where a thread may be suspended. *)
Inductive Frame :=
| Do (c : Call)                          (** the next call of the procedure *)
| FOneTick                               (** [OneTick()] at the end of [SetLevel] *)
| FOneTickLoop (old : MachineStatus)     (** its loop over the due interrupts *)
| FOneTickEnd (old : MachineStatus)      (** [status = old] after the [Yield] *)
| FSetLevel (oldLevel : IntStatus)       (** [(void) interrupt->SetLevel(oldLevel)] *)
| FSleepLoop                             (** the loop of [Thread::Sleep] *)
| FIdleLoop                              (** the loop of [Interrupt::Idle] *)
| FRunTail                               (** [Scheduler::Run] after [SWITCH] *)
| FPLoop (s : sem) (oldLevel : IntStatus)(** the loop of [Semaphore::P] *)
| FInterruptEnable                       (** [ThreadRoot]'s first call *)
| FThreadFinish.                         (** [ThreadRoot]'s last call *)

(** userprog/addrspace.h: an address space, with the address of its page table
    and the name of its swap file *)
Record Space := mkSpace { spaceTable : Z; numPages : Z; swapFileName : list Z }.

Record Thread := mkThread {
  frames : list Frame;
  stack : option Z;            (** the word at the fencepost; [None]: main thread *)
  tstatus : ThreadStatus;
  space : option Space;
  userRegisters : list Z;
  parent : option tid;
  ID : Z;
  killNewChild : bool;
  isJoined : bool }.

(** [junkRegs]: [userRegisters] is not initialised. *)
Definition newThread_obj (junkRegs : list Z) : Thread :=
  mkThread [] None JUST_CREATED None junkRegs None 0 false false.

(** ** threads/synch.h, machine/disk.h *)

Record Semaphore := mkSem { value : Z; queue : alist tid }.

Definition newSemaphore (initialValue : Z) : Semaphore := mkSem initialValue aempty.

(** [sectors] is the UNIX file, after the magic number. *)
Record Disk := mkDisk {
  sectors : list (list Z);
  active : bool;
  lastSector : Z;
  bufferInit : Z }.

(** machine/console.h.  [keyboard] and [display] are the UNIX files: what the
    polls of the first find in turn, with the number of polls made, and the bytes
    written to the second.  The two handlers it is given add to a semaphore. *)
Record Console := mkConsole {
  keyboard : nat → poll;
  polls : nat;
  display : list Z;
  readAvail : sem;
  writeDone : sem;
  putBusy : bool;
  incoming : Z }.

(** ** threads/system.cc: the global objects *)

Record Kernel := mkKernel {
  interrupt : Interrupt;
  stats : Statistics;
  threads : gmap tid Thread;
  currentThread : tid;
  threadToBeDestroyed : option tid;
  readyList : alist tid;
  activeThreads : alist tid;
  sems : list Semaphore;
  timer : option bool;          (** its [randomize] flag *)
  disk : option (Disk * sem);   (** [synchDisk]: the disk and the semaphore *)
  machine : option Machine.Machine;
  buffers : gmap nat (list Z);
  randoms : nat;                (** how often [Random] was called *)
  output : list (Z * Z);        (** what threads printed *)
  console : option Console }.   (** the [console] of progtest.cc *)

Definition set_interrupt (k : Kernel) (i : Interrupt) : Kernel :=
  mkKernel i (stats k) (threads k) (currentThread k) (threadToBeDestroyed k) (readyList k)
    (activeThreads k) (sems k) (timer k) (disk k) (machine k) (buffers k) (randoms k) (output k) (console k).
Definition set_stats (k : Kernel) (s : Statistics) : Kernel :=
  mkKernel (interrupt k) s (threads k) (currentThread k) (threadToBeDestroyed k) (readyList k)
    (activeThreads k) (sems k) (timer k) (disk k) (machine k) (buffers k) (randoms k) (output k) (console k).
Definition set_threads (k : Kernel) (ts : gmap tid Thread) : Kernel :=
  mkKernel (interrupt k) (stats k) ts (currentThread k) (threadToBeDestroyed k) (readyList k)
    (activeThreads k) (sems k) (timer k) (disk k) (machine k) (buffers k) (randoms k) (output k) (console k).
Definition set_current (k : Kernel) (t : tid) : Kernel :=
  mkKernel (interrupt k) (stats k) (threads k) t (threadToBeDestroyed k) (readyList k)
    (activeThreads k) (sems k) (timer k) (disk k) (machine k) (buffers k) (randoms k) (output k) (console k).
Definition set_doomed (k : Kernel) (t : option tid) : Kernel :=
  mkKernel (interrupt k) (stats k) (threads k) (currentThread k) t (readyList k)
    (activeThreads k) (sems k) (timer k) (disk k) (machine k) (buffers k) (randoms k) (output k) (console k).
Definition set_readyList (k : Kernel) (l : alist tid) : Kernel :=
  mkKernel (interrupt k) (stats k) (threads k) (currentThread k) (threadToBeDestroyed k) l
    (activeThreads k) (sems k) (timer k) (disk k) (machine k) (buffers k) (randoms k) (output k) (console k).
Definition set_activeThreads (k : Kernel) (l : alist tid) : Kernel :=
  mkKernel (interrupt k) (stats k) (threads k) (currentThread k) (threadToBeDestroyed k)
    (readyList k) l (sems k) (timer k) (disk k) (machine k) (buffers k) (randoms k) (output k) (console k).
Definition set_sems (k : Kernel) (l : list Semaphore) : Kernel :=
  mkKernel (interrupt k) (stats k) (threads k) (currentThread k) (threadToBeDestroyed k)
    (readyList k) (activeThreads k) l (timer k) (disk k) (machine k) (buffers k) (randoms k)
    (output k) (console k).
Definition set_disk (k : Kernel) (d : option (Disk * sem)) : Kernel :=
  mkKernel (interrupt k) (stats k) (threads k) (currentThread k) (threadToBeDestroyed k)
    (readyList k) (activeThreads k) (sems k) (timer k) d (machine k) (buffers k) (randoms k)
    (output k) (console k).
Definition set_machine (k : Kernel) (m : option Machine.Machine) : Kernel :=
  mkKernel (interrupt k) (stats k) (threads k) (currentThread k) (threadToBeDestroyed k)
    (readyList k) (activeThreads k) (sems k) (timer k) (disk k) m (buffers k) (randoms k)
    (output k) (console k).
Definition set_buffers (k : Kernel) (b : gmap nat (list Z)) : Kernel :=
  mkKernel (interrupt k) (stats k) (threads k) (currentThread k) (threadToBeDestroyed k)
    (readyList k) (activeThreads k) (sems k) (timer k) (disk k) (machine k) b (randoms k)
    (output k) (console k).
Definition set_randoms (k : Kernel) (n : nat) : Kernel :=
  mkKernel (interrupt k) (stats k) (threads k) (currentThread k) (threadToBeDestroyed k)
    (readyList k) (activeThreads k) (sems k) (timer k) (disk k) (machine k) (buffers k) n
    (output k) (console k).
Definition set_output (k : Kernel) (o : list (Z * Z)) : Kernel :=
  mkKernel (interrupt k) (stats k) (threads k) (currentThread k) (threadToBeDestroyed k)
    (readyList k) (activeThreads k) (sems k) (timer k) (disk k) (machine k) (buffers k)
    (randoms k) o (console k).
Definition set_console (k : Kernel) (c : option Console) : Kernel :=
  mkKernel (interrupt k) (stats k) (threads k) (currentThread k) (threadToBeDestroyed k)
    (readyList k) (activeThreads k) (sems k) (timer k) (disk k) (machine k) (buffers k)
    (randoms k) (output k) c.

(** ** Objects by address *)

Definition get_thread (k : Kernel) (t : tid) : result Thread :=
  match threads k !! t with Some th => Ok th | None => Undefined end.

Definition put_thread (k : Kernel) (t : tid) (th : Thread) : Kernel :=
  set_threads k (<[t := th]> (threads k)).

Definition upd_thread (k : Kernel) (t : tid) (f : Thread → Thread) : result Kernel :=
  th ← get_thread k t;
  Ok (put_thread k t (f th)).

Definition set_frames (fs : list Frame) (t : Thread) : Thread :=
  mkThread fs (stack t) (tstatus t) (space t) (userRegisters t) (parent t) (ID t)
    (killNewChild t) (isJoined t).
Definition set_tstatus (st : ThreadStatus) (t : Thread) : Thread :=
  mkThread (frames t) (stack t) st (space t) (userRegisters t) (parent t) (ID t)
    (killNewChild t) (isJoined t).
Definition set_userRegisters (r : list Z) (t : Thread) : Thread :=
  mkThread (frames t) (stack t) (tstatus t) (space t) r (parent t) (ID t)
    (killNewChild t) (isJoined t).
Definition set_isJoined (b : bool) (t : Thread) : Thread :=
  mkThread (frames t) (stack t) (tstatus t) (space t) (userRegisters t) (parent t) (ID t)
    (killNewChild t) b.
Definition set_ID (i : Z) (t : Thread) : Thread :=
  mkThread (frames t) (stack t) (tstatus t) (space t) (userRegisters t) (parent t) i
    (killNewChild t) (isJoined t).
Definition set_stack (w : Z) (fs : list Frame) (t : Thread) : Thread :=
  mkThread fs (Some w) (tstatus t) (space t) (userRegisters t) (parent t) (ID t)
    (killNewChild t) (isJoined t).

(** Call a routine: its frame goes on top of the running thread's stack. *)
Definition push (f : Frame) (k : Kernel) : result Kernel :=
  upd_thread k (currentThread k) (λ t, set_frames (f :: frames t) t).

Definition get_sem (k : Kernel) (s : sem) : result Semaphore := aget (sems k) (Z.of_nat s).
Definition put_sem (k : Kernel) (s : sem) (x : Semaphore) : result Kernel :=
  l ← aset (sems k) (Z.of_nat s) x; Ok (set_sems k l).

(** ** Fields of [interrupt] and [stats] *)

Definition set_level (k : Kernel) (l : IntStatus) : Kernel :=
  let i := interrupt k in
  set_interrupt k (mkInterrupt l (pending i) (inHandler i) (yieldOnReturn i) (istatus i)).
Definition set_pending (k : Kernel) (p : alist PendingInterrupt) : Kernel :=
  let i := interrupt k in
  set_interrupt k (mkInterrupt (level i) p (inHandler i) (yieldOnReturn i) (istatus i)).
Definition set_inHandler (k : Kernel) (b : bool) : Kernel :=
  let i := interrupt k in
  set_interrupt k (mkInterrupt (level i) (pending i) b (yieldOnReturn i) (istatus i)).
Definition set_yieldOnReturn (k : Kernel) (b : bool) : Kernel :=
  let i := interrupt k in
  set_interrupt k (mkInterrupt (level i) (pending i) (inHandler i) b (istatus i)).
Definition set_status (k : Kernel) (s : MachineStatus) : Kernel :=
  let i := interrupt k in
  set_interrupt k (mkInterrupt (level i) (pending i) (inHandler i) (yieldOnReturn i) s).

(** Add to the four clocks; an [int] wraps around. *)
Definition add_ticks (total idle system user : Z) (k : Kernel) : Kernel :=
  let s := stats k in
  set_stats k (mkStats (wrap32 (totalTicks s + total)) (wrap32 (idleTicks s + idle))
    (wrap32 (systemTicks s + system)) (wrap32 (userTicks s + user))
    (numDiskReads s) (numDiskWrites s) (numConsoleCharsRead s) (numConsoleCharsWritten s)
    (numPageFaults s) (numPacketsSent s) (numPacketsRecvd s)).
(** [stats->idleTicks += (when - stats->totalTicks); stats->totalTicks = when] *)
Definition advance_clock (t : Z) (k : Kernel) : Kernel :=
  let s := stats k in
  set_stats k (mkStats t (wrap32 (idleTicks s + wrap32 (t - totalTicks s)))
    (systemTicks s) (userTicks s)
    (numDiskReads s) (numDiskWrites s) (numConsoleCharsRead s) (numConsoleCharsWritten s)
    (numPageFaults s) (numPacketsSent s) (numPacketsRecvd s)).
Definition count_disk (reads writes : Z) (k : Kernel) : Kernel :=
  let s := stats k in
  set_stats k (mkStats (totalTicks s) (idleTicks s) (systemTicks s) (userTicks s)
    (wrap32 (numDiskReads s + reads)) (wrap32 (numDiskWrites s + writes))
    (numConsoleCharsRead s) (numConsoleCharsWritten s)
    (numPageFaults s) (numPacketsSent s) (numPacketsRecvd s)).
Definition count_console (charsRead charsWritten : Z) (k : Kernel) : Kernel :=
  let s := stats k in
  set_stats k (mkStats (totalTicks s) (idleTicks s) (systemTicks s) (userTicks s)
    (numDiskReads s) (numDiskWrites s)
    (wrap32 (numConsoleCharsRead s + charsRead)) (wrap32 (numConsoleCharsWritten s + charsWritten))
    (numPageFaults s) (numPacketsSent s) (numPacketsRecvd s)).
