(* ===== verification/Interrupt.v ===== *)
(** * machine/interrupt.cc: the interrupt hardware, and machine/timer.cc

    Interrupts that devices have scheduled wait in a list sorted by time.
    Simulated time advances when interrupts are re-enabled ([OneTick]), with
    every user instruction, and when no thread is ready ([Idle]).  The routine
    that fires one interrupt, [CheckIfDue], calls the handler the device passed
    to [Schedule]: a parameter here, supplied in Sched.v. *)

From S2P Require Import Prelude Params.
From S2P Require Import LList.
From S2P Require Import Kernel.
From S2P Require Machine.
Local Open Scope Z_scope.

Definition ChangeLevel (now : IntStatus) (k : Kernel) : Kernel := set_level k now.

(** Enabling interrupts ends with a call of [OneTick]. *)
Definition SetLevel (now : IntStatus) (k : Kernel) : result (IntStatus * Kernel) :=
  let old := level (interrupt k) in
  ASSERT (bool_decide (now = IntOff) || negb (inHandler (interrupt k)));;
  let k := ChangeLevel now k in
  if bool_decide (now = IntOn) && bool_decide (old = IntOff)
  then k ← push FOneTick k; Ok (old, k)
  else Ok (old, k).

Definition Enable (k : Kernel) : result Kernel := '(_, k) ← SetLevel IntOn k; Ok k.

Definition YieldOnReturn (k : Kernel) : result Kernel :=
  ASSERT (inHandler (interrupt k));;
  Ok (set_yieldOnReturn k true).

Definition Schedule (h : Handler) (fromNow : Z) (ty : IntType) (k : Kernel) : result Kernel :=
  let t := wrap32 (totalTicks (stats k) + fromNow) in
  let toOccur := mkPending h t ty in
  ASSERT (0 <? fromNow);;
  Ok (set_pending k (aSortedInsert (pending (interrupt k)) (Some toOccur) t)).

(** [stats->Print(); Cleanup()], which calls [Exit(0)] *)
Definition Halt {A} : result A := Exited 0.

Section CheckIfDue.
Variable call_handler : Handler → Kernel → result Kernel.

(** [machine->DelayedLoad(0, 0)], if there is a user-program machine *)
Definition delayed_load (k : Kernel) : result Kernel :=
  match machine k with
  | None => Ok k
  | Some m => m ← Machine.DelayedLoad m 0 0; Ok (set_machine k (Some m))
  end.

(** The second half of [CheckIfDue]: the interrupt fires. *)
Definition fire (toOccur : PendingInterrupt) (k : Kernel) : result Kernel :=
  let old := istatus (interrupt k) in
  k ← delayed_load k;
  let k := set_status (set_inHandler k true) SystemMode in
  k ← call_handler (handler toOccur) k;
  Ok (set_inHandler (set_status k old) false).

Definition CheckIfDue (advanceClock : bool) (k : Kernel) : result (bool * Kernel) :=
  ASSERT (bool_decide (level (interrupt k) = IntOff));;
  match aSortedRemove (pending (interrupt k)) with
  | (Some toOccur, Some t, rest) =>
      let now := totalTicks (stats k) in
      let put_back (k : Kernel) := set_pending k (aSortedInsert rest (Some toOccur) t) in
      let k := set_pending k rest in
      if negb advanceClock && (now <? t) then Ok (false, put_back k)
      else
        let k := if now <? t then advance_clock t k else k in
        if bool_decide (istatus (interrupt k) = IdleMode) &&
           bool_decide (type toOccur = TimerInt) && aIsEmpty rest
        then Ok (false, put_back k)
        else k ← fire toOccur k; Ok (true, k)
  | (_, _, rest) => Ok (false, set_pending k rest)
  end.

Definition OneTick (k : Kernel) : result Kernel :=
  let old := istatus (interrupt k) in
  let k := if bool_decide (old = SystemMode) then add_ticks SystemTick 0 SystemTick 0 k
           else add_ticks UserTick 0 0 UserTick k in
  push (FOneTickLoop old) (ChangeLevel IntOff k).

(** [while (CheckIfDue(FALSE)) ;] and the rest of [OneTick] *)
Definition OneTick_loop (old : MachineStatus) (k : Kernel) : result Kernel :=
  '(fired, k) ← CheckIfDue false k;
  if fired : bool then push (FOneTickLoop old) k
  else
    let k := ChangeLevel IntOn k in
    if yieldOnReturn (interrupt k) then
      let k := set_status (set_yieldOnReturn k false) SystemMode in
      k ← push (FOneTickEnd old) k;
      push (Do CYield) k
    else Ok k.

Definition Idle (k : Kernel) : result Kernel :=
  '(fired, k) ← CheckIfDue true (set_status k IdleMode);
  if fired : bool then push FIdleLoop k else Halt.

(** [while (CheckIfDue(FALSE)) ;] and the rest of [Idle] *)
Definition Idle_loop (k : Kernel) : result Kernel :=
  '(fired, k) ← CheckIfDue false k;
  if fired : bool then push FIdleLoop k
  else Ok (set_status (set_yieldOnReturn k false) SystemMode).

End CheckIfDue.

(** ** machine/timer.cc, and the handler of threads/system.cc *)

Section Timer.
(** [rand()] of the C library, by call. *)
Variable Random : nat → Z.

Definition TimeOfNextInterrupt (randomize : bool) (k : Kernel) : Z * Kernel :=
  if randomize then
    (1 + Z.rem (Random (randoms k)) (TimerTicks * 2), set_randoms k (S (randoms k)))
  else (TimerTicks, k).

Definition TimerInterruptHandler (k : Kernel) : result Kernel :=
  if negb (bool_decide (istatus (interrupt k) = IdleMode)) then YieldOnReturn k else Ok k.

Definition TimerExpired (k : Kernel) : result Kernel :=
  match timer k with
  | None => Undefined
  | Some randomize =>
      let '(t, k) := TimeOfNextInterrupt randomize k in
      k ← Schedule TimerHandler t TimerInt k;
      TimerInterruptHandler k
  end.

End Timer.
