(* ===== verification/Threads.v ===== *)
(** * threads/scheduler.cc and threads/thread.cc

    Thread control blocks, the FIFO ready list and the dispatcher.  A routine
    that can switch threads leaves what it still has to do as frames on its
    thread's stack before [Run] makes another thread the current one: this is
    what [SWITCH] of threads/switch.s does with the machine's stack pointer. *)

From S2P Require Import Prelude Params.
From S2P Require Import LList.
From S2P Require Import Kernel Interrupt.
From S2P Require Machine.
Local Open Scope Z_scope.

(** ** Scheduler *)

Definition setStatus (t : tid) (st : ThreadStatus) (k : Kernel) : result Kernel :=
  upd_thread k t (set_tstatus st).

Definition ReadyToRun (t : tid) (k : Kernel) : result Kernel :=
  k ← setStatus t READY k;
  Ok (set_readyList k (aAppend (readyList k) (Some t))).

Definition FindNextToRun (k : Kernel) : option tid * Kernel :=
  let '(t, l) := aRemove (readyList k) in (t, set_readyList k l).

Definition WakeUpFromJoin (t : tid) (k : Kernel) : result Kernel :=
  k ← upd_thread k t (set_isJoined false);
  k ← setStatus t READY k;
  Ok (set_readyList k (aPrepend (readyList k) (Some t))).

(** [Thread::CheckOverflow] *)
Definition CheckOverflow (t : tid) (k : Kernel) : result unit :=
  th ← get_thread k t;
  match stack th with None => Ok tt | Some w => ASSERT (w =? STACK_FENCEPOST) end.

(** The registers [i], [i + 1], ... of the machine. *)
Fixpoint read_registers (n : nat) (i : Z) (m : Machine.Machine) : result (list Z) :=
  match n with
  | O => Ok []
  | S n => r ← Machine.ReadRegister m i; rs ← read_registers n (i + 1) m; Ok (r :: rs)
  end.

Fixpoint write_registers (i : Z) (rs : list Z) (m : Machine.Machine) : result Machine.Machine :=
  match rs with
  | [] => Ok m
  | r :: rs => m ← Machine.WriteRegister m i r; write_registers (i + 1) rs m
  end.

Definition the_machine (k : Kernel) : result Machine.Machine :=
  match machine k with Some m => Ok m | None => Undefined end.

Definition SaveUserState (t : tid) (k : Kernel) : result Kernel :=
  m ← the_machine k;
  rs ← read_registers (Z.to_nat NumTotalRegs) 0 m;
  upd_thread k t (set_userRegisters rs).

Definition RestoreUserState (t : tid) (k : Kernel) : result Kernel :=
  th ← get_thread k t;
  m ← the_machine k;
  rs ← aslice (userRegisters th) 0 NumTotalRegs;
  m ← write_registers 0 rs m;
  Ok (set_machine k (Some m)).

(** userprog/addrspace.cc: [AddrSpace::RestoreState] ([SaveState] is empty) *)
Definition RestoreState (s : Space) (k : Kernel) : result Kernel :=
  m ← the_machine k;
  Ok (set_machine k (Some (Machine.set_pageTable m (Some (spaceTable s)) (numPages s)))).

(** [Scheduler::Run] up to and including [SWITCH] *)
Definition Run (nextThread : tid) (k : Kernel) : result Kernel :=
  let oldThread := currentThread k in
  th ← get_thread k oldThread;
  k ← match space th with None => Ok k | Some _ => SaveUserState oldThread k end;
  CheckOverflow oldThread k;;
  k ← push FRunTail k;
  let k := set_current k nextThread in
  setStatus nextThread RUNNING k.

(** [Thread::~Thread] *)
Definition delete_thread (t : tid) (k : Kernel) : result Kernel :=
  ASSERT (negb (bool_decide (t = currentThread k)));;
  Ok (set_threads k (delete t (threads k))).

(** [Scheduler::Run] after [SWITCH], in the thread switched to *)
Definition Run_tail (k : Kernel) : result Kernel :=
  k ← match threadToBeDestroyed k with
      | None => Ok k
      | Some t => k ← delete_thread t k; Ok (set_doomed k None)
      end;
  th ← get_thread k (currentThread k);
  match space th with
  | None => Ok k
  | Some s => k ← RestoreUserState (currentThread k) k; RestoreState s k
  end.

(** ** Thread *)

Definition newThread (junkRegs : list Z) (k : Kernel) : tid * Kernel :=
  let t := fresh (dom (threads k)) in
  (t, put_thread k t (newThread_obj junkRegs)).

(** The first frame on the new stack is [ThreadRoot]: enable interrupts, call
    the procedure, finish. *)
Definition StackAllocate (t : tid) (func : list Call) (k : Kernel) : result Kernel :=
  upd_thread k t
    (set_stack STACK_FENCEPOST ([FInterruptEnable] ++ (Do <$> func) ++ [FThreadFinish])).

Definition Fork (t : tid) (func : list Call) (k : Kernel) : result Kernel :=
  k ← StackAllocate t func k;
  '(oldLevel, k) ← SetLevel IntOff k;
  k ← ReadyToRun t k;
  '(_, k) ← SetLevel oldLevel k;
  Ok k.

Definition Yield (k : Kernel) : result Kernel :=
  '(oldLevel, k) ← SetLevel IntOff k;
  match FindNextToRun k with
  | (Some nextThread, k) =>
      k ← ReadyToRun (currentThread k) k;
      k ← push (FSetLevel oldLevel) k;
      Run nextThread k
  | (None, k) => '(_, k) ← SetLevel oldLevel k; Ok k
  end.

(** [Sleep] up to its loop *)
Definition Sleep (k : Kernel) : result Kernel :=
  ASSERT (bool_decide (level (interrupt k) = IntOff));;
  k ← setStatus (currentThread k) BLOCKED k;
  push FSleepLoop k.

(** the loop of [Sleep], and the dispatch of the next thread *)
Definition Sleep_loop (call_handler : Handler → Kernel → result Kernel) (k : Kernel)
  : result Kernel :=
  match FindNextToRun k with
  | (None, k) => k ← push FSleepLoop k; Idle call_handler k
  | (Some nextThread, k) => Run nextThread k
  end.

(** The loop of [Finish] that takes the thread off [activeThreads]:
    [for (i = 0; i < activeThreads->getSize(); i++)].  The size never grows, so
    [n] iterations are enough when it starts at most [i + n]. *)
Fixpoint forget_loop (n : nat) (i : Z) (me : tid) (l : alist tid) : result (alist tid) :=
  if i <? asize l then
    match n with
    | O => NoFuel
    | S n =>
        let '(tempThread, l) := aRemove l in
        let l := if bool_decide (tempThread = Some me) then l else aAppend l tempThread in
        forget_loop n (i + 1) me l
    end
  else Ok l.

Definition Finish (USER_PROGRAM : bool) (junkRegs : list Z) (k : Kernel) : result Kernel :=
  '(_, k) ← SetLevel IntOff k;
  let me := currentThread k in
  let k := set_doomed k (Some me) in
  k ← (if USER_PROGRAM then
         th ← get_thread k me;
         k ← match parent th with None => Ok k | Some p => WakeUpFromJoin p k end;
         let '(tempThread, k) := newThread junkRegs k in
         k ← upd_thread k tempThread (set_ID (-1));
         l ← forget_loop (Z.to_nat (asize (activeThreads k))) 0 me (activeThreads k);
         Ok (set_activeThreads k l)
       else Ok k);
  Sleep k.

(** ** Registers across a switch *)

Lemma read_registers_run n i m :
  Z.of_nat (length (Machine.registers m)) = NumTotalRegs → 0 <= i → i + Z.of_nat n <= NumTotalRegs →
  read_registers n i m = Ok (take n (drop (Z.to_nat i) (Machine.registers m))).
Proof.
  revert i. induction n as [|n IH]; intros i Hl Hi Hn; [done|]. cbn [read_registers].
  unfold Machine.ReadRegister. rewrite (proj2 (Z.leb_le _ _)), (proj2 (Z.ltb_lt _ _)) by lia.
  cbn [andb ASSERT mbind result_bind].
  destruct (aget_in (Machine.registers m) i) as [r Hr]; [lia|]. rewrite Hr. cbn [mbind result_bind].
  rewrite IH by lia. cbn [mbind result_bind]. apply aget_Ok in Hr as [_ Hr].
  rewrite (drop_S _ r _ Hr). cbn [take]. do 4 f_equal. lia.
Qed.

Lemma write_registers_run i rs m :
  Z.of_nat (length (Machine.registers m)) = NumTotalRegs → 0 <= i →
  i + Z.of_nat (length rs) <= NumTotalRegs →
  write_registers i rs m =
  Ok (Machine.set_registers m (take (Z.to_nat i) (Machine.registers m) ++ rs ++
        drop (Z.to_nat i + length rs) (Machine.registers m))).
Proof.
  revert i m. induction rs as [|r rs IH]; intros i m Hl Hi Hn; cbn [write_registers length] in *.
  - rewrite Nat.add_0_r. cbn [app]. rewrite take_drop. by destruct m.
  - unfold Machine.WriteRegister. rewrite (proj2 (Z.leb_le _ _)), (proj2 (Z.ltb_lt _ _)) by lia.
    cbn [andb ASSERT mbind result_bind]. rewrite aset_Ok by lia. cbn [mbind result_bind].
    rewrite IH by (cbn [Machine.registers Machine.set_registers]; rewrite ?length_insert; lia).
    unfold Machine.set_registers. cbn. do 2 f_equal.
    replace (Z.to_nat (i + 1)) with (S (Z.to_nat i)) by lia.
    rewrite (take_S_r _ _ r) by (apply list_lookup_insert_eq; lia).
    rewrite take_insert_ge, drop_insert_lt by lia. rewrite <- app_assoc. cbn. do 4 f_equal. lia.
Qed.

Lemma SaveUserState_run t th m k :
  threads k !! t = Some th → machine k = Some m →
  Z.of_nat (length (Machine.registers m)) = NumTotalRegs →
  SaveUserState t k = Ok (put_thread k t (set_userRegisters (Machine.registers m) th)).
Proof.
  intros Ht Hm Hl. unfold SaveUserState, the_machine. rewrite Hm. cbn [mbind result_bind].
  rewrite read_registers_run by (done || unfold NumTotalRegs; lia). cbn [mbind result_bind].
  unfold upd_thread, get_thread. rewrite Ht. cbn [mbind result_bind].
  rewrite drop_0, take_ge by (unfold NumTotalRegs in *; lia). done.
Qed.

Lemma RestoreUserState_run t th m k :
  threads k !! t = Some th → machine k = Some m →
  Z.of_nat (length (Machine.registers m)) = NumTotalRegs →
  Z.of_nat (length (userRegisters th)) = NumTotalRegs →
  RestoreUserState t k = Ok (set_machine k (Some (Machine.set_registers m (userRegisters th)))).
Proof.
  intros Ht Hm Hl Hu. unfold RestoreUserState, get_thread, the_machine. rewrite Ht, Hm.
  cbn [mbind result_bind]. rewrite aslice_Ok by (unfold NumTotalRegs in *; lia).
  cbn [mbind result_bind]. rewrite drop_0, take_ge by (unfold NumTotalRegs in *; lia).
  rewrite write_registers_run by (done || lia). cbn [mbind result_bind take Z.to_nat app].
  rewrite drop_ge by (unfold NumTotalRegs in *; lia). by rewrite app_nil_r.
Qed.
