(* ===== verification/Synch.v ===== *)
(** * threads/synch.cc: semaphores, and the dummy locks and conditions *)

From S2P Require Import Prelude Params.
From S2P Require Import LList.
From S2P Require Import Kernel Interrupt Threads.
Local Open Scope Z_scope.

Definition P (s : sem) (k : Kernel) : result Kernel :=
  '(oldLevel, k) ← SetLevel IntOff k;
  push (FPLoop s oldLevel) k.

(** [while (value == 0) ...], and what follows it *)
Definition P_loop (s : sem) (oldLevel : IntStatus) (k : Kernel) : result Kernel :=
  x ← get_sem k s;
  if value x =? 0 then
    k ← put_sem k s (mkSem (value x) (aAppend (queue x) (Some (currentThread k))));
    k ← push (FPLoop s oldLevel) k;
    Sleep k
  else
    k ← put_sem k s (mkSem (wrap32 (value x - 1)) (queue x));
    '(_, k) ← SetLevel oldLevel k;
    Ok k.

Definition V (s : sem) (k : Kernel) : result Kernel :=
  '(oldLevel, k) ← SetLevel IntOff k;
  x ← get_sem k s;
  let '(thread, q) := aRemove (queue x) in
  k ← match thread with Some t => ReadyToRun t k | None => Ok k end;
  k ← put_sem k s (mkSem (wrap32 (value x + 1)) q);
  '(_, k) ← SetLevel oldLevel k;
  Ok k.

(** [Lock] and [Condition] have no state, and do nothing. *)
Definition Lock_Acquire (k : Kernel) : result Kernel := Ok k.
Definition Lock_Release (k : Kernel) : result Kernel := Ok k.
Definition Condition_Wait (k : Kernel) : result Kernel := ASSERT false;; Ok k.
Definition Condition_Signal (k : Kernel) : result Kernel := Ok k.
Definition Condition_Broadcast (k : Kernel) : result Kernel := Ok k.
