(* ===== verification/Disk.v ===== *)
(** * machine/disk.cc: the simulated disk, and filesys/synchdisk.cc

    The disk does a request at once in the UNIX file that stands for it, and
    schedules an interrupt for the simulated time at which the request would
    complete: seek, rotation to the sector, transfer, less what the track
    buffer saves.  [SynchDisk] waits for that interrupt on a semaphore. *)

From S2P Require Import Prelude Params.
From S2P Require Import LList.
From S2P Require Import Kernel Interrupt Threads Synch.
Local Open Scope Z_scope.

(** ** The code *)

Definition MagicNumber : Z := 0x456789ab.

(** The constructor: [file] is the UNIX file, if it exists, as its first word
    and its sectors.  A new file reads as zeros. *)
Definition newDisk (file : option (Z * list (list Z))) : result Disk :=
  match file with
  | Some (magicNum, secs) =>
      ASSERT (magicNum =? MagicNumber);;
      Ok (mkDisk secs false 0 0)
  | None =>
      Ok (mkDisk (replicate (Z.to_nat NumSectors) (replicate (Z.to_nat SectorSize) 0)) false 0 0)
  end.

(** The second component is [*rotation]. *)
Definition TimeToSeek (d : Disk) (now newSector : Z) : Z * Z :=
  let newTrack := Z.quot newSector SectorsPerTrack in
  let oldTrack := Z.quot (lastSector d) SectorsPerTrack in
  let seek := wrap32 (Z.abs (newTrack - oldTrack) * SeekTime) in
  let over := Z.rem (wrap32 (now + seek)) RotationTime in
  (seek, if 0 <? over then RotationTime - over else 0).

Definition ModuloDiff (to from : Z) : Z :=
  let toOffset := Z.rem to SectorsPerTrack in
  let fromOffset := Z.rem from SectorsPerTrack in
  Z.rem ((toOffset - fromOffset) + SectorsPerTrack) SectorsPerTrack.

Definition ComputeLatency (d : Disk) (now newSector : Z) (writing : bool) : Z :=
  let '(seek, rotation) := TimeToSeek d now newSector in
  let timeAfter := wrap32 (now + seek + rotation) in
  if negb writing && (seek =? 0) &&
     (ModuloDiff newSector (Z.quot (bufferInit d) RotationTime)
        <? Z.quot (wrap32 (timeAfter - bufferInit d)) RotationTime)
  then RotationTime
  else
    let rotation := rotation + ModuloDiff newSector (Z.quot timeAfter RotationTime) * RotationTime in
    wrap32 (seek + rotation + RotationTime).

Definition UpdateLast (d : Disk) (now newSector : Z) : Disk :=
  let '(seek, rotate) := TimeToSeek d now newSector in
  mkDisk (sectors d) (active d) newSector
    (if negb (seek =? 0) then wrap32 (now + seek + rotate) else bufferInit d).

Definition set_active (d : Disk) (b : bool) : Disk :=
  mkDisk (sectors d) b (lastSector d) (bufferInit d).
Definition set_sectors (d : Disk) (s : list (list Z)) : Disk :=
  mkDisk s (active d) (lastSector d) (bufferInit d).

Definition the_disk (k : Kernel) : result (Disk * sem) :=
  match disk k with Some d => Ok d | None => Undefined end.

Definition ReadRequest (sectorNumber : Z) (buffer : nat) (k : Kernel) : result Kernel :=
  '(d, s) ← the_disk k;
  let now := totalTicks (stats k) in
  let ticks := ComputeLatency d now sectorNumber false in
  ASSERT (negb (active d));;
  ASSERT ((0 <=? sectorNumber) && (sectorNumber <? NumSectors));;
  data ← aget (sectors d) sectorNumber;
  let k := set_buffers k (<[buffer := data]> (buffers k)) in
  let d := UpdateLast (set_active d true) now sectorNumber in
  let k := count_disk 1 0 (set_disk k (Some (d, s))) in
  Schedule DiskDone ticks DiskInt k.

Definition WriteRequest (sectorNumber : Z) (buffer : nat) (k : Kernel) : result Kernel :=
  '(d, s) ← the_disk k;
  let now := totalTicks (stats k) in
  let ticks := ComputeLatency d now sectorNumber true in
  ASSERT (negb (active d));;
  ASSERT ((0 <=? sectorNumber) && (sectorNumber <? NumSectors));;
  data ← aslice (default [] (buffers k !! buffer)) 0 SectorSize;
  secs ← aset (sectors d) sectorNumber data;
  let d := UpdateLast (set_active (set_sectors d secs) true) now sectorNumber in
  let k := count_disk 0 1 (set_disk k (Some (d, s))) in
  Schedule DiskDone ticks DiskInt k.

(** [SynchDisk::RequestDone], through [DiskRequestDone] *)
Definition RequestDone (s : sem) (k : Kernel) : result Kernel := V s k.

Definition HandleInterrupt (k : Kernel) : result Kernel :=
  '(d, s) ← the_disk k;
  RequestDone s (set_disk k (Some (set_active d false, s))).

(** [SynchDisk::ReadSector]: [P] is its last call that does anything. *)
Definition ReadSector (sectorNumber : Z) (buffer : nat) (k : Kernel) : result Kernel :=
  k ← Lock_Acquire k;
  k ← ReadRequest sectorNumber buffer k;
  '(_, s) ← the_disk k;
  k ← P s k;
  Lock_Release k.

Definition WriteSector (sectorNumber : Z) (buffer : nat) (k : Kernel) : result Kernel :=
  k ← Lock_Acquire k;
  k ← WriteRequest sectorNumber buffer k;
  '(_, s) ← the_disk k;
  k ← P s k;
  Lock_Release k.

(** ** How long a request takes *)

Lemma rem_bounds a b : 0 < b → - b < Z.rem a b < b.
Proof. intros Hb. pose proof (Z.rem_bound_abs a b). lia. Qed.

Lemma ModuloDiff_bounds to from : 0 <= to → 0 <= ModuloDiff to from < SectorsPerTrack.
Proof.
  intros Ht. unfold ModuloDiff, SectorsPerTrack.
  pose proof (Z.rem_bound_pos to 32 Ht ltac:(lia)). pose proof (rem_bounds from 32 ltac:(lia)).
  apply Z.rem_bound_pos; lia.
Qed.

(** A disk whose head is over one of its sectors. *)
Definition head_ok (d : Disk) : Prop := 0 <= lastSector d < NumSectors.

Lemma TimeToSeek_spec d now s :
  head_ok d → 0 <= s < NumSectors →
  let track := s / SectorsPerTrack in let old := lastSector d / SectorsPerTrack in
  (TimeToSeek d now s).1 = Z.abs (track - old) * SeekTime ∧
  0 <= (TimeToSeek d now s).1 <= 31 * SeekTime ∧
  0 <= (TimeToSeek d now s).2 < RotationTime.
Proof.
  unfold head_ok, TimeToSeek. change NumSectors with 1024.
  unfold SectorsPerTrack, SeekTime, RotationTime. intros Hd Hs. cbn [fst snd].
  rewrite !Z.quot_div_nonneg by lia.
  assert (0 <= s / 32 < 32) by (split; [apply Z.div_pos|apply Z.div_lt_upper_bound]; lia).
  assert (0 <= lastSector d / 32 < 32) by (split; [apply Z.div_pos|apply Z.div_lt_upper_bound]; lia).
  rewrite wrap32_id by (unfold int32; lia).
  pose proof (rem_bounds (wrap32 (now + Z.abs (s / 32 - lastSector d / 32) * 500)) 500 ltac:(lia)).
  split; [done|]. split; [lia|]. btest; lia.
Qed.

Lemma ComputeLatency_bounds d now s writing :
  head_ok d → 0 <= s < NumSectors →
  RotationTime <= ComputeLatency d now s writing <= 64 * RotationTime + 31 * SeekTime.
Proof.
  intros Hd Hs. pose proof (TimeToSeek_spec d now s Hd Hs) as (_ & Hseek & Hrot).
  unfold ComputeLatency. destruct (TimeToSeek d now s) as [seek rotation]. cbn [fst snd] in *.
  unfold RotationTime, SeekTime in *. destruct (_ && _); [lia|].
  pose proof (ModuloDiff_bounds s (Z.quot (wrap32 (now + seek + rotation)) 500) (proj1 Hs)) as Hm.
  unfold SectorsPerTrack in Hm. rewrite wrap32_id by (unfold int32; lia). lia.
Qed.

(** The head starts reading sector [s] at time [j * RotationTime] when
    [j mod SectorsPerTrack = s mod SectorsPerTrack]. *)
Definition passes (s j : Z) : Prop := j mod SectorsPerTrack = s mod SectorsPerTrack.

Lemma ModuloDiff_mod to from : 0 <= to → 0 <= from → ModuloDiff to from = (to - from) mod 32.
Proof.
  intros. unfold ModuloDiff, SectorsPerTrack. rewrite (Z.rem_mod_nonneg to), (Z.rem_mod_nonneg from) by lia.
  pose proof (Z.mod_pos_bound to 32). pose proof (Z.mod_pos_bound from 32).
  rewrite Z.rem_mod_nonneg by lia. Z.div_mod_to_equations. lia.
Qed.

Lemma rotation_spec d now s :
  head_ok d → 0 <= s < NumSectors → 0 <= now → now + 31 * SeekTime < 2 ^ 31 →
  let '(seek, rotation) := TimeToSeek d now s in
  ∃ q, now + seek + rotation = q * RotationTime ∧ ∀ j, now + seek <= j * RotationTime → q <= j.
Proof.
  intros Hd Hs Hn Ho. pose proof (TimeToSeek_spec d now s Hd Hs) as (Heq & Hseek & Hrot).
  revert Heq Hseek Hrot. unfold TimeToSeek. cbn [fst snd].
  set (seek := wrap32 _). intros _ Hseek Hrot. unfold SeekTime, RotationTime in *.
  rewrite (wrap32_id (now + seek)) in * by (unfold int32; lia).
  rewrite Z.rem_mod_nonneg in * by lia. revert Hrot. btest; intros Hrot.
  - exists ((now + seek) / 500 + 1). split; [|intros j]; Z.div_mod_to_equations; lia.
  - exists ((now + seek) / 500). pose proof (Z.mod_pos_bound (now + seek) 500 ltac:(lia)).
    split; [|intros j]; Z.div_mod_to_equations; lia.
Qed.

Lemma write_latency d now s :
  head_ok d → 0 <= s < NumSectors → 0 <= now → now + 32 * SeekTime + RotationTime < 2 ^ 31 →
  let seek := Z.abs (s / SectorsPerTrack - lastSector d / SectorsPerTrack) * SeekTime in
  ∃ j, now + ComputeLatency d now s true = (j + 1) * RotationTime ∧ passes s j ∧
    now + seek <= j * RotationTime ∧
    ∀ j', passes s j' → now + seek <= j' * RotationTime → j <= j'.
Proof.
  intros Hd Hs Hn Ho. cbv zeta. pose proof (TimeToSeek_spec d now s Hd Hs) as (<- & Hseek & Hrot).
  pose proof (rotation_spec d now s Hd Hs Hn) as Hq. unfold ComputeLatency, passes.
  destruct (TimeToSeek d now s) as [seek rotation]. cbn [fst snd negb andb] in *.
  unfold SeekTime, RotationTime, SectorsPerTrack in *. destruct Hq as (q & Hq & Hmin); [lia|].
  assert (0 <= q) as Hq0 by lia.
  rewrite (wrap32_id (now + seek + rotation)) by (unfold int32; lia).
  assert (Z.quot (now + seek + rotation) 500 = q) as ->.
  { rewrite Hq, Z.quot_div_nonneg by lia. apply Z.div_mul. lia. }
  rewrite ModuloDiff_mod by lia. pose proof (Z.mod_pos_bound (s - q) 32).
  rewrite wrap32_id by (unfold int32; lia).
  exists (q + (s - q) mod 32). split; [lia|]. split; [|split; [lia|]].
  - rewrite Z.add_mod_idemp_r by lia. f_equal. lia.
  - intros j' Hj' Hle. specialize (Hmin j' Hle).
    assert ((j' - q) mod 32 = (s - q) mod 32) by (rewrite (Zminus_mod j'), Hj', <- Zminus_mod; done).
    Z.div_mod_to_equations. lia.
Qed.

Lemma read_latency d now s :
  head_ok d → 0 <= s < NumSectors →
  ComputeLatency d now s false = ComputeLatency d now s true ∨
  ComputeLatency d now s false = RotationTime ∧
    s / SectorsPerTrack = lastSector d / SectorsPerTrack.
Proof.
  intros Hd Hs. pose proof (TimeToSeek_spec d now s Hd Hs) as (Heq & _).
  unfold ComputeLatency. destruct (TimeToSeek d now s) as [seek rotation]. cbn [fst snd negb andb] in *.
  destruct (Z.eqb_spec seek 0) as [E|]; [|by left]. cbn [andb]. destruct (_ <? _); [|by left].
  right. split; [done|]. unfold SeekTime in Heq. lia.
Qed.

(** The simulated time of a disk request.  A write completes when the head,
    after seeking to the track of the sector, has passed the sector for the
    first time: one sector time after it starts to pass it, which no earlier
    passage does.  A read takes as long, or a single sector time when the
    sector is in the track buffer, which needs no seek; it is never slower. *)
Theorem ComputeLatency_correct d now s :
  head_ok d → 0 <= s < NumSectors → 0 <= now → now + 32 * SeekTime + RotationTime < 2 ^ 31 →
  let seek := Z.abs (s / SectorsPerTrack - lastSector d / SectorsPerTrack) * SeekTime in
  let w := ComputeLatency d now s true in
  let r := ComputeLatency d now s false in
  (∃ j, now + w = (j + 1) * RotationTime ∧ passes s j ∧ now + seek <= j * RotationTime ∧
     ∀ j', passes s j' → now + seek <= j' * RotationTime → j <= j') ∧
  (r = w ∨ r = RotationTime ∧ seek = 0) ∧
  RotationTime <= r <= w ∧ w <= 64 * RotationTime + 31 * SeekTime.
Proof.
  intros Hd Hs Hn Ho seek w r. split; [by apply write_latency|].
  pose proof (ComputeLatency_bounds d now s true Hd Hs).
  pose proof (ComputeLatency_bounds d now s false Hd Hs).
  destruct (read_latency d now s Hd Hs) as [E|[E Et]].
  - split; [by left|]. unfold r, w. lia.
  - split; [right; split; [done|]; unfold seek; rewrite Et; lia|]. unfold r, w. lia.
Qed.

Lemma ComputeLatency_correct_witness :
  ComputeLatency (mkDisk [] false 70 0) 1230 100 true = 1270 ∧ RotationTime <= 1270.
Proof.
  split; [vm_compute; done|].
  destruct (ComputeLatency_correct (mkDisk [] false 70 0) 1230 100) as (_ & _ & H & _);
    [done|done|done|done|]. exact (Z.le_trans _ _ _ (proj1 H) (proj2 H)).
Defined.
