(* ===== verification/Console.v ===== *)
(** * machine/console.cc, and [ConsoleTest] of userprog/progtest.cc

    The terminal: an interrupt every [ConsoleTime] ticks polls the keyboard and
    buffers one character, and a character written to the display is done after
    as many ticks, with an interrupt.  [ConsoleTest] echoes what is typed. *)

From S2P Require Import Prelude Params.
From S2P Require Import LList.
From S2P Require Import Kernel Interrupt Threads Synch.
Local Open Scope Z_scope.

(** [char] is signed: [EOF] is also the character 255. *)
Definition EOF : Z := -1.

Definition set_incoming (c : Console) (ch : Z) : Console :=
  mkConsole (keyboard c) (polls c) (display c) (readAvail c) (writeDone c) (putBusy c) ch.
Definition set_putBusy (c : Console) (b : bool) : Console :=
  mkConsole (keyboard c) (polls c) (display c) (readAvail c) (writeDone c) b (incoming c).
Definition set_polls (c : Console) (n : nat) : Console :=
  mkConsole (keyboard c) n (display c) (readAvail c) (writeDone c) (putBusy c) (incoming c).
Definition set_display (c : Console) (bs : list Z) : Console :=
  mkConsole (keyboard c) (polls c) bs (readAvail c) (writeDone c) (putBusy c) (incoming c).

Definition the_console (k : Kernel) : result Console :=
  match console k with Some c => Ok c | None => Undefined end.

(** [Console::Console]; the files are open. *)
Definition newConsole (keys : nat → poll) (readAvail writeDone : sem) (k : Kernel) : result Kernel :=
  Schedule ConsoleReadPoll ConsoleTime ConsoleReadInt
    (set_console k (Some (mkConsole keys 0 [] readAvail writeDone false EOF))).

(** The handlers of progtest.cc *)
Definition ReadAvail (k : Kernel) : result Kernel := c ← the_console k; V (readAvail c) k.
Definition WriteDone (k : Kernel) : result Kernel := c ← the_console k; V (writeDone c) k.

(** [Read] of sysdep.cc has [ASSERT(retVal == nBytes)], which the end of the file
    fails. *)
Definition CheckCharAvail (k : Kernel) : result Kernel :=
  k ← Schedule ConsoleReadPoll ConsoleTime ConsoleReadInt k;
  c ← the_console k;
  if negb (incoming c =? EOF) then Ok k
  else
    let k := set_console k (Some (set_polls c (S (polls c)))) in
    match keyboard c (polls c) with
    | NoKey => Ok k
    | AtEof => AssertFail
    | Key ch =>
        c ← the_console k;
        ReadAvail (count_console 1 0 (set_console k (Some (set_incoming c ch))))
    end.

(** [Console::WriteDone] *)
Definition Console_WriteDone (k : Kernel) : result Kernel :=
  c ← the_console k;
  WriteDone (count_console 0 1 (set_console k (Some (set_putBusy c false)))).

Definition GetChar (k : Kernel) : result (Z * Kernel) :=
  c ← the_console k;
  Ok (incoming c, set_console k (Some (set_incoming c EOF))).

(** The display gets the character as a byte. *)
Definition PutChar (ch : Z) (k : Kernel) : result Kernel :=
  c ← the_console k;
  ASSERT (negb (putBusy c));;
  let c := set_display c (display c ++ [u8 ch]) in
  Schedule ConsoleWriteDone ConsoleTime ConsoleWriteInt (set_console k (Some (set_putBusy c true))).

(** ** [ConsoleTest] *)

Definition char_q : Z := 113.

(** [new Semaphore(name, 0)] *)
Definition add_sem (k : Kernel) : sem * Kernel :=
  (length (sems k), set_sems k (sems k ++ [newSemaphore 0])).

(** The console is created before the semaphores its handlers use; no interrupt
    comes in between, since time does not advance. *)
Definition ConsoleTest (keys : nat → poll) (k : Kernel) : result Kernel :=
  let r := length (sems k) in
  k ← newConsole keys r (S r) k;
  let '(_, k) := add_sem k in
  let '(_, k) := add_sem k in
  push (Do (CConsole CConsoleLoop)) k.

(** [for (;;) { readAvail->P(); ...] *)
Definition ConsoleTest_loop (k : Kernel) : result Kernel :=
  c ← the_console k;
  k ← push (Do (CConsole CConsoleEcho)) k;
  push (Do (CP (readAvail c))) k.

(** [ch = console->GetChar(); console->PutChar(ch); writeDone->P(); ...] *)
Definition ConsoleTest_echo (k : Kernel) : result Kernel :=
  '(ch, k) ← GetChar k;
  k ← PutChar ch k;
  c ← the_console k;
  k ← push (Do (CConsole (CConsoleCheck ch))) k;
  push (Do (CP (writeDone c))) k.

(** [if (ch == 'q') return; }] *)
Definition ConsoleTest_check (ch : Z) (k : Kernel) : result Kernel :=
  if ch =? char_q then Ok k else push (Do (CConsole CConsoleLoop)) k.

Definition console_call (c : ConsoleCall) (k : Kernel) : result Kernel :=
  match c with
  | CConsoleTest keys => ConsoleTest keys k
  | CConsoleLoop => ConsoleTest_loop k
  | CConsoleEcho => ConsoleTest_echo k
  | CConsoleCheck ch => ConsoleTest_check ch k
  end.
