(* ===== verification/Sched.v ===== *)
(** * The kernel as a state machine

    One step of the kernel executes the topmost frame of the running thread.
    Between two steps the processor may have been given to another thread. *)

From S2P Require Import Prelude Params.
From S2P Require Import LList.
From S2P Require Import Kernel Interrupt Threads Synch Disk Console.
From S2P Require Machine.
Local Open Scope Z_scope.

Section Step.
Variables (Random : nat → Z) (USER_PROGRAM : bool) (junkRegs : list Z).

(** The function pointers passed to [Interrupt::Schedule] *)
Definition call_handler (h : Handler) (k : Kernel) : result Kernel :=
  match h with
  | TimerHandler => TimerExpired Random k
  | DiskDone => HandleInterrupt k
  | ConsoleReadPoll => CheckCharAvail k
  | ConsoleWriteDone => Console_WriteDone k
  end.

Definition do_call (c : Call) (k : Kernel) : result Kernel :=
  match c with
  | CPrint which num => Ok (set_output k (output k ++ [(which, num)]))
  | CYield => Yield k
  | CFork body => let '(t, k) := newThread junkRegs k in Fork t body k
  | CP s => P s k
  | CV s => V s k
  | CReadSector n b => ReadSector n b k
  | CWriteSector n b => WriteSector n b k
  | CConsole c => console_call c k
  | CUser _ => Undefined  (* not in this build: user programs are in Exception.v *)
  end.

Definition exec (f : Frame) (k : Kernel) : result Kernel :=
  match f with
  | Do c => do_call c k
  | FOneTick => OneTick k
  | FOneTickLoop old => OneTick_loop call_handler old k
  | FOneTickEnd old => Ok (set_status k old)
  | FSetLevel l => '(_, k) ← SetLevel l k; Ok k
  | FSleepLoop => Sleep_loop call_handler k
  | FIdleLoop => Idle_loop call_handler k
  | FRunTail => Run_tail k
  | FPLoop s l => P_loop s l k
  | FInterruptEnable => Enable k
  | FThreadFinish => Finish USER_PROGRAM junkRegs k
  end.

Definition step (k : Kernel) : result Kernel :=
  th ← get_thread k (currentThread k);
  match frames th with
  | [] => Undefined
  | f :: fs => exec f (put_thread k (currentThread k) (set_frames fs th))
  end.

(** Run until the thread [t] is running with the stack [base]: the call it made
    from there has returned. *)
Definition returned (t : tid) (base : nat) (k : Kernel) : bool :=
  bool_decide (currentThread k = t) &&
  match threads k !! t with Some th => bool_decide (length (frames th) = base) | None => false end.

Fixpoint run_until (fuel : nat) (stop : Kernel → bool) (k : Kernel) : result Kernel :=
  if stop k then Ok k
  else match fuel with O => NoFuel | S n => k ← step k; run_until n stop k end.

(** More fuel gives the same result. *)
Lemma run_until_mono n n' stop k k' :
  run_until n stop k = Ok k' → (n <= n')%nat → run_until n' stop k = Ok k'.
Proof.
  revert n' k. induction n as [|n IH]; intros [|n'] k Hr Hn; cbn [run_until] in *;
    destruct (stop k); try done; try lia.
  destruct (step k) as [k1| | | |]; cbn [mbind result_bind] in *; try done.
  apply IH; [done|lia].
Qed.

Fixpoint steps (n : nat) (k : Kernel) : result Kernel :=
  match n with O => Ok k | S n => k ← step k; steps n k end.

End Step.

(** ** threads/system.cc: [Initialize]

    [main] is what main.cc goes on to do, [file] the UNIX file of the disk; the
    machine is the one userprog builds create.  [Enable] ends with a tick, which
    runs before the rest of [Initialize]. *)

Section Initialize.
Variables (Random : nat → Z) (USER_PROGRAM FILESYS : bool) (junkRegs : list Z).

Definition main_thread (main : list Call) : Thread :=
  mkThread ((Do <$> main) ++ [FThreadFinish]) None RUNNING None junkRegs None 0 false false.

Definition boot (randomYield : bool) (main : list Call) : result Kernel :=
  let k := mkKernel newInterrupt newStatistics ∅ 0%nat None aempty aempty []
    (if randomYield then Some true else None) None None ∅ 0 [] None in
  k ← (if randomYield then
         let '(t, k) := TimeOfNextInterrupt Random true k in
         Schedule TimerHandler t TimerInt k
       else Ok k);
  Enable (put_thread k 0%nat (main_thread main)).

Definition Initialize (randomYield : bool) (mach : Machine.Machine)
    (file : option (Z * list (list Z))) (main : list Call) : result Kernel :=
  k ← boot randomYield main;
  k ← run_until Random USER_PROGRAM junkRegs 20 (returned 0%nat (S (length main))) k;
  let k := if USER_PROGRAM then set_machine k (Some mach) else k in
  if FILESYS then
    d ← newDisk file;
    Ok (set_disk (set_sems k [newSemaphore 0]) (Some (d, 0%nat)))
  else Ok k.

End Initialize.

(** ** threads/threadtest.cc *)

Definition SimpleThread (which : Z) : list Call :=
  mjoin ((λ num, [CPrint which (Z.of_nat num); CYield]) <$> seq 0 5).

Definition ThreadTest : list Call := CFork (SimpleThread 1) :: SimpleThread 0.
