(* ===== verification/SynchDisk.v ===== *)
(** * The synchronous disk is a sector store

    A thread calls [SynchDisk::ReadSector] or [WriteSector] and the kernel runs
    until that call returns: the request goes to the disk, the thread sleeps on
    the semaphore, the machine idles until the disk interrupt, whose handler
    wakes the thread up.  With one thread and no other device this implements
    the interface [SectorStore] of the file system. *)

From S2P Require Import Prelude Params SectorStore.
From S2P Require Import LList.
From S2P Require Import Kernel Interrupt Threads Synch Disk Sched.
From S2P Require Machine.
Local Open Scope Z_scope.

(** The machine of userprog builds, if there is one. *)
Definition wf_machine_opt (m : option Machine.Machine) : Prop :=
  match m with None => True | Some m => Machine.wf_machine m end.

Lemma delayed_load_Ok k :
  wf_machine_opt (machine k) →
  ∃ m', delayed_load k = Ok (set_machine k m') ∧ wf_machine_opt m'.
Proof.
  intros Hm. unfold delayed_load. destruct (machine k) as [m|] eqn:E.
  - destruct (Machine.DelayedLoad_Ok m 0 0 Hm) as (m' & -> & Hw & _); [done|done|].
    by exists (Some m').
  - exists None. split; [|done]. destruct k. cbn in E. by subst.
Qed.

Section Instance.
Variables (Random : nat → Z) (USER_PROGRAM : bool) (junkRegs : list Z).

(** A call made by the running thread, until it returns. *)
Definition call_sync (fuel : nat) (c : Call) (k : Kernel) : result Kernel :=
  th ← get_thread k (currentThread k);
  k' ← push (Do c) k;
  run_until Random USER_PROGRAM junkRegs fuel
    (returned (currentThread k) (length (frames th))) k'.

(** The data goes through a buffer of the caller's, number 0. *)
Definition read_sync (s : Z) (k : Kernel) : result (list Z * Kernel) :=
  k ← call_sync 20 (CReadSector s 0) k;
  match buffers k !! 0%nat with Some b => Ok (b, k) | None => Undefined end.

Definition write_sync (s : Z) (data : list Z) (k : Kernel) : result Kernel :=
  call_sync 20 (CWriteSector s 0) (set_buffers k (<[0%nat := data]> (buffers k))).

(** ** One request, step by step *)

Section Request.
Variables (t : tid) (th : Thread) (T : gmap tid Thread) (s : sem) (S : list Semaphore)
  (act : alist tid) (tm : option bool) (rnd : nat) (out : list (Z * Z)) (con : option Console).
Hypothesis Hspace : space th = None.
Hypothesis Hstack : default STACK_FENCEPOST (stack th) = STACK_FENCEPOST.
Hypothesis Hs : (s < length S)%nat.

(** The kernel while the thread [t] makes its call: its frames [fs] and status,
    the interrupt level and status, the pending interrupts, the ready list, the
    semaphore, and the disk. *)
Definition K (fs : list Frame) (st : ThreadStatus) (lv : IntStatus) (ih : bool) (im : MachineStatus)
    (pe : alist PendingInterrupt) (rl : alist tid) (v : Z) (q : alist tid) (d : Disk)
    (sts : Statistics) (m : option Machine.Machine) (b : gmap nat (list Z)) : Kernel :=
  mkKernel (mkInterrupt lv pe ih false im) sts
    (<[t := set_tstatus st (set_frames fs th)]> T) t None rl act (<[s := mkSem v q]> S) tm
    (Some (d, s)) m b rnd out con.

Implicit Types (fs : list Frame) (rl q : alist tid) (d : Disk) (pe : alist PendingInterrupt).

Lemma K_thread fs st lv ih im pe rl v q d sts m b :
  get_thread (K fs st lv ih im pe rl v q d sts m b) t = Ok (set_tstatus st (set_frames fs th)).
Proof. unfold get_thread, K. cbn [threads]. by rewrite lookup_insert_eq. Qed.

Lemma K_upd f fs st lv ih im pe rl v q d sts m b fs' st' :
  f (set_tstatus st (set_frames fs th)) = set_tstatus st' (set_frames fs' th) →
  upd_thread (K fs st lv ih im pe rl v q d sts m b) t f =
  Ok (K fs' st' lv ih im pe rl v q d sts m b).
Proof.
  intros Hf. unfold upd_thread. rewrite K_thread. cbn [mbind result_bind]. rewrite Hf.
  unfold put_thread, set_threads, K. cbn. by rewrite insert_insert_eq.
Qed.

Lemma K_push f fs st lv ih im pe rl v q d sts m b :
  push f (K fs st lv ih im pe rl v q d sts m b) = Ok (K (f :: fs) st lv ih im pe rl v q d sts m b).
Proof. unfold push. by apply K_upd. Qed.

Lemma K_setStatus st' fs st lv ih im pe rl v q d sts m b :
  setStatus t st' (K fs st lv ih im pe rl v q d sts m b) = Ok (K fs st' lv ih im pe rl v q d sts m b).
Proof. unfold setStatus. by apply K_upd. Qed.

Lemma K_step f fs st lv ih im pe rl v q d sts m b :
  step Random USER_PROGRAM junkRegs (K (f :: fs) st lv ih im pe rl v q d sts m b) =
  exec Random USER_PROGRAM junkRegs f (K fs st lv ih im pe rl v q d sts m b).
Proof.
  unfold step. change (currentThread (K _ _ _ _ _ _ _ _ _ _ _ _ _)) with t. rewrite K_thread.
  cbn [mbind result_bind frames set_tstatus set_frames]. f_equal.
  unfold put_thread, set_threads, K. cbn. by rewrite insert_insert_eq.
Qed.

Lemma K_get_sem fs st lv ih im pe rl v q d sts m b :
  get_sem (K fs st lv ih im pe rl v q d sts m b) s = Ok (mkSem v q).
Proof.
  unfold get_sem, K. cbn [sems]. apply aget_Ok. split; [lia|]. rewrite Nat2Z.id.
  by apply list_lookup_insert_eq.
Qed.

Lemma K_put_sem v' q' fs st lv ih im pe rl v q d sts m b :
  put_sem (K fs st lv ih im pe rl v q d sts m b) s (mkSem v' q') =
  Ok (K fs st lv ih im pe rl v' q' d sts m b).
Proof.
  unfold put_sem, K. cbn [sems]. rewrite aset_Ok by (rewrite length_insert; lia).
  cbn [mbind result_bind]. rewrite Nat2Z.id, list_insert_insert_eq. done.
Qed.

Lemma K_off fs st lv ih im pe rl v q d sts m b :
  SetLevel IntOff (K fs st lv ih im pe rl v q d sts m b) =
  Ok (lv, K fs st IntOff ih im pe rl v q d sts m b).
Proof. done. Qed.

Lemma K_ready fs st lv ih im pe rl v q d sts m b :
  ReadyToRun t (K fs st lv ih im pe rl v q d sts m b) =
  Ok (K fs READY lv ih im pe (aAppend rl (Some t)) v q d sts m b).
Proof. unfold ReadyToRun. by rewrite K_setStatus. Qed.

(** Nothing pending. *)
Lemma K_nothing adv n fs st ih im rl v q d sts m b :
  CheckIfDue (call_handler Random) adv (K fs st IntOff ih im (mkAList [] n) rl v q d sts m b) =
  Ok (false, K fs st IntOff ih im (mkAList [] n) rl v q d sts m b).
Proof. done. Qed.

Lemma K_run fs st lv ih im pe rl v q d sts m b :
  Run t (K fs st lv ih im pe rl v q d sts m b) = Ok (K (FRunTail :: fs) RUNNING lv ih im pe rl v q d sts m b).
Proof.
  unfold Run, CheckOverflow. change (currentThread (K _ _ _ _ _ _ _ _ _ _ _ _ _)) with t.
  rewrite K_thread. cbn [mbind result_bind space set_tstatus set_frames]. rewrite Hspace.
  cbn [mbind result_bind]. rewrite K_thread. cbn [mbind result_bind stack set_tstatus set_frames].
  assert (match stack th with None => Ok tt | Some w => ASSERT (w =? STACK_FENCEPOST) end = Ok tt) as ->.
  { revert Hstack. destruct (stack th) as [w|]; simpl; [intros ->|done]. done. }
  cbn [mbind result_bind]. rewrite K_push. cbn [mbind result_bind]. apply K_setStatus.
Qed.

(** [V] in the handler of the disk interrupt *)
Lemma K_V z qn fs im pe r v d sts m b :
  V s (K fs BLOCKED IntOff true im pe r v (mkAList [(z, Some t)] qn) d sts m b) =
  Ok (K fs READY IntOff true im pe (aAppend r (Some t)) (wrap32 (v + 1)) (mkAList [] (wrap32 (qn - 1)))
        d sts m b).
Proof.
  unfold V. rewrite K_off. cbn [mbind result_bind]. rewrite K_get_sem.
  cbn [mbind result_bind queue value aRemove elems asize snd]. rewrite K_ready.
  cbn [mbind result_bind]. rewrite K_put_sem. cbn [mbind result_bind]. by rewrite K_off.
Qed.

(** The interrupt of the request fires: its handler wakes the thread up. *)
Lemma K_fire w n r z qn fs d sts m b :
  wf_machine_opt m →
  ∃ m' sts', CheckIfDue (call_handler Random) true
      (K fs BLOCKED IntOff false IdleMode (mkAList [(w, Some (mkPending DiskDone w DiskInt))] n)
         (mkAList [] r) 0 (mkAList [(z, Some t)] qn) d sts m b) =
    Ok (true, K fs READY IntOff false IdleMode (mkAList [] n) (mkAList [(0, Some t)] (wrap32 (r + 1))) 1
         (mkAList [] (wrap32 (qn - 1))) (set_active d false) sts' m' b) ∧ wf_machine_opt m'.
Proof.
  intros Hm.
  set (k1 := K fs BLOCKED IntOff false IdleMode (mkAList [] n) (mkAList [] r) 0
    (mkAList [(z, Some t)] qn) d sts m b).
  set (sts' := if totalTicks sts <? w then stats (advance_clock w k1) else sts).
  set (k2 := K fs BLOCKED IntOff false IdleMode (mkAList [] n) (mkAList [] r) 0
    (mkAList [(z, Some t)] qn) d sts' m b).
  destruct (delayed_load_Ok k2 Hm) as (m' & Hd & Hm'). exists m', sts'. split; [|done].
  transitivity (k ← fire (call_handler Random) (mkPending DiskDone w DiskInt) k2; Ok (true, k)).
  { unfold k2, sts'. unfold CheckIfDue. cbn. by destruct (_ <? _). }
  unfold fire. rewrite Hd. cbn [mbind result_bind handler call_handler].
  unfold HandleInterrupt, the_disk. cbn [disk set_inHandler set_status set_machine set_interrupt k2 K
    mbind result_bind]. unfold RequestDone.
  change (set_disk _ _) with (K fs BLOCKED IntOff true SystemMode (mkAList [] n) (mkAList [] r) 0
    (mkAList [(z, Some t)] qn) (set_active d false) sts' m' b).
  rewrite K_V. done.
Qed.

Lemma K_returned base fs st lv ih im pe rl v q d sts m b :
  returned t base (K fs st lv ih im pe rl v q d sts m b) = bool_decide (length fs = base).
Proof.
  unfold returned, K. cbn [currentThread threads]. rewrite bool_decide_eq_true_2 by done.
  by rewrite lookup_insert_eq.
Qed.

Lemma K_go n base f fs st lv ih im pe rl v q d sts m b :
  (base <= length fs)%nat →
  run_until Random USER_PROGRAM junkRegs (Datatypes.S n) (returned t base)
    (K (f :: fs) st lv ih im pe rl v q d sts m b) =
  k ← exec Random USER_PROGRAM junkRegs f (K fs st lv ih im pe rl v q d sts m b);
  run_until Random USER_PROGRAM junkRegs n (returned t base) k.
Proof.
  intros Hl. cbn [run_until]. rewrite K_returned, bool_decide_eq_false_2 by (cbn; lia).
  by rewrite K_step.
Qed.

Lemma K_stop n fs st lv ih im pe rl v q d sts m b :
  run_until Random USER_PROGRAM junkRegs n (returned t (length fs))
    (K fs st lv ih im pe rl v q d sts m b) = Ok (K fs st lv ih im pe rl v q d sts m b).
Proof. destruct n; cbn [run_until]; by rewrite K_returned, bool_decide_eq_true_2. Qed.

(** The thread goes to sleep, and the machine idles until the interrupt. *)
Lemma K_sleep w n r qn fs d sts m b :
  wf_machine_opt m →
  ∃ sts' m', run_until Random USER_PROGRAM junkRegs 10 (returned t (length fs))
      (K (FPLoop s IntOn :: fs) RUNNING IntOff false SystemMode
         (mkAList [(w, Some (mkPending DiskDone w DiskInt))] n)
         (mkAList [] r) 0 (mkAList [] qn) d sts m b) =
    run_until Random USER_PROGRAM junkRegs 7 (returned t (length fs))
      (K (FSleepLoop :: FPLoop s IntOn :: fs) READY IntOff false SystemMode (mkAList [] n)
         (mkAList [(0, Some t)] (wrap32 (wrap32 (r - 1) + 1))) 1 (mkAList [] (wrap32 (wrap32 (qn + 1) - 1)))
          (set_active d false) sts' m' b) ∧ wf_machine_opt m'.
Proof.
  intros Hm.
  destruct (K_fire w n (wrap32 (r - 1)) 0 (wrap32 (qn + 1)) (FSleepLoop :: FPLoop s IntOn :: fs) d sts m b Hm)
    as (m' & sts' & Hf & Hm'). exists sts', m'. split; [|done].
  rewrite K_go by (cbn; lia). cbn [exec]. unfold P_loop. rewrite K_get_sem.
  cbn [mbind result_bind value queue]. rewrite Z.eqb_refl.
  change (currentThread (K _ _ _ _ _ _ _ _ _ _ _ _ _)) with t. rewrite K_put_sem.
  cbn [mbind result_bind]. rewrite K_push. cbn [mbind result_bind]. unfold Sleep.
  change (ASSERT _) with (Ok tt). cbn [mbind result_bind].
  change (currentThread (K _ _ _ _ _ _ _ _ _ _ _ _ _)) with t. rewrite K_setStatus.
  cbn [mbind result_bind]. rewrite K_push. cbn [mbind result_bind].
  rewrite K_go by (cbn; lia). cbn [exec]. unfold Sleep_loop.
  change (FindNextToRun (K ?g ?st ?lv ?ih ?im ?pe (mkAList [] ?r) ?v ?q ?d ?sts ?m ?b)) with
    (@None tid, K g st lv ih im pe (mkAList [] (wrap32 (r - 1))) v q d sts m b). cbn iota.
  rewrite K_push. cbn [mbind result_bind]. unfold Idle.
  change (set_status (K ?g ?st ?lv ?ih ?im ?pe ?rl ?v ?q ?d ?sts ?m ?b) IdleMode) with
    (K g st lv ih IdleMode pe rl v q d sts m b).
  unfold aAppend at 1. cbn [elems asize app]. rewrite Hf. cbn [mbind result_bind].
  rewrite K_push. cbn [mbind result_bind].
  rewrite K_go by (cbn; lia). cbn [exec]. unfold Idle_loop. rewrite K_nothing. done.
Qed.

(** From the wait for the semaphore to the return of [P]. *)
Lemma K_wait w n r qn fs d sts m b :
  wf_machine_opt m →
  ∃ n' r' qn' sts' m', run_until Random USER_PROGRAM junkRegs 10 (returned t (length fs))
      (K (FPLoop s IntOn :: fs) RUNNING IntOff false SystemMode
         (mkAList [(w, Some (mkPending DiskDone w DiskInt))] n)
         (mkAList [] r) 0 (mkAList [] qn) d sts m b) =
    Ok (K fs RUNNING IntOn false SystemMode (mkAList [] n') (mkAList [] r') 0 (mkAList [] qn')
          (set_active d false) sts' m' b) ∧ wf_machine_opt m'.
Proof.
  intros Hm. destruct (K_sleep w n r qn fs d sts m b Hm) as (sts' & m' & -> & Hm').
  eexists _, _, _, _, m'. split; [|done].
  rewrite K_go by (cbn; lia). cbn [exec]. unfold Sleep_loop.
  change (FindNextToRun (K ?g ?st ?lv ?ih ?im ?pe (mkAList [(0, Some t)] ?r) ?v ?q ?d ?sts ?m ?b)) with
    (Some t, K g st lv ih im pe (mkAList [] (wrap32 (r - 1))) v q d sts m b). cbn iota.
  rewrite K_run. cbn [mbind result_bind].
  rewrite K_go by (cbn; lia). cbn [exec]. unfold Run_tail.
  change (threadToBeDestroyed (K _ _ _ _ _ _ _ _ _ _ _ _ _)) with (@None tid).
  cbn [mbind result_bind]. change (currentThread (K _ _ _ _ _ _ _ _ _ _ _ _ _)) with t.
  rewrite K_thread. cbn [mbind result_bind space set_tstatus set_frames]. rewrite Hspace.
  cbn [mbind result_bind].
  rewrite K_go by (cbn; lia). cbn [exec]. unfold P_loop. rewrite K_get_sem.
  cbn [mbind result_bind value queue]. change (1 =? 0) with false. cbn iota.
  rewrite K_put_sem. cbn [mbind result_bind]. unfold SetLevel. cbn [ASSERT].
  change (ASSERT _) with (Ok tt). cbn [mbind result_bind].
  change (bool_decide _ && bool_decide _) with true. cbn iota.
  change (ChangeLevel IntOn (K ?g ?st ?lv ?ih ?im ?pe ?rl ?v ?q ?d ?sts ?m ?b)) with
    (K g st IntOn ih im pe rl v q d sts m b). rewrite K_push. cbn [mbind result_bind].
  rewrite K_go by (cbn; lia). cbn [exec]. unfold OneTick.
  match goal with |- context [ChangeLevel IntOff (if ?c then add_ticks ?x ?y ?z ?u ?k else _)] =>
    change (ChangeLevel IntOff (if c then _ else _)) with
      (K fs RUNNING IntOff false SystemMode (mkAList [] n) (mkAList [] (wrap32 (wrap32 (wrap32 (r - 1) + 1) - 1))) (wrap32 (1 - 1))
         (mkAList [] (wrap32 (wrap32 (qn + 1) - 1))) (set_active d false) (stats (add_ticks x y z u k)) m' b) end.
  rewrite K_push. cbn [mbind result_bind].
  rewrite K_go by (cbn; lia). cbn [exec]. unfold OneTick_loop. rewrite K_nothing.
  cbn [mbind result_bind]. apply K_stop.
Qed.

(** The whole call, once the disk has accepted the request. *)
Lemma K_call c w n r qn fs d sts m b sts0 d0 b0 n0 m0 :
  let k0 := K fs RUNNING IntOn false SystemMode (mkAList [] n0) (mkAList [] r) 0
    (mkAList [] qn) d0 sts0 m0 b0 in
  let k1 := K fs RUNNING IntOn false SystemMode
    (mkAList [(w, Some (mkPending DiskDone w DiskInt))] n) (mkAList [] r) 0
    (mkAList [] qn) d sts m b in
  do_call junkRegs c k0 = P s k1 → wf_machine_opt m →
  ∃ n' r' qn' sts' m', call_sync 20 c k0 =
    Ok (K fs RUNNING IntOn false SystemMode (mkAList [] n') (mkAList [] r') 0 (mkAList [] qn')
          (set_active d false) sts' m' b) ∧ wf_machine_opt m'.
Proof.
  intros k0 k1 Hc Hm.
  destruct (K_wait w n r qn fs d sts m b Hm) as (n' & r' & qn' & sts' & m' & Hw & Hm').
  exists n', r', qn', sts', m'. split; [|done]. unfold call_sync, k0.
  change (currentThread (K _ _ _ _ _ _ _ _ _ _ _ _ _)) with t. rewrite K_thread.
  cbn [mbind result_bind frames set_tstatus set_frames]. rewrite K_push. cbn [mbind result_bind].
  rewrite K_go by done. cbn [exec]. fold k0. rewrite Hc. unfold k1, P.
  rewrite K_off. cbn [mbind result_bind]. rewrite K_push. cbn [mbind result_bind].
  eapply run_until_mono; [exact Hw|lia].
Qed.

(** The disk accepts a request for a sector it has. *)
Lemma K_schedule ticks n r qn fs d sts m b :
  0 < ticks →
  ∃ w, Schedule DiskDone ticks DiskInt (K fs RUNNING IntOn false SystemMode (mkAList [] n)
      (mkAList [] r) 0 (mkAList [] qn) d sts m b) =
    Ok (K fs RUNNING IntOn false SystemMode
      (mkAList [(w, Some (mkPending DiskDone w DiskInt))] n) (mkAList [] r) 0
      (mkAList [] qn) d sts m b).
Proof.
  intros Ht. eexists. unfold Schedule. rewrite (proj2 (Z.ltb_lt 0 ticks)) by done. done.
Qed.

Lemma P_release k : (k ← P s k; Lock_Release k) = P s k.
Proof. by destruct (P s k). Qed.

Lemma K_read j x buf n r qn fs d sts m b :
  head_ok d → active d = false → sector_range j → aget (sectors d) j = Ok x →
  ∃ w d' sts',
    do_call junkRegs (CReadSector j buf) (K fs RUNNING IntOn false SystemMode (mkAList [] n)
      (mkAList [] r) 0 (mkAList [] qn) d sts m b) =
    P s (K fs RUNNING IntOn false SystemMode
      (mkAList [(w, Some (mkPending DiskDone w DiskInt))] n) (mkAList [] r) 0
      (mkAList [] qn) d' sts' m (<[buf := x]> b)) ∧
    sectors d' = sectors d ∧ lastSector d' = j.
Proof.
  intros Hd Ha Hj Hx. cbn [do_call]. unfold ReadSector, Lock_Acquire, ReadRequest.
  cbn [mbind result_bind the_disk disk K]. rewrite Ha. cbn [negb ASSERT mbind result_bind].
  unfold sector_range in Hj. rewrite (proj2 (Z.leb_le 0 j)), (proj2 (Z.ltb_lt j NumSectors)) by lia.
  cbn [andb ASSERT mbind result_bind stats]. rewrite Hx. cbn [mbind result_bind].
  match goal with |- context [Schedule DiskDone ?tk DiskInt ?k] =>
    destruct (K_schedule tk n r qn fs (UpdateLast (set_active d true) (totalTicks sts) j)
      (stats k) m (<[buf := x]> b)) as [w Hw];
    [|rewrite (Hw : Schedule DiskDone tk DiskInt k = _)] end.
  { eapply Z.lt_le_trans; [|apply ComputeLatency_bounds; done]. done. }
  cbn [mbind result_bind the_disk disk K]. rewrite P_release. eexists w, _, _.
  split; [done|]. unfold UpdateLast. destruct (TimeToSeek _ _ _). done.
Qed.

Lemma K_write j x buf n r qn fs d sts m b :
  head_ok d → active d = false → sector_range j → Z.of_nat (length (sectors d)) = NumSectors →
  is_sector x → b !! buf = Some x →
  ∃ w d' sts',
    do_call junkRegs (CWriteSector j buf) (K fs RUNNING IntOn false SystemMode (mkAList [] n)
      (mkAList [] r) 0 (mkAList [] qn) d sts m b) =
    P s (K fs RUNNING IntOn false SystemMode
      (mkAList [(w, Some (mkPending DiskDone w DiskInt))] n) (mkAList [] r) 0
      (mkAList [] qn) d' sts' m b) ∧
    sectors d' = <[Z.to_nat j := x]> (sectors d) ∧ lastSector d' = j.
Proof.
  intros Hd Ha Hj Hl [Hx _] Hb. cbn [do_call]. unfold WriteSector, Lock_Acquire, WriteRequest.
  cbn [mbind result_bind the_disk disk K]. rewrite Ha. cbn [negb ASSERT mbind result_bind].
  unfold sector_range in Hj. rewrite (proj2 (Z.leb_le 0 j)), (proj2 (Z.ltb_lt j NumSectors)) by lia.
  cbn [andb ASSERT mbind result_bind stats]. change (buffers (K _ _ _ _ _ _ _ _ _ _ _ _ _)) with b. rewrite Hb. cbn [default].
  rewrite aslice_Ok by (unfold SectorSize in *; simpl; lia). cbn [mbind result_bind].
  rewrite drop_0, take_ge by (simpl; lia). rewrite aset_Ok by lia. cbn [mbind result_bind].
  match goal with |- context [Schedule DiskDone ?tk DiskInt ?k] =>
    destruct (K_schedule tk n r qn fs (UpdateLast (set_active (set_sectors d (<[Z.to_nat j := x]> (sectors d))) true) (totalTicks sts) j)
      (stats k) m b) as [w Hw];
    [|rewrite (Hw : Schedule DiskDone tk DiskInt k = _)] end.
  { eapply Z.lt_le_trans; [|apply ComputeLatency_bounds; done]. done. }
  cbn [mbind result_bind the_disk disk K]. rewrite P_release. eexists w, _, _.
  split; [done|]. unfold UpdateLast. destruct (TimeToSeek _ _ _). done.
Qed.

End Request.

(** ** The store *)

Definition disk_contents (k : Kernel) : list (list Z) :=
  match disk k with Some (d, _) => sectors d | None => [] end.

(** A kernel thread runs alone, with interrupts on, and the disk is idle. *)
Record idle_kernel (k : Kernel) : Prop := {
  ik_thread : ∃ th, threads k !! currentThread k = Some th ∧ space th = None ∧
    default STACK_FENCEPOST (stack th) = STACK_FENCEPOST ∧ tstatus th = RUNNING;
  ik_ready : elems (readyList k) = [];
  ik_doomed : threadToBeDestroyed k = None;
  ik_interrupt : level (interrupt k) = IntOn ∧ inHandler (interrupt k) = false ∧
    yieldOnReturn (interrupt k) = false ∧ istatus (interrupt k) = SystemMode;
  ik_pending : elems (pending (interrupt k)) = [];
  ik_disk : ∃ d s x, disk k = Some (d, s) ∧ head_ok d ∧ active d = false ∧
    disk_image (sectors d) ∧ sems k !! s = Some x ∧ value x = 0 ∧ elems (queue x) = [];
  ik_machine : wf_machine_opt (machine k) }.

Lemma idle_K k :
  idle_kernel k →
  ∃ t th T s S act tm rnd out con fs n r qn d sts m b,
    k = K t th T s S act tm rnd out con fs RUNNING IntOn false SystemMode
      (mkAList [] n) (mkAList [] r) 0 (mkAList [] qn) d sts m b ∧
    space th = None ∧ default STACK_FENCEPOST (stack th) = STACK_FENCEPOST ∧ (s < length S)%nat ∧
    head_ok d ∧ active d = false ∧ disk_image (sectors d) ∧ wf_machine_opt m.
Proof.
  intros [(th & Hth & Hsp & Hst & Hrun) Hr Hdm (Hl & Hih & Hy & Him) Hp
    (d & s & x & Hd & Hh & Ha & Hi & Hx & Hv & Hq) Hm].
  destruct k as [[lv [pe n] ih yr im] sts T t doomed [rl r] act S tm dk m b rnd out con].
  cbn in *. subst. destruct x as [v [q qn]]. cbn in *. subst.
  exists t, th, T, s, S, act, tm, rnd, out, con, (frames th), n, r, qn, d, sts, m, b.
  split; [|repeat split; try done; try apply Hi; try apply Hh; by eapply lookup_lt_Some].
  unfold K. rewrite (list_insert_id S s) by done. rewrite insert_id; [done|].
  rewrite Hth. destruct th. cbn in *. by subst.
Qed.

Lemma K_idle t th T s S act tm rnd out con fs n r qn d sts m b :
  space th = None → default STACK_FENCEPOST (stack th) = STACK_FENCEPOST → (s < length S)%nat →
  head_ok d → active d = false → disk_image (sectors d) → wf_machine_opt m →
  idle_kernel (K t th T s S act tm rnd out con fs RUNNING IntOn false SystemMode
      (mkAList [] n) (mkAList [] r) 0 (mkAList [] qn) d sts m b).
Proof.
  intros. split; try done.
  - exists (set_tstatus RUNNING (set_frames fs th)). unfold K. cbn [threads currentThread].
    by rewrite lookup_insert_eq.
  - exists d, s, (mkSem 0 (mkAList [] qn)). split; [done|]. split; [done|]. split; [done|].
    split; [done|]. split; [|done]. by apply list_lookup_insert_eq.
Qed.

Lemma read_sync_ok k j x :
  idle_kernel k → disk_contents k !! Z.to_nat j = Some x → 0 <= j →
  ∃ k', read_sync j k = Ok (x, k') ∧ idle_kernel k' ∧ disk_contents k' = disk_contents k.
Proof.
  intros (t & th & T & s & S & act & tm & rnd & out & con & fs & n & r & qn & d & sts & m & b &
    -> & Hsp & Hst & Hs & Hh & Ha & Hi & Hm)%idle_K Hx Hj.
  change (disk_contents (K _ _ _ _ _ _ _ _ _ _ _ _ _ _ _ _ _ _ _ _ _ _ _)) with (sectors d) in *.
  assert (sector_range j) as Hr.
  { apply lookup_lt_Some in Hx. destruct Hi as [Hl _]. unfold sector_range. lia. }
  destruct (K_read t th T s S act tm rnd out con Hs j x 0 n r qn fs d sts m b)
    as (w & d' & sts' & Hc & Hsec & Hlast); [done|done|done|by apply aget_Ok|].
  destruct (K_call t th T s S act tm rnd out con Hsp Hst Hs _ _ _ _ _ _ _ _ _ _ _ _ _ _ _ Hc Hm)
    as (n' & r' & qn' & sts'' & m' & Hcall & Hm').
  unfold read_sync. rewrite Hcall. cbn [mbind result_bind].
  change (buffers (K _ _ _ _ _ _ _ _ _ _ _ _ _ _ _ _ _ _ _ _ _ _ _)) with (<[0%nat := x]> b).
  rewrite lookup_insert_eq. eexists. split; [done|].
  split; [apply K_idle; try done|exact Hsec].
  - unfold head_ok. cbn. rewrite Hlast. apply Hr.
  - cbn. by rewrite Hsec.
Qed.

Lemma write_sync_ok k j x :
  idle_kernel k → sector_range j → is_sector x →
  ∃ k', write_sync j x k = Ok k' ∧ idle_kernel k' ∧
    disk_contents k' = <[Z.to_nat j := x]> (disk_contents k).
Proof.
  intros (t & th & T & s & S & act & tm & rnd & out & con & fs & n & r & qn & d & sts & m & b &
    -> & Hsp & Hst & Hs & Hh & Ha & Hi & Hm)%idle_K Hr Hx.
  change (disk_contents (K _ _ _ _ _ _ _ _ _ _ _ _ _ _ _ _ _ _ _ _ _ _ _)) with (sectors d).
  unfold write_sync.
  change (set_buffers (K _ _ _ _ _ _ _ _ _ _ _ _ _ _ _ _ _ _ _ _ _ _ _) _) with
    (K t th T s S act tm rnd out con fs RUNNING IntOn false SystemMode
      (mkAList [] n) (mkAList [] r) 0 (mkAList [] qn) d sts m (<[0%nat := x]> b)).
  destruct (K_write t th T s S act tm rnd out con Hs j x 0 n r qn fs d sts m (<[0%nat := x]> b))
    as (w & d' & sts' & Hc & Hsec & Hlast);
    [done|done|done|apply Hi|done|apply lookup_insert_eq|].
  destruct (K_call t th T s S act tm rnd out con Hsp Hst Hs _ _ _ _ _ _ _ _ _ _ _ _ _ _ _ Hc Hm)
    as (n' & r' & qn' & sts'' & m' & Hcall & Hm').
  rewrite Hcall. eexists. split; [done|]. split; [apply K_idle; try done|exact Hsec].
  - unfold head_ok. cbn. rewrite Hlast. apply Hr.
  - cbn. rewrite Hsec. by apply disk_image_insert.
Qed.

Lemma sync_bad k j c :
  idle_kernel k → ¬ sector_range j → (c = CReadSector j 0 ∨ c = CWriteSector j 0) →
  call_sync 20 c k = AssertFail.
Proof.
  intros (t & th & T & s & S & act & tm & rnd & out & con & fs & n & r & qn & d & sts & m & b &
    -> & Hsp & Hst & Hs & Hh & Ha & Hi & Hm)%idle_K Hr Hc. unfold call_sync.
  change (currentThread (K _ _ _ _ _ _ _ _ _ _ _ _ _ _ _ _ _ _ _ _ _ _ _)) with t.
  rewrite K_thread. cbn [mbind result_bind frames set_tstatus set_frames].
  rewrite K_push. cbn [mbind result_bind]. rewrite K_go by done. cbn [exec].
  assert ((0 <=? j) && (j <? NumSectors) = false) as Hb.
  { unfold sector_range in Hr. apply not_true_iff_false. rewrite andb_true_iff, Z.leb_le, Z.ltb_lt. lia. }
  destruct Hc as [-> | ->]; cbn [do_call];
    unfold ReadSector, WriteSector, Lock_Acquire, ReadRequest, WriteRequest;
    cbn [mbind result_bind the_disk disk K]; rewrite Ha; cbn [negb ASSERT mbind result_bind];
    by rewrite Hb.
Qed.

#[export] Instance SynchDisk_store : SectorStore Kernel := {|
  SectorStore.ReadSector := read_sync;
  SectorStore.WriteSector := write_sync;
  contents := disk_contents;
  ready := idle_kernel |}.

#[export] Instance SynchDisk_laws : SectorStoreLaws Kernel.
Proof.
  split.
  - intros k Hk. destruct (ik_disk _ Hk) as (d & s & x & Hd & _ & _ & Hi & _).
    cbn. unfold disk_contents. by rewrite Hd.
  - intros k j x Hk Hx Hj. by apply read_sync_ok.
  - intros k j Hk Hj. cbn. unfold read_sync. rewrite (sync_bad k j); auto.
  - intros k j x Hk Hj Hx. by apply write_sync_ok.
  - intros k j x Hk Hj. cbn. unfold write_sync. apply (sync_bad _ j); auto.
    by destruct Hk.
Qed.

End Instance.

(** ** The property *)

(** C31.  The synchronous disk.  When a kernel thread runs alone and the disk is
    idle, [ReadSector] and [WriteSector] return: the thread sleeps, the machine
    idles, the disk interrupt wakes the thread up, and the kernel is in such a
    state again.  The read returns the sector's bytes and changes no sector, the
    write replaces exactly that sector, and a sector number that does not exist
    fails an assertion. *)
Theorem SynchDisk_correct Random USER_PROGRAM junkRegs k j x :
  idle_kernel k → is_sector x →
  let read := read_sync Random USER_PROGRAM junkRegs j k in
  let write := write_sync Random USER_PROGRAM junkRegs j x k in
  if (0 <=? j) && (j <? NumSectors) then
    (∃ k', read = Ok (sect (disk_contents k) j, k') ∧ idle_kernel k' ∧
       disk_contents k' = disk_contents k) ∧
    (∃ k', write = Ok k' ∧ idle_kernel k' ∧
       disk_contents k' = <[Z.to_nat j := x]> (disk_contents k))
  else read = AssertFail ∧ write = AssertFail.
Proof.
  intros Hk Hx. pose proof (SynchDisk_laws Random USER_PROGRAM junkRegs) as L.
  destruct ((0 <=? j) && (j <? NumSectors)) eqn:Hj.
  - apply andb_true_iff in Hj as [?%Z.leb_le ?%Z.ltb_lt]. split.
    + apply (read_sector (H0 := L) k j Hk). done.
    + by apply (WriteSector_ok (SectorStoreLaws := L) k j x Hk).
  - assert (¬ sector_range j) as Hr.
    { apply not_true_iff_false in Hj. rewrite andb_true_iff, Z.leb_le, Z.ltb_lt in Hj. done. }
    split; [by apply (ReadSector_bad (SectorStoreLaws := L))|
            by apply (WriteSector_bad (SectorStoreLaws := L))].
Qed.

(** A kernel as [Initialize] leaves it, with a new disk. *)
Definition no_kernel : Kernel :=
  mkKernel newInterrupt newStatistics ∅ 0%nat None aempty aempty [] None None None ∅ 0 [] None.

Definition demo_boot : Kernel :=
  match (k ← boot (λ _, 0) [] false [];
         run_until (λ _, 0) false [] 20 (returned 0%nat 1) k) with
  | Ok k => k | _ => no_kernel end.

Definition zero_sectors : list (list Z) :=
  replicate (Z.to_nat NumSectors) (replicate (Z.to_nat SectorSize) 0).

Definition demo_kernel : Kernel :=
  set_disk (set_sems demo_boot [newSemaphore 0]) (Some (mkDisk zero_sectors false 0 0, 0%nat)).

Lemma demo_kernel_initial m :
  Initialize (λ _, 0) false true [] false m None [] = Ok demo_kernel.
Proof.
  unfold Initialize.
  assert ((k ← boot (λ _, 0) [] false [];
         run_until (λ _, 0) false [] 20 (returned 0%nat 1) k) = Ok demo_boot) as Hb
    by (vm_compute; done).
  apply bind_Ok in Hb as (k & -> & Hb). cbn [mbind result_bind length].
  rewrite Hb. done.
Qed.

Lemma zero_disk : disk_image zero_sectors.
Proof.
  unfold zero_sectors. split; [by rewrite length_replicate|]. apply Forall_replicate. split.
  - by rewrite length_replicate.
  - by apply Forall_replicate.
Qed.

Lemma demo_kernel_idle : idle_kernel demo_kernel.
Proof.
  assert (∃ th, threads demo_boot !! currentThread demo_boot = Some th ∧ space th = None ∧
    default STACK_FENCEPOST (stack th) = STACK_FENCEPOST ∧ tstatus th = RUNNING) as Hth.
  { eexists. split; [vm_compute; reflexivity|]. done. }
  split; cbn [demo_kernel set_disk set_sems threads currentThread readyList threadToBeDestroyed
    interrupt disk sems machine].
  - exact Hth.
  - vm_compute. done.
  - vm_compute. done.
  - vm_compute. done.
  - vm_compute. done.
  - eexists _, _, _. split; [reflexivity|]. split; [done|].
    split; [done|]. split; [cbn [sectors]; exact zero_disk|]. split; [reflexivity|]. done.
  - vm_compute. done.
Qed.

Lemma SynchDisk_correct_witness :
  (∃ k', write_sync (λ _, 0) false [] 7 (replicate 256 9) demo_kernel = Ok k' ∧ idle_kernel k') ∧
  read_sync (λ _, 0) false [] 1024 demo_kernel = AssertFail.
Proof.
  assert (is_sector (replicate 256 9)) as Hs by (split; [done|by apply Forall_replicate]).
  split.
  - destruct (SynchDisk_correct (λ _, 0) false [] demo_kernel 7 _ demo_kernel_idle Hs)
      as [_ (k' & H & Hi & _)]. exists k'. split; [exact H|exact Hi].
  - destruct (SynchDisk_correct (λ _, 0) false [] demo_kernel 1024 _ demo_kernel_idle Hs) as [H _].
    exact H.
Defined.
