(* ===== verification/ConsoleEcho.v ===== *)
(** * The console test echoes what is typed

    [ConsoleTest] runs as the main thread of the kernel: it sleeps until a poll
    of the keyboard finds a character, echoes it, sleeps until the display is
    done, and so on, while the interrupts of both devices come in the order of
    their times. *)

From S2P Require Import Prelude Params.
From S2P Require Import LList.
From S2P Require Import Kernel Interrupt Threads Synch Disk Console Sched SynchDisk.
From S2P Require Machine.
Local Open Scope Z_scope.

Section Echo.
Variables (Random : nat → Z) (junkRegs : list Z).

Abbreviation step := (Sched.step Random true junkRegs).

(** The interrupts of the console *)
Definition int_of (x : Z * Handler) : Z * option PendingInterrupt :=
  (x.1, Some (mkPending x.2 x.1 (match x.2 with ConsoleReadPoll => ConsoleReadInt | _ => ConsoleWriteInt end))).

(** The kernel while the main thread is in [ConsoleTest]: semaphore 0 is
    [readAvail], 1 is [writeDone]. *)
Definition St (fs : list Frame) (st : ThreadStatus) (lv : IntStatus) (ih : bool) (im : MachineStatus)
    (pe : list (Z * Handler)) (rl : alist tid) (vr : Z) (qr : alist tid) (vw : Z) (qw : alist tid)
    (c : Console) (sts : Statistics) (m : option Machine.Machine) : Kernel :=
  mkKernel (mkInterrupt lv (mkAList (int_of <$> pe) 0) ih false im) sts
    {[ 0%nat := mkThread fs None st None junkRegs None 0 false false ]} 0%nat None rl aempty
    [mkSem vr qr; mkSem vw qw] None None m ∅ 0 [] (Some c).

Definition con (keys : nat → poll) (p : nat) (out : list Z) (busy : bool) (inc : Z) : Console :=
  mkConsole keys p out 0 1 busy inc.

(** A state of the kernel at the time [now], up to the sizes the lists record,
    the other statistics, and the pending load of the machine *)
Definition at_ (fs : list Frame) (st : ThreadStatus) (lv : IntStatus) (im : MachineStatus)
    (pe : list (Z * Handler)) (rl : list (Z * option tid)) (vr : Z) (qr : list (Z * option tid)) (vw : Z)
    (qw : list (Z * option tid)) (c : Console) (now : Z) (k : Kernel) : Prop :=
  ∃ r a b sts m, k = St fs st lv false im pe (mkAList rl r) vr (mkAList qr a) vw (mkAList qw b) c sts m ∧
    totalTicks sts = now ∧ wf_machine_opt m.

(** The kernel gets from any state in [P] to a state in [Q]. *)
Definition leads_to (P Q : Kernel → Prop) : Prop :=
  ∀ k, P k → ∃ n k', steps Random true junkRegs n k = Ok k' ∧ Q k'.

Lemma steps_app n n' k k' :
  steps Random true junkRegs n k = Ok k' →
  steps Random true junkRegs (n + n') k = steps Random true junkRegs n' k'.
Proof.
  revert k. induction n as [|n IH]; intros k; cbn [steps Nat.add]; [by intros [= ->]|].
  destruct (step k) as [k1| | | |]; cbn [mbind result_bind]; [apply IH|done..].
Qed.

Lemma leads_trans P Q R : leads_to P Q → leads_to Q R → leads_to P R.
Proof.
  intros HP HQ k Hk. destruct (HP k Hk) as (n & k1 & Hn & H1). destruct (HQ k1 H1) as (n' & k2 & Hn' & H2).
  exists (n + n')%nat, k2. by rewrite (steps_app _ _ _ _ Hn).
Qed.

Lemma leads_refl (P : Kernel → Prop) : leads_to P P.
Proof. intros k Hk. by exists 0%nat, k. Qed.

Ltac one_step := intros k (r & a & b & sts & m & -> & <- & Hm); exists 1%nat; eexists; split;
  [reflexivity|do 5 eexists; split; [reflexivity|split; [done|done]]].

(** ** Steps that do not depend on the time *)

Abbreviation me := [(0, Some 0%nat)].

Lemma go_P s fs pe vr vw c now : 
  leads_to (at_ (Do (CP s) :: fs) RUNNING IntOn SystemMode pe [] vr [] vw [] c now)
           (at_ (FPLoop s IntOn :: fs) RUNNING IntOff SystemMode pe [] vr [] vw [] c now).
Proof. one_step. Qed.

(** [P] on [readAvail] and on [writeDone], when it waits and when it does not *)
Lemma go_wait_read fs pe vw c now :
  leads_to (at_ (FPLoop 0 IntOn :: fs) RUNNING IntOff SystemMode pe [] 0 [] vw [] c now)
           (at_ (FSleepLoop :: FPLoop 0 IntOn :: fs) BLOCKED IntOff SystemMode pe [] 0 me vw [] c now).
Proof. one_step. Qed.

Lemma go_wait_write fs pe vr c now :
  leads_to (at_ (FPLoop 1 IntOn :: fs) RUNNING IntOff SystemMode pe [] vr [] 0 [] c now)
           (at_ (FSleepLoop :: FPLoop 1 IntOn :: fs) BLOCKED IntOff SystemMode pe [] vr [] 0 me c now).
Proof. one_step. Qed.

Lemma go_got_read fs pe vw c now :
  leads_to (at_ (FPLoop 0 IntOn :: fs) RUNNING IntOff SystemMode pe [] 1 [] vw [] c now)
           (at_ (FOneTick :: fs) RUNNING IntOn SystemMode pe [] 0 [] vw [] c now).
Proof. one_step. Qed.

Lemma go_got_write fs pe vr c now :
  leads_to (at_ (FPLoop 1 IntOn :: fs) RUNNING IntOff SystemMode pe [] vr [] 1 [] c now)
           (at_ (FOneTick :: fs) RUNNING IntOn SystemMode pe [] vr [] 0 [] c now).
Proof. one_step. Qed.

(** The thread that was woken up runs again. *)
Lemma go_awake fs pe vr vw c now :
  leads_to (at_ (FSleepLoop :: fs) READY IntOff SystemMode pe me vr [] vw [] c now)
           (at_ fs RUNNING IntOff SystemMode pe [] vr [] vw [] c now).
Proof.
  apply (leads_trans _ (at_ (FRunTail :: fs) RUNNING IntOff SystemMode pe [] vr [] vw [] c now)); one_step.
Qed.

Lemma go_loop fs pe vr vw keys p out busy inc now :
  leads_to (at_ (Do (CConsole CConsoleLoop) :: fs) RUNNING IntOn SystemMode pe [] vr [] vw []
              (con keys p out busy inc) now)
           (at_ (Do (CP 0) :: Do (CConsole CConsoleEcho) :: fs) RUNNING IntOn SystemMode pe [] vr [] vw []
              (con keys p out busy inc) now).
Proof. one_step. Qed.

Lemma go_check ch fs pe vr vw c now :
  leads_to (at_ (Do (CConsole (CConsoleCheck ch)) :: fs) RUNNING IntOn SystemMode pe [] vr [] vw [] c now)
           (at_ (if ch =? char_q then fs else Do (CConsole CConsoleLoop) :: fs) RUNNING IntOn SystemMode pe [] vr [] vw [] c now).
Proof.
  intros k (r & a & b & sts & m & -> & <- & Hm). exists 1%nat.
  destruct (ch =? char_q) eqn:E; eexists; (split; [|by do 5 eexists]); cbn [steps];
    unfold Sched.step; cbn [St currentThread]; unfold get_thread; cbn [St threads]; rewrite lookup_singleton_eq;
    cbn [mbind result_bind frames Sched.exec do_call console_call]; unfold ConsoleTest_check; rewrite E; reflexivity.
Qed.

(** ** Time and interrupts *)

Lemma go_tick fs pe vr vw c now :
  0 <= now → now + SystemTick < 2 ^ 31 →
  leads_to (at_ (FOneTick :: fs) RUNNING IntOn SystemMode pe [] vr [] vw [] c now)
           (at_ (FOneTickLoop SystemMode :: fs) RUNNING IntOff SystemMode pe [] vr [] vw [] c (now + SystemTick)).
Proof.
  intros H0 H1 k (r & a & b & sts & m & -> & <- & Hm). exists 1%nat. eexists. split; [reflexivity|].
  do 5 eexists. split; [reflexivity|]. split; [|done]. cbn. apply wrap32_id. split; [|done].
  unfold SystemTick. lia.
Qed.

(** An interrupt that is not due stays where it is. *)
Lemma insert_first w h pe : Forall (λ x, w < x.1) pe →
  insert_sorted w (int_of (w, h)).2 (int_of <$> pe) = int_of <$> (w, h) :: pe.
Proof.
  destruct pe as [|x pe]; [done|]. intros Hf%Forall_inv. cbn [fmap list_fmap insert_sorted].
  change ((int_of x).1) with x.1. by rewrite (proj2 (Z.ltb_lt _ _) Hf).
Qed.

Lemma insert_last w h pe : Forall (λ x, x.1 <= w) pe →
  insert_sorted w (int_of (w, h)).2 (int_of <$> pe) = int_of <$> pe ++ [(w, h)].
Proof.
  induction 1 as [|x pe Hx _ IH]; [done|]. cbn [app fmap list_fmap insert_sorted].
  change ((int_of x).1) with x.1. rewrite (proj2 (Z.ltb_ge _ _) Hx). cbn [fmap list_fmap] in IH. by rewrite IH.
Qed.

Lemma not_due fs st im w h pe rl vr qr vw qw c sts m :
  totalTicks sts < w → Forall (λ x, w < x.1) pe →
  let k := St fs st IntOff false im ((w, h) :: pe) rl vr qr vw qw c sts m in
  CheckIfDue (call_handler Random) false k = Ok (false, k).
Proof.
  intros Hw Hf k. unfold CheckIfDue, k, St at 1 2 3. cbn [interrupt level pending aSortedRemove elems fmap list_fmap int_of fst snd
    bool_decide]. change (ASSERT _) with (Ok tt). cbn [mbind result_bind stats negb].
  cbn [totalTicks stats]. rewrite (proj2 (Z.ltb_lt _ _) Hw). cbn [negb andb asize].
  unfold aSortedInsert. cbn [elems asize]. pose proof (insert_first w h pe Hf) as Hi. cbn [int_of fst snd] in Hi.
  unfold set_pending. cbn [St interrupt]. unfold St. by rewrite Hi.
Qed.

Lemma go_tick_end fs w h pe vr vw c now :
  now < w → Forall (λ x, w < x.1) pe →
  leads_to (at_ (FOneTickLoop SystemMode :: fs) RUNNING IntOff SystemMode ((w, h) :: pe) [] vr [] vw [] c now)
           (at_ fs RUNNING IntOn SystemMode ((w, h) :: pe) [] vr [] vw [] c now).
Proof.
  intros Hw Hf k (r & a & b & sts & m & -> & <- & Hm). exists 1%nat. eexists. split; [|by do 5 eexists].
  pose proof (not_due fs RUNNING SystemMode w h pe (mkAList [] r) vr (mkAList [] a) vw (mkAList [] b) c sts m Hw Hf) as Hd.
  transitivity (k ← OneTick_loop (call_handler Random) SystemMode
    (St fs RUNNING IntOff false SystemMode ((w, h) :: pe) (mkAList [] r) vr (mkAList [] a) vw (mkAList [] b) c sts m); Ok k);
    [reflexivity|].
  unfold OneTick_loop. rewrite Hd. reflexivity.
Qed.

Lemma go_idle_end fs st w h pe rl vr qr vw qw c now :
  now < w → Forall (λ x, w < x.1) pe →
  leads_to (at_ (FIdleLoop :: fs) st IntOff IdleMode ((w, h) :: pe) rl vr qr vw qw c now)
           (at_ fs st IntOff SystemMode ((w, h) :: pe) rl vr qr vw qw c now).
Proof.
  intros Hw Hf k (r & a & b & sts & m & -> & <- & Hm). exists 1%nat. eexists. split; [|by do 5 eexists].
  pose proof (not_due fs st IdleMode w h pe (mkAList rl r) vr (mkAList qr a) vw (mkAList qw b) c sts m Hw Hf) as Hd.
  transitivity (k ← Idle_loop (call_handler Random)
    (St fs st IntOff false IdleMode ((w, h) :: pe) (mkAList rl r) vr (mkAList qr a) vw (mkAList qw b) c sts m); Ok k);
    [reflexivity|].
  unfold Idle_loop. rewrite Hd. reflexivity.
Qed.

(** What the handler of an interrupt does, at the time [now]: to the status of
    the thread, the pending interrupts, the ready list, the semaphores and the
    console *)
Record conf := mkConf {
  c_status : ThreadStatus; c_pending : list (Z * Handler); c_ready : list (Z * option tid);
  c_vr : Z; c_qr : list (Z * option tid); c_vw : Z; c_qw : list (Z * option tid); c_con : Console }.

Definition St_of fs lv ih im (x : conf) r a b sts m : Kernel :=
  St fs (c_status x) lv ih im (c_pending x) (mkAList (c_ready x) r) (c_vr x) (mkAList (c_qr x) a)
    (c_vw x) (mkAList (c_qw x) b) (c_con x) sts m.

Definition handles (h : Handler) (now : Z) (x y : conf) : Prop :=
  ∀ fs r a b sts m, totalTicks sts = now →
    ∃ r' a' b' sts', call_handler Random h (St_of fs IntOff true SystemMode x r a b sts m) =
      Ok (St_of fs IntOff true SystemMode y r' a' b' sts' m) ∧ totalTicks sts' = now.

Abbreviation at_conf fs lv im x :=
  (at_ fs (c_status x) lv im (c_pending x) (c_ready x) (c_vr x) (c_qr x) (c_vw x) (c_qw x) (c_con x)).

Definition with_pending (x : conf) (pe : list (Z * Handler)) : conf :=
  mkConf (c_status x) pe (c_ready x) (c_vr x) (c_qr x) (c_vw x) (c_qw x) (c_con x).

Lemma fires fs im h w x y r a b sts m :
  handles h (totalTicks sts) x y → wf_machine_opt m →
  ∃ r' a' b' sts' m', fire (call_handler Random) (mkPending h w (match h with ConsoleReadPoll => ConsoleReadInt | _ => ConsoleWriteInt end))
      (St_of fs IntOff false im x r a b sts m) =
    Ok (St_of fs IntOff false im y r' a' b' sts' m') ∧ totalTicks sts' = totalTicks sts ∧ wf_machine_opt m'.
Proof.
  intros Hh Hm. unfold fire.
  destruct (delayed_load_Ok (St_of fs IntOff false im x r a b sts m) Hm) as (m' & -> & Hm').
  cbn [mbind result_bind handler].
  change (set_status (set_inHandler _ true) SystemMode) with (St_of fs IntOff true SystemMode x r a b sts m').
  destruct (Hh fs r a b sts m' eq_refl) as (r' & a' & b' & sts' & -> & Ht).
  by exists r', a', b', sts', m'.
Qed.

(** The machine idles until the first interrupt, whose handler is called. *)
Lemma go_idle fs w h pe x y now :
  handles h w x y → c_pending x = pe → c_status x = BLOCKED → c_ready x = [] → now <= w →
  leads_to (at_conf (FSleepLoop :: fs) IntOff SystemMode (with_pending x ((w, h) :: pe)) now)
           (at_conf (FIdleLoop :: FSleepLoop :: fs) IntOff IdleMode y w).
Proof.
  intros Hh Hpe Hst Hrl Hw k (r & a & b & sts & m & -> & <- & Hm).
  set (sts1 := if totalTicks sts <? w then stats (advance_clock w (St_of fs IntOff false IdleMode x r a b sts m)) else sts).
  assert (totalTicks sts1 = w) as Ht1. { unfold sts1. destruct (Z.ltb_spec (totalTicks sts) w); [done|lia]. }
  rewrite <- Ht1 in Hh.
  destruct (fires (FSleepLoop :: fs) IdleMode h w x y (wrap32 (r - 1)) a b sts1 m Hh Hm) as (r' & a' & b' & sts' & m' & Hf & Ht & Hm').
  exists 1%nat. eexists. split.
  - transitivity (k ← Sleep_loop (call_handler Random)
      (St_of fs IntOff false SystemMode (with_pending x ((w, h) :: pe)) r a b sts m); Ok k); [reflexivity|].
    unfold Sleep_loop.
    assert (FindNextToRun (St_of fs IntOff false SystemMode (with_pending x ((w, h) :: pe)) r a b sts m) =
      (None, St_of fs IntOff false SystemMode (with_pending x ((w, h) :: pe)) (wrap32 (r - 1)) a b sts m)) as ->.
    { unfold FindNextToRun, St_of, St. cbn [readyList with_pending c_ready]. by rewrite Hrl. }
    change (push FSleepLoop ?k) with (Ok (St_of (FSleepLoop :: fs) IntOff false SystemMode (with_pending x ((w, h) :: pe)) (wrap32 (r - 1)) a b sts m)).
    cbn [mbind result_bind]. unfold Idle.
    assert (CheckIfDue (call_handler Random) true
      (set_status (St_of (FSleepLoop :: fs) IntOff false SystemMode (with_pending x ((w, h) :: pe)) (wrap32 (r - 1)) a b sts m) IdleMode) =
      (k ← fire (call_handler Random) (mkPending h w (match h with ConsoleReadPoll => ConsoleReadInt | _ => ConsoleWriteInt end))
        (St_of (FSleepLoop :: fs) IntOff false IdleMode x (wrap32 (r - 1)) a b sts1 m); Ok (true, k))) as ->.
    { unfold CheckIfDue, sts1. rewrite <- Hpe. destruct x. cbn. destruct (_ <? _), h; reflexivity. }
    rewrite Hf. cbn [mbind result_bind]. reflexivity.
  - exists r', a', b', sts', m'. split; [reflexivity|]. split; [congruence|done].
Qed.

(** An interrupt is due at the end of a tick. *)
Lemma go_tick_fire fs w h pe x y now :
  handles h now x y → c_pending x = pe → w <= now →
  leads_to (at_conf (FOneTickLoop SystemMode :: fs) IntOff SystemMode (with_pending x ((w, h) :: pe)) now)
           (at_conf (FOneTickLoop SystemMode :: fs) IntOff SystemMode y now).
Proof.
  intros Hh Hpe Hw k (r & a & b & sts & m & -> & <- & Hm).
  destruct (fires fs SystemMode h w x y r a b sts m Hh Hm) as (r' & a' & b' & sts' & m' & Hf & Ht & Hm').
  exists 1%nat. eexists. split.
  - transitivity (k ← OneTick_loop (call_handler Random) SystemMode
      (St_of fs IntOff false SystemMode (with_pending x ((w, h) :: pe)) r a b sts m); Ok k); [reflexivity|].
    unfold OneTick_loop.
    assert (CheckIfDue (call_handler Random) false (St_of fs IntOff false SystemMode (with_pending x ((w, h) :: pe)) r a b sts m) =
      (k ← fire (call_handler Random) (mkPending h w (match h with ConsoleReadPoll => ConsoleReadInt | _ => ConsoleWriteInt end))
        (St_of fs IntOff false SystemMode x r a b sts m); Ok (true, k))) as ->.
    { unfold CheckIfDue. rewrite <- Hpe. destruct x. cbn. rewrite (proj2 (Z.ltb_ge _ _) Hw). reflexivity. }
    rewrite Hf. cbn [mbind result_bind]. reflexivity.
  - exists r', a', b', sts', m'. split; [reflexivity|done].
Qed.

(** ** The handlers *)

Lemma Schedule_ok h ty fs st lv ih im pe rl vr qr vw qw c sts m :
  ty = match h with ConsoleReadPoll => ConsoleReadInt | _ => ConsoleWriteInt end →
  0 <= totalTicks sts → totalTicks sts + ConsoleTime < 2 ^ 31 →
  Forall (λ x, x.1 <= totalTicks sts + ConsoleTime) pe →
  Schedule h ConsoleTime ty (St fs st lv ih im pe rl vr qr vw qw c sts m) =
  Ok (St fs st lv ih im (pe ++ [(totalTicks sts + ConsoleTime, h)]) rl vr qr vw qw c sts m).
Proof.
  intros -> H0 H1 Hf. unfold Schedule. change (0 <? ConsoleTime) with true. cbn [ASSERT mbind result_bind].
  change (stats (St _ _ _ _ _ _ _ _ _ _ _ _ _ _)) with sts.
  rewrite wrap32_id by (unfold ConsoleTime in *; split; [lia|done]).
  unfold aSortedInsert. cbn [St interrupt pending elems asize]. pose proof (insert_last _ h pe Hf) as Hi.
  unfold int_of at 1 in Hi. cbn [snd fst] in Hi. rewrite Hi. reflexivity.
Qed.

Section Poll.
Variables (keys : nat → poll) (now : Z) (pe : list (Z * Handler)) (p : nat) (out : list Z) (busy : bool).
Hypothesis H0 : 0 <= now.
Hypothesis H1 : now + ConsoleTime < 2 ^ 31.
Hypothesis Hpe : Forall (λ x, x.1 <= now + ConsoleTime) pe.
Abbreviation pe' := (pe ++ [(now + ConsoleTime, ConsoleReadPoll)]).

(** The buffer is full. *)
Lemma poll_full st rl vr qr vw qw inc : inc ≠ EOF →
  handles ConsoleReadPoll now (mkConf st pe rl vr qr vw qw (con keys p out busy inc))
    (mkConf st pe' rl vr qr vw qw (con keys p out busy inc)).
Proof.
  intros Hinc fs r a b sts m Ht. cbn [call_handler]. unfold CheckCharAvail, St_of. subst now.
  rewrite Schedule_ok by done. cbn [mbind result_bind the_console console St incoming con c_con].
  rewrite (proj2 (Z.eqb_neq _ _) Hinc). by exists r, a, b, sts.
Qed.

(** There is no character. *)
Lemma poll_none st rl vr qr vw qw : keys p = NoKey →
  handles ConsoleReadPoll now (mkConf st pe rl vr qr vw qw (con keys p out busy EOF))
    (mkConf st pe' rl vr qr vw qw (con keys (S p) out busy EOF)).
Proof.
  intros Hk fs r a b sts m Ht. cbn [call_handler]. unfold CheckCharAvail, St_of. subst now.
  rewrite Schedule_ok by done. cbn [mbind result_bind the_console console St incoming con c_con negb Z.eqb EOF
    keyboard polls]. change (-1 =? EOF) with true. cbn [negb]. rewrite Hk. by exists r, a, b, sts.
Qed.

(** A character arrives, and the thread waits for it. *)
Lemma poll_wakes ch vw : keys p = Key ch →
  handles ConsoleReadPoll now (mkConf BLOCKED pe [] 0 me vw [] (con keys p out busy EOF))
    (mkConf READY pe' me 1 [] vw [] (con keys (S p) out busy ch)).
Proof.
  intros Hk fs r a b sts m Ht. cbn [call_handler]. unfold CheckCharAvail, St_of. subst now.
  rewrite Schedule_ok by done. cbn [mbind result_bind the_console console St incoming con c_con
    keyboard polls]. change (EOF =? EOF) with true. cbn [negb]. rewrite Hk.
  do 4 eexists. split; [reflexivity|done].
Qed.

(** A character arrives while the thread waits for the display, or runs. *)
Lemma poll_buffers ch st rl vw qw : keys p = Key ch →
  handles ConsoleReadPoll now (mkConf st pe rl 0 [] vw qw (con keys p out busy EOF))
    (mkConf st pe' rl 1 [] vw qw (con keys (S p) out busy ch)).
Proof.
  intros Hk fs r a b sts m Ht. cbn [call_handler]. unfold CheckCharAvail, St_of. subst now.
  rewrite Schedule_ok by done. cbn [mbind result_bind the_console console St incoming con c_con
    keyboard polls]. change (EOF =? EOF) with true. cbn [negb]. rewrite Hk.
  do 4 eexists. split; [reflexivity|done].
Qed.
End Poll.

(** The display is done with the character. *)
Lemma write_wakes keys now pe vr p out inc :
  handles ConsoleWriteDone now (mkConf BLOCKED pe [] vr [] 0 me (con keys p out true inc))
    (mkConf READY pe me vr [] 1 [] (con keys p out false inc)).
Proof. intros fs r a b sts m Ht. do 4 eexists. split; [reflexivity|done]. Qed.

(** The echo *)
Lemma go_echo fs w vr vw keys p out inc now :
  0 <= now → now + ConsoleTime < 2 ^ 31 → w <= now + ConsoleTime →
  leads_to (at_ (Do (CConsole CConsoleEcho) :: fs) RUNNING IntOn SystemMode [(w, ConsoleReadPoll)] [] vr [] vw []
              (con keys p out false inc) now)
           (at_ (Do (CP 1) :: Do (CConsole (CConsoleCheck inc)) :: fs) RUNNING IntOn SystemMode
              [(w, ConsoleReadPoll); (now + ConsoleTime, ConsoleWriteDone)] [] vr [] vw []
              (con keys p (out ++ [u8 inc]) true EOF) now).
Proof.
  intros H0 H1 Hw k (r & a & b & sts & m & -> & <- & Hm). exists 1%nat. eexists. split; [|by do 5 eexists].
  transitivity (k ← ConsoleTest_echo (St fs RUNNING IntOn false SystemMode [(w, ConsoleReadPoll)] (mkAList [] r) vr
    (mkAList [] a) vw (mkAList [] b) (con keys p out false inc) sts m); Ok k); [reflexivity|].
  unfold ConsoleTest_echo, GetChar, PutChar. cbn [the_console console St con mbind result_bind incoming set_incoming
    set_console putBusy negb ASSERT].
  match goal with |- context [Schedule _ _ _ ?k] => change k with
    (St fs RUNNING IntOn false SystemMode [(w, ConsoleReadPoll)] (mkAList [] r) vr
      (mkAList [] a) vw (mkAList [] b) (con keys p (out ++ [u8 inc]) true EOF) sts m) end.
  rewrite Schedule_ok by (try done; by repeat constructor). reflexivity.
Qed.

(** ** The loop of the test *)

Section Test.
Variables (keys : nat → poll) (fs : list Frame).
Abbreviation Poll w := (w, ConsoleReadPoll).
Abbreviation Write w := (w, ConsoleWriteDone).

(** Waiting for a character; with a character to echo; after the echo of [ch],
    when [vr] says if the next character is there already.  The next poll is at
    [w], and [p] polls have been made. *)
Definition Waiting (now w : Z) (p : nat) (out : list Z) : Kernel → Prop :=
  at_ (FSleepLoop :: FPLoop 0 IntOn :: Do (CConsole CConsoleEcho) :: fs) BLOCKED IntOff SystemMode
    [Poll w] [] 0 me 0 [] (con keys p out false EOF) now.
Definition Got (now w : Z) (p : nat) (out : list Z) (ch : Z) : Kernel → Prop :=
  at_ (Do (CConsole CConsoleEcho) :: fs) RUNNING IntOn SystemMode
    [Poll w] [] 0 [] 0 [] (con keys p out false ch) now.
Definition Written (now w : Z) (p : nat) (out : list Z) (ch : Z) (vr inc : Z) : Kernel → Prop :=
  at_ (Do (CConsole (CConsoleCheck ch)) :: fs) RUNNING IntOn SystemMode
    [Poll w] [] vr [] 0 [] (con keys p out false inc) now.

Lemma waiting_none now w p out :
  keys p = NoKey → 0 <= now <= w → w + ConsoleTime < 2 ^ 31 →
  leads_to (Waiting now w p out) (Waiting w (w + ConsoleTime) (S p) out).
Proof.
  intros Hk Hw H1. eapply leads_trans.
  - eapply (go_idle _ w ConsoleReadPoll [] (mkConf BLOCKED [] [] 0 me 0 [] (con keys p out false EOF)));
      [apply poll_none; [lia|done|done|exact Hk]|done|done|done|lia].
  - apply go_idle_end; [unfold ConsoleTime; lia|done].
Qed.

Lemma waiting_key now w p out ch :
  keys p = Key ch → 0 <= now <= w → w + ConsoleTime < 2 ^ 31 →
  leads_to (Waiting now w p out) (Got (w + SystemTick) (w + ConsoleTime) (S p) out ch).
Proof.
  intros Hk Hw H1. eapply leads_trans.
  { eapply (go_idle _ w ConsoleReadPoll [] (mkConf BLOCKED [] [] 0 me 0 [] (con keys p out false EOF)));
      [apply poll_wakes; [lia|done|done|exact Hk]|done|done|done|lia]. }
  eapply leads_trans; [apply go_idle_end; [unfold ConsoleTime; lia|done]|].
  eapply leads_trans; [apply go_awake|]. eapply leads_trans; [apply go_got_read|].
  unfold ConsoleTime, SystemTick in *.
  eapply leads_trans; [apply go_tick; unfold SystemTick; lia|]. apply go_tick_end; [unfold SystemTick; lia|done].
Qed.

(** Is there a character at poll [p], and which *)
Definition key_count (p : nat) : Z := match keys p with Key _ => 1 | _ => 0 end.
Definition key_char (p : nat) : Z := match keys p with Key ch => ch | _ => EOF end.

Lemma poll_any now pe p out busy st rl vw qw :
  0 <= now → now + ConsoleTime < 2 ^ 31 → Forall (λ x, x.1 <= now + ConsoleTime) pe → keys p ≠ AtEof →
  handles ConsoleReadPoll now (mkConf st pe rl 0 [] vw qw (con keys p out busy EOF))
    (mkConf st (pe ++ [Poll (now + ConsoleTime)]) rl (key_count p) [] vw qw (con keys (S p) out busy (key_char p))).
Proof.
  intros H0 H1 Hpe Hk. unfold key_count, key_char. destruct (keys p) as [|ch|] eqn:E; [|by apply poll_buffers|done].
  by apply poll_none.
Qed.

(** The echo goes out, the poll comes in the meantime, then the display is done. *)
Lemma echo_written now w p out ch :
  0 <= now → now < w < now + ConsoleTime → w + 2 * ConsoleTime < 2 ^ 31 → keys p ≠ AtEof →
  leads_to (Got now w p out ch)
    (at_ (FOneTickLoop SystemMode :: Do (CConsole (CConsoleCheck ch)) :: fs) RUNNING IntOff SystemMode
       [Poll (w + ConsoleTime)] [] (key_count p) [] 0 []
       (con keys (S p) (out ++ [u8 ch]) false (key_char p)) (now + ConsoleTime + SystemTick)).
Proof.
  unfold ConsoleTime, SystemTick. intros H0 Hw H1 Hk.
  eapply leads_trans; [apply go_echo; unfold ConsoleTime; lia|]. eapply leads_trans; [apply go_P|].
  eapply leads_trans; [apply go_wait_write|].
  eapply leads_trans.
  { eapply (go_idle _ w ConsoleReadPoll [Write (now + ConsoleTime)]
      (mkConf BLOCKED [Write (now + ConsoleTime)] [] 0 [] 0 me (con keys p (out ++ [u8 ch]) true EOF)));
      [apply poll_any; [lia|unfold ConsoleTime; lia|repeat constructor; unfold ConsoleTime; cbn; lia|done]|done|done|done|lia]. }
  eapply leads_trans; [apply go_idle_end; [unfold ConsoleTime; lia|repeat constructor; unfold ConsoleTime; cbn; lia]|].
  eapply leads_trans.
  { eapply (go_idle _ (now + ConsoleTime) ConsoleWriteDone [Poll (w + ConsoleTime)]
      (mkConf BLOCKED [Poll (w + ConsoleTime)] [] (key_count p) [] 0 me (con keys (S p) (out ++ [u8 ch]) true (key_char p))));
      [apply write_wakes|done|done|done|unfold ConsoleTime; lia]. }
  eapply leads_trans; [apply go_idle_end; [unfold ConsoleTime; lia|done]|].
  eapply leads_trans; [apply go_awake|]. eapply leads_trans; [apply go_got_write|].
  apply go_tick; unfold ConsoleTime, SystemTick; lia.
Qed.

(** The poll comes an odd number of ticks after an echo starts, and an even number
    after it ends. *)
Definition odd_gap (g : Z) : Prop := g = 10 ∨ g = 30 ∨ g = 50 ∨ g = 70 ∨ g = 90.

(** A poll that neither fails nor brings a character that looks like [EOF] *)
Definition key_ok (x : poll) : Prop := match x with NoKey => True | Key ch => ch ≠ EOF | AtEof => False end.

Lemma got_written now w p out ch :
  0 <= now → odd_gap (w - now) → now + 4 * ConsoleTime < 2 ^ 31 →
  key_ok (keys p) → (keys p = NoKey → key_ok (keys (S p))) →
  ∃ w' q, (q = p ∨ q = S p ∧ keys p = NoKey) ∧ odd_gap (w' - (now + 120)) ∧
    leads_to (Got now w p out ch)
      (Written (now + 110) w' (S q) (out ++ [u8 ch]) ch (key_count q) (key_char q)).
Proof.
  unfold odd_gap, ConsoleTime. intros H0 Hg H1 Hk Hk'.
  pose proof (echo_written now w p out ch H0) as Hl. unfold ConsoleTime at 1 2 in Hl.
  specialize (Hl ltac:(lia) ltac:(lia) ltac:(by intros E; rewrite E in Hk)).
  destruct (decide (w - now = 10)) as [Hd|Hd].
  2:{ exists (w + ConsoleTime), p. split; [by left|]. split; [unfold ConsoleTime; lia|].
      eapply leads_trans; [exact Hl|]. replace (now + ConsoleTime + SystemTick) with (now + 110) by (unfold ConsoleTime, SystemTick; lia).
      apply go_tick_end; [unfold ConsoleTime; lia|done]. }
  replace (now + ConsoleTime + SystemTick) with (now + 110) in Hl by (unfold ConsoleTime, SystemTick; lia).
  destruct (decide (keys p = NoKey)) as [E|E].
  - exists (now + 110 + ConsoleTime), (S p). split; [by right|]. split; [unfold ConsoleTime; lia|].
    eapply leads_trans; [exact Hl|].
    assert (key_count p = 0 ∧ key_char p = EOF) as [-> ->] by (unfold key_count, key_char; by rewrite E).
    eapply leads_trans.
    + eapply (go_tick_fire _ _ _ [] (mkConf RUNNING [] [] 0 [] 0 [] (con keys (S p) (out ++ [u8 ch]) false EOF)));
        [apply poll_any; [lia|unfold ConsoleTime; lia|done|intros E'; specialize (Hk' E); by rewrite E' in Hk']|done|unfold ConsoleTime; lia].
    + apply go_tick_end; [unfold ConsoleTime; lia|done].
  - exists (now + 110 + ConsoleTime), p. split; [by left|]. split; [unfold ConsoleTime; lia|].
    eapply leads_trans; [exact Hl|]. eapply leads_trans.
    + eapply (go_tick_fire _ _ _ [] (mkConf RUNNING [] [] (key_count p) [] 0 [] (con keys (S p) (out ++ [u8 ch]) false (key_char p))));
        [apply poll_full; [lia|unfold ConsoleTime; lia|done|]|done|unfold ConsoleTime; lia].
      unfold key_char. by destruct (keys p).
    + apply go_tick_end; [unfold ConsoleTime; lia|done].
Qed.

(** Back to the head of the loop *)
Lemma written_waiting now w p out ch : ch ≠ char_q → key_count p = 0 →
  leads_to (Written now w (S p) out ch (key_count p) (key_char p)) (Waiting now w (S p) out).
Proof.
  intros Hq Hc. assert (key_char p = EOF) as -> by (revert Hc; unfold key_count, key_char; by destruct (keys p)).
  rewrite Hc. eapply leads_trans; [apply go_check|]. rewrite (proj2 (Z.eqb_neq _ _) Hq).
  eapply leads_trans; [apply go_loop|]. eapply leads_trans; [apply go_P|]. apply go_wait_read.
Qed.

Lemma written_got now w p out ch c : ch ≠ char_q → keys p = Key c → 0 <= now → now + SystemTick < w → w < 2 ^ 31 →
  leads_to (Written now w (S p) out ch (key_count p) (key_char p)) (Got (now + SystemTick) w (S p) out c).
Proof.
  intros Hq Hc H0 Hw H1. unfold key_count, key_char. rewrite Hc.
  eapply leads_trans; [apply go_check|]. rewrite (proj2 (Z.eqb_neq _ _) Hq).
  eapply leads_trans; [apply go_loop|]. eapply leads_trans; [apply go_P|].
  eapply leads_trans; [apply go_got_read|]. eapply leads_trans; [apply go_tick; lia|]. by apply go_tick_end.
Qed.

(** The characters of the first [n] polls *)
Fixpoint typed (n : nat) : list Z :=
  match n with
  | O => []
  | S n => typed n ++ match keys n with Key ch => [u8 ch] | _ => [] end
  end.

Lemma typed_none p : keys p = NoKey → typed (S p) = typed p.
Proof. intros E. cbn. by rewrite E, app_nil_r. Qed.
Lemma typed_key p c : keys p = Key c → typed (S p) = typed p ++ [u8 c].
Proof. intros E. cbn. by rewrite E. Qed.

(** [ConsoleTest] has returned, with [out] on the display. *)
Definition Returned (out : list Z) (k : Kernel) : Prop :=
  ∃ pe vr p inc now, at_ fs RUNNING IntOn SystemMode pe [] vr [] 0 [] (con keys p out false inc) now k.

Variable i : nat.   (** the poll that finds the 'q' *)
Hypothesis Hi : Z.of_nat i < 10000000.
Hypothesis Hq : keys i = Key char_q.
Hypothesis Hbefore : ∀ j, (j < i)%nat → key_ok (keys j) ∧ keys j ≠ Key char_q.
Hypothesis Hafter : key_ok (keys (S i)) ∧ (keys (S i) = NoKey → key_ok (keys (S (S i)))).

Lemma upto j : (j <= S i)%nat → key_ok (keys j).
Proof.
  intros Hj. destruct (decide (j < i)%nat) as [H|H]; [by apply Hbefore|].
  assert (j = i ∨ j = S i) as [-> | ->] by lia; [by rewrite Hq|by apply Hafter].
Qed.

(** The echo of the 'q' is the last. *)
Lemma echo_q now w : 0 <= now → odd_gap (w - now) → now + 400 < 2 ^ 31 →
  leads_to (Got now w (S i) (typed i) char_q) (Returned (typed (S i))).
Proof.
  intros H0 Hg H1.
  destruct (got_written now w (S i) (typed i) char_q H0 Hg) as (w' & q & _ & _ & Hl);
    [unfold ConsoleTime; lia|by apply Hafter|by apply Hafter|].
  eapply leads_trans; [exact Hl|]. eapply leads_trans; [apply go_check|].
  rewrite Z.eqb_refl, <- typed_key by done. intros k Hf. exists 0%nat, k. split; [done|]. do 5 eexists; exact Hf.
Qed.

(** The test ends from every state it can be in, by the number of polls left. *)
Lemma echo_ends n : ∀ p, (S i - p <= n)%nat →
  (∀ now w, (p <= i)%nat → 0 <= now <= w → w <= 120 * Z.of_nat p + 110 →
     leads_to (Waiting now w p (typed p)) (Returned (typed (S i)))) ∧
  (∀ now w q c, p = S q → (p <= S i)%nat → 0 <= now → odd_gap (w - now) → now <= 120 * Z.of_nat p + 20 → keys q = Key c →
     leads_to (Got now w p (typed q) c) (Returned (typed (S i)))).
Proof.
  induction n as [|n IH]; intros p Hn; split.
  - lia.
  - intros now w q c -> Hp H0 Hg Hnow Hk. assert (q = i) as -> by lia.
    rewrite Hq in Hk. injection Hk as <-. apply (echo_q now w); [done|done|lia].
  - intros now w Hp Hw Hb. destruct (keys p) as [|c|] eqn:E.
    + eapply leads_trans; [apply waiting_none; [done|done|unfold ConsoleTime; lia]|].
      rewrite <- typed_none by done. apply IH; [lia| |unfold ConsoleTime; lia|unfold ConsoleTime; lia].
      destruct (decide (p = i)) as [->|]; [congruence|lia].
    + eapply leads_trans; [by apply waiting_key; [|..|unfold ConsoleTime; lia]|].
      eapply IH; [lia|done|lia|unfold SystemTick; lia|unfold odd_gap, ConsoleTime, SystemTick; lia|unfold SystemTick; lia|done].
    + pose proof (upto p) as Ho. rewrite E in Ho. destruct Ho. lia.
  - intros now w q c -> Hp H0 Hg Hnow Hk.
    destruct (decide (q = i)) as [->|Hne].
    { rewrite Hq in Hk. injection Hk as <-. apply (echo_q now w); [done|done|lia]. }
    assert (q < i)%nat as Hlt by lia.
    assert (c ≠ char_q) as Hc. { intros ->. by apply (Hbefore q Hlt). }
    destruct (got_written now w (S q) (typed q) c H0 Hg) as (w' & q' & Hq' & Hg' & Hl);
      [unfold ConsoleTime; lia|apply upto; lia| |].
    { intros E. apply upto. destruct (decide (S q = i)) as [Ei|]; [|lia]. rewrite Ei, Hq in E. done. }
    rewrite <- typed_key in Hl by done. eapply leads_trans; [exact Hl|].
    assert (typed (S q) = typed q' ∧ (S q <= q' <= i)%nat) as [-> Hrange].
    { destruct Hq' as [-> |[-> E]]; [split; [done|lia]|]. rewrite (typed_none (S q)) by done. split; [done|].
      destruct (decide (S q = i)) as [Ei|]; [|lia]. rewrite Ei, Hq in E. done. }
    unfold odd_gap in Hg'. pose proof (upto q' ltac:(lia)) as Hok'.
    destruct (keys q') as [|c'|] eqn:E; [| |done].
    + eapply leads_trans; [apply written_waiting; [done|unfold key_count; by rewrite E]|].
      rewrite <- typed_none by done. apply IH; [lia| |lia|lia].
      destruct (decide (q' = i)) as [->|]; [congruence|lia].
    + eapply leads_trans; [apply (written_got _ _ _ _ _ c'); [done|done|lia|unfold SystemTick; lia|lia]|].
      eapply IH; [lia|done|lia|unfold SystemTick; lia|unfold odd_gap, SystemTick; lia|unfold SystemTick; lia|done].
Qed.
End Test.
End Echo.

(** ** Properties *)

(** What the polls of a keyboard that is a UNIX file find *)
Definition file_keyboard (bs : list Z) (n : nat) : poll :=
  match bs !! n with Some b => Key (schar b) | None => AtEof end.

(** Nachos started with -c *)
Definition start_console (Random : nat → Z) (junkRegs : list Z) (mach : Machine.Machine) (keys : nat → poll)
  : result Kernel :=
  Initialize Random true false junkRegs false mach None [CConsole (CConsoleTest keys)].

(** The kernel when [ConsoleTest] is called, and when it is at the head of its loop *)
Definition booted (junkRegs : list Z) (mach : Machine.Machine) (keys : nat → poll) : Kernel :=
  mkKernel (mkInterrupt IntOn aempty false false SystemMode) (mkStats 10 0 10 0 0 0 0 0 0 0 0)
    {[ 0%nat := mkThread [Do (CConsole (CConsoleTest keys)); FThreadFinish] None RUNNING None junkRegs None 0 false false ]}
    0%nat None aempty aempty [] None None (Some mach) ∅ 0 [] None.
Definition looping (junkRegs : list Z) (mach : Machine.Machine) (keys : nat → poll) : Kernel :=
  St junkRegs [Do (CConsole CConsoleLoop); FThreadFinish] RUNNING IntOn false SystemMode
    [(110, ConsoleReadPoll)] aempty 0 aempty 0 aempty (con keys 0 [] false EOF)
    (mkStats 10 0 10 0 0 0 0 0 0 0 0) (Some mach).

Lemma start_ok Random junkRegs mach keys :
  start_console Random junkRegs mach keys = Ok (booted junkRegs mach keys).
Proof. reflexivity. Qed.

Lemma booted_step Random junkRegs mach keys :
  step Random true junkRegs (booted junkRegs mach keys) = Ok (looping junkRegs mach keys).
Proof. reflexivity. Qed.

(** C3: the console test.  Nachos starts [ConsoleTest] as its main thread, at any
    typing speed: the polls of the keyboard find characters or nothing, and the
    first 'q' at poll [i].  Then no ASSERT fails, in particular the display is
    never asked for a character before it is done with the last one, the test
    returns, and the display shows the characters typed up to the 'q', each once
    and in order.  Needed are: none of them is the character that looks like
    [EOF]; the keyboard is not at its end right after the 'q'; and the polls are
    few enough for the clock, an [int], not to overflow. *)
Theorem ConsoleTest_echoes Random junkRegs mach keys i :
  Machine.wf_machine mach → Z.of_nat i < 10000000 → keys i = Key char_q →
  (∀ j, (j < i)%nat → key_ok (keys j) ∧ keys j ≠ Key char_q) →
  key_ok (keys (S i)) ∧ (keys (S i) = NoKey → key_ok (keys (S (S i)))) →
  ∃ k0 n k c, start_console Random junkRegs mach keys = Ok k0 ∧ steps Random true junkRegs n k0 = Ok k ∧
    returned 0 1 k = true ∧ console k = Some c ∧ display c = typed keys (S i).
Proof.
  intros Hm Hi Hq Hb Ha.
  assert (leads_to Random junkRegs (eq (looping junkRegs mach keys))
    (Returned junkRegs keys [FThreadFinish] (typed keys (S i)))) as Hl.
  { eapply leads_trans; [|eapply leads_trans; [apply go_loop|eapply leads_trans; [apply go_P|
      eapply leads_trans; [apply go_wait_read|
      apply (proj1 (echo_ends Random junkRegs keys _ i Hi Hq Hb Ha (S i) 0 ltac:(lia)) 10 110); lia]]]].
    intros k <-. eexists 0%nat, _. split; [done|]. by do 5 eexists. }
  destruct (Hl _ eq_refl) as (n & k & Hn & pe & vr & p & inc & now & r & a & b & sts & m & -> & _).
  exists (booted junkRegs mach keys), (S n). eexists _, _. split; [apply start_ok|].
  split; [cbn [steps]; rewrite booted_step; exact Hn|]. done.
Qed.

Lemma ConsoleTest_echoes_witness :
  ∃ k0 n k c, start_console (λ _, 0) [] Machine.demo_machine
      (file_keyboard [72; 105; 113; 10]) = Ok k0 ∧
    steps (λ _, 0) true [] n k0 = Ok k ∧ returned 0 1 k = true ∧
    console k = Some c ∧ display c = [72; 105; 113].
Proof.
  apply (ConsoleTest_echoes (λ _, 0) [] _ (file_keyboard [72; 105; 113; 10]) 2); [|done|done| |done].
  - apply Machine.demo_wf.
  - intros j Hj. assert (j = 0%nat ∨ j = 1%nat) as [-> | ->] by lia; done.
Defined.

(** Where the test fails: a keyboard that is a file has to go on after the 'q',
    since the poll that comes during the last echo fails an ASSERT at the end of
    the file; and the character 255, which is [EOF], can be lost. *)
Definition console_run (fuel : nat) (bs : list Z) : result (option (list Z)) :=
  k ← start_console (λ _, 0) [] Machine.demo_machine (file_keyboard bs);
  k ← run_until (λ _, 0) true [] fuel (returned 0 1) k;
  Ok (display <$> console k).

Example file_ends_with_q : console_run 100 [113] = AssertFail.
Proof. vm_compute. reflexivity. Qed.

Example EOF_lost :
  console_run 300 [97; 97; 97; 97; 97; 255; 98; 113; 10] = Ok (Some [97; 97; 97; 97; 97; 98; 113]).
Proof. vm_compute. reflexivity. Qed.
