(* ===== verification/FsWitness.v ===== *)
(** * The file system on the simulated disk

    The theorems of the file system at concrete inputs, on the kernel that
    [Initialize] builds: every premise they state can be met. *)

From S2P Require Import Prelude Params SectorStore.
From S2P Require Import FileHdr OpenFile.
From S2P Require Import Directory.
From S2P Require Import FileSys FsSpec.
From S2P Require Kernel.
From S2P Require Import SynchDisk.
Local Open Scope Z_scope.

#[local] Instance demo_store : SectorStore Kernel.Kernel := SynchDisk_store (λ _, 0) false [].
#[local] Instance demo_laws : SectorStoreLaws Kernel.Kernel := SynchDisk_laws (λ _, 0) false [].

Definition demo_entry : DirectoryEntry :=
  mkDE true (replicate 3 0) 0 (replicate 10 0) (replicate 2 0).
Definition zeros (_ : nat) : Z := 0.
Definition zero_entry (_ : nat) : DirectoryEntry := demo_entry.
Definition zero_hdr : FileHeader := mkHdr 0 0 (replicate 62 0).

(** "a", "bc" *)
Definition nm_a : list Z := [97].
Definition nm_bc : list Z := [98; 99].

Lemma demo_entry_wf : wf_entry demo_entry.
Proof. split; try (split; [done|by repeat constructor]). Qed.

Lemma demo_junk : junk_ok zero_entry zero_hdr.
Proof.
  split; [intros i; apply demo_entry_wf|]. split; [done|]. by apply Forall_replicate.
Qed.

Lemma demo_ready : ready demo_kernel.
Proof. exact demo_kernel_idle. Qed.

(** A file of 300 bytes in the sectors 5 and 9. *)
Definition file_hdr : FileHeader := mkHdr 300 2 (5 :: 9 :: replicate 60 0).

Lemma file_hdr_wf : wf_hdr file_hdr.
Proof.
  split; try done.
  - apply Forall_cons. split; [done|]. apply Forall_cons. split; [done|]. by apply Forall_replicate.
  - repeat constructor; done.
  - repeat constructor; set_solver.
Qed.

Lemma file_hdr_length : Z.of_nat (length (file_bytes (contents demo_kernel) file_hdr)) = 300.
Proof. apply file_bytes_length; [apply ready_image, demo_ready|apply file_hdr_wf]. Qed.

Lemma ReadAt_correct_witness :
  ∃ bs k, ReadAt zeros (mkOpen file_hdr 0) 100 250 demo_kernel = Ok (50, bs, k).
Proof.
  destruct (ReadAt_correct zeros (mkOpen file_hdr 0) 100 250 demo_kernel file_hdr_wf demo_ready)
    as (k & H & _); [done|done|].
  eexists _, k. rewrite H. cbn [hdr]. rewrite file_hdr_length. reflexivity.
Defined.

Lemma WriteAt_correct_witness :
  ∃ k, WriteAt zeros (mkOpen file_hdr 0) (replicate 100 7) 100 250 demo_kernel = Ok (50, k).
Proof.
  destruct (WriteAt_correct zeros (mkOpen file_hdr 0) (replicate 100 7) 100 250 demo_kernel
    file_hdr_wf demo_ready) as (k & H & _); [by apply Forall_replicate|done|done|done|].
  exists k. rewrite H. cbn [hdr]. rewrite file_hdr_length. reflexivity.
Defined.

Definition demo_dir : Directory := newDirectory zero_entry 10.

Lemma demo_dir_wf : wf_dir demo_dir ∧ entries demo_dir = [].
Proof. apply (new_directory_wf zero_entry zero_hdr demo_junk). Qed.

Lemma Directory_refine_witness :
  ∃ dir', Add demo_dir nm_a 7 = Ok (true, dir') ∧ dir_map dir' = {[ key nm_a := 7 ]}.
Proof.
  destruct demo_dir_wf as [Hw He].
  assert (dir_map demo_dir = ∅) as Hm by (unfold dir_map; by rewrite He).
  destruct (Directory_refine demo_dir nm_a 7) as (_ & (b & dir' & Ha & _ & _ & Hb & Hd) & _);
    [done|by repeat constructor|done|].
  rewrite Hm in Hb. rewrite Hb in Ha, Hd. exists dir'. split; [exact Ha|].
  rewrite Hm in Hd. exact Hd.
Defined.

(** Create, write past the end, read back, fail to create again, remove. *)
Definition demo_ops : list fs_op :=
  [OpCreate nm_a 300; OpCreate nm_bc 0; OpWrite nm_a (replicate 20 5) 290; OpRead nm_a 20 285;
   OpCreate nm_a 1; OpRemove nm_a; OpRead nm_a 1 0].

Lemma demo_ops_valid : Forall valid_op demo_ops.
Proof.
  repeat (apply Forall_cons; split);
    try (apply Forall_nil_2); cbn; repeat split; try done;
    try (by repeat constructor); by apply Forall_replicate.
Qed.

Lemma fs_refine_witness :
  ∃ fs k1 rs k2 F, newFileSystem zeros zeros zero_entry zero_hdr true demo_kernel = Ok (fs, k1) ∧
    fs_run zeros zeros zero_entry zero_hdr fs demo_ops k1 = Ok (rs, k2) ∧
    fs_steps ∅ demo_ops rs F.
Proof.
  destruct (fs_refine zeros zeros zero_entry zero_hdr demo_ops demo_kernel demo_junk demo_ready
    demo_ops_valid) as (fs & k1 & rs & k2 & F & _ & _ & H1 & H2 & H3 & _).
  exists fs, k1, rs, k2, F. split; [exact H1|]. split; [exact H2|exact H3].
Defined.

Lemma format_mount_witness :
  ∃ fs k, newFileSystem zeros zeros zero_entry zero_hdr true demo_kernel = Ok (fs, k) ∧
    fs_state fs k ∅.
Proof.
  destruct (format_mount zeros zeros zero_entry zero_hdr demo_kernel demo_junk demo_ready)
    as (H & _). exact H.
Defined.

(** A formatted disk. *)
Lemma formatted : ∃ fs k, @fs_state Kernel.Kernel demo_store fs k ∅.
Proof.
  destruct (format_state zeros zeros zero_entry zero_hdr demo_junk demo_kernel demo_ready)
    as (fs & k & _ & H). by exists fs, k.
Qed.

Lemma nm_a_name : c_name nm_a.
Proof. by repeat constructor. Qed.

Lemma Create_correct_witness :
  ∃ fs k k', Create zeros zeros zero_entry zero_hdr fs nm_a 300 k = Ok (true, k').
Proof.
  destruct formatted as (fs & k & HF).
  pose proof (Create_correct zeros zeros zero_entry zero_hdr fs ∅ nm_a 300 k demo_junk HF
    nm_a_name ltac:(done)) as H. cbv zeta in H.
  rewrite decide_True in H by (split; [done|]; split; [done|vm_compute; done]).
  destruct H as (k' & new & H & _). exists fs, k, k'. exact H.
Defined.

(** A disk with the file "a" on it. *)
Lemma with_file : ∃ fs k new, @fs_state Kernel.Kernel demo_store fs k {[ key nm_a := new ]} ∧
  Z.of_nat (length new) = 300.
Proof.
  destruct formatted as (fs & k & HF).
  destruct (exec_create zeros zeros zero_entry zero_hdr demo_junk fs ∅ nm_a 300 k HF nm_a_name
    ltac:(done)) as (b & k' & F' & _ & HF' & Hst). cbn [fs_step] in Hst.
  rewrite decide_True in Hst by (split; [done|]; split; [done|vm_compute; done]).
  destruct Hst as (_ & new & Hl & ->). exists fs, k', new. split; [exact HF'|exact Hl].
Qed.

Lemma Remove_correct_witness :
  ∃ fs k k', Remove zeros zeros zero_entry fs nm_a k = Ok (true, k') ∧ fs_state fs k' ∅.
Proof.
  destruct with_file as (fs & k & new & HF & _).
  destruct (Remove_correct zeros zeros zero_entry zero_hdr fs _ nm_a k demo_junk HF)
    as (k' & H & HF' & _). rewrite delete_singleton_eq in HF'. rewrite lookup_singleton_eq in H.
  exists fs, k, k'. split; [exact H|exact HF'].
Defined.

Lemma WriteAt_isolated_witness :
  ∃ f k k' n, WriteAt zeros f [1; 2; 3] 3 0 k = Ok (n, k').
Proof.
  destruct with_file as (fs & k & new & HF & _).
  destruct (exec_open zeros zero_entry zero_hdr demo_junk fs _ nm_a k HF) as ([f|] & k1 & _ & Ho).
  - destruct Ho as (Hr & dir & bm & Hi & _ & Hop & _).
    destruct (WriteAt_isolated zeros fs dir bm nm_a f [1; 2; 3] 3 0 k1 Hr Hi Hop)
      as (_ & k' & H & _); [by repeat constructor|done|done|done|].
    eexists f, k1, k', _. exact H.
  - destruct Ho as [Ho _]. exfalso. by rewrite lookup_singleton_eq in Ho.
Defined.
