(* ===== verification/KernelInv.v ===== *)
(** * Safety of the thread system

    An invariant of the kernel of Sched.v for threads that use the thread
    system, semaphores and the timer: every thread is in at most one place
    (running, on the ready list, or on one semaphore's queue), its status says
    which, its stack can be resumed there, and interrupts are off wherever the
    code relies on it.  Every step preserves the invariant, and none fails an
    assertion or touches a thread or semaphore that does not exist. *)

From S2P Require Import Prelude Params.
From S2P Require Import LList.
From S2P Require Import Kernel Interrupt Threads Synch Disk Sched SynchDisk.
From S2P Require Machine.
Local Open Scope Z_scope.

(** ** Stacks *)

(** Calls on the thread system and the first [n] semaphores. *)
Fixpoint call_ok (n : nat) (c : Call) : bool :=
  match c with
  | CPrint _ _ | CYield => true
  | CFork body => forallb (call_ok n) body
  | CP s | CV s => Nat.ltb s n
  | CReadSector _ _ | CWriteSector _ _ | CConsole _ | CUser _ => false
  end.

Definition frame_ok (n : nat) (f : Frame) : bool :=
  match f with Do c => call_ok n c | FPLoop s _ => Nat.ltb s n | _ => true end.

(** Frames that run with interrupts off. *)
Definition off (f : Frame) : bool :=
  match f with
  | FOneTickLoop _ | FSleepLoop | FIdleLoop | FRunTail | FPLoop _ _ => true
  | _ => false
  end.

(** What can be above what: a frame that needs interrupts off is only below
    frames that leave them off. *)
Definition above (f g : Frame) : bool :=
  match f, g with
  | FThreadFinish, _ => false
  | (FSleepLoop | FRunTail), FPLoop _ _ => true
  | FIdleLoop, FSleepLoop => true
  | FIdleLoop, _ => false
  | _, _ => negb (off g)
  end.

Fixpoint wf_stack (n : nat) (fs : list Frame) : bool :=
  match fs with
  | [] => true
  | f :: fs' =>
      frame_ok n f && match fs' with [] => true | g :: _ => above f g end && wf_stack n fs'
  end.

(** A thread that has not finished. *)
Definition live (n : nat) (fs : list Frame) : Prop :=
  wf_stack n fs = true ∧ list.last fs = Some FThreadFinish.

Definition sleeping (fs : list Frame) : bool :=
  match fs with FSleepLoop :: _ | FIdleLoop :: _ => true | _ => false end.

(** Where [Run] can resume a thread. *)
Definition resumable (fs : list Frame) : bool :=
  match fs with FRunTail :: _ | FInterruptEnable :: _ => true | _ => false end.

Definition thread_ok (th : Thread) : Prop :=
  space th = None ∧ default STACK_FENCEPOST (stack th) = STACK_FENCEPOST ∧ parent th = None.

(** ** The invariant *)

(** Only the timer has interrupts pending. *)
Record hw_ok (k : Kernel) : Prop := {
  hw_handler : inHandler (interrupt k) = false;
  hw_pending : Forall (λ x, ∃ p, x.2 = Some p ∧ handler p = TimerHandler) (elems (pending (interrupt k)));
  hw_timer : timer k = None → elems (pending (interrupt k)) = [];
  hw_machine : wf_machine_opt (machine k) }.

(** A waiting thread: its status, and a stack that can be resumed. *)
Definition parked (n : nat) (T : gmap tid Thread) (st : ThreadStatus) (t : tid) : Prop :=
  ∃ th, T !! t = Some th ∧ thread_ok th ∧ tstatus th = st ∧ live n (frames th) ∧
    resumable (frames th) = true.

(** [R]: the ready list; [Q]: the queues of the semaphores. *)
Record base (n : nat) (k : Kernel) (R : list tid) (Q : list (list tid)) : Prop := {
  b_hw : hw_ok k;
  b_ready : (elems (readyList k)).*2 = Some <$> R;
  b_queues : Forall2 (λ x q, (elems (queue x)).*2 = Some <$> q) (sems k) Q;
  b_sems : length (sems k) = n;
  b_nodup : NoDup (R ++ mjoin Q);
  b_parked_ready : ∀ t, t ∈ R → t ≠ currentThread k → parked n (threads k) READY t;
  b_parked_blocked : ∀ t, t ∈ mjoin Q → t ≠ currentThread k → parked n (threads k) BLOCKED t;
  b_doomed : ∀ d, threadToBeDestroyed k = Some d →
    (d ∉ R ++ mjoin Q) ∧ is_Some (threads k !! d) }.

(** The running thread: it runs; or it waits for a semaphore, asleep or just
    woken up; or it has finished, and waits to be replaced. *)
Inductive mode (n : nat) (k : Kernel) (R : list tid) (Q : list (list tid)) (th : Thread) : Prop :=
| Running : live n (frames th) → sleeping (frames th) = false → tstatus th = RUNNING →
    currentThread k ∉ R ++ mjoin Q → threadToBeDestroyed k ≠ Some (currentThread k) →
    mode n k R Q th
| Waiting : live n (frames th) → sleeping (frames th) = true →
    (currentThread k ∈ R ∧ tstatus th = READY ∨
     currentThread k ∈ mjoin Q ∧ tstatus th = BLOCKED) → mode n k R Q th
| Finished : frames th = [FSleepLoop] ∨ frames th = [FIdleLoop; FSleepLoop] →
    currentThread k ∉ R ++ mjoin Q → tstatus th = BLOCKED → mode n k R Q th.

Record Inv (n : nat) (k : Kernel) (R : list tid) (Q : list (list tid)) (th : Thread) : Prop := {
  i_base : base n k R Q;
  i_thread : threads k !! currentThread k = Some th;
  i_ok : thread_ok th;
  i_level : match frames th with f :: _ => off f = true → level (interrupt k) = IntOff | [] => True end;
  i_mode : mode n k R Q th }.

Definition good (n : nat) (r : result Kernel) : Prop :=
  match r with
  | Ok k => ∃ R Q th, Inv n k R Q th
  | Exited c => c = 0
  | _ => False
  end.

(** The running thread, with the frames [fs] left. *)
Record running (n : nat) (k : Kernel) (R : list tid) (Q : list (list tid)) (th : Thread) : Prop := {
  r_base : base n k R Q;
  r_thread : threads k !! currentThread k = Some th;
  r_ok : thread_ok th;
  r_live : live n (frames th);
  r_on : match frames th with f :: _ => off f = false | [] => True end;
  r_status : tstatus th = RUNNING;
  r_free : currentThread k ∉ R ++ mjoin Q;
  r_doomed : threadToBeDestroyed k ≠ Some (currentThread k) }.

Lemma running_good n k R Q th : running n k R Q th → Inv n k R Q th.
Proof.
  intros [Hb Ht Ho Hl Hon Hs Hf Hd]. split; try done.
  - destruct (frames th) as [|f fs]; [done|]. congruence.
  - apply Running; try done. destruct (frames th) as [|[] fs]; done.
Qed.

(** ** Stacks grow and shrink *)

Lemma live_tail n f fs : live n (f :: fs) → f ≠ FThreadFinish → live n fs ∧ fs ≠ [].
Proof.
  intros [Hw Hl] Hne. cbn [wf_stack] in Hw. apply andb_true_iff in Hw as [_ Hw].
  destruct fs as [|g fs]; [cbn in Hl; congruence|]. split; [|done]. split; [done|].
  by rewrite last_cons_cons in Hl.
Qed.

Lemma live_finish n fs : live n (FThreadFinish :: fs) → fs = [].
Proof.
  intros [Hw _]. cbn [wf_stack] in Hw. by destruct fs as [|g fs]; [|rewrite andb_false_r in Hw].
Qed.

Lemma live_push n f fs :
  live n fs → frame_ok n f = true →
  match fs with g :: _ => above f g = true | [] => False end → live n (f :: fs).
Proof.
  intros [Hw Hl] Hf Ha. destruct fs as [|g fs]; [done|]. split.
  - change (frame_ok n f && above f g && wf_stack n (g :: fs) = true). by rewrite Hf, Ha, Hw.
  - by rewrite last_cons_cons.
Qed.

Lemma live_below n f fs g :
  live n (f :: g :: fs) → above f g = true.
Proof.
  intros [Hw _]. cbn [wf_stack] in Hw. apply andb_true_iff in Hw as [Hw _].
  by apply andb_true_iff in Hw as [_ Hw].
Qed.

Lemma live_frame n f fs : live n (f :: fs) → frame_ok n f = true.
Proof.
  intros [Hw _]. cbn [wf_stack] in Hw. apply andb_true_iff in Hw as [Hw _].
  by apply andb_true_iff in Hw as [Hw _].
Qed.

(** Frames that leave interrupts as the caller wants them. *)
Definition plain (f : Frame) : bool :=
  match f with FThreadFinish | FSleepLoop | FIdleLoop => false | _ => true end.

Lemma above_plain f g : plain f = true → off g = false → above f g = true.
Proof. destruct f; intros Hp Hg; try done; cbn; rewrite Hg; by destruct g. Qed.

(** ** Steps that leave the queues alone *)

Lemma hw_eq k k' :
  hw_ok k → interrupt k' = interrupt k → timer k' = timer k → machine k' = machine k → hw_ok k'.
Proof. intros [] H1 H2 H3. split; rewrite ?H1, ?H2, ?H3; done. Qed.

Lemma base_upd n k k' R Q :
  base n k R Q → hw_ok k' → readyList k' = readyList k → sems k' = sems k →
  currentThread k' = currentThread k → threadToBeDestroyed k' = threadToBeDestroyed k →
  (∀ t, t ≠ currentThread k → threads k' !! t = threads k !! t) →
  is_Some (threads k' !! currentThread k) →
  base n k' R Q.
Proof.
  intros [? ? ? ? ? ? ? Hdm] Hh Hr Hs Hc Hd Ht Hct.
  assert (∀ st t, t ≠ currentThread k → parked n (threads k) st t → parked n (threads k') st t) as Hp.
  { intros st t Hne (th & Hth & ?). exists th. by rewrite Ht. }
  split; rewrite ?Hr, ?Hs, ?Hc, ?Hd; auto. intros d E. destruct (Hdm d E) as [? Hsome].
  split; [done|]. destruct (decide (d = currentThread k)) as [->|Hne]; [done|]. by rewrite Ht.
Qed.

Lemma put_other k th t : t ≠ currentThread k →
  threads (put_thread k (currentThread k) th) !! t = threads k !! t.
Proof. intros Hne. cbn. by rewrite lookup_insert_ne. Qed.

Lemma running_put n k R Q th th' :
  running n k R Q th → thread_ok th' → live n (frames th') →
  match frames th' with f :: _ => off f = false | [] => True end → tstatus th' = RUNNING →
  running n (put_thread k (currentThread k) th') R Q th'.
Proof.
  intros [Hb Ht Ho Hl Hon Hs Hf Hd] Ho' Hl' Hon' Hs'. split; try done.
  - eapply base_upd; [done|by eapply hw_eq; [apply Hb|..]|done..| |].
    { intros t Hne. by apply put_other. }
    cbn. by rewrite lookup_insert_eq.
  - cbn. by rewrite lookup_insert_eq.
Qed.

(** Changes of the hardware only. *)
Record same_sched (k k' : Kernel) : Prop := {
  ss_threads : threads k' = threads k;
  ss_current : currentThread k' = currentThread k;
  ss_doomed : threadToBeDestroyed k' = threadToBeDestroyed k;
  ss_ready : readyList k' = readyList k;
  ss_sems : sems k' = sems k }.

Lemma running_same n k k' R Q th :
  running n k R Q th → same_sched k k' → hw_ok k' → running n k' R Q th.
Proof.
  intros [Hb Ht Ho Hl Hon Hs Hf Hd] [E1 E2 E3 E4 E5] Hh. split; rewrite ?E1, ?E2, ?E3; try done.
  eapply base_upd; try done; [by rewrite E1|]. by rewrite E1, Ht.
Qed.

Lemma push_put k th f :
  threads k !! currentThread k = Some th →
  push f k = Ok (put_thread k (currentThread k) (set_frames (f :: frames th) th)).
Proof. intros Ht. unfold push, upd_thread, get_thread. by rewrite Ht. Qed.

Lemma running_push n k R Q th f :
  running n k R Q th → frame_ok n f = true → plain f = true → off f = false →
  ∃ k', push f k = Ok k' ∧ running n k' R Q (set_frames (f :: frames th) th) ∧
    interrupt k' = interrupt k.
Proof.
  intros Hr Hf Hp Ho. pose proof Hr as [Hb Ht Hok Hl Hon Hs Hfr Hd].
  rewrite (push_put k th) by done. eexists. split; [done|]. split; [|done].
  eapply running_put; [done|done| |done|done]. cbn. apply live_push; [done|done|].
  destruct (frames th) as [|g fs]; [by destruct Hl|]. by apply above_plain.
Qed.

Lemma push_off n k R Q th f :
  running n k R Q th → frame_ok n f = true → plain f = true → level (interrupt k) = IntOff →
  good n (push f k).
Proof.
  intros [Hb Ht Hok Hl Hon Hs Hfr Hd] Hf Hp Hlv. rewrite (push_put k th) by done.
  exists R, Q, (set_frames (f :: frames th) th).
  assert (live n (f :: frames th)) as Hl'.
  { apply live_push; [done|done|]. destruct (frames th) as [|g fs]; [by destruct Hl|].
    by apply above_plain. }
  split; [|cbn; by rewrite lookup_insert_eq|done|intros _; exact Hlv|].
  - eapply base_upd; [done|by eapply hw_eq; [apply Hb|..]|done..| |].
    { intros t Hne. by apply put_other. }
    cbn. by rewrite lookup_insert_eq.
  - apply Running; try done. by destruct f.
Qed.

Lemma SetLevel_off k : SetLevel IntOff k = Ok (level (interrupt k), set_level k IntOff).
Proof. done. Qed.

Lemma hw_set_level k l : hw_ok k → hw_ok (set_level k l).
Proof. intros []. by split. Qed.

Lemma running_level n k R Q th l : running n k R Q th → running n (set_level k l) R Q th.
Proof. intros Hr. eapply running_same; [done|done|]. apply hw_set_level, Hr. Qed.

Lemma SetLevel_good n k R Q th l :
  running n k R Q th → good n ('(_, k) ← SetLevel l k; Ok k).
Proof.
  intros Hr. pose proof (hw_handler _ (b_hw _ _ _ _ (r_base _ _ _ _ _ Hr))) as Hh.
  pose proof (running_level n k R Q th l Hr) as Hr'.
  unfold SetLevel. rewrite Hh, orb_true_r. cbn [ASSERT mbind result_bind].
  destruct (_ && _).
  - destruct (running_push n _ R Q th FOneTick Hr') as (k' & Hp & Hr'' & _); [done..|].
    unfold ChangeLevel. rewrite Hp. cbn [mbind result_bind]. eexists R, Q, _. by apply running_good.
  - cbn [mbind result_bind]. eexists R, Q, _. by apply running_good.
Qed.

(** ** Interrupts *)

Section Steps.
Variables (Random : nat → Z) (USER_PROGRAM : bool) (junkRegs : list Z) (n : nat).
(** [rand()] returns a number that is not negative. *)
Hypothesis Random_nonneg : ∀ i, 0 <= Random i.
Implicit Types (k : Kernel) (R : list tid) (Q : list (list tid)) (th : Thread).

Abbreviation handle := (call_handler Random).
Abbreviation exec := (exec Random USER_PROGRAM junkRegs).

Lemma insert_sorted_Forall {A} (P : Z * option A → Prop) w x xs :
  Forall P xs → P (w, x) → Forall P (insert_sorted w x xs).
Proof.
  intros Hx Hw. induction Hx as [|y ys Hy Hys IH]; cbn; [by constructor|].
  destruct (w <? y.1); by repeat constructor.
Qed.

(** The timer's handler schedules the next interrupt and asks for a yield. *)
Lemma timer_fires k :
  inHandler (interrupt k) = true → is_Some (timer k) →
  Forall (λ x, ∃ p, x.2 = Some p ∧ handler p = TimerHandler) (elems (pending (interrupt k))) →
  ∃ k', TimerExpired Random k = Ok k' ∧ same_sched k k' ∧ timer k' = timer k ∧
    machine k' = machine k ∧ level (interrupt k') = level (interrupt k) ∧
    Forall (λ x, ∃ p, x.2 = Some p ∧ handler p = TimerHandler) (elems (pending (interrupt k'))).
Proof.
  intros Hh [r Ht] Hp. unfold TimerExpired. rewrite Ht.
  destruct (TimeOfNextInterrupt Random r k) as [t k1] eqn:E.
  assert (0 < t ∧ same_sched k k1 ∧ timer k1 = timer k ∧ machine k1 = machine k ∧
    interrupt k1 = interrupt k) as (Hpos & Hss & Ht1 & Hm1 & Hi1).
  { unfold TimeOfNextInterrupt in E. destruct r; injection E as <- <-; [|by repeat split].
    split; [|by repeat split]. pose proof (Z.rem_nonneg (Random (randoms k)) (TimerTicks * 2)
      ltac:(done) (Random_nonneg _)). lia. }
  unfold Schedule. rewrite (proj2 (Z.ltb_lt 0 t)) by done. cbn [ASSERT mbind result_bind].
  unfold TimerInterruptHandler, YieldOnReturn. cbn [set_pending set_interrupt interrupt istatus].
  assert (Forall (λ x, ∃ p, x.2 = Some p ∧ handler p = TimerHandler)
    (insert_sorted (wrap32 (totalTicks (stats k1) + t))
      (Some (mkPending TimerHandler (wrap32 (totalTicks (stats k1) + t)) TimerInt))
      (elems (pending (interrupt k1))))) as Hins.
  { apply insert_sorted_Forall; [by rewrite Hi1|]. by eexists. }
  rewrite Hi1 in *. destruct Hss. destruct (negb _).
  - cbn [inHandler]. rewrite Hh. cbn [ASSERT mbind result_bind]. eexists. split; [done|].
    split; [by split|]. split; [exact (eq_trans Ht1 Ht)|]. split; [exact Hm1|]. split; [by cbn; rewrite Hi1|]. done.
  - eexists. split; [done|]. split; [by split|]. split; [exact (eq_trans Ht1 Ht)|]. split; [exact Hm1|].
    split; [by cbn; rewrite Hi1|]. done.
Qed.

Lemma same_sched_trans k k1 k2 : same_sched k k1 → same_sched k1 k2 → same_sched k k2.
Proof. intros [] []. split; congruence. Qed.

Lemma CheckIfDue_ok adv k :
  hw_ok k → level (interrupt k) = IntOff →
  ∃ b k', CheckIfDue handle adv k = Ok (b, k') ∧ same_sched k k' ∧ hw_ok k' ∧
    level (interrupt k') = IntOff.
Proof.
  intros Hw Hl. pose proof Hw as [Hh Hp Ht Hm]. unfold CheckIfDue. rewrite Hl. cbn [bool_decide decide ASSERT mbind result_bind].
  rewrite bool_decide_eq_true_2 by done. cbn [ASSERT mbind result_bind].
  unfold aSortedRemove. destruct (elems (pending (interrupt k))) as [|[w x] rest] eqn:E.
  { exists false, k. split; [|by split].
    do 2 f_equal. by destruct k as [[]]. }
  apply Forall_cons in Hp as [(p & Hx & Hpt) Hp]. cbn in Hx. subst x. cbn [fst snd].
  assert (is_Some (timer k)) as Htm by (destruct (timer k); [done|by specialize (Ht eq_refl)]).
  set (l' := mkAList rest _).
  assert (Hins : ∀ j, Forall (λ x, ∃ p, x.2 = Some p ∧ handler p = TimerHandler)
    (elems (aSortedInsert l' (Some p) j))).
  { intros j. cbn. apply insert_sorted_Forall; [done|by exists p]. }
  destruct (negb adv && _).
  { eexists false, _. split; [done|]. split; [by split|]. split; [|done].
    split; [done|apply Hins| |done]. intros H. cbn in H. rewrite H in Htm. by destruct Htm. }
  set (k1 := if _ <? _ then _ else _).
  assert (same_sched k k1 ∧ timer k1 = timer k ∧ machine k1 = machine k ∧
    interrupt k1 = interrupt (set_pending k l')) as (Hss & Ht1 & Hm1 & Hi1).
  { unfold k1. destruct (_ <? _); by repeat split. }
  destruct (_ && _ && _).
  { eexists false, _. split; [done|]. split; [destruct Hss; by split|]. split.
    - split; cbn; rewrite ?Hi1, ?Ht1, ?Hm1; [done|apply Hins| |done].
      intros H. cbn in H. rewrite H in Htm. by destruct Htm.
    - cbn. by rewrite Hi1. }
  unfold fire. destruct (delayed_load_Ok k1) as (m' & -> & Hm'); [by rewrite Hm1|].
  cbn [mbind result_bind]. rewrite Hpt. cbn [call_handler].
  destruct (timer_fires (set_status (set_inHandler (set_machine k1 m') true) SystemMode))
    as (k2 & -> & Hss2 & Ht2 & Hm2 & Hl2 & Hp2);
    [done|by cbn; rewrite Ht1|by cbn; rewrite Hi1|].
  cbn [mbind result_bind]. eexists true, _. split; [done|]. split; [|split].
  - destruct Hss2, Hss. split; cbn in *; congruence.
  - split; cbn; [done|done| |by rewrite Hm2]. rewrite Ht2. cbn. rewrite Ht1.
    intros H. cbn in H. rewrite H in Htm. by destruct Htm.
  - cbn. rewrite Hl2. cbn. by rewrite Hi1.
Qed.
(** ** Queues and dispatch *)

Lemma FindNextToRun_spec k R :
  (elems (readyList k)).*2 = Some <$> R →
  ∃ l, FindNextToRun k = (head R, set_readyList k l) ∧ (elems l).*2 = Some <$> tail R.
Proof.
  unfold FindNextToRun, aRemove. destruct (elems (readyList k)) as [|[z x] rest];
    destruct R as [|t R]; try done; intros HR; [by eexists|].
  rewrite !fmap_cons in HR. injection HR as -> HR. by eexists.
Qed.

(** [k'] is [k] with [t] made ready. *)
Lemma ReadyToRun_spec k t th R :
  (elems (readyList k)).*2 = Some <$> R → threads k !! t = Some th →
  ∃ l, ReadyToRun t k = Ok (set_readyList (put_thread k t (set_tstatus READY th)) l) ∧
    (elems l).*2 = Some <$> (R ++ [t]).
Proof.
  intros HR Ht. unfold ReadyToRun, setStatus, upd_thread, get_thread. rewrite Ht.
  cbn [mbind result_bind]. eexists. split; [done|]. cbn. rewrite !fmap_app. by rewrite HR.
Qed.

Lemma resumable_awake fs : resumable fs = true → sleeping fs = false.
Proof. by destruct fs as [|[]]. Qed.

Lemma Run_good k R Q th t :
  hw_ok k → level (interrupt k) = IntOff →
  (elems (readyList k)).*2 = Some <$> R →
  Forall2 (λ x q, (elems (queue x)).*2 = Some <$> q) (sems k) Q → length (sems k) = n →
  NoDup (R ++ mjoin Q) →
  threads k !! currentThread k = Some th → thread_ok th →
  let T := <[currentThread k := set_frames (FRunTail :: frames th) th]> (threads k) in
  t ∉ R ++ mjoin Q → parked n T READY t →
  (∀ x, x ∈ R → parked n T READY x) → (∀ x, x ∈ mjoin Q → parked n T BLOCKED x) →
  (∀ d, threadToBeDestroyed k = Some d → (d ∉ R ++ mjoin Q) ∧ is_Some (T !! d) ∧ d ≠ t) →
  good n (Run t k).
Proof.
  intros Hh Hl HR HQ Hn Hnd Hth (Hsp & Hst & Hpa) T Ht (tht & Htt & Hok & Hs & Hlv & Hre) HpR HpQ Hd.
  unfold Run, CheckOverflow, get_thread. rewrite Hth. cbn [mbind result_bind]. rewrite Hsp.
  cbn [mbind result_bind]. rewrite Hth. cbn [mbind result_bind].
  assert (match stack th with None => Ok tt | Some w => ASSERT (w =? STACK_FENCEPOST) end = Ok tt) as ->.
  { revert Hst. destruct (stack th) as [w|]; simpl; [intros ->|done]. done. }
  cbn [mbind result_bind]. rewrite (push_put k th) by done. cbn [mbind result_bind].
  unfold setStatus, upd_thread, get_thread. cbn [set_current put_thread set_threads threads].
  fold T. rewrite Htt. cbn [mbind result_bind].
  assert (Hput : ∀ st x, x ≠ t → parked n T st x →
    parked n (<[t := set_tstatus RUNNING tht]> T) st x).
  { intros st x Hne (y & Hy & ?). exists y. by rewrite lookup_insert_ne. }
  exists R, Q, (set_tstatus RUNNING tht). split.
  - split; cbn [put_thread set_threads set_current interrupt readyList sems currentThread threads
      threadToBeDestroyed]; auto; try (by eapply hw_eq).
    intros d E. destruct (Hd d E) as (? & ? & ?). split; [done|].
    by rewrite lookup_insert_ne.
  - cbn. by rewrite lookup_insert_eq.
  - done.
  - cbn. destruct (frames tht) as [|f fs]; [done|]. done.
  - apply Running; try done; [by apply resumable_awake|]. cbn. intros E.
    by destruct (Hd t E) as (_ & _ & ?).
Qed.

Lemma parked_insert T st t x th :
  t ≠ x → parked n T st x → parked n (<[t := th]> T) st x.
Proof. intros Hne (y & Hy & ?). exists y. by rewrite lookup_insert_ne. Qed.

Lemma Yield_good k R Q th : running n k R Q th → good n (Yield k).
Proof.
  intros Hr. unfold Yield. rewrite SetLevel_off. cbn [mbind result_bind].
  pose proof (running_level n k R Q th IntOff Hr) as [Hb Ht Hok Hl Hon Hs Hf Hd].
  set (k0 := set_level k IntOff) in *. pose proof Hb as [Hh HR HQ Hn Hnd HpR HpQ Hdm].
  destruct (FindNextToRun_spec k0 R HR) as (l & -> & Hlt).
  destruct R as [|t R]; cbn [head tail] in *.
  - (* nobody else is ready *)
    eapply (SetLevel_good n (set_readyList k0 l) [] Q th).
    split; try done. split; try done. by eapply hw_eq.
  - apply not_elem_of_app in Hf as [Hf1 Hf2]. apply not_elem_of_cons in Hf1 as [Hne Hf1].
    destruct (ReadyToRun_spec (set_readyList k0 l) (currentThread k0) th R Hlt Ht) as (l2 & Hrr & Hl2).
    change (currentThread (set_readyList k0 l)) with (currentThread k0).
    rewrite Hrr. cbn [mbind result_bind].
    set (k2 := set_readyList (put_thread (set_readyList k0 l) (currentThread k0)
      (set_tstatus READY th)) l2).
    assert (threads k2 !! currentThread k2 = Some (set_tstatus READY th)) as Ht2
      by (cbn; by rewrite lookup_insert_eq).
    rewrite (push_put k2 _ _ Ht2). cbn [mbind result_bind].
    cbn [app] in Hnd, HpR. apply NoDup_cons in Hnd as [Hnt Hnd].
    assert (parked n (threads k0) READY t) as Hpt by (apply HpR; [by left|done]).
    assert (Hcur : ∀ T', T' !! currentThread k0 = Some
        (set_frames (FRunTail :: FSetLevel (level (interrupt k)) :: frames th) (set_tstatus READY th)) →
      parked n T' READY (currentThread k0)).
    { intros T' HT'. eexists. split; [done|]. split; [done|]. split; [done|]. split; [|done]. cbn.
      apply live_push; [|done|done]. apply live_push; [done|done|].
      destruct (frames th) as [|g fs]; [by destruct Hl|]. cbn in Hon |- *. by rewrite Hon. }
    eapply (Run_good _ (R ++ [currentThread k0]) Q
      (set_frames (FSetLevel (level (interrupt k)) :: frames th) (set_tstatus READY th))); try done;
      cbn [k2 set_readyList put_thread set_threads interrupt readyList sems threads currentThread
      threadToBeDestroyed frames set_frames set_tstatus]; rewrite ?insert_insert_eq.
    + by eapply hw_eq.
    + rewrite <- app_assoc. rewrite (Permutation_app_comm [_]), app_assoc.
      apply NoDup_app. split; [done|]. split; [|apply NoDup_singleton].
      intros x Hx ->%list_elem_of_singleton. by apply elem_of_app in Hx as [?|?].
    + by rewrite lookup_insert_eq.
    + rewrite !elem_of_app, list_elem_of_singleton. rewrite elem_of_app in Hnt.
      intros [[?|?]|?]; [tauto|congruence|tauto].
    + by apply parked_insert.
    + intros x [Hx | ->%list_elem_of_singleton]%elem_of_app.
      * apply parked_insert; [by intros <-|]. apply HpR; [by right|by intros ->].
      * apply Hcur. by rewrite lookup_insert_eq.
    + intros x Hx. apply parked_insert; [by intros <-|]. apply HpQ; [done|by intros ->].
    + intros d E. destruct (Hdm d E) as [Hdm' Hsome].
      split; [|split; [|by intros ->; apply Hdm'; left]].
      2: { destruct (decide (d = currentThread k0)) as [->|]; [by rewrite lookup_insert_eq|].
           by rewrite lookup_insert_ne. }
      rewrite !elem_of_app, list_elem_of_singleton. intros [[Hx | ->]|Hx].
      * apply Hdm'. right. apply elem_of_app. by left.
      * done.
      * apply Hdm'. right. apply elem_of_app. by right.
Qed.

(** ** One lemma per frame *)

Lemma base_ready k R Q t th l :
  base n k R Q → t ∉ R ++ mjoin Q → t ≠ currentThread k →
  threadToBeDestroyed k ≠ Some t →
  thread_ok th → live n (frames th) → resumable (frames th) = true →
  (elems l).*2 = Some <$> (R ++ [t]) →
  base n (set_readyList (put_thread k t (set_tstatus READY th)) l) (R ++ [t]) Q.
Proof.
  intros [Hh HR HQ Hn Hnd HpR HpQ Hdm] Ht Hne Hd Hok Hl Hre Hlt.
  split; cbn [set_readyList put_thread set_threads interrupt readyList sems currentThread threads
    threadToBeDestroyed]; try done.
  - by eapply hw_eq.
  - rewrite <- app_assoc, (Permutation_app_comm [t]), app_assoc.
    apply NoDup_app. split; [done|]. split; [|apply NoDup_singleton].
    by intros x Hx ->%list_elem_of_singleton.
  - intros x [Hx | ->%list_elem_of_singleton]%elem_of_app Hx'.
    + apply parked_insert; [|by apply HpR]. intros <-. apply Ht, elem_of_app. by left.
    + eexists. split; [by rewrite lookup_insert_eq|]. done.
  - intros x Hx Hx'. apply parked_insert; [|by apply HpQ]. intros <-.
    apply Ht, elem_of_app. by right.
  - intros d E. destruct (Hdm d E) as [Hdm' Hsome]. split.
    + rewrite !elem_of_app, list_elem_of_singleton in *. intros [[?| ->]|?]; [tauto|congruence|tauto].
    + destruct (decide (d = t)) as [->|]; [by rewrite lookup_insert_eq|]. by rewrite lookup_insert_ne.
Qed.

(** A thread that runs does not notice that another one became ready. *)
Lemma running_ready k R Q th t l tht :
  running n k R Q th → base n (set_readyList (put_thread k t tht) l) (R ++ [t]) Q →
  t ≠ currentThread k → running n (set_readyList (put_thread k t tht) l) (R ++ [t]) Q th.
Proof.
  intros [Hb Ht Hok Hl Hon Hs Hf Hd] Hb' Hne. split; try done; cbn.
  - by rewrite lookup_insert_ne.
  - rewrite !elem_of_app, list_elem_of_singleton in *. intros [[?|?]|?]; [tauto|congruence|tauto].
Qed.

Lemma wf_body body :
  forallb (call_ok n) body = true → live n ([FInterruptEnable] ++ (Do <$> body) ++ [FThreadFinish]).
Proof.
  intros Hb. assert (live n ((Do <$> body) ++ [FThreadFinish]) ∧
    match (Do <$> body) ++ [FThreadFinish] with g :: _ => off g = false | [] => False end) as [Hl Hh].
  { induction body as [|c body IH]; [done|]. cbn in Hb. apply andb_true_iff in Hb as [Hc Hb].
    destruct (IH Hb) as [Hl Hh]. split; [|done]. cbn [fmap list_fmap app].
    apply live_push; [done|done|]. change (list_fmap Call Frame Do body) with (Do <$> body).
    destruct ((Do <$> body) ++ [FThreadFinish]) as [|g fs]; [done|]. cbn. by rewrite Hh. }
  cbn [app]. apply live_push; [done|done|]. destruct (_ ++ _) as [|g fs]; [done|]. cbn. by rewrite Hh.
Qed.

Lemma Fork_good k R Q th body :
  running n k R Q th → forallb (call_ok n) body = true →
  good n (let '(t, k) := newThread junkRegs k in Fork t body k).
Proof.
  intros Hr Hb. unfold newThread, Fork, StackAllocate, upd_thread, get_thread.
  set (t := fresh (dom (threads k))).
  assert (threads k !! t = None) as Hfresh by (apply not_elem_of_dom, is_fresh).
  pose proof Hr as [Hbase Ht Hok Hl Hon Hs Hf Hd]. pose proof Hbase as [Hh HR HQ Hn Hnd HpR HpQ Hdm].
  assert (t ≠ currentThread k) as Hne by (intros E; rewrite E in Hfresh; congruence).
  assert (t ∉ R ++ mjoin Q) as Hnt.
  { intros [Hx|Hx]%elem_of_app; [destruct (HpR t Hx Hne) as (? & ? & _)|
      destruct (HpQ t Hx Hne) as (? & ? & _)]; congruence. }
  assert (threadToBeDestroyed k ≠ Some t) as Hdt.
  { intros E. destruct (Hdm t E) as [_ [? ?]]. congruence. }
  cbn [put_thread set_threads threads]. rewrite lookup_insert_eq. cbn [mbind result_bind].
  set (tht := set_stack STACK_FENCEPOST _ _). rewrite SetLevel_off. cbn [mbind result_bind].
  set (k1 := set_level _ IntOff).
  assert (k1 = put_thread (set_level k IntOff) t tht) as E1.
  { unfold k1, put_thread, set_threads. cbn. by rewrite insert_insert_eq. }
  assert (threads k1 !! t = Some tht) as Ht1 by (rewrite E1; cbn; by rewrite lookup_insert_eq).
  destruct (ReadyToRun_spec k1 t tht R) as (l & -> & Hlt); [done|done|]. cbn [mbind result_bind].
  assert (set_readyList (put_thread k1 t (set_tstatus READY tht)) l =
    set_readyList (put_thread (set_level k IntOff) t (set_tstatus READY tht)) l) as ->.
  { rewrite E1. unfold put_thread, set_threads. cbn. by rewrite insert_insert_eq. }
  pose proof (running_level n k R Q th IntOff Hr) as Hr0.
  eapply (SetLevel_good n _ (R ++ [t]) Q th). apply running_ready; [done| |done].
  apply base_ready; try done; [apply Hr0|]. by apply wf_body.
Qed.

Lemma P_good k R Q th s :
  running n k R Q th → Nat.ltb s n = true → good n (P s k).
Proof.
  intros Hr Hs. unfold P. rewrite SetLevel_off. cbn [mbind result_bind].
  eapply push_off; [by apply running_level|done|done|done].
Qed.

(** ** The queues of the semaphores *)

Lemma queue_lookup k R Q s :
  base n k R Q → Nat.ltb s n = true →
  ∃ x q, get_sem k s = Ok x ∧ sems k !! s = Some x ∧ Q !! s = Some q ∧
    (elems (queue x)).*2 = Some <$> q.
Proof.
  intros Hb Hs%Nat.ltb_lt. destruct Hb as [_ _ HQ Hn _ _ _ _].
  destruct (lookup_lt_is_Some_2 (sems k) s) as [x Hx]; [lia|].
  destruct (Forall2_lookup_l _ _ _ _ _ HQ Hx) as (q & Hq & Hxq). exists x, q.
  split; [|done]. unfold get_sem. apply aget_Ok. rewrite Nat2Z.id. split; [lia|done].
Qed.

Lemma put_sem_ok k s x :
  length (sems k) = n → Nat.ltb s n = true → put_sem k s x = Ok (set_sems k (<[s := x]> (sems k))).
Proof.
  intros Hn Hs%Nat.ltb_lt. unfold put_sem. rewrite aset_Ok by lia.
  cbn [mbind result_bind]. by rewrite Nat2Z.id.
Qed.

Lemma mjoin_insert (Q : list (list tid)) s q q' :
  Q !! s = Some q → mjoin Q ≡ₚ q ++ mjoin (delete s Q) ∧
  mjoin (<[s := q']> Q) ≡ₚ q' ++ mjoin (delete s Q).
Proof.
  intros Hq. assert (∀ Q' r, Q' !! s = Some r → mjoin Q' ≡ₚ r ++ mjoin (delete s Q')) as H.
  { clear. intros Q'. revert s. induction Q' as [|a Q' IH]; intros [|s] r Hr; try done.
    - cbn in Hr. by injection Hr as ->.
    - cbn in Hr |- *. rewrite (IH s r Hr). rewrite Permutation_app_swap_app. done. }
  split; [by apply H|]. rewrite (H _ q') by (apply list_lookup_insert_eq; by eapply lookup_lt_Some).
  by rewrite !delete_take_drop, take_insert_ge, drop_insert_lt by lia.
Qed.

Lemma base_sems k R Q s q q' x :
  base n k R Q → Q !! s = Some q → (elems (queue x)).*2 = Some <$> q' →
  NoDup (R ++ mjoin (<[s := q']> Q)) →
  (∀ t, t ∈ mjoin (<[s := q']> Q) → t ≠ currentThread k → parked n (threads k) BLOCKED t) →
  (∀ d, threadToBeDestroyed k = Some d → d ∉ mjoin (<[s := q']> Q)) →
  base n (set_sems k (<[s := x]> (sems k))) R (<[s := q']> Q).
Proof.
  intros [Hh HR HQ Hn Hnd HpR HpQ Hdm] Hq Hx Hnd' HpQ' Hdm'.
  split; cbn [set_sems interrupt readyList sems currentThread threads threadToBeDestroyed]; try done.
  - by eapply hw_eq.
  - by apply Forall2_insert.
  - by rewrite length_insert.
  - intros d E. destruct (Hdm d E) as [H1 H2]. specialize (Hdm' d E). split; [|done].
    rewrite elem_of_app in *. tauto.
Qed.

Lemma V_good k R Q th s :
  running n k R Q th → Nat.ltb s n = true → good n (V s k).
Proof.
  intros Hr0 Hs. unfold V. rewrite SetLevel_off. cbn [mbind result_bind].
  set (old := level (interrupt k)). clearbody old.
  pose proof (running_level n k R Q th IntOff Hr0) as Hr. clear Hr0.
  set (k0 := set_level k IntOff) in *. clearbody k0.
  pose proof Hr as [Hb Ht Hok Hl Hon Hst Hf Hd]. pose proof Hb as [Hh HR HQ Hn Hnd HpR HpQ Hdm].
  destruct (queue_lookup k0 R Q s Hb Hs) as (x & q & -> & Hx & Hq & Hxq). cbn [mbind result_bind].
  unfold aRemove. destruct (elems (queue x)) as [|[z w] rest] eqn:E; destruct q as [|t q]; try done.
  - cbn [mbind result_bind]. rewrite put_sem_ok by done. cbn [mbind result_bind].
    apply (SetLevel_good n _ R Q th). split; try done.
    rewrite <- (list_insert_id Q s []) by done.
    apply (base_sems k0 R Q s [] []); try done; rewrite (list_insert_id Q s []) by done; try done.
    intros d Ed. destruct (Hdm d Ed) as [H1 _]. rewrite elem_of_app in H1. tauto.
  - rewrite !fmap_cons in Hxq. injection Hxq as Hw Hxq. cbn in Hw. subst w. cbn [snd].
    destruct (mjoin_insert Q s (t :: q) q Hq) as [HP HP'].
    assert (t ∈ mjoin Q) as HtQ by (rewrite HP; left).
    assert (t ≠ currentThread k0) as Hne.
    { intros ->. apply Hf, elem_of_app. by right. }
    destruct (HpQ t HtQ Hne) as (tht & Htt & Htok & Hts & Htl & Htr).
    destruct (ReadyToRun_spec k0 t tht R HR Htt) as (l & -> & Hlt). cbn [mbind result_bind].
    rewrite put_sem_ok by done. cbn [mbind result_bind].
    set (x' := mkSem _ _).
    assert (base n (set_sems k0 (<[s := x']> (sems k0))) R (<[s := q]> Q)) as HbS.
    { apply (base_sems k0 R Q s (t :: q) q); try done.
      - rewrite HP' . rewrite HP in Hnd. cbn [app] in Hnd.
        rewrite <- Permutation_middle in Hnd. by apply NoDup_cons in Hnd as [_ ?].
      - intros y Hy Hyc. apply HpQ; [|done]. rewrite HP. right. by rewrite <- HP'.
      - intros d Ed Hy. destruct (Hdm d Ed) as [H1 _]. apply H1, elem_of_app. right.
        rewrite HP. right. by rewrite <- HP'. }
    assert (t ∉ R ++ mjoin (<[s := q]> Q)) as HtR.
    { rewrite HP'. rewrite HP in Hnd. cbn [app] in Hnd. rewrite <- Permutation_middle in Hnd.
      by apply NoDup_cons in Hnd as [? _]. }
    assert (running n (set_sems k0 (<[s := x']> (sems k0))) R (<[s := q]> Q) th) as HrS.
    { split; try done. cbn. intros Hy. apply Hf. rewrite elem_of_app in *.
      destruct Hy as [?|Hy]; [by left|right]. rewrite HP. right. by rewrite <- HP'. }
    apply (SetLevel_good n _ (R ++ [t]) (<[s := q]> Q) th).
    apply (running_ready (set_sems k0 (<[s := x']> (sems k0)))); [done| |done].
    apply (base_ready (set_sems k0 (<[s := x']> (sems k0)))); try done.
    intros Ed. destruct (Hdm t Ed) as [H1 _]. apply H1, elem_of_app. by right.
Qed.

Lemma put_put k t th th' : put_thread (put_thread k t th) t th' = put_thread k t th'.
Proof. unfold put_thread, set_threads. cbn. by rewrite insert_insert_eq. Qed.

Lemma put_lookup k t th : threads (put_thread k t th) !! t = Some th.
Proof. cbn. by rewrite lookup_insert_eq. Qed.

Lemma Sleep_put k th :
  threads k !! currentThread k = Some th → level (interrupt k) = IntOff →
  Sleep k = Ok (put_thread k (currentThread k)
    (set_frames (FSleepLoop :: frames th) (set_tstatus BLOCKED th))).
Proof.
  intros Ht Hl. unfold Sleep. rewrite Hl. rewrite bool_decide_eq_true_2 by done.
  cbn [ASSERT mbind result_bind]. unfold setStatus, upd_thread, get_thread. rewrite Ht.
  cbn [mbind result_bind]. rewrite (push_put _ (set_tstatus BLOCKED th)) by apply put_lookup.
  change (currentThread (put_thread k _ _)) with (currentThread k). by rewrite put_put.
Qed.

Lemma P_loop_good k R Q th s old :
  running n k R Q th → level (interrupt k) = IntOff → Nat.ltb s n = true →
  good n (P_loop s old k).
Proof.
  intros Hr Hlv Hs. pose proof Hr as [Hb Ht Hok Hl Hon Hst Hf Hd].
  pose proof Hb as [Hh HR HQ Hn Hnd HpR HpQ Hdm]. unfold P_loop.
  destruct (queue_lookup k R Q s Hb Hs) as (x & q & -> & Hx & Hq & Hxq). cbn [mbind result_bind].
  destruct (Z.eqb_spec (value x) 0) as [Hz|Hz].
  2: { rewrite put_sem_ok by done. cbn [mbind result_bind].
       apply (SetLevel_good n _ R Q th). split; try done.
       rewrite <- (list_insert_id Q s q) by done.
       apply (base_sems k R Q s q q); try done; rewrite (list_insert_id Q s q) by done; try done.
       intros d E. destruct (Hdm d E) as [H1 _]. rewrite elem_of_app in H1. tauto. }
  rewrite put_sem_ok by done. cbn [mbind result_bind].
  set (x' := mkSem _ _). set (me := currentThread k) in *.
  destruct (mjoin_insert Q s q (q ++ [me]) Hq) as [HP HP'].
  set (k1 := set_sems k (<[s := x']> (sems k))).
  rewrite (push_put k1 th) by exact Ht. cbn [mbind result_bind].
  rewrite (Sleep_put _ (set_frames (FPLoop s old :: frames th) th)) by (done || apply put_lookup).
  change (currentThread (put_thread k1 _ _)) with me. change (currentThread k1) with me.
  rewrite put_put. cbn [frames set_frames set_tstatus].
  rewrite HP in Hnd, Hf.
  assert (me ∉ R ++ mjoin (delete s Q) ++ q) as Hme.
  { rewrite !elem_of_app in *. tauto. }
  exists R, (<[s := q ++ [me]]> Q), (set_frames (FSleepLoop :: FPLoop s old :: frames th)
    (set_tstatus BLOCKED th)).
  assert (base n k1 R (<[s := q ++ [me]]> Q)) as Hb1.
  { apply (base_sems k R Q s q (q ++ [me])); try done.
    - cbn. rewrite !fmap_app. by rewrite Hxq.
    - rewrite HP'. rewrite <- app_assoc, (Permutation_app_comm [me]), !app_assoc.
      apply NoDup_app. rewrite <- app_assoc. split; [done|]. split; [|apply NoDup_singleton].
      intros y Hy ->%list_elem_of_singleton. apply Hme. rewrite !elem_of_app in *. tauto.
    - intros y Hy Hyc. apply HpQ; [|done]. rewrite HP. rewrite HP' in Hy.
      rewrite !elem_of_app, list_elem_of_singleton in *. tauto.
    - intros d Ed Hy. destruct (Hdm d Ed) as [H1 _]. rewrite HP in H1. rewrite HP' in Hy.
      rewrite !elem_of_app, list_elem_of_singleton in *. destruct Hy as [[?| ->]|?]; tauto. }
  split; [| |done|intros _; exact Hlv|].
  - eapply base_upd; [exact Hb1|by eapply hw_eq|done..| |].
    { intros t Hne. by apply put_other. }
    eexists. apply put_lookup.
  - apply put_lookup.
  - apply Waiting; [|done|].
    + cbn. apply live_push; [|done|done]. apply live_push; [done|done|].
      destruct (frames th) as [|g fs]; [by destruct Hl|]. by apply above_plain.
    + right. split; [|done]. change (currentThread (put_thread k1 _ _)) with me. rewrite HP'.
      rewrite !elem_of_app, list_elem_of_singleton. tauto.
Qed.

Lemma OneTick_good k R Q th : running n k R Q th → good n (OneTick k).
Proof.
  intros Hr. unfold OneTick. eapply push_off; [|done|done|done].
  eapply running_level, running_same; [exact Hr|by destruct (bool_decide _)|].
  eapply hw_eq; [apply Hr|by destruct (bool_decide _)..].
Qed.

Lemma OneTick_loop_good k R Q th old :
  running n k R Q th → level (interrupt k) = IntOff → good n (OneTick_loop handle old k).
Proof.
  intros Hr Hl. unfold OneTick_loop.
  destruct (CheckIfDue_ok false k) as (b & k1 & -> & Hss & Hhw & Hl1); [apply Hr|done|].
  cbn [mbind result_bind]. pose proof (running_same _ _ _ _ _ _ Hr Hss Hhw) as Hr1. destruct b.
  { by eapply push_off. }
  pose proof (running_level _ _ _ _ _ IntOn Hr1) as Hr2.
  change (set_level k1 IntOn) with (ChangeLevel IntOn k1) in Hr2.
  destruct (yieldOnReturn _); [|eexists R, Q, _; by apply running_good].
  set (k2 := set_status _ SystemMode).
  assert (running n k2 R Q th) as Hr3.
  { eapply running_same; [exact Hr2|done|].
    destruct (b_hw _ _ _ _ (r_base _ _ _ _ _ Hr2)). by split. }
  destruct (running_push n k2 R Q th (FOneTickEnd old)) as (k3 & -> & Hr4 & _); [done..|].
  cbn [mbind result_bind].
  destruct (running_push n k3 R Q _ (Do CYield) Hr4) as (k4 & -> & Hr5 & _); [done..|].
  eexists R, Q, _. by apply running_good.
Qed.

(** The running thread sleeps: it waits for a semaphore, or has finished.  [fs]
    is what is left to do when it is woken up. *)
Record asleep k R Q th (fs : list Frame) : Prop := {
  a_base : base n k R Q;
  a_thread : threads k !! currentThread k = Some th;
  a_ok : thread_ok th;
  a_where :
    (live n (FSleepLoop :: fs) ∧
      (currentThread k ∈ R ∧ tstatus th = READY ∨ currentThread k ∈ mjoin Q ∧ tstatus th = BLOCKED))
    ∨ (fs = [] ∧ (currentThread k ∉ R ++ mjoin Q) ∧ tstatus th = BLOCKED) }.

Lemma asleep_put k R Q th fs gs :
  asleep k R Q th fs → asleep (put_thread k (currentThread k) (set_frames gs th)) R Q (set_frames gs th) fs.
Proof.
  intros [Hb Ht Hok Hw]. split; [|apply put_lookup|done|done].
  eapply base_upd; [exact Hb|by eapply hw_eq; [apply Hb|..]|done..| |].
  { intros t Hne. by apply put_other. }
  eexists. apply put_lookup.
Qed.

Lemma asleep_same k k' R Q th fs :
  asleep k R Q th fs → same_sched k k' → hw_ok k' → asleep k' R Q th fs.
Proof.
  intros [Hb Ht Hok Hw] [E1 E2 E3 E4 E5] Hh. split; rewrite ?E1, ?E2, ?E3; try done.
  eapply base_upd; try done; [by rewrite E1|]. by rewrite E1, Ht.
Qed.

Lemma Inv_asleep k R Q th fs :
  Inv n k R Q th → frames th = FSleepLoop :: fs ∨ frames th = FIdleLoop :: FSleepLoop :: fs →
  asleep k R Q th fs.
Proof.
  intros [Hb Ht Hok _ [Hl Hs _ _ _|Hl Hs Hq|Hf Hq Hst]] E; split; try done.
  - by destruct E as [E|E]; rewrite E in Hs.
  - left. split; [|done]. destruct E as [E|E]; rewrite E in Hl; [done|].
    by apply live_tail in Hl as [? _].
  - right. destruct E as [E|E]; rewrite E in Hf; by destruct Hf as [[= ->]|[= ->]].
Qed.

Lemma asleep_Inv k R Q th fs :
  asleep k R Q th fs → level (interrupt k) = IntOff →
  frames th = FSleepLoop :: fs ∨ frames th = FIdleLoop :: FSleepLoop :: fs → Inv n k R Q th.
Proof.
  intros [Hb Ht Hok Hw] Hl E. split; try done.
  - by destruct E as [-> | ->].
  - destruct Hw as [[Hlv Hq]|(-> & Hq & Hst)].
    + apply Waiting; [|by destruct E as [-> | ->]|done].
      destruct E as [-> | ->]; [done|]. by apply live_push.
    + apply Finished; [|done|done]. by destruct E; [left|right].
Qed.

Lemma asleep_push k R Q th fs f gs :
  asleep k R Q th fs → frames th = gs → level (interrupt k) = IntOff →
  f :: gs = FSleepLoop :: fs ∨ f :: gs = FIdleLoop :: FSleepLoop :: fs → good n (push f k).
Proof.
  intros Ha Hg Hl Hf. rewrite (push_put k th) by apply Ha. rewrite Hg.
  exists R, Q, (set_frames (f :: gs) th). apply (asleep_Inv _ _ _ _ fs); [|done|done].
  by apply asleep_put.
Qed.

Lemma Idle_loop_good k R Q th fs :
  asleep k R Q th fs → frames th = FSleepLoop :: fs → level (interrupt k) = IntOff →
  good n (Idle_loop handle k).
Proof.
  intros Ha Hf Hl. unfold Idle_loop.
  destruct (CheckIfDue_ok false k) as (b & k1 & -> & Hss & Hhw & Hl1); [apply Ha|done|].
  cbn [mbind result_bind]. pose proof (asleep_same _ _ _ _ _ _ Ha Hss Hhw) as Ha1. destruct b.
  - eapply asleep_push; [exact Ha1|done|done|by right].
  - exists R, Q, th. apply (asleep_Inv _ _ _ _ fs); [|done|by left].
    eapply asleep_same; [exact Ha1|done|]. destruct Hhw. by split.
Qed.

Lemma above_run g : above FSleepLoop g = true → above FRunTail g = true.
Proof. by destruct g. Qed.

Lemma live_run fs : live n (FSleepLoop :: fs) → live n (FRunTail :: fs).
Proof.
  intros Hl. destruct (live_tail n FSleepLoop fs Hl) as [Hl' Hne]; [done|].
  destruct fs as [|g fs]; [done|]. apply live_push; [done|done|].
  apply above_run. by eapply live_below.
Qed.

Lemma Sleep_loop_good k R Q th fs :
  asleep k R Q th fs → frames th = fs → level (interrupt k) = IntOff →
  good n (Sleep_loop handle k).
Proof.
  intros Ha Hf Hl. pose proof Ha as [Hb Ht Hok Hw]. pose proof Hb as [Hh HR HQ Hn Hnd HpR HpQ Hdm].
  unfold Sleep_loop. destruct (FindNextToRun_spec k R HR) as (l & -> & Hlt).
  destruct R as [|t R]; cbn [head tail] in *.
  - (* idle *)
    assert (asleep (set_readyList k l) [] Q th fs) as Ha'.
    { split; try done. split; try done. by eapply hw_eq. }
    rewrite (push_put _ th) by done. cbn [mbind result_bind]. rewrite Hf.
    pose proof (asleep_put _ _ _ _ _ (FSleepLoop :: fs) Ha') as Ha1.
    set (k1 := put_thread _ _ _) in *. unfold Idle.
    assert (asleep (set_status k1 IdleMode) [] Q (set_frames (FSleepLoop :: fs) th) fs) as Ha2.
    { eapply asleep_same; [exact Ha1|done|]. destruct (b_hw _ _ _ _ (a_base _ _ _ _ _ Ha1)). by split. }
    destruct (CheckIfDue_ok true (set_status k1 IdleMode)) as (b & k2 & -> & Hss & Hhw & Hl2);
      [apply Ha2|done|].
    cbn [mbind result_bind]. destruct b; [|done].
    eapply asleep_push; [eapply asleep_same; [exact Ha2|done|done]|done|done|by right].
  - (* dispatch *)
    cbn [app] in Hnd. apply NoDup_cons in Hnd as [Hnt Hnd].
    assert (Hstay : ∀ st x, x ≠ currentThread k → parked n (threads k) st x →
      parked n (<[currentThread k := set_frames (FRunTail :: fs) th]> (threads k)) st x).
    { intros st x Hne Hp. by apply parked_insert. }
    assert (Hme : ∀ st, tstatus th = st → live n (FSleepLoop :: fs) →
      parked n (<[currentThread k := set_frames (FRunTail :: fs) th]> (threads k)) st (currentThread k)).
    { intros st Hst Hlv. eexists. split; [by rewrite lookup_insert_eq|]. split; [done|].
      split; [done|]. split; [by apply live_run|done]. }
    eapply (Run_good _ R Q th); try done; cbn [set_readyList interrupt readyList sems threads
      currentThread threadToBeDestroyed]; rewrite ?Hf.
    + by eapply hw_eq.
    + destruct (decide (t = currentThread k)) as [->|Hne].
      * apply Hme; destruct Hw as [(Hlv & [[_ ?]|[Hq _]])|(_ & Hq & _)]; try done.
        -- exfalso. apply Hnt, elem_of_app. by right.
        -- exfalso. apply Hq, elem_of_app. left. by left.
        -- exfalso. apply Hq, elem_of_app. left. by left.
      * apply Hstay; [done|]. apply HpR; [by left|done].
    + intros x Hx. destruct (decide (x = currentThread k)) as [->|Hne].
      * apply Hme; destruct Hw as [(Hlv & [[_ ?]|[Hq _]])|(_ & Hq & _)]; try done.
        all: exfalso.
        -- apply NoDup_app in Hnd as (_ & Hdis & _). by apply (Hdis (currentThread k)).
        -- apply Hq, elem_of_app. left. by right.
        -- apply Hq, elem_of_app. left. by right.
      * apply Hstay; [done|]. apply HpR; [by right|done].
    + intros x Hx. destruct (decide (x = currentThread k)) as [->|Hne].
      * apply Hme; destruct Hw as [(Hlv & [[Hq _]|[_ ?]])|(_ & Hq & _)]; try done.
        all: exfalso.
        -- apply elem_of_cons in Hq as [<-|Hq]; [apply Hnt, elem_of_app; by right|].
           apply NoDup_app in Hnd as (_ & Hdis & _). by apply (Hdis (currentThread k)).
        -- apply Hq, elem_of_app. by right.
        -- apply Hq, elem_of_app. by right.
      * apply Hstay; [done|]. by apply HpQ.
    + intros d E. destruct (Hdm d E) as [H1 H2]. cbn [app] in H1.
      apply not_elem_of_cons in H1 as [H1 H1']. split; [done|]. split; [|done].
      destruct (decide (d = currentThread k)) as [->|]; [by rewrite lookup_insert_eq|].
      by rewrite lookup_insert_ne.
Qed.

Lemma Inv_running k R Q th f fs :
  Inv n k R Q th → frames th = f :: fs → plain f = true → f ≠ FRunTail →
  running n (put_thread k (currentThread k) (set_frames fs th)) R Q (set_frames fs th) ∧
  frame_ok n f = true ∧ (off f = true → level (interrupt k) = IntOff).
Proof.
  intros [Hb Ht Hok Hlv [Hl Hs Hst Hq Hd|Hl Hs Hq|Hf Hq Hst]] E Hp Hne; rewrite E in *;
    [|by destruct f|by destruct f; destruct Hf].
  pose proof (live_frame _ _ _ Hl) as Hfr. split; [|done].
  destruct (live_tail n f fs Hl) as [Hl' Hne']; [by intros ->|].
  split; cbn [frames set_frames tstatus]; try done; [|apply put_lookup|].
  - eapply base_upd; [exact Hb|by eapply hw_eq; [apply Hb|..]|done..| |].
    { intros t Hnt. by apply put_other. }
    eexists. apply put_lookup.
  - destruct fs as [|g fs]; [done|]. pose proof (live_below _ _ _ _ Hl) as Ha.
    destruct f; try done; destruct g; done.
Qed.

Lemma Run_tail_good k R Q th fs :
  Inv n k R Q th → frames th = FRunTail :: fs →
  good n (Run_tail (put_thread k (currentThread k) (set_frames fs th))).
Proof.
  intros [Hb Ht Hok Hlv [Hl Hs Hst Hq Hd|Hl Hs Hq|Hf Hq Hst]] E; rewrite E in *;
    [|done|by destruct Hf].
  destruct (live_tail n FRunTail fs Hl) as [Hl' Hne']; [done|].
  set (me := currentThread k) in *. set (th' := set_frames fs th).
  assert (base n (put_thread k me th') R Q) as Hb'.
  { eapply base_upd; [exact Hb|by eapply hw_eq; [apply Hb|..]|done..| |].
    { intros t Hnt. by apply put_other. }
    eexists. apply put_lookup. }
  assert (∃ k', (match threadToBeDestroyed k with
      | None => Ok (put_thread k me th')
      | Some t => k ← delete_thread t (put_thread k me th'); Ok (set_doomed k None)
      end) = Ok k' ∧ base n k' R Q ∧ threads k' !! me = Some th' ∧ currentThread k' = me ∧
      threadToBeDestroyed k' = None ∧ level (interrupt k') = level (interrupt k)) as
    (k' & Hk' & Hb2 & Ht2 & Hc2 & Hd2 & Hlv2).
  { destruct (threadToBeDestroyed k) as [d|] eqn:Ed.
    - assert (d ≠ me) as Hdne by congruence. unfold delete_thread.
      change (currentThread (put_thread k me th')) with me.
      rewrite bool_decide_eq_false_2 by done. cbn [negb ASSERT mbind result_bind].
      eexists. split; [done|]. split; [|split; [|done]].
      + destruct Hb' as [Hh HR HQ Hn Hnd HpR HpQ Hdm]. destruct (Hdm d Ed) as [Hd1 _].
        assert (∀ st x, x ∈ R ++ mjoin Q → parked n (threads (put_thread k me th')) st x →
          parked n (delete d (threads (put_thread k me th'))) st x) as Hp.
        { intros st x Hx (y & Hy & ?). exists y. rewrite lookup_delete_ne; [done|].
          by intros ->. }
        split; cbn [set_doomed set_threads interrupt readyList sems threads currentThread
          threadToBeDestroyed]; try done.
        * by eapply hw_eq.
        * intros x Hx Hxc. apply Hp; [apply elem_of_app; by left|by apply HpR].
        * intros x Hx Hxc. apply Hp; [apply elem_of_app; by right|by apply HpQ].
      + cbn. by rewrite lookup_delete_ne, lookup_insert_eq.
    - eexists. split; [done|]. split; [done|]. split; [apply put_lookup|done]. }
  unfold Run_tail. change (threadToBeDestroyed (put_thread k me th')) with (threadToBeDestroyed k).
  rewrite Hk'. cbn [mbind result_bind]. unfold get_thread. rewrite Hc2, Ht2. cbn [mbind result_bind].
  destruct Hok as (Hsp & Hstk & Hpar). cbn [space th' set_frames]. rewrite Hsp.
  exists R, Q, th'. split; [done|by rewrite Hc2|done| |].
  - cbn [frames th' set_frames]. destruct fs as [|g fs]; [done|]. intros _. rewrite Hlv2. by apply Hlv.
  - apply Running; try done; [|by rewrite Hc2|by rewrite Hd2].
    cbn [frames th' set_frames]. destruct fs as [|g fs]; [done|].
    pose proof (live_below _ _ _ _ Hl) as Ha. by destruct g.
Qed.

(** The loop of [Finish] ends. *)
Lemma forget_loop_ok m i me l :
  0 <= i → asize l <= i + Z.of_nat m → ∃ l', forget_loop m i me l = Ok l'.
Proof.
  revert i l. induction m as [|m IH]; intros i l Hi Hm; cbn [forget_loop]; btest; try (by eexists); [lia|].
  pose proof (wrap32_le (asize l) ltac:(lia)). pose proof (wrap32_le (asize l - 1) ltac:(lia)).
  unfold aRemove. destruct (elems l) as [|x xs]; cbn [fst snd];
    (apply IH; [lia|]; destruct (bool_decide _); cbn [aAppend asize];
     rewrite ?wrap32_add_l; replace (asize l - 1 + 1) with (asize l) by lia; lia).
Qed.

(** Threads nobody knows. *)
Lemma base_garbage k R Q t th :
  base n k R Q → threads k !! t = None → t ≠ currentThread k → base n (put_thread k t th) R Q.
Proof.
  intros [Hh HR HQ Hn Hnd HpR HpQ Hdm] Hn' Hne.
  assert (∀ st x, parked n (threads k) st x → parked n (threads (put_thread k t th)) st x) as Hp.
  { intros st x (y & Hy & ?). exists y. cbn. rewrite lookup_insert_ne; [done|]. congruence. }
  split; try done; cbn [put_thread set_threads interrupt readyList sems threads currentThread
    threadToBeDestroyed]; auto.
  - by eapply hw_eq.
  - intros d E. destruct (Hdm d E) as [H1 H2]. split; [done|].
    rewrite lookup_insert_ne; [done|]. intros ->. by rewrite Hn' in H2; destruct H2.
Qed.

Lemma base_doom k R Q :
  base n k R Q → currentThread k ∉ R ++ mjoin Q → is_Some (threads k !! currentThread k) →
  base n (set_doomed k (Some (currentThread k))) R Q.
Proof.
  intros [Hh HR HQ Hn Hnd HpR HpQ Hdm] Hq Hs. split; try done.
  - by eapply hw_eq.
  - by intros d [= <-].
Qed.

Lemma finish_sleep k R Q th :
  base n k R Q → threads k !! currentThread k = Some th → thread_ok th → frames th = [] →
  (currentThread k ∉ R ++ mjoin Q) → level (interrupt k) = IntOff → good n (Sleep k).
Proof.
  intros Hb Ht Hok Hf Hq Hl. rewrite (Sleep_put k th) by done. rewrite Hf.
  exists R, Q, (set_frames [FSleepLoop] (set_tstatus BLOCKED th)).
  apply (asleep_Inv _ _ _ _ []); [|done|by left]. split; [|apply put_lookup|done|by right].
  eapply base_upd; [exact Hb|by eapply hw_eq; [apply Hb|..]|done..| |].
  { intros t Hne. by apply put_other. }
  eexists. apply put_lookup.
Qed.

Lemma Finish_good k R Q th :
  base n k R Q → threads k !! currentThread k = Some th → thread_ok th → frames th = [] →
  (currentThread k ∉ R ++ mjoin Q) → good n (Finish USER_PROGRAM junkRegs k).
Proof.
  intros Hb Ht Hok Hf Hq. unfold Finish. rewrite SetLevel_off. cbn [mbind result_bind].
  change (currentThread (set_level k IntOff)) with (currentThread k).
  assert (base n (set_level k IntOff) R Q) as Hb0.
  { eapply base_upd; [exact Hb|apply hw_set_level, Hb|done..]. }
  assert (base n (set_doomed (set_level k IntOff) (Some (currentThread k))) R Q) as Hb1.
  { apply (base_doom (set_level k IntOff)); [done|done|by eexists]. }
  set (k1 := set_doomed _ _) in *.
  assert (threads k1 !! currentThread k1 = Some th) as Ht1 by done.
  destruct USER_PROGRAM; cbn [mbind result_bind].
  2: { by eapply finish_sleep. }
  unfold get_thread. change (threads k1 !! currentThread k) with (threads k1 !! currentThread k1).
  rewrite Ht1. cbn [mbind result_bind]. destruct Hok as (Hsp & Hst & Hpar). rewrite Hpar.
  cbn [mbind result_bind newThread]. set (t := fresh (dom (threads k1))).
  assert (threads k1 !! t = None) as Hfresh by (apply not_elem_of_dom, is_fresh).
  assert (t ≠ currentThread k1) as Hne by (intros E; rewrite E in Hfresh; congruence).
  unfold upd_thread, get_thread. rewrite put_lookup. cbn [mbind result_bind]. rewrite put_put.
  change (activeThreads (put_thread k1 t _)) with (activeThreads k1).
  destruct (forget_loop_ok (Z.to_nat (asize (activeThreads k1))) 0 (currentThread k) (activeThreads k1))
    as (l & ->); [lia|lia|]. cbn [mbind result_bind].
  set (tht := set_ID _ _). eapply (finish_sleep _ R Q th); try done.
  - eapply base_upd; [apply (base_garbage k1 R Q t tht); done|
      by eapply hw_eq; [apply Hb1|..]|done..|].
    exists th. cbn. by rewrite lookup_insert_ne.
  - cbn. by rewrite lookup_insert_ne.
Qed.

(** Every step preserves the invariant and goes wrong nowhere. *)
Lemma step_good k R Q th : Inv n k R Q th → good n (step Random USER_PROGRAM junkRegs k).
Proof.
  intros Hi. pose proof Hi as [Hb Ht Hok Hlv Hm]. unfold step, get_thread. rewrite Ht.
  cbn [mbind result_bind]. destruct (frames th) as [|f fs] eqn:E.
  { destruct Hm as [[_ Hl] _ _ _ _|[_ Hl] _ _|Hf _ _]; rewrite E in *; [done|done|by destruct Hf]. }
  assert ((plain f = true ∧ f ≠ FRunTail) ∨
    f = FThreadFinish ∨ f = FSleepLoop ∨ f = FIdleLoop ∨ f = FRunTail) as [[Hp Hne]|Hf]
    by (destruct f; first [by left|right; tauto]).
  { destruct (Inv_running k R Q th f fs Hi E Hp Hne) as (Hr & Hfr & Hl).
    destruct f as [c| |old|old|l| | | |s l| |]; try done; cbn [Sched.exec].
    - destruct c as [w m| |body|s|s|j b|j b|cc|u]; cbn in Hfr; cbn [do_call].
      + eexists R, Q, _. apply running_good. eapply running_same; [exact Hr|done|].
        eapply hw_eq; [apply Hr|done..].
      + by eapply Yield_good.
      + by eapply Fork_good.
      + by eapply P_good.
      + by eapply V_good.
      + done.
      + done.
      + done.
      + done.
    - by eapply OneTick_good.
    - eapply OneTick_loop_good; [exact Hr|by apply Hl].
    - eexists R, Q, _. apply running_good. eapply running_same; [exact Hr|done|].
      destruct (b_hw _ _ _ _ (r_base _ _ _ _ _ Hr)). by split.
    - by eapply SetLevel_good.
    - eapply P_loop_good; [exact Hr|by apply Hl|done].
    - unfold Enable. by eapply SetLevel_good. }
  assert (base n (put_thread k (currentThread k) (set_frames fs th)) R Q) as Hb'.
  { eapply base_upd; [exact Hb|by eapply hw_eq; [apply Hb|..]|done..| |].
    { intros t Hne. by apply put_other. }
    eexists. apply put_lookup. }
  destruct Hf as [-> | [-> | [-> | ->]]]; cbn [Sched.exec].
  - destruct Hm as [Hl Hs Hst Hq Hd|Hl Hs Hq|Hf Hq Hst]; rewrite E in *; [|done|by destruct Hf].
    apply live_finish in Hl as ->.
    eapply (Finish_good _ R Q (set_frames [] th)); try done. apply put_lookup.
  - eapply (Sleep_loop_good _ R Q (set_frames fs th) fs); [|done|by apply Hlv].
    apply asleep_put, Inv_asleep; [done|by left].
  - assert (∃ gs, fs = FSleepLoop :: gs) as [gs ->].
    { destruct Hm as [Hl Hs Hst Hq Hd|Hl Hs Hq|Hf Hq Hst]; rewrite E in *; [done| |].
      - destruct (live_tail n FIdleLoop fs Hl) as [_ Hne]; [done|]. destruct fs as [|g fs]; [done|].
        pose proof (live_below _ _ _ _ Hl) as Ha. destruct g; try done. by eexists.
      - destruct Hf as [?|[= ->]]; [done|by eexists]. }
    eapply (Idle_loop_good _ R Q (set_frames (FSleepLoop :: gs) th) gs); [|done|by apply Hlv].
    apply asleep_put, Inv_asleep; [done|by right].
  - by eapply Run_tail_good.
Qed.

Lemma steps_good m k R Q th : Inv n k R Q th → good n (steps Random USER_PROGRAM junkRegs m k).
Proof.
  revert k R Q th. induction m as [|m IH]; intros k R Q th Hi; cbn [steps].
  { by exists R, Q, th. }
  pose proof (step_good k R Q th Hi) as Hg.
  destruct (step _ _ _ k) as [k1| | | |]; cbn [mbind result_bind] in *; try done.
  destruct Hg as (R1 & Q1 & th1 & Hi1). by eapply IH.
Qed.

(** [Initialize] establishes the invariant, whatever semaphores there are. *)
Lemma boot_good randomYield main vals :
  forallb (call_ok n) main = true → length vals = n →
  ∃ k, boot Random junkRegs randomYield main = Ok k ∧
    good n (Ok (set_sems k (newSemaphore <$> vals))).
Proof.
  intros Hm Hv. unfold boot. set (k0 := mkKernel _ _ _ _ _ _ _ _ _ _ _ _ _ _ _).
  assert (∃ k1, (if randomYield then
      let '(t, k) := TimeOfNextInterrupt Random true k0 in Schedule TimerHandler t TimerInt k
    else Ok k0) = Ok k1 ∧ hw_ok k1 ∧ currentThread k1 = 0%nat ∧ threadToBeDestroyed k1 = None ∧
      readyList k1 = aempty ∧ level (interrupt k1) = IntOff) as (k1 & -> & Hh & Hc & Hd & Hr & Hl).
  { destruct randomYield; [|by eexists]. cbn [TimeOfNextInterrupt]. unfold Schedule.
    pose proof (Z.rem_nonneg (Random (randoms k0)) (TimerTicks * 2) ltac:(done) (Random_nonneg _)).
    rewrite (proj2 (Z.ltb_lt 0 _)) by lia. cbn [ASSERT mbind result_bind]. eexists. split; [done|].
    split; [|done]. split; try done. cbn. constructor; [|done]. by eexists. }
  cbn [mbind result_bind]. set (k2 := put_thread k1 0 _).
  set (k3 := set_sems k2 (newSemaphore <$> vals)).
  assert (running n k3 [] (const [] <$> vals) (main_thread junkRegs main)) as Hrun.
  { assert (mjoin (const (@nil tid) <$> vals) = []) as Hnil by (clear; by induction vals).
    pose proof (wf_body main Hm) as Hl'. cbn [app] in Hl'. apply live_tail in Hl' as [Hl' _]; [|done].
    split; cbn [k3 k2 set_sems put_thread set_threads]; try done.
    - split; rewrite ?Hnil; cbn [k3 k2 set_sems put_thread set_threads interrupt readyList sems
        currentThread threadToBeDestroyed]; try done.
      + by eapply hw_eq.
      + by rewrite Hr.
      + apply Forall2_fmap, Forall_Forall2_diag, Forall_true. done.
      + by rewrite length_fmap.
      + constructor.
      + intros t Ht. by apply elem_of_nil in Ht.
      + intros t Ht. by apply elem_of_nil in Ht.
      + by rewrite Hd.
    - cbn. by rewrite Hc, lookup_insert_eq.
    - cbn [main_thread frames]. by destruct main.
    - rewrite Hnil. cbn. by intros ?%elem_of_nil.
    - cbn. by rewrite Hd. }
  pose proof (SetLevel_good n k3 _ _ _ IntOn Hrun) as Hg.
  unfold Enable. unfold SetLevel in *. cbn [k3 set_sems interrupt] in Hg.
  change (interrupt k2) with (interrupt k1) in *. rewrite (hw_handler _ Hh), Hl in *.
  cbn [ASSERT mbind result_bind negb orb andb bool_decide] in *.
  unfold push, upd_thread, get_thread in *.
  cbn [ChangeLevel set_level set_interrupt threads currentThread k3 set_sems k2 put_thread
    set_threads] in *. rewrite Hc, lookup_insert_eq in *. cbn [mbind result_bind] in *.
  eexists. split; [done|]. exact Hg.
Qed.

End Steps.

(** ** The property *)

(** C32.  Safety of the thread system.  Start Nachos, with or without the
    time-slicing timer and whatever its random numbers, on any program made of
    forks, yields, [P]s and [V]s on existing semaphores: after any number of
    kernel steps, no assertion has failed and no dead thread, semaphore or list
    item has been used; the kernel is in a state in which every thread is in at
    most one queue and has the status that goes with it, or the machine has
    halted because no thread can run. *)
Theorem kernel_safe Random USER_PROGRAM junkRegs randomYield main vals m :
  (∀ i, 0 <= Random i) → forallb (call_ok (length vals)) main = true →
  ∃ k, boot Random junkRegs randomYield main = Ok k ∧
    match steps Random USER_PROGRAM junkRegs m (set_sems k (newSemaphore <$> vals)) with
    | Ok k' => ∃ R Q th, Inv (length vals) k' R Q th
    | Exited c => c = 0
    | _ => False
    end.
Proof.
  intros HR Hm. destruct (boot_good Random junkRegs (length vals) HR randomYield main vals Hm eq_refl)
    as (k & Hk & R & Q & th & Hi). exists k. split; [done|].
  apply (steps_good Random USER_PROGRAM junkRegs (length vals) HR m _ R Q th Hi).
Qed.

(** A producer and a consumer. *)
Lemma kernel_safe_witness :
  ∃ k, boot (λ _, 7) [] true [CFork [CP 0; CPrint 1 1]; CYield; CV 0] = Ok k ∧
    match steps (λ _, 7) true [] 30 (set_sems k (newSemaphore <$> [0])) with
    | Ok k' => ∃ R Q th, Inv 1 k' R Q th | Exited c => c = 0 | _ => False end.
Proof.
  apply (kernel_safe (λ _, 7) true [] true [CFork [CP 0; CPrint 1 1]; CYield; CV 0] [0] 30);
    [intros; lia|reflexivity].
Defined.
