(* ===== verification/HostFs.v ===== *)
(** * machine/sysdep.cc: files of the host, and the stub file system

    In the builds with FILESYS_STUB (userprog and vm) Nachos files are UNIX
    files.  The UNIX side is what POSIX says of [open], [read], [write],
    [lseek], [close] and [unlink] on regular files: names refer to inodes, and a
    descriptor to an inode with an offset, so that a file stays readable through
    an open descriptor after it is unlinked.  On top of it, the wrappers of
    sysdep.cc and the inline methods of filesys/openfile.h and
    filesys/filesys.h. *)

From S2P Require Import Prelude.
Local Open Scope Z_scope.

(** ** UNIX files *)

Record Host := mkHost {
  names : gmap (list Z) positive;
  inodes : gmap positive (list Z);
  fds : gmap Z (positive * Z) }.

(** The lowest descriptor that is not in use; 0, 1 and 2 are the terminal. *)
Fixpoint free_fd (n : nat) (fd : Z) (h : Host) : Z :=
  match n with
  | O => fd
  | S n => match fds h !! fd with None => fd | Some _ => free_fd n (fd + 1) h end
  end.

Definition new_fd (i : positive) (h : Host) : Z * Host :=
  let fd := free_fd (size (fds h)) 3 h in
  (fd, mkHost (names h) (inodes h) (<[fd := (i, 0)]> (fds h))).

(** Writing [bs] at [pos]: the gap past the end reads as zeros. *)
Definition write_at (file : list Z) (pos : Z) (bs : list Z) : list Z :=
  let file' := file ++ replicate (Z.to_nat pos - length file) 0 in
  take (Z.to_nat pos) file' ++ bs ++ drop (Z.to_nat pos + length bs) file'.

Definition file_of (h : Host) (fd : Z) : option (positive * Z * list Z) :=
  '(i, off) ← fds h !! fd; bs ← inodes h !! i; Some (i, off, bs).

(** ** sysdep.cc *)

Definition OpenForWrite (name : list Z) (h : Host) : result (Z * Host) :=
  match names h !! name with
  | Some i => Ok (new_fd i (mkHost (names h) (<[i := []]> (inodes h)) (fds h)))
  | None =>
      let i := fresh (dom (inodes h)) in
      Ok (new_fd i (mkHost (<[name := i]> (names h)) (<[i := []]> (inodes h)) (fds h)))
  end.

Definition OpenForReadWrite (name : list Z) (crashOnError : bool) (h : Host) : result (Z * Host) :=
  match names h !! name with
  | Some i => Ok (new_fd i h)
  | None => ASSERT (negb crashOnError);; Ok (-1, h)
  end.

Definition set_offset (h : Host) (fd : Z) (i : positive) (off : Z) : Host :=
  mkHost (names h) (inodes h) (<[fd := (i, off)]> (fds h)).

(** The bytes read, fewer than asked for at the end of the file.  What [read] does
    with a negative count, which is a [size_t] above SSIZE_MAX, is up to the host. *)
Definition ReadPartial (fd nBytes : Z) (h : Host) : result (list Z * Host) :=
  match file_of h fd with
  | None => Undefined
  | Some (i, off, bs) =>
      if nBytes <? 0 then Undefined else
      let got := take (Z.to_nat nBytes) (drop (Z.to_nat off) bs) in
      Ok (got, set_offset h fd i (off + Z.of_nat (length got)))
  end.

Definition Read (fd nBytes : Z) (h : Host) : result (list Z * Host) :=
  ASSERT (bool_decide (is_Some (fds h !! fd)));;  (* otherwise -1 is returned *)
  '(got, h) ← ReadPartial fd nBytes h;
  ASSERT (Z.of_nat (length got) =? nBytes);;
  Ok (got, h).

Definition WriteFile (fd : Z) (buffer : list Z) (h : Host) : result Host :=
  match file_of h fd with
  | None => AssertFail
  | Some (i, off, bs) =>
      Ok (set_offset (mkHost (names h) (<[i := write_at bs off buffer]> (inodes h)) (fds h)) fd i
            (off + Z.of_nat (length buffer)))
  end.

(** [whence]: 0 is SEEK_SET, 2 is SEEK_END. *)
Definition Lseek (fd offset whence : Z) (h : Host) : result Host :=
  match file_of h fd with
  | None => AssertFail
  | Some (i, off, bs) =>
      let new := if whence =? 0 then offset
                 else if whence =? 2 then Z.of_nat (length bs) + offset else -1 in
      ASSERT (0 <=? new);; Ok (set_offset h fd i new)
  end.

Definition Tell (fd : Z) (h : Host) : result Z :=
  match file_of h fd with None => Ok (-1) | Some (_, off, _) => Ok off end.

Definition Close (fd : Z) (h : Host) : result Host :=
  match fds h !! fd with
  | None => AssertFail
  | Some _ => Ok (mkHost (names h) (inodes h) (delete fd (fds h)))
  end.

(** 0 for success *)
Definition Unlink (name : list Z) (h : Host) : bool * Host :=
  match names h !! name with
  | None => (true, h)
  | Some _ => (false, mkHost (delete name (names h)) (inodes h) (fds h))
  end.

(** ** The stub file system *)

Definition stub_Create (name : list Z) (initialSize : Z) (h : Host) : result (bool * Host) :=
  '(fileDescriptor, h) ← OpenForWrite name h;
  if fileDescriptor =? -1 then Ok (false, h)
  else h ← Close fileDescriptor h; Ok (true, h).

(** [NULL], or the descriptor of the [OpenFile] *)
Definition stub_Open (name : list Z) (h : Host) : result (option Z * Host) :=
  '(fileDescriptor, h) ← OpenForReadWrite name false h;
  if fileDescriptor =? -1 then Ok (None, h) else Ok (Some fileDescriptor, h).

Definition stub_Remove (name : list Z) (h : Host) : bool * Host :=
  let '(r, h) := Unlink name h in (negb r, h).

(** [numBytes] and [position] are [int]s, to which the argument is converted. *)
Definition stub_ReadAt (file numBytes position : Z) (h : Host) : result (list Z * Host) :=
  let numBytes := wrap32 numBytes in
  let position := wrap32 position in
  h ← Lseek file position 0 h;
  ReadPartial file numBytes h.

Definition stub_WriteAt (file : Z) (from : list Z) (numBytes position : Z) (h : Host)
  : result (Z * Host) :=
  let numBytes := wrap32 numBytes in
  let position := wrap32 position in
  h ← Lseek file position 0 h;
  bs ← aslice from 0 numBytes;
  h ← WriteFile file bs h;
  Ok (numBytes, h).

Definition stub_Length (file : Z) (h : Host) : result (Z * Host) :=
  h ← Lseek file 0 2 h;
  n ← Tell file h;
  Ok (n, h).

(** ** The files by name *)

Definition file_named (h : Host) (name : list Z) : option (list Z) :=
  i ← names h !! name; inodes h !! i.

(** Every name has an inode of its own. *)
Record wf_host (h : Host) : Prop := {
  wh_inode : ∀ n i, names h !! n = Some i → is_Some (inodes h !! i);
  wh_inj : ∀ n n' i, names h !! n = Some i → names h !! n' = Some i → n = n';
  wh_fds : ∀ fd i off, fds h !! fd = Some (i, off) → 3 <= fd }.

Lemma free_fd_spec h : wf_host h → let fd := free_fd (size (fds h)) 3 h in
  fds h !! fd = None ∧ 3 <= fd.
Proof.
  intros _. assert (∀ n fd, 3 <= fd → (∀ x, 3 <= x < fd → is_Some (fds h !! x)) →
    (size (fds h) < Z.to_nat (fd - 3) + n + 1)%nat →
    fds h !! free_fd n fd h = None ∧ 3 <= free_fd n fd h) as H.
  { induction n as [|n IH]; intros fd Hfd Hall Hn; cbn [free_fd].
    - destruct (fds h !! fd) as [y|] eqn:E; [|done]. exfalso.
      (* all of 3..fd are in use: more than there are descriptors *)
      assert (list_to_set (seqZ 3 (fd - 2)) ⊆ dom (fds h)) as Hsub.
      { intros x Hx%elem_of_list_to_set%elem_of_seqZ. apply elem_of_dom.
        destruct (decide (x = fd)) as [->|]; [by eexists|]. apply Hall. lia. }
      apply subseteq_size in Hsub. rewrite size_list_to_set in Hsub by apply NoDup_seqZ.
      rewrite length_seqZ in Hsub. rewrite size_dom in Hsub. lia.
    - destruct (fds h !! fd) as [y|] eqn:E; [|done]. apply IH; [lia| |lia].
      intros x Hx. destruct (decide (x = fd)) as [->|]; [by eexists|]. apply Hall. lia. }
  apply H; [lia|lia|lia].
Qed.

Lemma new_fd_spec i h :
  wf_host h → let '(fd, h') := new_fd i h in
  h' = mkHost (names h) (inodes h) (<[fd := (i, 0)]> (fds h)) ∧ fds h !! fd = None ∧ 3 <= fd ∧
  wf_host h'.
Proof.
  intros Hw. destruct (free_fd_spec h Hw) as [Hn H3]. unfold new_fd. split; [done|].
  split; [done|]. split; [done|]. destruct Hw as [H1 H2 H4]. split; cbn; try done.
  intros fd j off. destruct (decide (fd = free_fd (size (fds h)) 3 h)) as [->|]; [done|].
  rewrite lookup_insert_ne by done. apply H4.
Qed.

Lemma stub_Create_spec name n h :
  wf_host h →
  ∃ h', stub_Create name n h = Ok (true, h') ∧ wf_host h' ∧ fds h' = fds h ∧
    (∀ x, x ≠ name → names h' !! x = names h !! x) ∧
    ∀ x, file_named h' x = if decide (x = name) then Some [] else file_named h x.
Proof.
  intros Hw. pose proof Hw as [H1 H2 H3]. unfold stub_Create, OpenForWrite.
  destruct (names h !! name) as [i|] eqn:E.
  - set (h0 := mkHost (names h) (<[i := []]> (inodes h)) (fds h)).
    assert (wf_host h0) as Hw0.
    { split; cbn; [|done|done]. intros x j Hx. destruct (decide (j = i)) as [->|];
        [by rewrite lookup_insert_eq|]. rewrite lookup_insert_ne by done. by eapply H1. }
    pose proof (new_fd_spec i h0 Hw0) as Hf. destruct (new_fd i h0) as [fd h1].
    destruct Hf as (-> & Hn & Hfd & Hw1). cbn [mbind result_bind].
    destruct (Z.eqb_spec fd (-1)); [lia|]. unfold Close. cbn [fds]. rewrite lookup_insert_eq.
    cbn [mbind result_bind]. eexists. split; [done|]. rewrite delete_insert_id by done.
    split; [exact Hw0|]. split; [done|]. split; [done|].
    intros x. unfold file_named. cbn [names inodes h0].
    destruct (decide (x = name)) as [->|Hne].
    + rewrite E. cbn. by rewrite lookup_insert_eq.
    + destruct (names h !! x) as [j|] eqn:Ex; [|done]. cbn. rewrite lookup_insert_ne; [done|].
      intros <-. apply Hne. by eapply H2.
  - set (i := fresh (dom (inodes h))).
    assert (inodes h !! i = None) as Hi by (apply not_elem_of_dom, is_fresh).
    set (h0 := mkHost (<[name := i]> (names h)) (<[i := []]> (inodes h)) (fds h)).
    assert (Hold : ∀ x j, names h !! x = Some j → j ≠ i).
    { intros x j Hx ->. destruct (H1 x i Hx). congruence. }
    assert (wf_host h0) as Hw0.
    { split; cbn; [| |done].
      - intros x j Hx. destruct (decide (j = i)) as [->|Hj]; [by rewrite lookup_insert_eq|].
        rewrite lookup_insert_ne by done. destruct (decide (x = name)) as [->|Hne].
        + rewrite lookup_insert_eq in Hx. congruence.
        + rewrite lookup_insert_ne in Hx by done. by eapply H1.
      - intros x y j Hx Hy. destruct (decide (x = name)) as [->|Hxn], (decide (y = name)) as [->|Hyn];
          simplify_map_eq; try done.
        + exfalso. by eapply Hold.
        + exfalso. by eapply Hold.
        + by eapply H2. }
    pose proof (new_fd_spec i h0 Hw0) as Hf. destruct (new_fd i h0) as [fd h1].
    destruct Hf as (-> & Hn & Hfd & Hw1). cbn [mbind result_bind].
    destruct (Z.eqb_spec fd (-1)); [lia|]. unfold Close. cbn [fds]. rewrite lookup_insert_eq.
    cbn [mbind result_bind]. eexists. split; [done|]. rewrite delete_insert_id by done.
    split; [exact Hw0|]. split; [done|].
    split; [intros x Hx; cbn [names h0]; by rewrite lookup_insert_ne|].
    intros x. unfold file_named. cbn [names inodes h0].
    destruct (decide (x = name)) as [->|Hne].
    + rewrite lookup_insert_eq. cbn. by rewrite lookup_insert_eq.
    + rewrite lookup_insert_ne by done. destruct (names h !! x) as [j|] eqn:Ex; [|done]. cbn.
      rewrite lookup_insert_ne; [done|]. intros <-. by destruct (Hold x i).
Qed.

(** A file opened by name: the descriptor [fd] of the host [h'], and what is
    left when it is closed. *)
Lemma stub_Open_spec name bs h :
  wf_host h → file_named h name = Some bs →
  ∃ fd i h', stub_Open name h = Ok (Some fd, h') ∧ names h !! name = Some i ∧
    inodes h !! i = Some bs ∧ fds h !! fd = None ∧
    h' = mkHost (names h) (inodes h) (<[fd := (i, 0)]> (fds h)).
Proof.
  intros Hw Hf. unfold file_named in Hf. unfold stub_Open, OpenForReadWrite.
  destruct (names h !! name) as [i|]; [|done]. cbn in Hf.
  pose proof (new_fd_spec i h Hw) as Hn. destruct (new_fd i h) as [fd h1].
  destruct Hn as (-> & Hn & Hfd & _). cbn [mbind result_bind].
  destruct (Z.eqb_spec fd (-1)); [lia|]. by eexists fd, i, _.
Qed.

Lemma stub_Open_none name h : file_named h name = None → wf_host h → stub_Open name h = Ok (None, h).
Proof.
  intros Hf [H1 _ _]. unfold file_named in Hf. unfold stub_Open, OpenForReadWrite.
  destruct (names h !! name) as [i|] eqn:E; [|done]. destruct (H1 name i E). cbn in Hf. congruence.
Qed.

Lemma stub_Open_wf name h fd h' : wf_host h → stub_Open name h = Ok (Some fd, h') → wf_host h'.
Proof.
  intros Hw Hop. unfold stub_Open, OpenForReadWrite in Hop. destruct (names h !! name) as [i|]; [|done].
  pose proof (new_fd_spec i h Hw) as Hnew. destruct (new_fd i h) as [fd1 h1]. cbn [mbind result_bind] in Hop.
  destruct (fd1 =? -1); [done|]. injection Hop as <- <-. by destruct Hnew as (_ & _ & _ & ?).
Qed.

(** The offset of an open file may change. *)
Lemma wf_host_offset h fd i off off' :
  wf_host h → fds h !! fd = Some (i, off) →
  wf_host (mkHost (names h) (inodes h) (<[fd := (i, off')]> (fds h))).
Proof.
  intros [H1 H2 H3] Hfd. split; [done..|]. intros x j o. cbn.
  destruct (decide (x = fd)) as [->|]; [intros _; by eapply H3|].
  rewrite lookup_insert_ne by done. apply H3.
Qed.

(** Writing a file keeps the names. *)
Lemma wf_host_write h i bs : wf_host h → wf_host (mkHost (names h) (<[i := bs]> (inodes h)) (fds h)).
Proof.
  intros [H1 H2 H3]. split; [|done..]. intros x j Hx. cbn.
  destruct (decide (j = i)) as [->|]; [by rewrite lookup_insert_eq|].
  rewrite lookup_insert_ne by done. by eapply H1.
Qed.

Lemma file_named_write h name i bs x :
  wf_host h → names h !! name = Some i →
  file_named (mkHost (names h) (<[i := bs]> (inodes h)) (fds h)) x =
  if decide (x = name) then Some bs else file_named h x.
Proof.
  intros [_ H2 _] Hn. unfold file_named. cbn. destruct (decide (x = name)) as [->|Hne].
  - rewrite Hn. cbn. apply lookup_insert_eq.
  - destruct (names h !! x) as [j|] eqn:E; [|done]. cbn. apply lookup_insert_ne.
    intros <-. apply Hne. by eapply H2.
Qed.

Section Descriptor.
Variables (ns : gmap (list Z) positive) (ino : gmap positive (list Z)) (ds : gmap Z (positive * Z))
  (fd : Z) (i : positive) (off : Z) (bs : list Z).
Hypothesis Hi : ino !! i = Some bs.

Let h := mkHost ns ino (<[fd := (i, off)]> ds).

Lemma fd_file : file_of h fd = Some (i, off, bs).
Proof. unfold file_of, h. cbn. rewrite lookup_insert_eq. cbn. by rewrite Hi. Qed.

Lemma fd_ReadAt n pos :
  0 <= pos < 2 ^ 31 → 0 <= n < 2 ^ 31 →
  ∃ off', stub_ReadAt fd n pos h =
    Ok (take (Z.to_nat n) (drop (Z.to_nat pos) bs), mkHost ns ino (<[fd := (i, off')]> ds)).
Proof.
  intros Hp Hn. unfold stub_ReadAt, Lseek. rewrite !wrap32_id by (unfold int32; lia). rewrite fd_file. cbn [Z.eqb].
  rewrite (proj2 (Z.leb_le 0 pos)) by lia. cbn [ASSERT mbind result_bind]. unfold ReadPartial.
  rewrite (proj2 (Z.ltb_ge n 0)) by lia.
  unfold set_offset at 1, h. cbn [fds names inodes]. rewrite insert_insert_eq.
  unfold file_of. cbn [fds inodes]. rewrite lookup_insert_eq. cbn. rewrite Hi. cbn.
  eexists. unfold set_offset. cbn. by rewrite !insert_insert_eq.
Qed.

Lemma fd_WriteAt from n pos :
  0 <= pos < 2 ^ 31 → 0 <= n < 2 ^ 31 → n <= Z.of_nat (length from) →
  ∃ off', stub_WriteAt fd from n pos h =
    Ok (n, mkHost ns (<[i := write_at bs pos (take (Z.to_nat n) from)]> ino)
      (<[fd := (i, off')]> ds)).
Proof.
  intros Hp Hn Hl. unfold stub_WriteAt, Lseek. rewrite !wrap32_id by (unfold int32; lia). rewrite fd_file. cbn [Z.eqb].
  rewrite (proj2 (Z.leb_le 0 pos)) by lia. cbn [ASSERT mbind result_bind].
  rewrite aslice_Ok by lia. cbn [mbind result_bind]. unfold WriteFile.
  unfold set_offset at 1, h. cbn [fds names inodes]. rewrite insert_insert_eq.
  unfold file_of. cbn [fds inodes]. rewrite lookup_insert_eq. cbn [mbind option_bind].
  cbn. rewrite Hi. cbn. eexists. unfold set_offset. cbn. by rewrite !insert_insert_eq.
Qed.

Lemma fd_Close : ds !! fd = None → Close fd h = Ok (mkHost ns ino ds).
Proof.
  intros Hn. unfold Close, h. cbn. rewrite lookup_insert_eq. by rewrite delete_insert_id.
Qed.

End Descriptor.
