(* ===== verification/AddrSpace.v ===== *)
(** * userprog/addrspace.cc: address spaces

    An address space is a page table whose entries all start invalid, and a swap
    file that holds the program: the page fault handler (Paging.v) brings pages
    in one by one.  Files are those of the stub file system (HostFs.v). *)

From S2P Require Import Prelude Params.
From S2P Require Import BitMap.
From S2P Require Import Machine.
From S2P Require Import HostFs.
From S2P Require Import Kernel.
Local Open Scope Z_scope.

(** ** bin/noff.h *)

Definition NOFFMAGIC : Z := 0xbadfad.

Record Segment := mkSegment { virtualAddr : Z; inFileAddr : Z; segSize : Z }.

Record NoffHeader := mkNoff {
  noffMagic : Z;
  code : Segment;
  initData : Segment;
  uninitData : Segment }.

Definition sizeof_NoffHeader : Z := 40.

(** ** The code *)

Section Host.
Variable be : bool.  (* HOST_IS_BIG_ENDIAN *)

(** The [i]-th word of a structure in memory. *)
Definition word_of (bs : list Z) (i : nat) : Z :=
  wrap32 (host_val be (take 4 (drop (4 * i) bs))).

Definition noff_of_bytes (bs : list Z) : NoffHeader :=
  let seg i := mkSegment (word_of bs i) (word_of bs (i + 1)) (word_of bs (i + 2)) in
  mkNoff (word_of bs 0) (seg 1%nat) (seg 4%nat) (seg 7%nat).

(** [int = WordToHost(int)] *)
Definition swap_word (w : Z) : Z := wrap32 (WordToHost be (u32 w)).

Definition SwapHeader (noffH : NoffHeader) : NoffHeader :=
  let swap s := mkSegment (swap_word (virtualAddr s)) (swap_word (inFileAddr s))
                          (swap_word (segSize s)) in
  mkNoff (swap_word (noffMagic noffH)) (swap (code noffH)) (swap (initData noffH))
    (swap (uninitData noffH)).

(** [sprintf(swapFileName, "%d.swap", threadID)] *)
Definition swap_name (threadID : Z) : list Z := decimal threadID ++ [46; 115; 119; 97; 112].

(** The header's words, as the constructor leaves them in [noffH]; [None] for a
    file that is not a Nachos program. *)
Definition read_header (bs : list Z) : option NoffHeader :=
  let noffH := noff_of_bytes bs in
  let noffH := if negb (noffMagic noffH =? NOFFMAGIC) && (swap_word (noffMagic noffH) =? NOFFMAGIC)
               then SwapHeader noffH else noffH in
  if negb (noffMagic noffH =? NOFFMAGIC) then None else Some noffH.

(** The size of the address space, and its pages ([unsigned] arithmetic) *)
Definition space_pages (noffH : NoffHeader) : Z :=
  divRoundUp (u32 (segSize (code noffH) + segSize (initData noffH) + segSize (uninitData noffH) +
                   UserStackSize)) PageSize.

(** The page table: every field but [physicalPage] is initialised. *)
Definition new_table (junk : nat → TranslationEntry) (n : Z) : list TranslationEntry :=
  (λ i, mkTE (Z.of_nat i) (physicalPage (junk i)) false false false false) <$> seq 0 (Z.to_nat n).

(** [new AddrSpace(executable, threadID)].  The result is [None] when the
    constructor returns early: then no member is initialised. *)
Definition newAddrSpace (junkBuf junkHdr : nat → Z) (junkTable : nat → TranslationEntry)
    (executable threadID : Z) (m : Machine) (h : Host) : result (option Space * Machine * Host) :=
  '(bs, h) ← stub_ReadAt executable sizeof_NoffHeader 0 h;
  let raw := bs ++ drop (length bs) (junkHdr <$> seq 0 (Z.to_nat sizeof_NoffHeader)) in
  match read_header raw with
  | None => Ok (None, m, h)
  | Some noffH =>
      let numPages := space_pages noffH in
      let size := u32 (numPages * PageSize) in
      let swapFileName := swap_name threadID in
      '(_, h) ← stub_Create swapFileName size h;
      '(swapFile, h) ← stub_Open swapFileName h;
      '(bs, h) ← stub_ReadAt executable size sizeof_NoffHeader h;
      let buffer := bs ++ drop (length bs) (junkBuf <$> seq 0 (Z.to_nat size)) in
      match swapFile with
      | None => Undefined
      | Some swapFile =>
          '(_, h) ← stub_WriteAt swapFile buffer size 0 h;
          h ← Close swapFile h;
          let p := fresh (dom (tables m)) in
          let m := set_tables m (<[p := new_table junkTable numPages]> (tables m)) in
          Ok (Some (mkSpace p numPages swapFileName), m, h)
      end
  end.

End Host.

Fixpoint clear_frames (n : nat) (j : Z) (bm : BitMap) : result BitMap :=
  match n with O => Ok bm | S n => bm ← Clear bm j; clear_frames n (j + 1) bm end.

(** [AddrSpace::~AddrSpace] *)
Definition delete_space (s : Space) (m : Machine) (bm : BitMap) (h : Host)
  : result (Machine * BitMap * Host) :=
  bm ← clear_frames (Z.to_nat NumPhysPages) 0 bm;
  let m := set_tables m (delete (spaceTable s) (tables m)) in
  let '(_, h) := stub_Remove (swapFileName s) h in
  Ok (m, bm, h).

Fixpoint clear_registers (n : nat) (i : Z) (m : Machine) : result Machine :=
  match n with O => Ok m | S n => m ← WriteRegister m i 0; clear_registers n (i + 1) m end.

Definition InitRegisters (s : Space) (m : Machine) : result Machine :=
  m ← clear_registers (Z.to_nat NumTotalRegs) 0 m;
  m ← WriteRegister m PCReg 0;
  m ← WriteRegister m NextPCReg 4;
  WriteRegister m StackReg (wrap32 (numPages s * PageSize - 16)).

(** ** The header does not depend on the host *)

(** [WordToHost] undoes the reading of a little-endian word on either host. *)
Lemma swap_word_of be bs i :
  Forall byte bs → (4 * i + 4 <= length bs)%nat →
  swap_word be (word_of be bs i) = word_of false bs i.
Proof.
  intros Hb Hl. unfold swap_word, word_of. set (w := take 4 (drop (4 * i) bs)).
  assert (length w = 4%nat) as Hw by (unfold w; rewrite length_take, length_drop; lia).
  assert (Forall byte w) as Hbw by (by apply Forall_take, Forall_drop).
  assert (∀ l, length l = 4%nat → Forall byte l → u32 (wrap32 (le_val l)) = le_val l) as Hu.
  { intros l Hl4 Hbl. rewrite u32_wrap32. apply u32_id. pose proof (le_val_bound l Hbl) as H.
    rewrite Hl4 in H. exact H. }
  assert (u32 (wrap32 (host_val be w)) = host_val be w) as ->.
  { unfold host_val. destruct be; [|by apply Hu]. apply Hu; [by rewrite length_reverse|].
    by apply Forall_reverse. }
  by rewrite WordToHost_val.
Qed.

Lemma SwapHeader_of be bs :
  Forall byte bs → length bs = 40%nat →
  SwapHeader be (noff_of_bytes be bs) = noff_of_bytes false bs.
Proof.
  intros Hb Hl. unfold SwapHeader, noff_of_bytes. cbn [noffMagic code initData uninitData virtualAddr
    inFileAddr segSize]. by rewrite !swap_word_of by (done || lia).
Qed.

(** A program in the standard (little-endian) format is read alike on every
    host. *)
Lemma read_header_le be bs :
  Forall byte bs → length bs = 40%nat → noffMagic (noff_of_bytes false bs) = NOFFMAGIC →
  read_header be bs = Some (noff_of_bytes false bs).
Proof.
  intros Hb Hl Hm. unfold read_header. pose proof (SwapHeader_of be bs Hb Hl) as Hs.
  assert (swap_word be (noffMagic (noff_of_bytes be bs)) = NOFFMAGIC) as Hsw.
  { rewrite <- Hm. unfold noff_of_bytes. cbn [noffMagic]. by rewrite swap_word_of by (done || lia). }
  rewrite Hsw. destruct (Z.eqb_spec (noffMagic (noff_of_bytes be bs)) NOFFMAGIC) as [E|E]; cbn [negb andb].
  - (* the magic number is not a palindrome: the host is little-endian *)
    rewrite E. cbn [negb Z.eqb]. destruct be; [|by rewrite Z.eqb_refl].
    exfalso. rewrite E in Hsw. vm_compute in Hsw. done.
  - rewrite Z.eqb_refl. cbn [negb]. rewrite Hs, Hm. by rewrite Z.eqb_refl.
Qed.
