(* ===== verification/Paging.v ===== *)
(** * userprog/exception.cc: demand paging

    The [PageFaultException] case of [ExceptionHandler]: find a free frame, read
    the page from the process's swap file into it, and enter it in the page
    table.  The faulting instruction is then executed again.  The theorems show
    that a program cannot tell this from having all its pages in memory. *)

From S2P Require Import Prelude Params.
From S2P Require Import BitMap.
From S2P Require Import Machine.
From S2P Require Import HostFs.
From S2P Require Import FileHdr OpenFile.
From S2P Require Import Kernel AddrSpace.
Local Open Scope Z_scope.

(** ** The code *)

(** The machine with what the kernel keeps to manage its memory. *)
Record VM := mkVM {
  vmMachine : Machine;
  vmHost : Host;
  bitMap : BitMap;
  IPT : list (option tid);
  IPT_VP : list Z;
  pageFaults : Z }.

Definition set_vmMachine (v : VM) (m : Machine) : VM :=
  mkVM m (vmHost v) (bitMap v) (IPT v) (IPT_VP v) (pageFaults v).

(** [pageTable[vpn]] of an address space *)
Definition get_entry (m : Machine) (sp : Space) (vpn : Z) : result TranslationEntry :=
  match tables m !! spaceTable sp with None => Undefined | Some pt => aget pt vpn end.

Definition set_entry (m : Machine) (sp : Space) (vpn : Z) (e : TranslationEntry) : result Machine :=
  match tables m !! spaceTable sp with
  | None => Undefined
  | Some pt => pt ← aset pt vpn e; Ok (set_tables m (<[spaceTable sp := pt]> (tables m)))
  end.

Section Handler.
(** [spaceOf t] is [t->space] and [random] the next number of [Random()].  No
    file declares [virtualOption] and [FIFO]: they are parameters, [fifo] being
    what [FIFO->Remove()] gives. *)
Variables (spaceOf : tid → result Space) (virtualOption fifo random : Z) (me : tid) (ID : Z).

Definition PageFault (v : VM) : result VM :=
  let m := vmMachine v in
  let faults := wrap32 (pageFaults v + 1) in
  badVAddr ← ReadRegister m BadVAddrReg;
  let badVpage := divRoundDown badVAddr PageSize in
  '(freePage, bm) ← Find (bitMap v);
  if freePage =? -1 then
    if virtualOption =? 0 then Exited ID
    else
      pageToEvict ← (if virtualOption =? 1 then Ok fifo
                     else if virtualOption =? 2 then Ok (Z.rem random NumPhysPages)
                     else Undefined);
      owner ← aget (IPT v) pageToEvict;
      match owner with
      | None => Undefined
      | Some t =>
          sp ← spaceOf t;
          vpn ← aget (IPT_VP v) pageToEvict;
          _ ← get_entry m sp vpn;  (* [if (... .dirty == TRUE) printf(...)] *)
          Ok (mkVM m (vmHost v) bm (IPT v) (IPT_VP v) faults)
      end
  else
    sp ← spaceOf me;
    '(executable, h) ← stub_Open (swapFileName sp) (vmHost v);
    match executable with
    | None => Exited ID
    | Some executable =>
        ipt ← aset (IPT v) freePage (Some me);
        ipt_vp ← aset (IPT_VP v) freePage badVpage;
        '(bs, h) ← stub_ReadAt executable PageSize (badVpage * PageSize) h;
        mem ← asplice (mainMemory m) (freePage * PageSize) bs;
        let m := set_memory m mem in
        e ← get_entry m sp badVpage;
        m ← set_entry m sp badVpage
              (mkTE (virtualPage e) freePage true (readOnly e) (use e) (dirty e));
        h ← Close executable h;
        Ok (mkVM m h bm ipt ipt_vp faults)
    end.

(** A memory access of a user instruction, which is executed again after a page
    fault. *)
Section Access.
Variable be : bool.

Definition user_read (a size : Z) (v : VM) : result (access Z * VM) :=
  '(r, m) ← ReadMem be (vmMachine v) a size;
  match r with
  | Trapped PageFaultException =>
      v ← PageFault (set_vmMachine v m);
      '(r, m) ← ReadMem be (vmMachine v) a size;
      Ok (r, set_vmMachine v m)
  | _ => Ok (r, set_vmMachine v m)
  end.

Definition user_write (a size x : Z) (v : VM) : result (access unit * VM) :=
  '(r, m) ← WriteMem be (vmMachine v) a size x;
  match r with
  | Trapped PageFaultException =>
      v ← PageFault (set_vmMachine v m);
      '(r, m) ← WriteMem be (vmMachine v) a size x;
      Ok (r, set_vmMachine v m)
  | _ => Ok (r, set_vmMachine v m)
  end.

End Access.
End Handler.

(** ** The memory a process sees *)

(** Page [i] of [l] is page [j] of [l']. *)
Definition same_page (l : list Z) (i : nat) (l' : list Z) (j : nat) : Prop :=
  ∀ o, (o < 256)%nat → l !! (i * 256 + o)%nat = l' !! (j * 256 + o)%nat.

Definition entry_ok (v : VM) (sw L : list Z) (i : nat) (e : TranslationEntry) : Prop :=
  readOnly e = false ∧
  if valid e then
    0 <= physicalPage e < NumPhysPages ∧ bit (bitMap v) (physicalPage e) = true ∧
    same_page (mainMemory (vmMachine v)) (Z.to_nat (physicalPage e)) L i
  else same_page sw i L i.

Definition table (v : VM) (sp : Space) : option (list TranslationEntry) :=
  tables (vmMachine v) !! spaceTable sp.

(** The process with address space [sp] has the memory contents [L]: each of
    its pages is in a frame, or untouched in the swap file. *)
Record resident (v : VM) (sp : Space) (L : list Z) : Prop := {
  rs_table : ∃ pt sw, table v sp = Some pt ∧ Z.of_nat (length pt) = numPages sp ∧
    file_named (vmHost v) (swapFileName sp) = Some sw ∧ Forall byte sw ∧
    (length L <= length sw)%nat ∧ ∀ i e, pt !! i = Some e → entry_ok v sw L i e;
  rs_size : Z.of_nat (length L) = numPages sp * PageSize;
  rs_addressable : numPages sp * PageSize <= 2 ^ 31 }.

(** The frame of page [i]. *)
Definition frame_of (v : VM) (sp : Space) (i : nat) : option Z :=
  pt ← table v sp; e ← pt !! i; if valid e then Some (physicalPage e) else None.

Definition pages_in (pt : list TranslationEntry) : Z :=
  Z.of_nat (length (filter (λ e, valid e = true) pt)).
Definition resident_pages (v : VM) (sp : Space) : Z := pages_in (default [] (table v sp)).

Fixpoint total {A} (f : A → Z) (l : list A) : Z :=
  match l with [] => 0 | x :: l => f x + total f l end.

(** All processes with their memories: no frame holds two pages, and the bit map
    counts the frames in use. *)
Record vm_ok (ps : list (Space * list Z)) (v : VM) : Prop := {
  vo_machine : wf_machine (vmMachine v);
  vo_tlb : tlb (vmMachine v) = None;
  vo_host : wf_host (vmHost v);
  vo_bits : wf (bitMap v) ∧ numBits (bitMap v) = NumPhysPages;
  vo_ipt : Z.of_nat (length (IPT v)) = NumPhysPages ∧ Z.of_nat (length (IPT_VP v)) = NumPhysPages;
  vo_resident : ∀ k sp L, ps !! k = Some (sp, L) → resident v sp L;
  vo_tables : ∀ k k' p p', ps !! k = Some p → ps !! k' = Some p' →
    spaceTable p.1 = spaceTable p'.1 → k = k';
  vo_frames : ∀ k k' p p' i j f, ps !! k = Some p → ps !! k' = Some p' →
    frame_of v p.1 i = Some f → frame_of v p'.1 j = Some f → k = k' ∧ i = j;
  vo_count : count_clear (view (bitMap v)) + total (λ p, resident_pages v p.1) ps = NumPhysPages }.

(** The process is the running one. *)
Record current (sp : Space) (m : Machine) : Prop := {
  cu_table : pageTable m = Some (spaceTable sp);
  cu_size : pageTableSize m = numPages sp }.

(** ** The handler and the registers *)

Lemma RaiseException_BadVAddr m a m' :
  wf_machine m → RaiseException m a = Ok m' → ReadRegister m' BadVAddrReg = Ok a.
Proof.
  intros Hm. unfold RaiseException, DelayedLoad, ReadRegister. intros H. inv_ok.
  pose proof (wf_reg_length _ Hm) as Hl. destruct (wf_load_target _ Hm) as (r & Hr & Hb).
  unfold NumTotalRegs, NumGPRegs, LoadReg, LoadValueReg, BadVAddrReg in *.
  cbn [registers set_registers] in *.
  repeat match goal with H : aset _ _ _ = Ok _ |- _ => apply aset_inv in H as [? ->] end.
  match goal with H : aget (<[_ := _]> _) 37 = _ |- _ =>
    rewrite aget_insert_ne in H by lia; rewrite Hr in H; simplify_eq end.
  change (ASSERT _) with (Ok tt). cbn [mbind result_bind].
  rewrite !aget_insert_ne by lia. rewrite aget_insert_eq; [done|lia].
Qed.

(** ** Pages of a memory *)

Lemma page_index i o : (o < 256)%nat → ((i * 256 + o) / 256 = i)%nat.
Proof. intros. rewrite Nat.div_add_l by lia. rewrite Nat.div_small by lia. lia. Qed.

Lemma same_page_elsewhere (mem mem' L : list Z) f g i :
  (∀ x, (x / 256)%nat ≠ f → mem' !! x = mem !! x) → g ≠ f →
  same_page mem g L i → same_page mem' g L i.
Proof. intros Hx Hg Hs o Ho. rewrite Hx; [by apply Hs|]. by rewrite page_index. Qed.

Lemma same_page_elsewhere_r (mem L L' : list Z) f i j :
  (∀ x, (x / 256)%nat ≠ j → L' !! x = L !! x) → i ≠ j →
  same_page mem f L i → same_page mem f L' i.
Proof. intros Hx Hg Hs o Ho. rewrite Hx; [by apply Hs|]. by rewrite page_index. Qed.

Lemma lookup_store mem p size x k :
  0 <= p → 0 <= size → p + size <= Z.of_nat (length mem) →
  store mem p size x !! k =
  if decide (Z.to_nat p <= k < Z.to_nat p + Z.to_nat size)%nat
  then le_bytes (Z.to_nat size) x !! (k - Z.to_nat p)%nat else mem !! k.
Proof.
  intros. unfold store. rewrite <- (length_le_bytes (Z.to_nat size) x) at 2.
  rewrite lookup_splice by (rewrite length_le_bytes; lia). by rewrite length_le_bytes.
Qed.

(** An aligned access at [a] lies in page [a / 256]. *)
Lemma access_page a size :
  access_size size → 0 <= a → a mod size = 0 → a mod PageSize + size <= PageSize.
Proof.
  unfold PageSize, SectorSize. intros Hs Ha Hal.
  destruct Hs as [->|[->| ->]]; Z.to_euclidean_division_equations; lia.
Qed.

(** Reading and writing at the same place of the same page. *)
Lemma load_same_page mem L f a size :
  access_size size → 0 <= f → 0 <= a → a mod size = 0 →
  same_page mem (Z.to_nat f) L (Z.to_nat (a / PageSize)) →
  load mem (f * PageSize + a mod PageSize) size = load L a size.
Proof.
  intros Hs Hf Ha Hal Hp. pose proof (access_page a size Hs Ha Hal) as Hin.
  assert (take (Z.to_nat size) (drop (Z.to_nat (f * PageSize + a mod PageSize)) mem) =
    take (Z.to_nat size) (drop (Z.to_nat a) L)) as Heq; [|unfold load; by rewrite Heq].
  unfold PageSize, SectorSize in *. pose proof (Z.mod_pos_bound a 256).
  apply list_eq. intros i. destruct (decide (i < Z.to_nat size)%nat);
    [|by rewrite !lookup_take_ge by lia].
  rewrite !lookup_take_lt, !lookup_drop by done.
  replace (Z.to_nat (f * 256 + a mod 256) + i)%nat
    with (Z.to_nat f * 256 + (Z.to_nat (a mod 256) + i))%nat by lia.
  replace (Z.to_nat a + i)%nat
    with (Z.to_nat (a / 256) * 256 + (Z.to_nat (a mod 256) + i))%nat
    by (Z.to_euclidean_division_equations; lia).
  apply Hp. lia.
Qed.

Lemma store_same_page mem L f a size x :
  access_size size → 0 <= f → 0 <= a → a mod size = 0 →
  f * PageSize + PageSize <= Z.of_nat (length mem) → a + size <= Z.of_nat (length L) →
  same_page mem (Z.to_nat f) L (Z.to_nat (a / PageSize)) →
  same_page (store mem (f * PageSize + a mod PageSize) size x) (Z.to_nat f)
            (store L a size x) (Z.to_nat (a / PageSize)).
Proof.
  intros Hs Hf Ha Hal Hm HL Hp o Ho. pose proof (access_page a size Hs Ha Hal) as Hin.
  assert (0 <= size) by (destruct Hs as [->|[->| ->]]; lia).
  unfold PageSize, SectorSize in *. pose proof (Z.mod_pos_bound a 256).
  rewrite !lookup_store by lia. pose proof (Z.div_mod a 256).
  destruct (decide (Z.to_nat (a mod 256) <= o < Z.to_nat (a mod 256) + Z.to_nat size)%nat).
  - rewrite !decide_True by lia. f_equal. lia.
  - rewrite !decide_False by lia. by apply Hp.
Qed.

Lemma store_elsewhere mem f a size x k :
  access_size size → 0 <= f → 0 <= a → a mod size = 0 →
  f * PageSize + PageSize <= Z.of_nat (length mem) → (k / 256)%nat ≠ Z.to_nat f →
  store mem (f * PageSize + a mod PageSize) size x !! k = mem !! k.
Proof.
  intros Hs Hf Ha Hal Hm Hk. pose proof (access_page a size Hs Ha Hal) as Hin.
  assert (0 <= size) by (destruct Hs as [->|[->| ->]]; lia).
  unfold PageSize, SectorSize in *. pose proof (Z.mod_pos_bound a 256).
  rewrite lookup_store by lia. rewrite decide_False; [done|].
  intros Hr. apply Hk. pose proof (Nat.div_mod_eq k 256).
  assert (k = Z.to_nat f * 256 + (k - Z.to_nat f * 256))%nat as -> by lia.
  apply page_index. lia.
Qed.

(** ** Changes that move no page *)

Definition same_tables (ts ts' : gmap Z (list TranslationEntry)) : Prop :=
  ∀ p, option_Forall2 (Forall2 same_mapping) (ts !! p) (ts' !! p).

#[export] Instance same_mapping_refl : Reflexive same_mapping.
Proof. intros e. done. Qed.

#[export] Instance same_tables_refl : Reflexive same_tables.
Proof. intros ts p. destruct (ts !! p); constructor. apply reflexivity. Qed.

Lemma same_tables_touch m r w : tlb m = None →
  match r with InTable _ _ => True | InTLB _ => False end →
  same_tables (tables m) (tables (touch_entry m r w)).
Proof.
  intros Ht Hr p. destruct r as [q vpn|]; [|done]. cbn. rewrite lookup_alter.
  destruct (decide (q = p)) as [->|]; [|apply same_tables_refl].
  destruct (tables m !! p) as [pt|]; cbn; constructor. apply Forall2_same_length_lookup_2.
  - by rewrite length_alter.
  - intros i e e' He. rewrite list_lookup_alter. destruct (decide (Z.to_nat vpn = i)).
    + subst i. rewrite He. intros [= <-]. apply touch_same.
    + rewrite He. by intros [= <-].
Qed.

Lemma pages_in_same pt pt' : Forall2 same_mapping pt pt' → pages_in pt' = pages_in pt.
Proof.
  unfold pages_in. induction 1 as [|e e' pt pt' He _ IH]; [done|].
  destruct He as (_ & _ & Hv & _). rewrite !filter_cons. rewrite Hv.
  destruct (decide (valid e = true)); cbn [length]; lia.
Qed.

Lemma total_ext {A} (f g : A → Z) l : (∀ x, x ∈ l → f x = g x) → total f l = total g l.
Proof.
  induction l as [|x l IH]; intros H; [done|]. cbn. rewrite H, IH; [done| |left].
  intros y Hy. apply H. by right.
Qed.

Lemma frame_of_same v m' sp i :
  same_tables (tables (vmMachine v)) (tables m') →
  frame_of (set_vmMachine v m') sp i = frame_of v sp i.
Proof.
  intros H. specialize (H (spaceTable sp)). unfold frame_of, table. cbn.
  inversion H as [pt pt' Hpt H1 H2|]; [|done]. cbn.
  pose proof (proj1 (Forall2_lookup _ _ _) Hpt i) as Hi. inversion Hi as [e e' He|]; [|done].
  cbn. destruct He as (_ & -> & -> & _). done.
Qed.

Lemma vm_ok_same ps v m' :
  vm_ok ps v → wf_machine m' → tlb m' = None → mainMemory m' = mainMemory (vmMachine v) →
  same_tables (tables (vmMachine v)) (tables m') → vm_ok ps (set_vmMachine v m').
Proof.
  intros [] Hm Ht Hmem Hs. split; try done.
  - intros k sp L Hk. destruct (vo_resident0 k sp L Hk) as [(pt & sw & Hpt & Hl & Hf & Hb & HL & He)
      Hsz Ha]. specialize (Hs (spaceTable sp)). unfold table in Hpt. rewrite Hpt in Hs.
    inversion Hs as [? pt' Hsm E1 E2|]; subst. split; [|done..].
    exists pt', sw. unfold table. cbn. rewrite <- E2. split; [done|].
    split; [by rewrite <- (Forall2_length _ _ _ Hsm)|]. split; [done|]. split; [done|].
    split; [done|]. intros i e' Hi. destruct (Forall2_lookup_r _ _ _ _ _ Hsm Hi) as (e & Hi' & Hm').
    specialize (He i e Hi'). destruct Hm' as (_ & Hp & Hv & Hr). unfold entry_ok in *.
    rewrite Hp, Hv, Hr. cbn. rewrite Hmem. done.
  - intros. rewrite frame_of_same in * by done. eauto.
  - rewrite <- vo_count0. f_equal. apply total_ext. intros [sp L] _. unfold resident_pages, table. cbn.
    specialize (Hs (spaceTable sp)). inversion Hs as [pt pt' Hsm E1 E2|]; [|done]. cbn.
    by apply pages_in_same.
Qed.

(** ** The running process's translation *)

Lemma current_wf ps v k sp L :
  vm_ok ps v → ps !! k = Some (sp, L) → current sp (vmMachine v) → wf_translation (vmMachine v).
Proof.
  intros Hv Hk [Ht Hs]. left. split; [apply (vo_tlb _ _ Hv)|].
  destruct (rs_table _ _ _ (vo_resident _ _ Hv _ _ _ Hk)) as (pt & sw & Hpt & Hl & _).
  exists (spaceTable sp), pt. split; [done|]. split; [exact Hpt|]. lia.
Qed.

Lemma Translate_user ps v k sp L pt a size w :
  vm_ok ps v → ps !! k = Some (sp, L) → current sp (vmMachine v) → table v sp = Some pt →
  Translate_spec (vmMachine v) a size w =
  if negb (u32 a mod size =? 0) then (Fault AddressErrorException, vmMachine v)
  else match pt !! Z.to_nat (u32 a / PageSize) with
       | None => (Fault AddressErrorException, vmMachine v)
       | Some e =>
           if valid e then
             (Phys (physicalPage e * PageSize + u32 a mod PageSize),
              touch_entry (vmMachine v) (InTable (spaceTable sp) (u32 a / PageSize)) w)
           else (Fault PageFaultException, vmMachine v)
       end.
Proof.
  intros Hv Hk [Ht Hs] Hpt. unfold Translate_spec.
  destruct (negb (u32 a mod size =? 0)); [done|]. unfold entry_spec.
  rewrite (vo_tlb _ _ Hv), Ht. unfold table in Hpt. rewrite Hpt. change (default [] (Some pt)) with pt.
  destruct (pt !! Z.to_nat (u32 a / PageSize)) as [e|] eqn:He; [|done].
  destruct (rs_table _ _ _ (vo_resident _ _ Hv _ _ _ Hk)) as (pt' & sw & Hpt' & _ & _ & _ & _ & Hok).
  unfold table in Hpt'. rewrite Hpt in Hpt'. simplify_eq.
  destruct (Hok _ _ He) as [Hro Hf]. destruct (valid e) eqn:Hval; [|done].
  destruct Hf as (Hph & _ & _). rewrite Hro. cbn [andb].
  assert (u32 (physicalPage e) = physicalPage e) as ->.
  { apply u32_id. unfold uint32, NumPhysPages in *. lia. }
  destruct (Z.leb_spec NumPhysPages (physicalPage e)); [lia|]. done.
Qed.

(** ** Bringing a page in *)

Lemma total_at {A} (f g : A → Z) l k x d :
  l !! k = Some x → g x = f x + d →
  (∀ k' y, l !! k' = Some y → k' ≠ k → g y = f y) → total g l = total f l + d.
Proof.
  revert k. induction l as [|y l IH]; intros [|k] Hk Hx Hother; try done; cbn.
  - injection Hk as ->. rewrite Hx. enough (total g l = total f l) by lia. apply total_ext.
    intros z (j & Hj)%list_elem_of_lookup. by apply (Hother (S j)).
  - rewrite (Hother 0%nat y) by done. rewrite (IH k); [lia|done|done|].
    intros k' z Hz Hn. apply (Hother (S k')); [done|lia].
Qed.

Lemma total_le {A} (f g : A → Z) l :
  (∀ k x, l !! k = Some x → f x <= g x) → total f l <= total g l.
Proof.
  induction l as [|x l IH]; intros H; [done|]. cbn. pose proof (H 0%nat x eq_refl).
  specialize (IH (λ k, H (S k))). lia.
Qed.

Lemma total_lt {A} (f g : A → Z) l k x :
  (∀ k x, l !! k = Some x → f x <= g x) → l !! k = Some x → f x < g x → total f l < total g l.
Proof.
  revert k. induction l as [|y l IH]; intros [|k] Hle Hk Hlt; try done; cbn.
  - injection Hk as ->. pose proof (total_le f g l (λ k, Hle (S k))). lia.
  - pose proof (Hle 0%nat y eq_refl). specialize (IH k (λ k, Hle (S k)) Hk Hlt). lia.
Qed.

Lemma pages_in_insert pt i e e' :
  pt !! i = Some e → valid e = false → valid e' = true →
  pages_in (<[i := e']> pt) = pages_in pt + 1.
Proof.
  unfold pages_in. revert i. induction pt as [|x pt IH]; intros [|i] Hi He He'; try done; cbn in Hi.
  - injection Hi as ->. cbn. rewrite decide_True, decide_False by congruence. cbn. lia.
  - cbn [insert list_insert]. rewrite !filter_cons. fold (<[i := e']> pt).
    destruct (decide (valid x = true)); cbn [length]; specialize (IH i Hi He He'); unfold insert in *; lia.
Qed.

(** The state after the page [i] of [sp] was read from [sw] into frame [f]. *)
Record paged_in (v v' : VM) (sp : Space) (i : nat) (f : Z) (pt : list TranslationEntry)
    (e : TranslationEntry) (sw : list Z) : Prop := {
  pi_machine : ∃ mem', vmMachine v' = set_tables (set_memory (vmMachine v) mem')
      (<[spaceTable sp := <[i := mkTE (virtualPage e) f true (readOnly e) (use e) (dirty e)]> pt]>
         (tables (vmMachine v))) ∧
    length mem' = length (mainMemory (vmMachine v)) ∧ Forall byte mem' ∧
    same_page mem' (Z.to_nat f) sw i ∧
    ∀ x, (x / 256)%nat ≠ Z.to_nat f → mem' !! x = mainMemory (vmMachine v) !! x;
  pi_host : vmHost v' = vmHost v;
  pi_wf : wf (bitMap v');
  pi_bits : numBits (bitMap v') = NumPhysPages;
  pi_frame : 0 <= f < NumPhysPages ∧ bit (bitMap v) f = false;
  pi_bit : ∀ j, 0 <= j < NumPhysPages →
    bit (bitMap v') j = if decide (j = f) then true else bit (bitMap v) j;
  pi_count : count_clear (view (bitMap v')) = count_clear (view (bitMap v)) - 1;
  pi_ipt : length (IPT v') = length (IPT v) ∧ length (IPT_VP v') = length (IPT_VP v) }.

Section PagedIn.
Variables (ps : list (Space * list Z)) (v v' : VM) (k : nat) (sp : Space) (L : list Z) (i : nat)
  (f : Z) (pt : list TranslationEntry) (e : TranslationEntry) (sw : list Z).
Hypotheses (Hok : vm_ok ps v) (Hk : ps !! k = Some (sp, L)) (Hpt : table v sp = Some pt)
  (He : pt !! i = Some e) (Hinv : valid e = false)
  (Hsw : file_named (vmHost v) (swapFileName sp) = Some sw)
  (Hpi : paged_in v v' sp i f pt e sw).

Let e' := mkTE (virtualPage e) f true (readOnly e) (use e) (dirty e).

Lemma pi_table_me : table v' sp = Some (<[i := e']> pt).
Proof.
  destruct (pi_machine _ _ _ _ _ _ _ _ Hpi) as (mem' & Hm & _). unfold table.
  rewrite Hm. apply lookup_insert_eq.
Qed.

Lemma pi_table_other k' p : ps !! k' = Some p → k' ≠ k → table v' p.1 = table v p.1.
Proof.
  intros Hk' Hne. destruct (pi_machine _ _ _ _ _ _ _ _ Hpi) as (mem' & Hm & _). unfold table.
  rewrite Hm. cbn. apply lookup_insert_ne. intros Heq. apply Hne. symmetry.
  eapply (vo_tables _ _ Hok); [exact Hk|exact Hk'|done].
Qed.

(** No page of a process is in the frame that was free. *)
Lemma pi_fresh k' p j g : ps !! k' = Some p → frame_of v p.1 j = Some g → g ≠ f.
Proof.
  intros Hk' Hf ->. destruct p as [sp' L']. cbn in Hf. unfold frame_of in Hf.
  destruct (rs_table _ _ _ (vo_resident _ _ Hok _ _ _ Hk')) as (pt' & sw' & Hpt' & _ & _ & _ & _ & H).
  rewrite Hpt' in Hf. cbn in Hf. destruct (pt' !! j) as [x|] eqn:Hx; [|done]. cbn in Hf.
  specialize (H _ _ Hx). unfold entry_ok in H. destruct (valid x); [|done].
  injection Hf as Hf. destruct H as (_ & _ & H & _). destruct (pi_frame _ _ _ _ _ _ _ _ Hpi).
  congruence.
Qed.

Lemma pi_frame_of k' p j g :
  ps !! k' = Some p → frame_of v' p.1 j = Some g →
  (k' = k ∧ j = i ∧ g = f) ∨ (frame_of v p.1 j = Some g ∧ g ≠ f).
Proof.
  intros Hk' Hg. destruct (decide (k' = k)) as [->|Hne].
  - rewrite Hk in Hk'. injection Hk' as <-. cbn in *. unfold frame_of in Hg.
    rewrite pi_table_me in Hg. cbn in Hg. destruct (decide (j = i)) as [->|Hj].
    + rewrite list_lookup_insert_eq in Hg by (by eapply lookup_lt_Some). cbn in Hg.
      left. by simplify_eq.
    + rewrite list_lookup_insert_ne in Hg by done. right.
      assert (frame_of v sp j = Some g) as H by (unfold frame_of; by rewrite Hpt).
      split; [done|]. by eapply (pi_fresh k (sp, L)).
  - right. assert (frame_of v p.1 j = Some g) as H.
    { unfold frame_of in *. by rewrite (pi_table_other k') in Hg. }
    split; [done|]. by eapply pi_fresh.
Qed.

(** An entry of any process that is not the new one. *)
Lemma pi_entry_ok k' sp' L' sw' j x pt' :
  ps !! k' = Some (sp', L') → table v sp' = Some pt' → pt' !! j = Some x →
  entry_ok v sw' L' j x → entry_ok v' sw' L' j x.
Proof.
  intros Hk' Hpt' Hx [Hro H]. split; [done|]. destruct (valid x) eqn:Hv; [|done].
  destruct H as (Hr & Hb & Hs). split; [done|].
  assert (physicalPage x ≠ f) as Hne.
  { eapply (pi_fresh k' (sp', L') j); [done|]. cbn. unfold frame_of. rewrite Hpt'. cbn.
    rewrite Hx. cbn. by rewrite Hv. }
  split; [by rewrite (pi_bit _ _ _ _ _ _ _ _ Hpi), decide_False|].
  destruct (pi_machine _ _ _ _ _ _ _ _ Hpi) as (mem' & -> & _ & _ & _ & Hel). cbn.
  eapply same_page_elsewhere; [exact Hel| |done].
  destruct (pi_frame _ _ _ _ _ _ _ _ Hpi). lia.
Qed.

Lemma paged_in_ok : vm_ok ps v'.
Proof.
  destruct (pi_machine _ _ _ _ _ _ _ _ Hpi) as (mem' & Hm & Hlen & Hby & Hnew & Hel).
  destruct (pi_ipt _ _ _ _ _ _ _ _ Hpi) as [Hi1 Hi2]. pose proof Hok as [].
  split.
  - rewrite Hm. destruct vo_machine0. split; cbn; try done. by rewrite Hlen.
  - by rewrite Hm.
  - by rewrite (pi_host _ _ _ _ _ _ _ _ Hpi).
  - split; [apply (pi_wf _ _ _ _ _ _ _ _ Hpi)|apply (pi_bits _ _ _ _ _ _ _ _ Hpi)].
  - by rewrite Hi1, Hi2.
  - intros k' sp' L' Hk'. destruct (vo_resident0 k' sp' L' Hk') as
      [(pt' & sw' & Hpt' & Hl & Hf & Hb & HL & Hent) Hsz Ha]. split; [|done..].
    destruct (decide (k' = k)) as [->|Hne].
    + rewrite Hk in Hk'. injection Hk' as <- <-. assert (pt' = pt) as -> by congruence.
      assert (sw' = sw) as -> by congruence. exists (<[i := e']> pt), sw.
      split; [apply pi_table_me|]. split; [by rewrite length_insert|].
      rewrite (pi_host _ _ _ _ _ _ _ _ Hpi). split; [done|]. split; [done|]. split; [done|].
      intros j x. rewrite list_lookup_insert. case_decide as Hj.
      * destruct Hj as [<- _]. intros [= <-]. destruct (Hent _ _ He) as [Hro Hs].
        rewrite Hinv in Hs. split; [done|]. cbn.
        destruct (pi_frame _ _ _ _ _ _ _ _ Hpi) as [Hfr _]. split; [done|].
        split; [by rewrite (pi_bit _ _ _ _ _ _ _ _ Hpi), decide_True|].
        rewrite Hm. cbn. intros o Ho. rewrite Hnew by done. by apply Hs.
      * intros Hx. eapply pi_entry_ok; eauto.
    + exists pt', sw'. rewrite (pi_host _ _ _ _ _ _ _ _ Hpi).
      pose proof (pi_table_other k' (sp', L') Hk' Hne) as Ht. cbn in Ht. rewrite Ht.
      split_and!; try done.
      intros j x Hx. eapply pi_entry_ok; eauto.
  - done.
  - intros k1 k2 p1 p2 i1 i2 g H1 H2 F1 F2.
    destruct (pi_frame_of _ _ _ _ H1 F1) as [(-> & -> & ->)|[G1 Hg1]],
      (pi_frame_of _ _ _ _ H2 F2) as [(-> & -> & E2)|[G2 Hg2]]; try done. eauto.
  - rewrite (pi_count _ _ _ _ _ _ _ _ Hpi).
    rewrite (total_at (λ p, resident_pages v p.1) _ ps k (sp, L) 1); [lia|done| |].
    + unfold resident_pages. cbn. rewrite pi_table_me, Hpt. cbn. by apply (pages_in_insert _ _ e).
    + intros k' p Hp Hne. unfold resident_pages. by rewrite (pi_table_other k').
Qed.

End PagedIn.

(** ** The handler's work *)

Section HandlerSpec.
Variables (spaceOf : tid → result Space) (virtualOption fifo random : Z) (me : tid) (ID : Z).
Variables (ps : list (Space * list Z)) (k : nat) (sp : Space) (L : list Z).
Hypotheses (Hk : ps !! k = Some (sp, L)) (Hme : spaceOf me = Ok sp).

Lemma PageFault_ok v a pt e :
  vm_ok ps v → ReadRegister (vmMachine v) BadVAddrReg = Ok a → 0 <= a →
  table v sp = Some pt → pt !! Z.to_nat (a / PageSize) = Some e → valid e = false →
  0 < count_clear (view (bitMap v)) →
  ∃ v' f sw, PageFault spaceOf virtualOption fifo random me ID v = Ok v' ∧
    file_named (vmHost v) (swapFileName sp) = Some sw ∧
    paged_in v v' sp (Z.to_nat (a / PageSize)) f pt e sw.
Proof.
  intros Hok Ha Ha0 Hpt He Hv Hc. pose proof Hok as []. destruct vo_bits0 as [Hwf Hn].
  destruct vo_ipt0 as [Hi1 Hi2].
  destruct (rs_table _ _ _ (vo_resident0 _ _ _ Hk)) as (pt' & sw & Hpt' & Hl & Hf & Hb & HL & _).
  pose proof (rs_size _ _ _ (vo_resident0 _ _ _ Hk)) as Hsz.
  pose proof (rs_addressable _ _ _ (vo_resident0 _ _ _ Hk)) as Hadr.
  assert (pt' = pt) as -> by congruence.
  assert (0 <= a / PageSize < Z.of_nat (length pt)) as Hvp.
  { apply lookup_lt_Some in He. unfold PageSize, SectorSize in *.
    Z.to_euclidean_division_equations; lia. }
  unfold PageFault. rewrite Ha. cbn [mbind result_bind].
  rewrite divRoundDown_nonneg by (unfold PageSize, SectorSize; lia).
  destruct (Find_fresh (bitMap v) Hwf Hc) as (f & bm & -> & Hwf' & Hn' & Hfr & Hclr & Hbit & Hcnt).
  rewrite Hn in *. cbn [mbind result_bind]. destruct (Z.eqb_spec f (-1)); [lia|].
  rewrite Hme. cbn [mbind result_bind].
  destruct (stub_Open_spec (swapFileName sp) sw (vmHost v) vo_host0 Hf) as
    (fd & ino & h & -> & Hino & Hbs & Hfd & ->). cbn [mbind result_bind].
  rewrite !aset_Ok by lia. cbn [mbind result_bind].
  destruct (fd_ReadAt (names (vmHost v)) (inodes (vmHost v)) (fds (vmHost v)) fd ino 0 sw Hbs
    PageSize (a / PageSize * PageSize)) as (off & ->);
    [rewrite Hl in Hvp; unfold PageSize, SectorSize in *; lia|done|].
  cbn [mbind result_bind].
  set (i := Z.to_nat (a / PageSize)) in *.
  set (bs := take _ (drop _ sw)).
  assert (length bs = 256%nat) as Hlb.
  { unfold bs. rewrite length_take, length_drop. unfold PageSize, SectorSize in *. lia. }
  pose proof (wf_mem_length _ vo_machine0) as Hml. unfold MemorySize, PageSize, SectorSize in Hml.
  destruct (asplice_lookup (mainMemory (vmMachine v)) bs (Z.to_nat f * 256)) as (mem' & Hsp & Hlen & Hlk);
    [unfold NumPhysPages in *; lia|].
  replace (f * PageSize) with (Z.of_nat (Z.to_nat f * 256))
    by (unfold PageSize, SectorSize; lia).
  rewrite Hsp. cbn [mbind result_bind].
  unfold get_entry, set_entry. cbn [tables set_memory]. unfold table in Hpt. rewrite Hpt.
  assert (aget pt (a / PageSize) = Ok e) as -> by (apply aget_Ok; split; [lia|done]).
  cbn [mbind result_bind]. rewrite aset_Ok by lia. cbn [mbind result_bind].
  rewrite fd_Close by done. cbn [mbind result_bind].
  eexists _, f, sw. split; [done|]. split; [done|]. split; cbn; try done.
  - exists mem'. split; [done|]. split; [done|]. split; [|split].
    + apply Forall_lookup. intros x y. rewrite Hlk. case_decide; intros Hx.
      * assert (Forall byte bs) as Hbb by (by apply Forall_take, Forall_drop).
        by eapply Forall_lookup_1.
      * by eapply Forall_lookup_1; [apply (wf_mem_byte _ vo_machine0)|].
    + intros o Ho. rewrite Hlk, decide_True by lia. unfold bs.
      rewrite lookup_take_lt by (unfold PageSize, SectorSize; lia). rewrite lookup_drop. f_equal.
      unfold i, PageSize, SectorSize. lia.
    + intros x Hx. rewrite Hlk, decide_False; [done|]. intros Hr. apply Hx.
      rewrite Hlb in Hr. replace x with (Z.to_nat f * 256 + (x - Z.to_nat f * 256))%nat by lia.
      apply page_index. lia.
  - by destruct (vmHost v).
  - by rewrite !length_insert.
Qed.

Lemma PageFault_full v a :
  vm_ok ps v → ReadRegister (vmMachine v) BadVAddrReg = Ok a →
  count_clear (view (bitMap v)) = 0 → virtualOption = 0 →
  PageFault spaceOf virtualOption fifo random me ID v = Exited ID.
Proof.
  intros Hok Ha Hc ->. unfold PageFault. rewrite Ha. cbn [mbind result_bind].
  destruct (vo_bits _ _ Hok) as [Hwf _]. pose proof (Find_spec _ Hwf) as Hf.
  rewrite (proj2 (first_clear_None _) Hc) in Hf. by rewrite Hf.
Qed.

End HandlerSpec.

(** ** A store in a frame *)

Section Store.
Variables (ps : list (Space * list Z)) (v : VM) (k : nat) (sp : Space) (L : list Z)
  (pt : list TranslationEntry) (e : TranslationEntry) (a size x : Z).
Hypotheses (Hok : vm_ok ps v) (Hk : ps !! k = Some (sp, L)) (Hpt : table v sp = Some pt)
  (Hs : access_size size) (Ha : 0 <= a) (Hal : a mod size = 0).

Let i := Z.to_nat (a / PageSize).
Let mem := mainMemory (vmMachine v).
Let mem' := store mem (physicalPage e * PageSize + a mod PageSize) size x.
Let v' := set_vmMachine v (set_memory (vmMachine v) mem').
Hypotheses (He : pt !! i = Some e) (Hval : valid e = true).

Lemma st_frame : 0 <= physicalPage e < NumPhysPages ∧
  physicalPage e * PageSize + PageSize <= Z.of_nat (length mem) ∧
  same_page mem (Z.to_nat (physicalPage e)) L i ∧ frame_of v sp i = Some (physicalPage e).
Proof.
  destruct (vo_resident _ _ Hok _ _ _ Hk) as [(pt' & sw & Hpt' & _ & _ & _ & _ & Hent) _ _].
  assert (pt' = pt) as -> by congruence. destruct (Hent _ _ He) as [_ Hfr]. rewrite Hval in Hfr.
  destruct Hfr as (Hph & _ & Hsame). pose proof (wf_mem_length _ (vo_machine _ _ Hok)) as Hml.
  split; [done|]. split; [fold mem in Hml; unfold MemorySize, PageSize, SectorSize in *; lia|].
  split; [done|]. unfold frame_of. rewrite Hpt. cbn. rewrite He. cbn. by rewrite Hval.
Qed.

Lemma st_range : 0 <= size ∧ 0 <= a mod PageSize ∧ a mod PageSize + size <= PageSize ∧
  a / PageSize * PageSize + PageSize <= Z.of_nat (length L).
Proof.
  pose proof (access_page a size Hs Ha Hal). apply lookup_lt_Some in He. unfold i in He.
  destruct (vo_resident _ _ Hok _ _ _ Hk) as [(pt' & sw & Hpt' & Hl & _) Hsz _].
  assert (pt' = pt) as -> by congruence. unfold PageSize, SectorSize in *.
  split; [destruct Hs as [->|[->| ->]]; lia|]. split; [apply Z.mod_pos_bound; lia|].
  split; [done|]. Z.to_euclidean_division_equations; lia.
Qed.

Lemma st_mem y : (y / 256)%nat ≠ Z.to_nat (physicalPage e) → mem' !! y = mem !! y.
Proof. destruct st_frame as (? & ? & _). intros. apply store_elsewhere; try done; lia. Qed.

Lemma st_log y : (y / 256)%nat ≠ i → store L a size x !! y = L !! y.
Proof.
  destruct st_range as (_ & _ & _ & Hr). intros Hy.
  assert (a = a / PageSize * PageSize + a mod PageSize) as Heq
    by (unfold PageSize, SectorSize; Z.to_euclidean_division_equations; lia).
  rewrite Heq at 1. apply store_elsewhere; try done.
  unfold PageSize, SectorSize. apply Z.div_pos; lia.
Qed.

Lemma st_length : length (store L a size x) = length L ∧ length mem' = length mem.
Proof.
  destruct st_range as (? & ? & ? & ?), st_frame as (? & ? & _).
  unfold PageSize, SectorSize in *. split; apply length_store; try lia;
    Z.to_euclidean_division_equations; lia.
Qed.

(** The other pages keep their frames, which are not this one. *)
Lemma st_other k' sp' L' pt' sw' j y :
  ps !! k' = Some (sp', L') → table v sp' = Some pt' → pt' !! j = Some y →
  (k' ≠ k ∨ j ≠ i) → entry_ok v sw' L' j y → entry_ok v' sw' L' j y.
Proof.
  intros Hk' Hpt' Hy Hne [Hro Hyok]. split; [done|]. destruct (valid y) eqn:Hvy; [|done].
  destruct Hyok as (Hph & Hb & Hsy). split; [done|]. split; [done|].
  eapply same_page_elsewhere; [exact st_mem| |done]. intros Heq.
  destruct st_frame as (? & _ & _ & Hfr).
  destruct (vo_frames _ _ Hok k' k _ _ j i (physicalPage y) Hk' Hk) as [-> ->].
  - unfold frame_of. cbn. rewrite Hpt'. cbn. rewrite Hy. cbn. by rewrite Hvy.
  - cbn. rewrite Hfr. f_equal. lia.
  - by destruct Hne.
Qed.

Lemma st_mine sw' j y :
  pt !! j = Some y → entry_ok v sw' L j y → entry_ok v' sw' (store L a size x) j y.
Proof.
  intros Hy Hyok. destruct (decide (j = i)) as [->|Hne].
  - assert (y = e) as -> by congruence. destruct Hyok as [Hro Hyok]. split; [done|].
    rewrite Hval in *. destruct Hyok as (Hph & Hb & Hsy). split; [done|]. split; [done|].
    destruct st_frame as (? & ? & _), st_range as (? & ? & ? & ?).
    apply store_same_page; try done; try lia.
    unfold PageSize, SectorSize in *. Z.to_euclidean_division_equations; lia.
  - apply (st_other k sp L pt sw' j y) in Hyok as [Hro Hyok]; [|done..|by right]. split; [done|].
    destruct (valid y).
    + destruct Hyok as (? & ? & Hsy). split; [done|]. split; [done|].
      eapply same_page_elsewhere_r; [exact st_log|done|done].
    + eapply same_page_elsewhere_r; [exact st_log|done|done].
Qed.

Lemma st_lookup k' p : <[k := (sp, store L a size x)]> ps !! k' = Some p →
  ∃ p', ps !! k' = Some p' ∧ p'.1 = p.1 ∧
    (k' = k ∧ p = (sp, store L a size x) ∨ k' ≠ k ∧ p = p').
Proof.
  rewrite list_lookup_insert. case_decide as Hd; intros H.
  - destruct Hd as [<- _]. injection H as <-. exists (sp, L). auto.
  - exists p. split; [done|]. split; [done|]. right. split; [|done]. intros ->.
    apply Hd. split; [done|]. by eapply lookup_lt_Some.
Qed.

Lemma store_ok : vm_ok (<[k := (sp, store L a size x)]> ps) v'.
Proof.
  destruct st_length as [Hll Hlm]. pose proof Hok as []. split; try done.
  - destruct vo_machine0. split; cbn; try done; [by rewrite Hlm|by apply store_byte].
  - intros k' sp' L' (p' & Hk' & Hsp & [[-> [= -> ->]]|[Hne <-]])%st_lookup.
    + rewrite Hk in Hk'. injection Hk' as <-.
      destruct (vo_resident0 _ _ _ Hk) as [(pt1 & sw1 & Hpt1 & Hl1 & Hf1 & Hb1 & HL1 & Hent1) ? ?].
      assert (pt1 = pt) as -> by congruence. split; [|by rewrite Hll|done].
      exists pt, sw1. split_and!; try done; [by rewrite Hll|].
      intros j y Hy. by apply st_mine, Hent1.
    + destruct (vo_resident0 _ _ _ Hk') as [(pt1 & sw1 & Hpt1 & Hl1 & Hf1 & Hb1 & HL1 & Hent1) ? ?].
      split; [|done..]. exists pt1, sw1. split_and!; try done.
      intros j y Hy. eapply st_other; eauto.
  - intros k1 k2 p1 p2 (p1' & H1 & <- & _)%st_lookup (p2' & H2 & <- & _)%st_lookup. eauto.
  - intros k1 k2 p1 p2 j1 j2 f (p1' & H1 & <- & _)%st_lookup (p2' & H2 & <- & _)%st_lookup.
    by apply vo_frames0.
  - rewrite <- vo_count0. f_equal. clear -Hk. revert k Hk.
    induction ps as [|p l IH]; intros [|k] Hk; try done; cbn in *.
    + by injection Hk as ->.
    + fold (<[k := (sp, store L a size x)]> l). rewrite <- (IH k Hk). done.
Qed.

End Store.

(** ** One access *)

(** Flat memory *)
Definition in_memory (L : list Z) (a size : Z) : bool :=
  (u32 a mod size =? 0) && (u32 a + size <=? Z.of_nat (length L)).
Definition spec_read (L : list Z) (a size : Z) : access Z :=
  if in_memory L a size then Done (load L (u32 a) size) else Trapped AddressErrorException.
Definition spec_write (L : list Z) (a size x : Z) : access unit * list Z :=
  if in_memory L a size then (Done tt, store L (u32 a) size x)
  else (Trapped AddressErrorException, L).

Definition memory_full (v : VM) : Prop := count_clear (view (bitMap v)) = 0.

Section AccessSpec.
Variables (spaceOf : tid → result Space) (virtualOption fifo random : Z) (me : tid) (ID : Z) (be : bool).
Variables (ps : list (Space * list Z)) (k : nat) (sp : Space) (L : list Z).
Hypotheses (Hk : ps !! k = Some (sp, L)) (Hme : spaceOf me = Ok sp).

(** The machine with a fault pending. *)
Lemma raise_ok v a :
  vm_ok ps v → current sp (vmMachine v) → int32 a →
  ∃ m, RaiseException (vmMachine v) a = Ok m ∧ vm_ok ps (set_vmMachine v m) ∧
    current sp m ∧ ReadRegister m BadVAddrReg = Ok a ∧ tables m = tables (vmMachine v).
Proof.
  intros Hok [Hc1 Hc2] Ha. destruct (RaiseException_Ok _ a (vo_machine _ _ Hok) Ha) as
    (m & Hr & Hm & Heq & _). exists m. split; [done|].
  assert (tables m = tables (vmMachine v)) as Ht by (by rewrite Heq). split.
  - apply vm_ok_same; [done|done| | |rewrite Ht; apply same_tables_refl]; rewrite Heq;
      [apply (vo_tlb _ _ Hok)|done].
  - split; [split; by rewrite Heq|]. split; [|done].
    eapply RaiseException_BadVAddr; [apply (vo_machine _ _ Hok)|done].
Qed.

(** Where the page of [a] is. *)
Lemma page_cases v a size :
  vm_ok ps v → access_size size → int32 a →
  ∃ pt, table v sp = Some pt ∧
    if in_memory L a size then 0 <= a ∧ u32 a = a ∧ is_Some (pt !! Z.to_nat (a / PageSize))
    else u32 a mod size ≠ 0 ∨ pt !! Z.to_nat (u32 a / PageSize) = None.
Proof.
  intros Hok Hs Ha.
  destruct (vo_resident _ _ Hok _ _ _ Hk) as [(pt & sw & Hpt & Hl & _) Hsz Hadr].
  exists pt. split; [done|]. unfold in_memory. pose proof (u32_uint32 a) as Hu. unfold uint32 in Hu.
  destruct (Z.eqb_spec (u32 a mod size) 0) as [Hal|]; cbn [andb]; [|by left].
  assert (0 < size) by (destruct Hs as [->|[->| ->]]; lia).
  unfold PageSize, SectorSize in *. destruct (Z.leb_spec (u32 a + size) (Z.of_nat (length L))) as [Hle|Hgt].
  - assert (0 <= a) as Ha0.
    { destruct (decide (0 <= a)); [done|]. rewrite u32_neg in Hle by (done || lia).
      unfold int32 in Ha. lia. }
    rewrite u32_nonneg_id in * by done. split; [done|]. split; [done|].
    apply lookup_lt_is_Some_2. Z.to_euclidean_division_equations; lia.
  - right. apply lookup_ge_None_2. destruct Hs as [->|[->| ->]];
      Z.to_euclidean_division_equations; lia.
Qed.

(** The page is there: the access is a touch of its entry. *)
Lemma present_ok v a pt e (w : bool) :
  vm_ok ps v → current sp (vmMachine v) → table v sp = Some pt →
  pt !! Z.to_nat (a / PageSize) = Some e → valid e = true →
  let m := touch_entry (vmMachine v) (InTable (spaceTable sp) (a / PageSize)) w in
  vm_ok ps (set_vmMachine v m) ∧ current sp m ∧
  ∃ pt' e', table (set_vmMachine v m) sp = Some pt' ∧
    pt' !! Z.to_nat (a / PageSize) = Some e' ∧ same_mapping e e'.
Proof.
  intros Hok [Hc1 Hc2] Hpt He Hv m. split; [|split; [done|]].
  - apply vm_ok_same; try done; try apply Hok.
    + destruct (vo_machine _ _ Hok). by split.
    + apply same_tables_touch; [apply Hok|done].
  - exists (alter (touch w) (Z.to_nat (a / PageSize)) pt), (touch w e). unfold table in *. cbn.
    rewrite lookup_alter_eq, Hpt. split; [done|]. rewrite list_lookup_alter, decide_True by done.
    by rewrite He.
Qed.

(** The page is brought in when there is a free frame. *)
Lemma fault_ok v a pt e :
  vm_ok ps v → current sp (vmMachine v) → ReadRegister (vmMachine v) BadVAddrReg = Ok a → 0 <= a →
  table v sp = Some pt → pt !! Z.to_nat (a / PageSize) = Some e → valid e = false →
  ¬ memory_full v →
  ∃ v' pt' e', PageFault spaceOf virtualOption fifo random me ID v = Ok v' ∧ vm_ok ps v' ∧
    current sp (vmMachine v') ∧ table v' sp = Some pt' ∧
    pt' !! Z.to_nat (a / PageSize) = Some e' ∧ valid e' = true.
Proof.
  intros Hok [Hc1 Hc2] Hreg Ha Hpt He Hv Hfull.
  pose proof (count_clear_bound (view (bitMap v))) as Hcb. unfold memory_full in Hfull.
  destruct (PageFault_ok spaceOf virtualOption fifo random me ID ps k sp L Hk Hme v a pt e)
    as (v' & f & sw & Hpf & Hsw & Hpi); try done; [lia|].
  exists v'. eexists _, _. split; [done|]. split; [by eapply paged_in_ok|].
  destruct (pi_machine _ _ _ _ _ _ _ _ Hpi) as (mem' & Hm & _). split.
  - by rewrite Hm.
  - split; [by eapply pi_table_me|]. rewrite list_lookup_insert_eq by (by eapply lookup_lt_Some).
    done.
Qed.

(** What [Translate] says, from where the page is. *)
Lemma translate_cases v a size w :
  vm_ok ps v → current sp (vmMachine v) → access_size size → int32 a →
  wf_translation (vmMachine v) ∧ ∃ pt, table v sp = Some pt ∧
  if in_memory L a size then
    0 <= a ∧ u32 a = a ∧ a mod size = 0 ∧ ∃ e, pt !! Z.to_nat (a / PageSize) = Some e ∧
    Translate_spec (vmMachine v) a size w =
      if valid e then
        (Phys (physicalPage e * PageSize + a mod PageSize),
         touch_entry (vmMachine v) (InTable (spaceTable sp) (a / PageSize)) w)
      else (Fault PageFaultException, vmMachine v)
  else Translate_spec (vmMachine v) a size w = (Fault AddressErrorException, vmMachine v).
Proof.
  intros Hok Hc Hs Ha. split; [by eapply current_wf|].
  destruct (page_cases v a size Hok Hs Ha) as (pt & Hpt & Hin). exists pt. split; [done|].
  rewrite (Translate_user ps v k sp L pt a size w) by done.
  destruct (in_memory L a size) eqn:Hm.
  - destruct Hin as (Ha0 & Hu & e & He). rewrite Hu. unfold in_memory in Hm. rewrite Hu in Hm.
    apply andb_true_iff in Hm as [Hal%Z.eqb_eq _]. rewrite Hal. cbn [negb Z.eqb].
    split; [done|]. split; [done|]. split; [done|]. exists e. rewrite He. done.
  - destruct Hin as [Hal|Hnone]; [by rewrite (proj2 (Z.eqb_neq _ _) Hal)|].
    rewrite Hnone. by destruct (negb _).
Qed.

Lemma present_frame v a pt e :
  vm_ok ps v → table v sp = Some pt → pt !! Z.to_nat (a / PageSize) = Some e → valid e = true →
  0 <= physicalPage e ∧
  same_page (mainMemory (vmMachine v)) (Z.to_nat (physicalPage e)) L (Z.to_nat (a / PageSize)).
Proof.
  intros Hok Hpt He Hv.
  destruct (vo_resident _ _ Hok _ _ _ Hk) as [(pt' & sw & Hpt' & _ & _ & _ & _ & Hent) _ _].
  assert (pt' = pt) as -> by congruence. destruct (Hent _ _ He) as [_ Hx]. rewrite Hv in Hx.
  destruct Hx as (? & _ & ?). split; [lia|done].
Qed.

(** An access with the page present. *)
Lemma read_present v a size pt e :
  vm_ok ps v → current sp (vmMachine v) → access_size size → int32 a →
  in_memory L a size = true → table v sp = Some pt →
  pt !! Z.to_nat (a / PageSize) = Some e → valid e = true →
  ∃ m, ReadMem be (vmMachine v) a size = Ok (spec_read L a size, m) ∧
    vm_ok ps (set_vmMachine v m) ∧ current sp m ∧ same_tables (tables (vmMachine v)) (tables m).
Proof.
  intros Hok Hc Hs Ha Hin Hpt He Hv.
  destruct (translate_cases v a size false Hok Hc Hs Ha) as (Hwf & pt' & Hpt' & Htr).
  rewrite Hin in Htr. destruct Htr as (Ha0 & Hu & Hal & e' & He' & Htr).
  assert (pt' = pt) as -> by congruence. assert (e' = e) as -> by congruence. rewrite Hv in Htr.
  rewrite (ReadMem_spec be _ a size (vo_machine _ _ Hok) Hwf Hs), Htr.
  destruct (present_ok v a pt e false Hok Hc Hpt He Hv) as (Hok' & Hc' & _).
  eexists. split; [|split; [exact Hok'|split; [exact Hc'|apply same_tables_touch; [apply Hok|done]]]]. do 3 f_equal.
  unfold spec_read. rewrite Hin, Hu. f_equal. cbn [mainMemory touch_entry set_tables].
  destruct (present_frame v a pt e Hok Hpt He Hv). by apply load_same_page.
Qed.

Lemma write_present v a size x pt e :
  vm_ok ps v → current sp (vmMachine v) → access_size size → int32 a →
  in_memory L a size = true → table v sp = Some pt →
  pt !! Z.to_nat (a / PageSize) = Some e → valid e = true →
  ∃ m, WriteMem be (vmMachine v) a size x = Ok ((spec_write L a size x).1, m) ∧
    vm_ok (<[k := (sp, (spec_write L a size x).2)]> ps) (set_vmMachine v m) ∧ current sp m.
Proof.
  intros Hok Hc Hs Ha Hin Hpt He Hv.
  destruct (translate_cases v a size true Hok Hc Hs Ha) as (Hwf & pt' & Hpt' & Htr).
  rewrite Hin in Htr. destruct Htr as (Ha0 & Hu & Hal & e' & He' & Htr).
  assert (pt' = pt) as -> by congruence. assert (e' = e) as -> by congruence. rewrite Hv in Htr.
  rewrite (WriteMem_spec be _ a size x (vo_machine _ _ Hok) Hwf Hs), Htr.
  destruct (present_ok v a pt e true Hok Hc Hpt He Hv) as (Hok' & Hc' & pt1 & e1 & Hpt1 & He1 & Hsm).
  unfold spec_write. rewrite Hin, Hu. cbn [fst snd].
  assert (valid e1 = true) as Hv1 by (destruct Hsm as (_ & _ & -> & _); done).
  eexists. split; [done|]. split; [|by destruct Hc'; split].
  pose proof (store_ok ps _ k sp L pt1 e1 a size x Hok' Hk Hpt1 Hs Ha0 Hal He1 Hv1) as Hst.
  destruct Hsm as (_ & Hp & _). rewrite Hp in Hst. exact Hst.
Qed.

(** An access to a page that is not in memory: the fault, and the handler. *)
Lemma absent_ok v a size w pt e :
  vm_ok ps v → current sp (vmMachine v) → access_size size → int32 a →
  in_memory L a size = true → table v sp = Some pt →
  pt !! Z.to_nat (a / PageSize) = Some e → valid e = false →
  ∃ m, Translate_spec (vmMachine v) a size w = (Fault PageFaultException, vmMachine v) ∧
    RaiseException (vmMachine v) a = Ok m ∧
    (memory_full v → virtualOption = 0 →
       PageFault spaceOf virtualOption fifo random me ID (set_vmMachine v m) = Exited ID) ∧
    (¬ memory_full v → ∃ v' pt' e',
       PageFault spaceOf virtualOption fifo random me ID (set_vmMachine v m) = Ok v' ∧ vm_ok ps v' ∧
       current sp (vmMachine v') ∧ table v' sp = Some pt' ∧
       pt' !! Z.to_nat (a / PageSize) = Some e' ∧ valid e' = true).
Proof.
  intros Hok Hc Hs Ha Hin Hpt He Hv.
  destruct (translate_cases v a size w Hok Hc Hs Ha) as (Hwf & pt' & Hpt' & Htr).
  rewrite Hin in Htr. destruct Htr as (Ha0 & Hu & Hal & e' & He' & Htr).
  assert (pt' = pt) as -> by congruence. assert (e' = e) as -> by congruence. rewrite Hv in Htr.
  destruct (raise_ok v a Hok Hc Ha) as (m & Hr & Hok' & Hc' & Hbad & Htab).
  exists m. split; [done|]. split; [done|]. split.
  - intros Hfull. by eapply (PageFault_full _ _ _ _ _ _ ps (set_vmMachine v m)).
  - intros Hfull. eapply (fault_ok (set_vmMachine v m) a pt e); try done.
    unfold table. cbn. by rewrite Htab.
Qed.

(** Outside of the address space. *)
Lemma outside v a size w :
  vm_ok ps v → current sp (vmMachine v) → access_size size → int32 a → in_memory L a size = false →
  ∃ m, Translate_spec (vmMachine v) a size w = (Fault AddressErrorException, vmMachine v) ∧
    RaiseException (vmMachine v) a = Ok m ∧ vm_ok ps (set_vmMachine v m) ∧ current sp m.
Proof.
  intros Hok Hc Hs Ha Hin.
  destruct (translate_cases v a size w Hok Hc Hs Ha) as (Hwf & pt' & Hpt' & Htr).
  rewrite Hin in Htr. destruct (raise_ok v a Hok Hc Ha) as (m & Hr & Hok' & Hc' & _).
  by exists m.
Qed.

(** The page of [a] has no frame. *)
Definition absent (v : VM) (a size : Z) : Prop :=
  in_memory L a size = true ∧ frame_of v sp (Z.to_nat (a / PageSize)) = None.

Lemma user_read_ok v a size :
  vm_ok ps v → current sp (vmMachine v) → access_size size → int32 a →
  (∃ v', user_read spaceOf virtualOption fifo random me ID be a size v = Ok (spec_read L a size, v') ∧
     vm_ok ps v' ∧ current sp (vmMachine v')) ∨
  (memory_full v ∧ absent v a size ∧ (virtualOption = 0 →
     user_read spaceOf virtualOption fifo random me ID be a size v = Exited ID)).
Proof.
  intros Hok Hc Hs Ha.
  destruct (translate_cases v a size false Hok Hc Hs Ha) as (Hwf & pt & Hpt & Htr).
  destruct (in_memory L a size) eqn:Hin.
  - destruct Htr as (Ha0 & Hu & Hal & e & He & _). destruct (valid e) eqn:Hv.
    + left. destruct (read_present v a size pt e Hok Hc Hs Ha Hin Hpt He Hv) as (m & Hr & Hok' & Hc' & _).
      exists (set_vmMachine v m). unfold user_read. rewrite Hr. cbn [mbind result_bind].
      unfold spec_read. rewrite Hin. done.
    + destruct (absent_ok v a size false pt e Hok Hc Hs Ha Hin Hpt He Hv) as (m & Htr & Hr & Hx & Hp).
      unfold user_read. rewrite (ReadMem_spec be _ a size (vo_machine _ _ Hok) Hwf Hs), Htr, Hr.
      cbn [mbind result_bind].
      destruct (decide (count_clear (view (bitMap v)) = 0)) as [Hf|Hf].
      * right. split; [done|]. split; [|intros Hvo; by rewrite Hx].
        split; [done|]. unfold frame_of. rewrite Hpt. cbn. rewrite He. cbn. by rewrite Hv.
      * left. destruct (Hp Hf) as (v' & pt' & e' & -> & Hok' & Hc' & Hpt' & He' & Hv').
        cbn [mbind result_bind].
        destruct (read_present v' a size pt' e' Hok' Hc' Hs Ha Hin Hpt' He' Hv') as
          (m' & -> & Hok'' & Hc'' & _). cbn [mbind result_bind]. eauto.
  - left. destruct (outside v a size false Hok Hc Hs Ha Hin) as (m & Htr' & Hr & Hok' & Hc').
    unfold user_read. rewrite (ReadMem_spec be _ a size (vo_machine _ _ Hok) Hwf Hs), Htr', Hr.
    cbn [mbind result_bind]. unfold spec_read. rewrite Hin. eauto.
Qed.

Lemma user_write_ok v a size x :
  vm_ok ps v → current sp (vmMachine v) → access_size size → int32 a →
  (∃ v', user_write spaceOf virtualOption fifo random me ID be a size x v =
       Ok ((spec_write L a size x).1, v') ∧
     vm_ok (<[k := (sp, (spec_write L a size x).2)]> ps) v' ∧ current sp (vmMachine v')) ∨
  (memory_full v ∧ absent v a size ∧ (virtualOption = 0 →
     user_write spaceOf virtualOption fifo random me ID be a size x v = Exited ID)).
Proof.
  intros Hok Hc Hs Ha.
  destruct (translate_cases v a size true Hok Hc Hs Ha) as (Hwf & pt & Hpt & Htr).
  destruct (in_memory L a size) eqn:Hin.
  - destruct Htr as (Ha0 & Hu & Hal & e & He & _). destruct (valid e) eqn:Hv.
    + left. destruct (write_present v a size x pt e Hok Hc Hs Ha Hin Hpt He Hv) as
        (m & Hr & Hok' & Hc').
      exists (set_vmMachine v m). unfold user_write. rewrite Hr. cbn [mbind result_bind].
      unfold spec_write in *. rewrite Hin in *. done.
    + destruct (absent_ok v a size true pt e Hok Hc Hs Ha Hin Hpt He Hv) as (m & Htr & Hr & Hx & Hp).
      unfold user_write. rewrite (WriteMem_spec be _ a size x (vo_machine _ _ Hok) Hwf Hs), Htr, Hr.
      cbn [mbind result_bind].
      destruct (decide (count_clear (view (bitMap v)) = 0)) as [Hf|Hf].
      * right. split; [done|]. split; [|intros Hvo; by rewrite Hx].
        split; [done|]. unfold frame_of. rewrite Hpt. cbn. rewrite He. cbn. by rewrite Hv.
      * left. destruct (Hp Hf) as (v' & pt' & e' & -> & Hok' & Hc' & Hpt' & He' & Hv').
        cbn [mbind result_bind].
        destruct (write_present v' a size x pt' e' Hok' Hc' Hs Ha Hin Hpt' He' Hv') as
          (m' & -> & Hok'' & Hc''). cbn [mbind result_bind]. eauto.
  - left. destruct (outside v a size true Hok Hc Hs Ha Hin) as (m & Htr' & Hr & Hok' & Hc').
    unfold user_write. rewrite (WriteMem_spec be _ a size x (vo_machine _ _ Hok) Hwf Hs), Htr', Hr.
    cbn [mbind result_bind]. unfold spec_write. rewrite Hin. cbn [fst snd].
    rewrite list_insert_id by done. eauto.
Qed.

(** A page that is not in memory when all the processes fit in it: there is a
    free frame. *)
Lemma room v a size :
  vm_ok ps v → total (λ p, numPages p.1) ps <= NumPhysPages → absent v a size → int32 a →
  access_size size → ¬ memory_full v.
Proof.
  intros Hok Htot [Hin Hab] Ha Hs Hfull. unfold memory_full in Hfull.
  destruct (page_cases v a size Hok Hs Ha) as (pt & Hpt & Hc). rewrite Hin in Hc.
  destruct Hc as (_ & _ & e & He).
  assert (valid e = false) as Hv.
  { unfold frame_of in Hab. rewrite Hpt in Hab. cbn in Hab. rewrite He in Hab. cbn in Hab.
    by destruct (valid e). }
  pose proof (vo_count _ _ Hok) as Hcount.
  enough (total (λ p, resident_pages v p.1) ps < total (λ p, numPages p.1) ps) by lia.
  assert (Hle : ∀ k' p, ps !! k' = Some p → resident_pages v p.1 <= numPages p.1).
  { intros k' [sp' L'] Hk'. destruct (vo_resident _ _ Hok _ _ _ Hk') as [(pt' & sw & Hpt' & Hl & _) _ _].
    unfold resident_pages. cbn. rewrite Hpt'. cbn. unfold pages_in.
    pose proof (length_filter (λ e, valid e = true) pt'). lia. }
  assert (resident_pages v sp < numPages sp) as Hlt.
  { unfold resident_pages. rewrite Hpt. cbn.
    destruct (vo_resident _ _ Hok _ _ _ Hk) as [(pt' & sw & Hpt' & Hl & _) _ _].
    assert (pt' = pt) as -> by congruence.
    pose proof (pages_in_insert pt _ e (mkTE 0 0 true false false false) He Hv eq_refl) as H.
    unfold pages_in in *. pose proof (length_filter (λ e, valid e = true)
      (<[Z.to_nat (a / PageSize) := mkTE 0 0 true false false false]> pt)) as H'.
    rewrite length_insert in H'. lia. }
  by eapply (total_lt _ _ ps k (sp, L)).
Qed.

End AccessSpec.

(** ** Several processes taking turns *)

Inductive uop := URead (a size : Z) | UWrite (a size x : Z).
Inductive answer := ARead (r : access Z) | AWrite (r : access unit).

Definition uop_ok (o : uop) : Prop :=
  match o with URead a size | UWrite a size _ => access_size size ∧ int32 a end.

Section Turns.
Variables (virtualOption fifo random : Z) (be : bool) (IDs : tid → Z) (spaces : list Space).

Definition space_of (t : tid) : result Space :=
  match spaces !! t with Some sp => Ok sp | None => Undefined end.

(** The context switch to process [t] ([AddrSpace::RestoreState]), then its
    access. *)
Definition turn (t : tid) (o : uop) (v : VM) : result (answer * VM) :=
  sp ← space_of t;
  let v := set_vmMachine v (set_pageTable (vmMachine v) (Some (spaceTable sp)) (numPages sp)) in
  match o with
  | URead a size =>
      '(r, v) ← user_read space_of virtualOption fifo random t (IDs t) be a size v; Ok (ARead r, v)
  | UWrite a size x =>
      '(r, v) ← user_write space_of virtualOption fifo random t (IDs t) be a size x v; Ok (AWrite r, v)
  end.

Fixpoint turns (l : list (tid * uop)) (v : VM) : result (list answer * VM) :=
  match l with
  | [] => Ok ([], v)
  | (t, o) :: l => '(r, v) ← turn t o v; '(rs, v) ← turns l v; Ok (r :: rs, v)
  end.

(** The specification: each process has a memory of its own. *)
Definition spec_turn (t : tid) (o : uop) (mems : list (list Z)) : answer * list (list Z) :=
  let L := default [] (mems !! t) in
  match o with
  | URead a size => (ARead (spec_read L a size), mems)
  | UWrite a size x => let '(r, L) := spec_write L a size x in (AWrite r, <[t := L]> mems)
  end.

Fixpoint spec_turns (l : list (tid * uop)) (mems : list (list Z)) : list answer * list (list Z) :=
  match l with
  | [] => ([], mems)
  | (t, o) :: l =>
      let '(r, mems) := spec_turn t o mems in
      let '(rs, mems) := spec_turns l mems in (r :: rs, mems)
  end.

Lemma insert_zip (mems : list (list Z)) t sp L :
  length mems = length spaces → spaces !! t = Some sp →
  <[t := (sp, L)]> (zip spaces mems) = zip spaces (<[t := L]> mems).
Proof.
  intros Hl Ht. apply list_eq. intros j. rewrite list_lookup_insert, lookup_zip_with.
  rewrite lookup_zip_with. pose proof (lookup_lt_Some _ _ _ Ht).
  rewrite length_zip_with. case_decide as Hd.
  - destruct Hd as [<- _]. rewrite Ht. cbn. by rewrite list_lookup_insert_eq by lia.
  - destruct (decide (t = j)) as [->|]; [|by rewrite list_lookup_insert_ne].
    exfalso. apply Hd. lia.
Qed.

(** All frames are taken, and [t] is about to use a page of its memory that has
    none. *)
Definition starved (mems : list (list Z)) (t : tid) (o : uop) (v : VM) : Prop :=
  memory_full v ∧ ∃ sp L, spaces !! t = Some sp ∧ mems !! t = Some L ∧
    match o with URead a size | UWrite a size _ => absent sp L v a size end.

(** One turn: the specification's, or the process is killed for lack of a
    frame. *)
Lemma turn_ok t o mems v :
  length mems = length spaces → (t < length spaces)%nat → uop_ok o →
  vm_ok (zip spaces mems) v →
  (∃ v', turn t o v = Ok ((spec_turn t o mems).1, v') ∧
     length (spec_turn t o mems).2 = length spaces ∧ vm_ok (zip spaces (spec_turn t o mems).2) v') ∨
  ¬ (total numPages spaces <= NumPhysPages) ∧ starved mems t o v ∧ (virtualOption = 0 → turn t o v = Exited (IDs t)).
Proof.
  intros Hl Ht Ho Hok. destruct (lookup_lt_is_Some_2 spaces t Ht) as [sp Hsp].
  destruct (lookup_lt_is_Some_2 mems t) as [L HL]; [lia|].
  assert (Hk : zip spaces mems !! t = Some (sp, L)) by (rewrite lookup_zip_with, Hsp; cbn; by rewrite HL).
  assert (Hme : space_of t = Ok sp) by (unfold space_of; by rewrite Hsp).
  assert (Htot : total numPages spaces = total (λ p, numPages p.1) (zip spaces mems)).
  { clear -Hl. revert mems Hl. induction spaces as [|x l IH]; intros [|y mems] Hl; try done; cbn in *.
    rewrite (IH mems); lia. }
  unfold turn. rewrite Hme. cbn [mbind result_bind].
  set (v0 := set_vmMachine v (set_pageTable (vmMachine v) (Some (spaceTable sp)) (numPages sp))).
  assert (vm_ok (zip spaces mems) v0) as Hok0.
  { apply vm_ok_same; try done; [|apply Hok]. destruct (vo_machine _ _ Hok). by split. }
  assert (current sp (vmMachine v0)) as Hc0 by done.
  destruct o as [a size|a size x]; destruct Ho as [Hs Ha]; unfold spec_turn; rewrite HL;
    cbn [default from_option id].
  - destruct (user_read_ok space_of virtualOption fifo random t (IDs t) be _ t sp L Hk Hme v0 a size)
      as [(v' & -> & Hok' & _)|(Hf & Hab & Hx)]; try done; [left|right].
    + by exists v'.
    + split; [|split; [by split; [|exists sp, L]|by intros Hvo; rewrite Hx]]. rewrite Htot. intros H.
      by eapply (room _ t sp L Hk v0 a size).
  - destruct (user_write_ok space_of virtualOption fifo random t (IDs t) be _ t sp L Hk Hme v0 a size x)
      as [(v' & -> & Hok' & _)|(Hf & Hab & Hx)]; try done; [left|right].
    + destruct (spec_write L a size x) as [r L'].
      cbn [fst snd mbind result_bind] in *. exists v'.
      split; [done|]. split; [by rewrite length_insert|]. by rewrite <- (insert_zip _ _ sp).
    + split; [|split; [by split; [|exists sp, L]|by intros Hvo; rewrite Hx]]. rewrite Htot. intros H.
      by eapply (room _ t sp L Hk v0 a size).
Qed.

Lemma turns_ok l mems v :
  length mems = length spaces → Forall (λ x, (x.1 < length spaces)%nat ∧ uop_ok x.2) l →
  vm_ok (zip spaces mems) v → total numPages spaces <= NumPhysPages →
  ∃ v', turns l v = Ok ((spec_turns l mems).1, v') ∧ vm_ok (zip spaces (spec_turns l mems).2) v'.
Proof.
  revert mems v. induction l as [|[t o] l IH]; intros mems v Hl Hops Hok Htot; cbn [turns spec_turns].
  - by exists v.
  - apply Forall_cons in Hops as [[Ht Ho] Hops]. cbn in Ht, Ho.
    destruct (turn_ok t o mems v Hl Ht Ho Hok) as [(v1 & -> & Hl1 & Hok1)|[? _]]; [|done].
    destruct (spec_turn t o mems) as [r mems1]. cbn [fst snd mbind result_bind] in *.
    destruct (IH mems1 v1 Hl1 Hops Hok1 Htot) as (v2 & -> & Hok2).
    destruct (spec_turns l mems1) as [rs mems2]. cbn [fst snd mbind result_bind] in *. eauto.
Qed.

Lemma turns_killed l mems v :
  length mems = length spaces → Forall (λ x, (x.1 < length spaces)%nat ∧ uop_ok x.2) l →
  vm_ok (zip spaces mems) v → virtualOption = 0 →
  (∃ v', turns l v = Ok ((spec_turns l mems).1, v')) ∨
  ∃ l1 t o l2 v1, l = l1 ++ (t, o) :: l2 ∧ turns l1 v = Ok ((spec_turns l1 mems).1, v1) ∧
    starved (spec_turns l1 mems).2 t o v1 ∧ turns l v = Exited (IDs t).
Proof.
  revert mems v. induction l as [|[t o] l IH]; intros mems v Hl Hops Hok Hvo; cbn [turns spec_turns].
  - left. by exists v.
  - apply Forall_cons in Hops as [[Ht Ho] Hops]. cbn in Ht, Ho.
    destruct (turn_ok t o mems v Hl Ht Ho Hok) as [(v1 & Hturn & Hl1 & Hok1)|(_ & Hst & Hx)].
    + destruct (spec_turn t o mems) as [r mems1] eqn:Hspec. rewrite Hturn. cbn [fst snd mbind result_bind] in *.
      destruct (IH mems1 v1 Hl1 Hops Hok1 Hvo) as [(v2 & ->)|(l1 & t' & o' & l2 & v2 & -> & Hrun & Hst & ->)].
      * left. destruct (spec_turns l mems1) as [rs mems2]. by exists v2.
      * right. exists ((t, o) :: l1), t', o', l2, v2. split; [done|]. cbn [turns spec_turns].
        rewrite Hturn, Hspec. cbn [mbind result_bind]. rewrite Hrun. cbn [mbind result_bind].
        by destruct (spec_turns l1 mems1).
    + right. exists [], t, o, l, v. rewrite Hx by done. split; [done|]. by split.
Qed.

End Turns.

(** ** Properties *)

(** C33: demand paging is transparent.  When the pages of all processes together
    fit in physical memory, any interleaving of their memory accesses - each
    after the context switch to the process, with a page fault handled and the
    access repeated when the page is not in memory - gives exactly the answers
    of processes that each have a flat memory of their own: a read gives the
    last value written by the same process (initially the contents of the swap
    file), an access outside of the address space or misaligned is an address
    error, no process sees or changes another's memory, and no process is
    killed. *)
Theorem paging_transparent virtualOption fifo random be IDs spaces mems l v :
  length mems = length spaces → Forall (λ x, (x.1 < length spaces)%nat ∧ uop_ok x.2) l →
  vm_ok (zip spaces mems) v → total numPages spaces <= NumPhysPages →
  ∃ v', turns virtualOption fifo random be IDs spaces l v = Ok ((spec_turns l mems).1, v') ∧
    vm_ok (zip spaces (spec_turns l mems).2) v'.
Proof. apply turns_ok. Qed.

(** C34: when there are more pages than frames, plain demand paging
    ([virtualOption] 0) still never gives a wrong answer.  Either all accesses are
    answered as by separate flat memories; or they are up to an access of a process
    [t] to a page of its own that is not in memory, at a time when every frame is
    taken, and there Nachos exits with the ID of that process.  No ASSERT fails. *)
Theorem paging_out_of_frames fifo random be IDs spaces mems l v :
  length mems = length spaces → Forall (λ x, (x.1 < length spaces)%nat ∧ uop_ok x.2) l →
  vm_ok (zip spaces mems) v →
  (∃ v', turns 0 fifo random be IDs spaces l v = Ok ((spec_turns l mems).1, v')) ∨
  ∃ l1 t o l2 v1, l = l1 ++ (t, o) :: l2 ∧
    turns 0 fifo random be IDs spaces l1 v = Ok ((spec_turns l1 mems).1, v1) ∧
    starved spaces (spec_turns l1 mems).2 t o v1 ∧
    turns 0 fifo random be IDs spaces l v = Exited (IDs t).
Proof. intros. by apply turns_killed. Qed.
