(* ===== verification/Loader.v ===== *)
(** * userprog/addrspace.cc: loading a program

    What the constructor of [AddrSpace] leaves: a process whose memory is the
    program file after its header.  The other processes are not disturbed. *)

From S2P Require Import Prelude Params.
From S2P Require Import BitMap.
From S2P Require Import Machine.
From S2P Require Import HostFs.
From S2P Require Import Kernel AddrSpace Paging.
Local Open Scope Z_scope.

(** The first [size] bytes after the header; past the end of the file, whatever
    [new char[size]] held. *)
Definition image (junkBuf : nat → Z) (exe : list Z) (size : Z) : list Z :=
  let bs := take (Z.to_nat size) (drop (Z.to_nat sizeof_NoffHeader) exe) in
  bs ++ drop (length bs) (junkBuf <$> seq 0 (Z.to_nat size)).

Lemma image_app junkBuf exe size :
  let bs := take (Z.to_nat size) (drop (Z.to_nat sizeof_NoffHeader) exe) in
  bs ++ drop (length bs) (junkBuf <$> seq 0 (Z.to_nat size)) = image junkBuf exe size.
Proof. reflexivity. Qed.

Lemma length_image junkBuf exe size : length (image junkBuf exe size) = Z.to_nat size.
Proof.
  unfold image. rewrite length_app, length_drop, length_fmap, length_seq, length_take. lia.
Qed.

Lemma image_bytes junkBuf exe size :
  Forall byte exe → (∀ i, byte (junkBuf i)) → Forall byte (image junkBuf exe size).
Proof.
  intros He Hj. unfold image. apply Forall_app. split; [by apply Forall_take, Forall_drop|].
  apply Forall_drop, Forall_fmap, Forall_forall. intros i _. apply Hj.
Qed.

Lemma fd_view h fd i off :
  fds h !! fd = Some (i, off) → h = mkHost (names h) (inodes h) (<[fd := (i, off)]> (fds h)).
Proof. intros H. rewrite insert_id by done. by destruct h. Qed.

Lemma space_pages_nonneg noffH : 0 <= space_pages noffH.
Proof.
  unfold space_pages. pose proof (u32_uint32 (segSize (code noffH) + segSize (initData noffH) +
    segSize (uninitData noffH) + UserStackSize)) as [? _].
  rewrite divRoundUp_spec by (done || unfold PageSize, SectorSize; lia).
  apply Z.div_pos; unfold PageSize, SectorSize in *; lia.
Qed.

(** ** A new process beside the others *)

Section Add.
Variables (ps : list (Space * list Z)) (v : VM) (h : Host) (sp : Space) (L : list Z)
  (pt : list TranslationEntry).
Hypotheses (Hok : vm_ok ps v) (Hh : wf_host h)
  (Hfresh : tables (vmMachine v) !! spaceTable sp = None)
  (Hlen : Z.of_nat (length pt) = numPages sp)
  (Hinv : ∀ i e, pt !! i = Some e → valid e = false ∧ readOnly e = false)
  (Hfile : file_named h (swapFileName sp) = Some L) (Hbyte : Forall byte L)
  (HL : Z.of_nat (length L) = numPages sp * PageSize) (Hadr : numPages sp * PageSize <= 2 ^ 31)
  (Hothers : ∀ k sp' L', ps !! k = Some (sp', L') →
     file_named h (swapFileName sp') = file_named (vmHost v) (swapFileName sp')).

Let v' := mkVM (set_tables (vmMachine v) (<[spaceTable sp := pt]> (tables (vmMachine v))))
  h (bitMap v) (IPT v) (IPT_VP v) (pageFaults v).

Lemma add_table_new : table v' sp = Some pt.
Proof. unfold table. cbn. apply lookup_insert_eq. Qed.

Lemma add_table_old k p : ps !! k = Some p →
  spaceTable sp ≠ spaceTable p.1 ∧ table v' p.1 = table v p.1.
Proof.
  intros Hk. destruct p as [sp' L'].
  destruct (rs_table _ _ _ (vo_resident _ _ Hok _ _ _ Hk)) as (pt' & sw & Hpt' & _).
  assert (spaceTable sp ≠ spaceTable sp') as Hne.
  { intros Heq. unfold table in Hpt'. rewrite <- Heq in Hpt'. congruence. }
  split; [done|]. unfold table. cbn. by rewrite lookup_insert_ne.
Qed.

Lemma add_frame_new i : frame_of v' sp i = None.
Proof.
  unfold frame_of. rewrite add_table_new. cbn. destruct (pt !! i) as [e|] eqn:E; [|done]. cbn.
  destruct (Hinv _ _ E) as [-> _]. done.
Qed.

Lemma add_cases k p : (ps ++ [(sp, L)]) !! k = Some p →
  ps !! k = Some p ∨ k = length ps ∧ p = (sp, L).
Proof.
  intros [H|[Hge H]]%lookup_app_Some; [by left|]. right.
  apply list_lookup_singleton_Some in H as [Hz <-]. split; [lia|done].
Qed.

Lemma pages_in_new : pages_in pt = 0.
Proof.
  unfold pages_in. rewrite filter_none; [done|]. apply Forall_lookup. intros i e He.
  destruct (Hinv _ _ He) as [-> _]. done.
Qed.

Lemma total_app {A} (f : A → Z) l l' : total f (l ++ l') = total f l + total f l'.
Proof. induction l as [|x l IH]; cbn; lia. Qed.

Lemma vm_ok_add : vm_ok (ps ++ [(sp, L)]) v'.
Proof.
  pose proof Hok as [Hm Htlb _ Hbits Hipt Hres Htab Hfr Hcount]. split; try done.
  - destruct Hm. by split.
  - intros k sp' L' [Hk|[-> [= -> ->]]]%add_cases.
    + destruct (Hres _ _ _ Hk) as [(pt' & sw & Hpt' & Hl & Hf & Hb & Hsz & Hent) ? ?].
      split; [|done..]. exists pt', sw. destruct (add_table_old _ _ Hk) as [_ Ht]. cbn [fst] in Ht.
      rewrite Ht. split_and!; try done. cbn [vmHost v']. by rewrite (Hothers _ _ _ Hk).
    + split; [|done..]. exists pt, L. rewrite add_table_new. split_and!; try done.
      intros i e He. destruct (Hinv _ _ He) as [Hv Hr]. split; [done|]. by rewrite Hv.
  - intros k k' p p' [Hk|[-> ->]]%add_cases [Hk'|[-> ->]]%add_cases Heq; try done.
    + by eapply Htab.
    + by destruct (add_table_old _ _ Hk) as [[] _].
    + by destruct (add_table_old _ _ Hk') as [[] _].
  - intros k k' p p' i j f [Hk|[-> ->]]%add_cases [Hk'|[-> ->]]%add_cases; cbn [fst];
      rewrite ?add_frame_new; try done.
    destruct (add_table_old _ _ Hk) as [_ T1], (add_table_old _ _ Hk') as [_ T2].
    unfold frame_of. rewrite T1, T2. by apply Hfr.
  - rewrite total_app. cbn [total fst]. unfold resident_pages at 2. rewrite add_table_new.
    cbn [default from_option id]. rewrite pages_in_new.
    rewrite (total_ext _ (λ p, resident_pages v p.1)); [cbn [bitMap v']; lia|].
    intros p (k & Hk)%list_elem_of_lookup. unfold resident_pages.
    by destruct (add_table_old _ _ Hk) as [_ ->].
Qed.

End Add.

(** The host's files may change, as long as the swap files do not. *)
Lemma vm_ok_host ps v h :
  vm_ok ps v → wf_host h →
  (∀ k sp L, ps !! k = Some (sp, L) → file_named h (swapFileName sp) = file_named (vmHost v) (swapFileName sp)) →
  vm_ok ps (mkVM (vmMachine v) h (bitMap v) (IPT v) (IPT_VP v) (pageFaults v)).
Proof.
  intros Hok Hw Hf. pose proof Hok as []. split; try done. intros k sp L Hk.
  destruct (vo_resident k sp L Hk) as [(pt & sw & Hpt & Hl & Hfile & Hb & HL & He) Hsz Ha].
  split; [|done..]. exists pt, sw. cbn [vmHost]. by rewrite (Hf _ _ _ Hk).
Qed.

(** ** The constructor *)

Lemma write_at_new bs : write_at [] 0 bs = bs.
Proof. unfold write_at. cbn. rewrite skipn_nil. by rewrite app_nil_r. Qed.

Section Construct.
Variables (be : bool) (junkBuf junkHdr : nat → Z) (junkTable : nat → TranslationEntry)
  (executable threadID : Z) (exeName : list Z) (ino : positive) (off : Z) (exe : list Z)
  (noffH : NoffHeader).
Variables (ps : list (Space * list Z)) (v : VM).

(** [executable] is open on a program that is not another process's swap file. *)
Record loadable : Prop := {
  lo_name : names (vmHost v) !! exeName = Some ino;
  lo_fd : fds (vmHost v) !! executable = Some (ino, off);
  lo_file : inodes (vmHost v) !! ino = Some exe;
  lo_byte : Forall byte exe;
  lo_length : 40 <= Z.of_nat (length exe);
  lo_size : space_pages noffH * PageSize < 2 ^ 31;
  lo_junk : ∀ i, byte (junkBuf i);
  lo_swap : exeName ≠ swap_name threadID;
  lo_others : ∀ k sp L, ps !! k = Some (sp, L) → swapFileName sp ≠ swap_name threadID }.

Let n := space_pages noffH.
Let L := image junkBuf exe (n * PageSize).

(** The swap file is created and filled from the program. *)
Lemma fill_swap_run h off1 :
  wf_host h → loadable → names h = names (vmHost v) → inodes h = inodes (vmHost v) →
  fds h = <[executable := (ino, off1)]> (fds (vmHost v)) →
  ∃ h1 h2 h3 h4 h' fd i off', stub_Create (swap_name threadID) (n * PageSize) h = Ok (true, h1) ∧
    stub_Open (swap_name threadID) h1 = Ok (Some fd, h2) ∧
    stub_ReadAt executable (n * PageSize) sizeof_NoffHeader h2 =
      Ok (take (Z.to_nat (n * PageSize)) (drop (Z.to_nat sizeof_NoffHeader) exe), h3) ∧
    stub_WriteAt fd L (n * PageSize) 0 h3 = Ok (n * PageSize, h4) ∧ Close fd h4 = Ok h' ∧
    wf_host h1 ∧ names h1 !! exeName = Some ino ∧ names h1 !! swap_name threadID = Some i ∧
    (∀ x, x ≠ swap_name threadID → file_named h1 x = file_named h x) ∧
    h' = mkHost (names h1) (<[i := L]> (inodes h1)) (<[executable := (ino, off')]> (fds (vmHost v))).
Proof.
  intros Hw [] Hns Hin Hfds0. pose proof (space_pages_nonneg noffH) as Hn0. fold n in Hn0.
  destruct (stub_Create_spec (swap_name threadID) (n * PageSize) h Hw) as
    (h1 & Hcr & Hw1 & Hfds & Hnames & Hfiles). rewrite Hfds0 in Hfds.
  destruct (stub_Open_spec (swap_name threadID) [] h1 Hw1) as
    (fd & i & h2 & Hop & Hi & Hbs & Hfd & Heq); [by rewrite Hfiles, decide_True|].
  assert (names h1 !! exeName = Some ino) as Hn1 by (by rewrite Hnames, Hns).
  assert (inodes h1 !! ino = Some exe) as Hino.
  { pose proof (Hfiles exeName) as Hf. rewrite decide_False in Hf by done.
    unfold file_named in Hf. rewrite Hn1, Hns, Hin, lo_name0 in Hf. cbn in Hf. congruence. }
  rewrite Hfds in Hfd, Heq.
  assert (fd ≠ executable) as Hne by (intros ->; by rewrite lookup_insert_eq in Hfd).
  rewrite lookup_insert_ne in Hfd by done. rewrite insert_insert_ne in Heq by done.
  assert (0 <= n * PageSize < 2 ^ 31) as Hnp by (unfold PageSize, SectorSize in *; lia).
  destruct (fd_ReadAt (names h1) (inodes h1) (<[fd := (i, 0)]> (fds (vmHost v))) executable ino off1 exe
    Hino (n * PageSize) sizeof_NoffHeader ltac:(done) Hnp) as (off2 & Hrd). rewrite <- Heq in Hrd.
  assert (Z.of_nat (length L) = n * PageSize) as HL.
  { unfold L. rewrite length_image. unfold PageSize, SectorSize. lia. }
  destruct (fd_WriteAt (names h1) (inodes h1) (<[executable := (ino, off2)]> (fds (vmHost v))) fd i 0 []
    Hbs L (n * PageSize) 0) as (off3 & Hwr); [done|done|lia|].
  rewrite (take_ge L), write_at_new in Hwr by lia.
  rewrite insert_insert_ne in Hrd by done.
  eexists h1, h2, _, _, _, fd, i, off2. split; [exact Hcr|]. split; [exact Hop|].
  split; [exact Hrd|]. split; [exact Hwr|]. split; [apply fd_Close; by rewrite lookup_insert_ne|].
  split_and!; try done. intros x Hx. by rewrite Hfiles, decide_False.
Qed.

Lemma newAddrSpace_run :
  wf_host (vmHost v) → loadable → read_header be (take 40 exe) = Some noffH →
  ∃ h off', newAddrSpace be junkBuf junkHdr junkTable executable threadID
      (vmMachine v) (vmHost v) =
      (let p := fresh (dom (tables (vmMachine v))) in
       Ok (Some (mkSpace p n (swap_name threadID)),
           set_tables (vmMachine v) (<[p := new_table junkTable n]> (tables (vmMachine v))), h)) ∧
    wf_host h ∧ fds h = <[executable := (ino, off')]> (fds (vmHost v)) ∧
    names h !! exeName = Some ino ∧
    ∀ x, file_named h x = if decide (x = swap_name threadID) then Some L
                          else file_named (vmHost v) x.
Proof.
  intros Hw Hlo Hhdr. pose proof Hlo as [].
  assert (length (take 40 exe) = 40%nat) as H40 by (rewrite length_take; lia).
  unfold newAddrSpace.
  destruct (fd_ReadAt (names (vmHost v)) _ (fds (vmHost v)) executable ino off exe lo_file0
    sizeof_NoffHeader 0 ltac:(done) ltac:(done)) as (off1 & Hr).
  rewrite <- (fd_view _ _ _ _ lo_fd0) in Hr. rewrite Hr. cbn [mbind result_bind].
  change (take (Z.to_nat sizeof_NoffHeader) (drop (Z.to_nat 0) exe)) with (take 40 exe).
  rewrite H40. rewrite (drop_ge _ 40) by done. rewrite app_nil_r.
  rewrite Hhdr. fold n.
  assert (u32 (n * PageSize) = n * PageSize) as ->.
  { apply u32_id. unfold uint32. pose proof (space_pages_nonneg noffH). fold n in lo_size0.
    fold n in H. unfold PageSize, SectorSize in *. lia. }
  set (h0 := mkHost (names (vmHost v)) (inodes (vmHost v)) _).
  assert (wf_host h0) as Hw0 by (by eapply wf_host_offset).
  destruct (fill_swap_run h0 off1) as (h1 & h2 & h3 & h4 & h' & fd & i & off' & -> & Hop & Hrd & Hwr &
    Hcl & Hw1 & Hn1 & Hi & Hfiles & Hh'); try done. cbn [mbind result_bind].
  rewrite Hop. cbn [mbind result_bind]. rewrite Hrd. cbn [mbind result_bind].
  rewrite image_app. fold L. rewrite Hwr. cbn [mbind result_bind].
  rewrite Hcl. cbn [mbind result_bind]. exists h', off'. split; [done|]. rewrite Hh'.
  set (h5 := mkHost (names h1) (inodes h1) (<[executable := (ino, off')]> (fds (vmHost v)))).
  assert (wf_host h5) as Hw5.
  { destruct Hw1 as [A B _]. destruct (wf_host_offset _ _ _ _ off' Hw lo_fd0) as [_ _ Hlow]. by split. }
  split; [exact (wf_host_write h5 i L Hw5)|].
  - split; [done|]. split; [done|]. intros x.
    pose proof (file_named_write h5 (swap_name threadID) i L x Hw5 Hi) as Hx. cbn in Hx. rewrite Hx.
    case_decide; [done|]. change (file_named h1 x = file_named h0 x). by apply Hfiles.
Qed.

Lemma new_table_entries i e : new_table junkTable n !! i = Some e → valid e = false ∧ readOnly e = false.
Proof. unfold new_table. intros (x & -> & _)%list_lookup_fmap_Some_1. done. Qed.

(** The new process, with the program as its memory, beside the old ones. *)
Lemma newAddrSpace_ok :
  vm_ok ps v → loadable → read_header be (take 40 exe) = Some noffH →
  ∃ sp m h off', newAddrSpace be junkBuf junkHdr junkTable executable threadID
      (vmMachine v) (vmHost v) = Ok (Some sp, m, h) ∧
    numPages sp = n ∧ swapFileName sp = swap_name threadID ∧
    fds h = <[executable := (ino, off')]> (fds (vmHost v)) ∧
    names h !! exeName = Some ino ∧
    (∀ x, x ≠ swap_name threadID → file_named h x = file_named (vmHost v) x) ∧
    vm_ok (ps ++ [(sp, L)]) (mkVM m h (bitMap v) (IPT v) (IPT_VP v) (pageFaults v)).
Proof.
  intros Hok Hlo Hhdr. destruct (newAddrSpace_run (vo_host _ _ Hok) Hlo Hhdr) as (h & off' & -> & Hw & Hfds & Hn & Hf).
  eexists _, _, h, off'. split; [done|]. split; [done|]. split; [done|]. split; [done|].
  split; [done|]. split; [by intros x Hx; rewrite Hf, decide_False|].
  pose proof (space_pages_nonneg noffH) as Hn0. fold n in Hn0. destruct Hlo.
  apply vm_ok_add; cbn [spaceTable numPages swapFileName]; try done.
  - apply not_elem_of_dom, is_fresh.
  - unfold new_table. rewrite length_fmap, length_seq. lia.
  - apply new_table_entries.
  - by rewrite Hf, decide_True.
  - by apply image_bytes.
  - unfold L. rewrite length_image. unfold PageSize, SectorSize. lia.
  - by apply Z.lt_le_incl.
  - intros k sp' L' Hk. rewrite Hf, decide_False; [done|]. by eapply lo_others0.
Qed.

End Construct.

(** ** The first registers of a program *)

Lemma clear_registers_run j i m :
  Z.of_nat (length (registers m)) = NumTotalRegs → 0 <= i → i + Z.of_nat j <= NumTotalRegs →
  clear_registers j i m =
  Ok (set_registers m (take (Z.to_nat i) (registers m) ++ replicate j 0 ++
                       drop (Z.to_nat i + j) (registers m))).
Proof.
  revert i m. induction j as [|j IH]; intros i m Hl Hi Hj; cbn [clear_registers].
  - cbn [replicate app]. rewrite Nat.add_0_r, take_drop. by destruct m.
  - unfold WriteRegister. rewrite (proj2 (Z.leb_le _ _)), (proj2 (Z.ltb_lt _ _)) by lia.
    cbn [andb ASSERT mbind result_bind]. rewrite aset_Ok by lia. cbn [mbind result_bind].
    rewrite IH by (cbn [registers set_registers]; rewrite ?length_insert; lia).
    cbn [registers set_registers]. unfold set_registers. cbn. do 2 f_equal.
    replace (Z.to_nat (i + 1)) with (S (Z.to_nat i)) by lia.
    rewrite (take_S_r _ _ 0) by (apply list_lookup_insert_eq; lia).
    rewrite take_insert_ge, drop_insert_lt by lia. rewrite <- app_assoc. cbn. do 3 f_equal.
    f_equal. lia.
Qed.

(** All registers are zero but the program counters and the stack pointer. *)
Definition first_registers (n : Z) : list Z :=
  <[Z.to_nat StackReg := n * PageSize - 16]>
    (<[Z.to_nat NextPCReg := 4]> (replicate (Z.to_nat NumTotalRegs) 0)).

Lemma InitRegisters_run s m :
  wf_machine m → 0 <= numPages s → numPages s * PageSize <= 2 ^ 31 →
  InitRegisters s m = Ok (set_registers m (first_registers (numPages s))).
Proof.
  intros Hm Hn Hs. pose proof (wf_reg_length _ Hm) as Hl. unfold InitRegisters.
  rewrite clear_registers_run by (done || unfold NumTotalRegs; lia). cbn [mbind result_bind].
  rewrite (drop_ge (registers m)) by (unfold NumTotalRegs in *; lia). cbn [Z.to_nat take app].
  rewrite app_nil_r. rewrite wrap32_id by (unfold int32, PageSize, SectorSize in *; lia).
  unfold WriteRegister, set_registers. cbn. done.
Qed.

Lemma first_registers_ok m n :
  wf_machine m → 0 <= n → n * PageSize <= 2 ^ 31 → wf_machine (set_registers m (first_registers n)).
Proof.
  intros [_ _ _ Hl Hb] Hn Hs. unfold first_registers.
  split; cbn [registers set_registers mainMemory]; [done| | |done|done].
  - repeat apply Forall_insert; [apply Forall_replicate| |]; unfold int32, PageSize, SectorSize in *; lia.
  - exists 0. split; [done|]. unfold NumGPRegs. lia.
Qed.

(** A new process, started *)
Lemma load_ok be junkBuf junkHdr junkTable executable threadID exeName ino off exe noffH ps v :
  vm_ok ps v → loadable junkBuf executable threadID exeName ino off exe noffH ps v →
  read_header be (take 40 exe) = Some noffH →
  let n := space_pages noffH in
  ∃ sp m h m', newAddrSpace be junkBuf junkHdr junkTable executable threadID
      (vmMachine v) (vmHost v) = Ok (Some sp, m, h) ∧ numPages sp = n ∧
    InitRegisters sp m = Ok m' ∧ registers m' = first_registers n ∧
    (∀ x, x ≠ swap_name threadID → file_named h x = file_named (vmHost v) x) ∧
    let m'' := set_pageTable m' (Some (spaceTable sp)) (numPages sp) in
    current sp m'' ∧
    vm_ok (ps ++ [(sp, image junkBuf exe (n * PageSize))])
      (mkVM m'' h (bitMap v) (IPT v) (IPT_VP v) (pageFaults v)).
Proof.
  intros Hok Hlo Hhdr n. pose proof (space_pages_nonneg noffH) as Hn0.
  destruct (newAddrSpace_ok be junkBuf junkHdr junkTable executable threadID exeName ino off exe noffH ps v
    Hok Hlo Hhdr) as (sp & m & h & off' & -> & Hn & Hsw & _ & _ & Hf & Hok'). fold n in Hn, Hok', Hn0.
  pose proof (lo_size _ _ _ _ _ _ _ _ _ _ Hlo) as Hsz. fold n in Hsz. apply Z.lt_le_incl in Hsz.
  pose proof (vo_machine _ _ Hok') as Hm. cbn [vmMachine] in Hm.
  eexists sp, m, h, _. split; [done|]. split; [done|].
  split; [apply InitRegisters_run; [done|lia|by rewrite Hn]|]. rewrite Hn. split; [done|].
  split; [done|]. split; [done|].
  apply (vm_ok_same _ _ _ Hok'); [|apply (vo_tlb _ _ Hok')|done|apply same_tables_refl].
  destruct (first_registers_ok m n Hm Hn0 Hsz). by split.
Qed.

(** ** Properties *)

(** C35: loading a program.  From an open NOFF file in the standard byte order,
    on a host of either byte order, the constructor of [AddrSpace] gives a
    process of the number of pages the header asks for, whose memory is the
    file after its 40 byte header, beside the other processes, whose memories
    are unchanged; [InitRegisters] starts it at address 0 with the stack pointer
    16 bytes below the end of the address space, and [RestoreState] makes it the
    one the machine translates for.  Only the swap file of this process was
    written. *)
Theorem program_loaded be junkBuf junkHdr junkTable executable threadID exeName ino off exe ps v :
  let noffH := noff_of_bytes false (take 40 exe) in
  vm_ok ps v → noffMagic noffH = NOFFMAGIC →
  loadable junkBuf executable threadID exeName ino off exe noffH ps v →
  let n := space_pages noffH in
  ∃ sp m h m', newAddrSpace be junkBuf junkHdr junkTable executable threadID
      (vmMachine v) (vmHost v) = Ok (Some sp, m, h) ∧ numPages sp = n ∧
    InitRegisters sp m = Ok m' ∧ registers m' = first_registers n ∧
    (∀ x, x ≠ swap_name threadID → file_named h x = file_named (vmHost v) x) ∧
    let m'' := set_pageTable m' (Some (spaceTable sp)) (numPages sp) in
    current sp m'' ∧
    vm_ok (ps ++ [(sp, image junkBuf exe (n * PageSize))])
      (mkVM m'' h (bitMap v) (IPT v) (IPT_VP v) (pageFaults v)).
Proof.
  intros noffH Hok Hmagic Hlo. apply load_ok with (exeName := exeName) (ino := ino) (off := off); [done..|].
  destruct Hlo. apply read_header_le; [by apply Forall_take| |done]. rewrite length_take. lia.
Qed.

(** ** Witnesses *)

(** A program of four instructions: [addiu r2, r0, 0; syscall; nop; nop]. *)
Definition demo_exe : list Z :=
  le_bytes 4 NOFFMAGIC ++ le_bytes 4 0 ++ le_bytes 4 40 ++ le_bytes 4 16 ++ replicate 24 0 ++
  le_bytes 4 0x24020000 ++ le_bytes 4 0x0000000c ++ replicate 8 0.

(** The machine after power on; the program is open. *)
Definition demo_vm : VM :=
  mkVM (newMachine false (mkTE 0 0 false false false false) 0 ∅)
    (mkHost {[ [112] := 1%positive ]} {[ 1%positive := demo_exe ]} {[ 3 := (1%positive, 0) ]})
    (mkBitMap 32 1 [0]) (replicate 32 None) (replicate 32 0) 0.

Lemma demo_vm_ok : vm_ok [] demo_vm.
Proof.
  split; try done.
  - split; [done|by apply Forall_replicate|by exists 0| |by apply Forall_replicate].
    vm_compute. done.
  - split; cbn [demo_vm vmHost names inodes fds].
    + intros x i [<- <-]%lookup_singleton_Some. by rewrite lookup_singleton_eq.
    + intros x y i [<- <-]%lookup_singleton_Some [<- _]%lookup_singleton_Some. done.
    + intros fd i off [<- _]%lookup_singleton_Some. done.
  - split; [|done]. split; cbn; try done. repeat constructor; done.
Qed.

Lemma demo_exe_byte : Forall byte demo_exe.
Proof. apply (bool_decide_unpack _). vm_compute. done. Qed.

Lemma demo_loadable threadID ps v off :
  names (vmHost v) !! [112] = Some 1%positive → fds (vmHost v) !! 3 = Some (1%positive, off) →
  inodes (vmHost v) !! 1%positive = Some demo_exe → swap_name threadID ≠ [112] →
  (∀ k sp L, ps !! k = Some (sp, L) → swapFileName sp ≠ swap_name threadID) →
  loadable (λ _, 0) 3 threadID [112] 1 off demo_exe (noff_of_bytes false (take 40 demo_exe)) ps v.
Proof.
  intros Hn Hf Hi Hs Hps. split; try done; try (by vm_compute). apply demo_exe_byte.
Qed.

Lemma program_loaded_witness :
  ∃ sp m h m', newAddrSpace true (λ _, 0) (λ _, 0) (λ _, mkTE 0 7 true true true true) 3 0
      (vmMachine demo_vm) (vmHost demo_vm) = Ok (Some sp, m, h) ∧ numPages sp = 5 ∧
    InitRegisters sp m = Ok m' ∧ aget (registers m') StackReg = Ok 1264.
Proof.
  destruct (program_loaded true (λ _, 0) (λ _, 0) (λ _, mkTE 0 7 true true true true) 3 0 [112] 1 0
    demo_exe [] demo_vm demo_vm_ok) as (sp & m & h & m' & Hn & Hp & Hi & Hr & _).
  - reflexivity.
  - apply demo_loadable; try reflexivity; [discriminate|]. intros k sp L H. discriminate H.
  - exists sp, m, h, m'. split; [exact Hn|]. split; [exact Hp|]. split; [exact Hi|].
    rewrite Hr. reflexivity.
Defined.

(** Two processes that run the program. *)
Lemma demo_two : ∃ sp sp' v, numPages sp = 5 ∧ numPages sp' = 5 ∧
  vm_ok [(sp, image (λ _, 0) demo_exe 1280); (sp', image (λ _, 0) demo_exe 1280)] v.
Proof.
  destruct (newAddrSpace_ok false (λ _, 0) (λ _, 0) (λ _, mkTE 0 0 false false false false) 3 0 [112] 1
    0 demo_exe (noff_of_bytes false (take 40 demo_exe)) [] demo_vm demo_vm_ok)
    as (sp & m & h & off & _ & Hn & Hs & Hf & Hna & Hfile & Hok).
  { apply demo_loadable; try reflexivity; [discriminate|]. intros k sp L H. discriminate H. }
  { reflexivity. }
  set (v1 := mkVM m h _ _ _ _) in Hok.
  assert (inodes h !! 1%positive = Some demo_exe) as Hi.
  { pose proof (Hfile [112] ltac:(discriminate)) as H. unfold file_named in H. rewrite Hna in H.
    exact H. }
  destruct (newAddrSpace_ok false (λ _, 0) (λ _, 0) (λ _, mkTE 0 0 false false false false) 3 1 [112] 1
    off demo_exe (noff_of_bytes false (take 40 demo_exe)) _ v1 Hok)
    as (sp' & m' & h' & off' & _ & Hn' & _ & _ & _ & _ & Hok').
  { apply demo_loadable; try done.
    - cbn [vmHost v1]. rewrite Hf. apply lookup_insert_eq.
    - intros [|k] sp1 L1; [|intros H; discriminate H]. intros [= <- _]. rewrite Hs. discriminate. }
  { reflexivity. }
  exists sp, sp'. eexists. split; [exact Hn|]. split; [exact Hn'|]. exact Hok'.
Qed.

Definition demo_ops : list (tid * uop) :=
  [(0%nat, UWrite 300 4 77); (1%nat, URead 300 4); (0%nat, URead 300 4); (1%nat, URead 4 4);
   (0%nat, URead 1280 1)].

Lemma demo_ops_ok : Forall (λ x : tid * uop, (x.1 < 2)%nat ∧ uop_ok x.2) demo_ops.
Proof. unfold uop_ok, access_size, int32. repeat apply Forall_cons_2; [cbn; lia..|constructor]. Qed.

Lemma paging_transparent_witness :
  ∃ spaces v v', turns 0 0 0 false Z.of_nat spaces demo_ops v =
    Ok ([AWrite (Done tt); ARead (Done 0); ARead (Done 77); ARead (Done 12);
         ARead (Trapped AddressErrorException)], v').
Proof.
  destruct demo_two as (sp & sp' & v & Hn & Hn' & Hok).
  destruct (paging_transparent 0 0 0 false Z.of_nat [sp; sp']
    [image (λ _, 0) demo_exe 1280; image (λ _, 0) demo_exe 1280] demo_ops v) as (v' & Ht & _).
  - reflexivity.
  - exact demo_ops_ok.
  - exact Hok.
  - cbn. rewrite Hn, Hn'. unfold NumPhysPages. lia.
  - exists [sp; sp'], v, v'. rewrite Ht. vm_compute. reflexivity.
Defined.

Lemma paging_out_of_frames_witness :
  ∃ spaces v, (∃ v', turns 0 0 0 true Z.of_nat spaces demo_ops v =
    Ok ([AWrite (Done tt); ARead (Done 0); ARead (Done 77); ARead (Done 12);
         ARead (Trapped AddressErrorException)], v')) ∨
    ∃ l1 t o l2, demo_ops = l1 ++ (t, o) :: l2 ∧
      turns 0 0 0 true Z.of_nat spaces demo_ops v = Exited (Z.of_nat t).
Proof.
  destruct demo_two as (sp & sp' & v & Hn & Hn' & Hok). exists [sp; sp'], v.
  destruct (paging_out_of_frames 0 0 true Z.of_nat [sp; sp']
    [image (λ _, 0) demo_exe 1280; image (λ _, 0) demo_exe 1280] demo_ops v) as [(v' & Ht)|H].
  - reflexivity.
  - exact demo_ops_ok.
  - exact Hok.
  - left. exists v'. rewrite Ht. vm_compute. reflexivity.
  - right. destruct H as (l1 & t & o & l2 & v1 & Hl & _ & _ & Hx). exists l1, t, o, l2. split; [exact Hl|exact Hx].
Defined.
