(* ===== verification/Exception.v ===== *)
(** * userprog/exception.cc: the kernel as user programs see it

    [ExceptionHandler] with its system calls, [StartProcess] of progtest.cc and
    the loop of [Machine::Run], on the kernel of Sched.v extended with what user
    programs need: the host's files, the bit map of free frames and the inverted
    page table.  A thread that runs a user program has the frames [Do (CUser _)]
    on its stack. *)

From S2P Require Import Prelude Params.
From S2P Require Import LList.
From S2P Require Import BitMap.
From S2P Require Import Machine MipsSim.
From S2P Require Import HostFs.
From S2P Require Import Kernel Interrupt Threads Sched.
From S2P Require Import AddrSpace Paging.
Local Open Scope Z_scope.

(** ** State *)

Record System := mkSystem {
  kern : Kernel;
  vhost : Host;
  frameMap : BitMap;
  ipt : list (option tid);
  ipt_vp : list Z;
  threadID : Z;
  typed : list (list Z);     (** words still to be read from the terminal *)
  shown : list Z }.          (** what programs wrote to it *)

Definition set_kern (s : System) (k : Kernel) : System :=
  mkSystem k (vhost s) (frameMap s) (ipt s) (ipt_vp s) (threadID s) (typed s) (shown s).
Definition set_vhost (s : System) (h : Host) : System :=
  mkSystem (kern s) h (frameMap s) (ipt s) (ipt_vp s) (threadID s) (typed s) (shown s).
Definition set_frameMap (s : System) (bm : BitMap) : System :=
  mkSystem (kern s) (vhost s) bm (ipt s) (ipt_vp s) (threadID s) (typed s) (shown s).
Definition set_threadID (s : System) (i : Z) : System :=
  mkSystem (kern s) (vhost s) (frameMap s) (ipt s) (ipt_vp s) i (typed s) (shown s).
Definition set_typed (s : System) (l : list (list Z)) : System :=
  mkSystem (kern s) (vhost s) (frameMap s) (ipt s) (ipt_vp s) (threadID s) l (shown s).
Definition show (s : System) (bs : list Z) : System :=
  mkSystem (kern s) (vhost s) (frameMap s) (ipt s) (ipt_vp s) (threadID s) (typed s) (shown s ++ bs).

Definition in_kernel (f : Kernel → result Kernel) (s : System) : result System :=
  k ← f (kern s); Ok (set_kern s k).

Definition put_machine (s : System) (m : Machine) : System :=
  set_kern s (set_machine (kern s) (Some m)).
Definition in_machine (f : Machine → result Machine) (s : System) : result System :=
  m ← the_machine (kern s); m ← f m; Ok (put_machine s m).

Definition me (s : System) : tid := currentThread (kern s).

Definition set_space (sp : option Space) (t : Thread) : Thread :=
  mkThread (frames t) (stack t) (tstatus t) sp (userRegisters t) (parent t) (ID t)
    (killNewChild t) (isJoined t).
Definition setParent (p : tid) (t : Thread) : Thread :=
  mkThread (frames t) (stack t) (tstatus t) (space t) (userRegisters t) (Some p) (ID t)
    (killNewChild t) (isJoined t).
Definition set_killNewChild (b : bool) (t : Thread) : Thread :=
  mkThread (frames t) (stack t) (tstatus t) (space t) (userRegisters t) (parent t) (ID t)
    b (isJoined t).

(** [t->space], which must not be NULL *)
Definition space_of_thread (k : Kernel) (t : tid) : result Space :=
  th ← get_thread k t; match space th with Some sp => Ok sp | None => Undefined end.

Definition set_numPageFaults (n : Z) (k : Kernel) : Kernel :=
  let s := stats k in
  set_stats k (mkStats (totalTicks s) (idleTicks s) (systemTicks s) (userTicks s)
    (numDiskReads s) (numDiskWrites s) (numConsoleCharsRead s) (numConsoleCharsWritten s)
    n (numPacketsSent s) (numPacketsRecvd s)).

(** ** userprog/syscall.h *)

Definition SC_Halt : Z := 0.
Definition SC_Exit : Z := 1.
Definition SC_Exec : Z := 2.
Definition SC_Join : Z := 3.
Definition SC_Read : Z := 6.
Definition SC_Write : Z := 7.
Definition SC_Yield : Z := 10.

(** ** The code *)

(** [getID]: one turn of the list of active threads. *)
Fixpoint getID_loop (n : nat) (toGet : Z) (toReturn : option tid) (l : alist tid) (k : Kernel)
  : result (option tid * alist tid) :=
  match n with
  | O => Ok (toReturn, l)
  | S n =>
      let '(tempThread, l) := aRemove l in
      match tempThread with
      | None => Undefined
      | Some t =>
          th ← get_thread k t;
          getID_loop n toGet (if ID th =? toGet then Some t else toReturn) (aAppend l (Some t)) k
      end
  end.

Definition getID (toGet : Z) (k : Kernel) : result (option tid * Kernel) :=
  '(t, l) ← getID_loop (Z.to_nat (asize (activeThreads k))) toGet None (activeThreads k) k;
  Ok (t, set_activeThreads k l).

Section Handler.
(** [named_main t]: [t->getName() == "main"], a comparison of pointers. *)
Variables (Random : nat → Z) (be : bool) (virtualOption fifo : Z) (named_main : tid → bool).
(** Uninitialised memory: registers and page table entries, buffers, and the
    members of an [AddrSpace] whose constructor returned early. *)
Variables (junkRegs : list Z) (junkBuf junkHdr : nat → Z) (junkTable : nat → TranslationEntry)
  (junkSpace : Space).

Definition delete_current_space (s : System) : result System :=
  th ← get_thread (kern s) (me s);
  match space th with
  | None => Ok s
  | Some sp =>
      m ← the_machine (kern s);
      '(m, bm, h) ← delete_space sp m (frameMap s) (vhost s);
      Ok (set_frameMap (set_vhost (put_machine s m) h) bm)
  end.

(** The exceptions that end the thread *)
Definition fatal_exception (s : System) : result System :=
  ASSERT (negb (named_main (me s)));;
  s ← delete_current_space s;
  in_kernel (Finish true junkRegs) s.

Definition page_fault (s : System) : result System :=
  m ← the_machine (kern s);
  th ← get_thread (kern s) (me s);
  let random := Random (randoms (kern s)) in
  full ← Find (frameMap s);
  let used := (virtualOption =? 2) && (fst full =? -1) in
  v ← PageFault (space_of_thread (kern s)) virtualOption fifo random (me s) (ID th)
        (mkVM m (vhost s) (frameMap s) (ipt s) (ipt_vp s) (numPageFaults (stats (kern s))));
  let k := set_numPageFaults (pageFaults v) (set_machine (kern s) (Some (vmMachine v))) in
  let k := if used : bool then set_randoms k (S (randoms k)) else k in
  Ok (mkSystem k (vmHost v) (bitMap v) (IPT v) (IPT_VP v) (threadID s) (typed s) (shown s)).

(** Every exception but a system call.  [false]: the thread has finished, and
    does not come back. *)
Definition fault_handler (which : ExceptionType) (s : System) : result (bool * System) :=
  match which with
  | NoException => Ok (true, s)
  | PageFaultException => s ← page_fault s; Ok (true, s)
  | _ => s ← fatal_exception s; Ok (false, s)
  end.

(** [ReadMem] and [WriteMem] called by the kernel, with [RaiseException] when
    they fail *)
Inductive kaccess (V : Type) := KGone | KFail | KDone (v : V).
Arguments KGone {V}.
Arguments KFail {V}.
Arguments KDone {V} v.

Definition kernel_access {V} (access : Machine → result (access V * Machine)) (s : System)
  : result (kaccess V * System) :=
  m ← the_machine (kern s);
  '(r, m) ← access m;
  let s := put_machine s m in
  match r with
  | Done v => Ok (KDone v, s)
  | Trapped e =>
      '(back, s) ← fault_handler e (set_kern s (set_status (kern s) SystemMode));
      if back : bool then Ok (KFail, set_kern s (set_status (kern s) UserMode)) else Ok (KGone, s)
  end.

Definition kernel_read (a : Z) : System → result (kaccess Z * System) :=
  kernel_access (λ m, ReadMem be m a 1).
Definition kernel_write (a x : Z) : System → result (kaccess unit * System) :=
  kernel_access (λ m, WriteMem be m a 1 x).

(** [SRead]'s copying loop; the value is [num], [None] when the thread is gone.
    A failed [WriteMem] is not repeated. *)
Fixpoint copy_out (addr num : Z) (bs : list Z) (s : System) : result (option Z * System) :=
  match bs with
  | [] => Ok (Some num, s)
  | b :: bs =>
      '(r, s) ← kernel_write (wrap32 (addr + num)) (schar b) s;
      match r with
      | KGone => Ok (None, s)
      | _ => if b =? 0 then Ok (Some num, s) else copy_out addr (num + 1) bs s
      end
  end.

(** the loop over a UNIX file *)
Fixpoint copy_file (n : nat) (id addr num : Z) (s : System) : result (option Z * System) :=
  match n with
  | O => Ok (Some num, s)
  | S n =>
      '(bs, h) ← Read id 1 (vhost s);
      b ← aget bs 0;
      '(r, s) ← kernel_write (wrap32 (addr + num)) (schar b) (set_vhost s h);
      match r with
      | KGone => Ok (None, s)
      | _ => if b =? 0 then Ok (Some num, s) else copy_file n id addr (num + 1) s
      end
  end.

(** [char buffer[size + 10]] is undefined if the length is not positive, as it also is
    when the sum overflows. *)
Definition SRead (addr size id : Z) (s : System) : result (option Z * System) :=
  let length_buffer := wrap32 (size + 10) in
  if length_buffer <=? 0 then Undefined
  else if id =? 0 then
    match typed s with
    | [] => Undefined
    | w :: ws =>
        let s := set_typed s ws in
        let num := Z.of_nat (length w) in
        if length_buffer <=? num then Undefined  (* the word overruns the buffer *)
        else if num >? size + 1 then
          (* [buffer[size + 1] = 0; Result = size + 1] *)
          if size + 1 <? 0 then Undefined
          else copy_out addr 0 (take (Z.to_nat (size + 1)) w) s
        else copy_out addr 0 (w ++ [0]) s
    end
  else copy_file (Z.to_nat size) id addr 0 s.

Definition SWrite (buffer : list Z) (id : Z) (s : System) : result System :=
  if id =? 1 then Ok (show s buffer)
  else if id =? 2 then Ok (show s buffer)  (* the standard error of Nachos *)
  else if 2 <=? id then h ← WriteFile id buffer (vhost s); Ok (set_vhost s h)
  else Ok s.

(** [for (j = 0;; j++)] of SC_Write: a failed [ReadMem] is repeated; [None]: the
    thread is gone. *)
Fixpoint read_string (fuel : nat) (arg1 : Z) (ch : list Z) (s : System)
  : result (option (list Z) * System) :=
  match fuel with
  | O => NoFuel
  | S n =>
      let j := Z.of_nat (length ch) in
      '(r, s) ← kernel_read (wrap32 (arg1 + j)) s;
      match r with
      | KGone => Ok (None, s)
      | KFail => read_string n arg1 ch s
      | KDone i =>
          if 500 <=? j then Undefined
          else if i =? 0 then Ok (Some ch, s) else read_string n arg1 (ch ++ [u8 i]) s
      end
  end.

(** At most 500 characters, each with a page fault. *)
Definition string_fuel : nat := 1002.

(** The file name of SC_Exec: [None] when [ReadMem] fails, which ends the
    handler. *)
Fixpoint read_filename (fuel : nat) (fileAddress : Z) (filename : list Z) (s : System)
  : result (option (list Z) * System) :=
  match fuel with
  | O => NoFuel
  | S n =>
      '(r, s) ← kernel_read fileAddress s;
      match r with
      | KDone j =>
          if 100 <=? Z.of_nat (length filename) then Undefined
          else if j =? 0 then Ok (Some filename, s)
          else read_filename n (wrap32 (fileAddress + 1)) (filename ++ [u8 j]) s
      | _ => Ok (None, s)
      end
  end.

Definition filename_fuel : nat := 102.

(** [new AddrSpace(executable, id)] *)
Definition new_space (executable id : Z) (s : System) : result (Space * System) :=
  m ← the_machine (kern s);
  '(sp, m, h) ← newAddrSpace be junkBuf junkHdr junkTable executable id m (vhost s);
  Ok (default junkSpace sp, set_vhost (put_machine s m) h).

Definition SC_Exec_call (arg1 : Z) (s : System) : result System :=
  '(filename, s) ← read_filename filename_fuel arg1 [] s;
  match filename with
  | None => Ok s
  | Some filename =>
      '(executable, h) ← stub_Open filename (vhost s);
      let s := set_vhost s h in
      match executable with
      | None => Ok s
      | Some executable =>
          '(sp, s) ← new_space executable (threadID s) s;
          h ← Close executable (vhost s);
          let s := set_vhost s h in
          th ← get_thread (kern s) (me s);
          if negb (killNewChild th) then
            let '(execThread, k) := newThread junkRegs (kern s) in
            k ← upd_thread k execThread (λ t, set_ID (threadID s) (set_space (Some sp) t));
            let k := set_activeThreads k (aAppend (activeThreads k) (Some execThread)) in
            s ← in_machine (λ m, WriteRegister m 2 (threadID s)) (set_kern s k);
            let s := set_threadID s (wrap32 (threadID s + 1)) in
            in_kernel (Fork execThread [CUser CprocessCreator]) s
          else
            s ← in_machine (λ m, WriteRegister m 2 (wrap32 (-1 * (threadID s + 1)))) s;
            in_kernel (λ k, upd_thread k (currentThread k) (set_killNewChild false)) s
      end
  end.

Definition SC_Join_call (arg1 : Z) (s : System) : result System :=
  if arg1 <? 0 then Ok s
  else
    '(t, k) ← getID arg1 (kern s);
    match t with
    | None => Ok (set_kern s k)
    | Some _ =>
        th ← get_thread k (me s);
        if negb (isJoined th) then
          '(_, k) ← getID arg1 k;  (* in the message *)
          '(t, k) ← getID arg1 k;
          k ← match t with Some child => upd_thread k child (setParent (me s)) | None => Undefined end;
          k ← upd_thread k (me s) (set_isJoined true);
          '(_, k) ← SetLevel IntOff k;
          k ← Sleep k;
          Ok (set_kern s k)
        else Ok (set_kern s k)
    end.

Definition SC_Exit_call (arg1 : Z) (s : System) : result System :=
  th ← get_thread (kern s) (me s);
  s ← match space th with
      | None => Ok s
      | Some sp =>
          bm ← Clear (frameMap s) (wrap32 (numPages sp));
          delete_current_space (set_frameMap s bm)
      end;
  in_kernel (Finish true junkRegs) s.

Definition SC_Yield_call (s : System) : result System :=
  _ ← space_of_thread (kern s) (me s);
  k ← push (Do (CUser CAfterYield)) (kern s);
  in_kernel Yield (set_kern s k).

Definition advance_pc (m : Machine) : result Machine :=
  pc ← aget (registers m) PCReg;
  r ← aset (registers m) PrevPCReg pc;
  npc ← aget r NextPCReg;
  r ← aset r PCReg npc;
  r ← aset r NextPCReg (wrap32 (npc + 4));
  Ok (set_registers m r).

Definition syscall (s : System) : result System :=
  m ← the_machine (kern s);
  type ← ReadRegister m 2;
  arg1 ← ReadRegister m 4;
  arg2 ← ReadRegister m 5;
  arg3 ← ReadRegister m 6;
  s ← in_machine advance_pc s;
  if type =? SC_Halt then Halt
  else if type =? SC_Read then
    '(r, s) ← SRead arg1 arg2 arg3 s;
    match r with
    | None => Ok s
    | Some num => in_machine (λ m, WriteRegister m 2 num) s
    end
  else if type =? SC_Write then
    '(ch, s) ← read_string string_fuel arg1 [] s;
    match ch with
    | None | Some [] => Ok s
    | Some ch => SWrite ch arg3 s
    end
  else if type =? SC_Exec then SC_Exec_call arg1 s
  else if type =? SC_Join then SC_Join_call arg1 s
  else if type =? SC_Exit then SC_Exit_call arg1 s
  else if type =? SC_Yield then SC_Yield_call s
  else Ok s.

Definition ExceptionHandler (which : ExceptionType) (s : System) : result System :=
  match which with
  | SyscallException => syscall s
  | _ => '(_, s) ← fault_handler which s; Ok s
  end.

(** [space->InitRegisters(); space->RestoreState()] *)
Definition enter_space (sp : Space) (s : System) : result System :=
  s ← in_machine (InitRegisters sp) s;
  in_kernel (RestoreState sp) s.

(** [Machine::Run] up to its loop *)
Definition MachineRun (s : System) : result System :=
  in_kernel (push (Do (CUser CMachineRun))) (set_kern s (set_status (kern s) UserMode)).

Definition StartProcess (filename : list Z) (s : System) : result System :=
  '(executable, h) ← stub_Open filename (vhost s);
  let s := set_vhost s h in
  match executable with
  | None => Ok s
  | Some executable =>
      '(sp, s) ← new_space executable 0 s;
      s ← in_kernel (λ k, upd_thread k (currentThread k) (set_space (Some sp))) s;
      h ← Close executable (vhost s);
      s ← enter_space sp (set_vhost s h);
      MachineRun s
  end.

Definition processCreator (s : System) : result System :=
  sp ← space_of_thread (kern s) (me s);
  s ← enter_space sp s;
  s ← in_kernel (λ k, match threadToBeDestroyed k with
                      | None => Ok k
                      | Some t => k ← delete_thread t k; Ok (set_doomed k None)
                      end) s;
  MachineRun s.

(** [OneInstruction(instr); interrupt->OneTick();] and the loop again *)
Definition run_loop (s : System) : result System :=
  s ← in_kernel (push (Do (CUser CMachineRun))) s;
  s ← in_kernel (push FOneTick) s;
  m ← the_machine (kern s);
  '(trap, m) ← OneInstruction be m;
  let s := put_machine s m in
  match trap with
  | None => Ok s
  | Some which =>
      let s := set_kern s (set_status (kern s) SystemMode) in
      s ← in_kernel (push (Do (CUser CEndException))) s;
      ExceptionHandler which s
  end.

Definition user_exec (u : UserCall) (s : System) : result System :=
  match u with
  | CStartProcess filename => StartProcess filename s
  | CprocessCreator => processCreator s
  | CMachineRun => run_loop s
  | CEndException => Ok (set_kern s (set_status (kern s) UserMode))
  | CAfterYield => sp ← space_of_thread (kern s) (me s); in_kernel (RestoreState sp) s
  end.

(** ** The whole system *)

Definition sys_step (s : System) : result System :=
  th ← get_thread (kern s) (me s);
  match frames th with
  | Do (CUser u) :: fs =>
      user_exec u (set_kern s (put_thread (kern s) (me s) (set_frames fs th)))
  | _ => in_kernel (step Random true junkRegs) s
  end.

Fixpoint sys_steps (n : nat) (s : System) : result System :=
  match n with O => Ok s | S n => s ← sys_step s; sys_steps n s end.

(** threads/main.cc with [-x filename], the host's files being [h] *)
Definition sys_boot (mach : Machine) (h : Host) (filename : list Z) (words : list (list Z))
  : result System :=
  k ← Initialize Random true false junkRegs false mach None [CUser (CStartProcess filename)];
  bm ← newBitMap junkBuf NumPhysPages;
  Ok (mkSystem k h bm (replicate (Z.to_nat NumPhysPages) None)
        (replicate (Z.to_nat NumPhysPages) 0) 1 words []).

End Handler.

Arguments KGone {V}.
Arguments KFail {V}.
Arguments KDone {V} v.
