(* ===== verification/Process.v ===== *)
(** * Processes: Join and Exit

    What the system calls of Exception.v promise to each other: a thread is
    found by its ID, a joined parent sleeps until its child exits and then runs
    next, and registers survive a switch to another thread.  The last parts show
    where the promise of separate memories is broken, and two programs that run from
    boot to halt. *)

From S2P Require Import Prelude Params.
From S2P Require Import LList.
From S2P Require Import BitMap.
From S2P Require Import Machine MipsSim.
From S2P Require Import HostFs.
From S2P Require Import Kernel Interrupt Threads Sched.
From S2P Require Import AddrSpace Paging Loader Exception.
Local Open Scope Z_scope.

(** ** The list of active threads *)

Definition queue_of (ts : list tid) : alist tid :=
  mkAList ((λ t, (0, Some t)) <$> ts) (wrap32 (Z.of_nat (length ts))).

Lemma queue_size ts : Z.of_nat (length ts) < 2 ^ 31 → asize (queue_of ts) = Z.of_nat (length ts).
Proof. intros Hs. apply wrap32_id. unfold int32. lia. Qed.

Lemma queue_remove t ts : aRemove (queue_of (t :: ts)) = (Some t, queue_of ts).
Proof.
  unfold aRemove, queue_of. cbn [elems asize fmap list_fmap snd]. rewrite wrap32_sub_l. cbn [length].
  by replace (Z.of_nat (S (length ts)) - 1) with (Z.of_nat (length ts)) by lia.
Qed.

Lemma queue_append ts t : aAppend (queue_of ts) (Some t) = queue_of (ts ++ [t]).
Proof.
  unfold aAppend, queue_of. cbn [elems asize]. rewrite wrap32_add_l, fmap_app, length_app. cbn. do 2 f_equal. lia.
Qed.

Lemma queue_prepend ts t : aPrepend (queue_of ts) (Some t) = queue_of (t :: ts).
Proof. unfold aPrepend, queue_of. cbn [elems asize length]. rewrite wrap32_add_l. cbn. do 2 f_equal. lia. Qed.

Section Forget.
Variable self : tid.

Lemma filter_others (ts : list tid) : self ∉ ts → filter (λ t, t ≠ self) ts = ts.
Proof. intros Hs. apply filter_all, Forall_forall. intros x Hx ->. done. Qed.

(** The loop only rotates the list when the thread is not there. *)
Lemma forget_absent n i ts :
  Z.of_nat (length ts) < 2 ^ 31 → self ∉ ts → (length ts <= Z.to_nat i + n)%nat → 0 <= i →
  ∃ ts', forget_loop n i self (queue_of ts) = Ok (queue_of ts') ∧ ts' ≡ₚ ts.
Proof.
  revert i ts. induction n as [|n IH]; intros i ts Hsz Hs Hn Hi; cbn [forget_loop];
    rewrite queue_size by done.
  -     destruct (Z.ltb_spec i (Z.of_nat (length ts))); [lia|]. by exists ts.
  - destruct (Z.ltb_spec i (Z.of_nat (length ts))); [|by exists ts].
    destruct ts as [|t ts]; [cbn in *; lia|]. rewrite queue_remove.
    apply not_elem_of_cons in Hs as [Hne Hs]. rewrite bool_decide_false by congruence.
    rewrite queue_append. destruct (IH (i + 1) (ts ++ [t])) as (ts' & -> & Hp).
    + rewrite length_app. cbn in *. lia.
    + rewrite elem_of_app, list_elem_of_singleton. tauto.
    + rewrite length_app. cbn in *. lia.
    + lia.
    + exists ts'. split; [done|]. rewrite Hp. by rewrite Permutation_app_comm.
Qed.

Lemma forget_loop_queue n a b :
  Z.of_nat (length (b ++ a)) < 2 ^ 31 → NoDup (a ++ b) → self ∉ a → (length b <= n)%nat →
  ∃ ts, forget_loop n (Z.of_nat (length a)) self (queue_of (b ++ a)) = Ok (queue_of ts) ∧
    ts ≡ₚ filter (λ t, t ≠ self) (a ++ b).
Proof.
  revert a b. induction n as [|n IH]; intros a b Hsz Hnd Ha Hn; cbn [forget_loop];
    rewrite queue_size by done; rewrite length_app in *.
  - destruct b; [|cbn in *; lia]. destruct (Z.ltb_spec (Z.of_nat (length a)) (Z.of_nat (length (@nil tid) + length a))); [cbn in *; lia|].
    exists a. split; [done|]. rewrite app_nil_r. by rewrite filter_others.
  - destruct b as [|t b].
    { destruct (Z.ltb_spec (Z.of_nat (length a)) (Z.of_nat (length (@nil tid) + length a))); [cbn in *; lia|].
      exists a. split; [done|]. rewrite app_nil_r. by rewrite filter_others. }
    destruct (Z.ltb_spec (Z.of_nat (length a)) (Z.of_nat (length (t :: b) + length a))); [|cbn in *; lia].
    cbn [app]. rewrite queue_remove. destruct (decide (t = self)) as [->|Hne].
    + rewrite bool_decide_true by done.
      apply NoDup_app in Hnd as (Hna & Hab & [Hsb Hnb]%NoDup_cons).
      destruct (forget_absent n (Z.of_nat (length a) + 1) (b ++ a)) as (ts & -> & Hp).
      * rewrite length_app. cbn in *. lia.
      * rewrite elem_of_app. tauto.
      * rewrite length_app. cbn in *. lia.
      * lia.
      * exists ts. split; [done|]. rewrite Hp, filter_app, filter_cons, decide_False by tauto.
        rewrite !filter_others by done.
        apply Permutation_app_comm.
    + rewrite bool_decide_false by congruence. rewrite queue_append, <- app_assoc.
      destruct (IH (a ++ [t]) b) as (ts & Hts & Hp).
      * rewrite !length_app. cbn in *. lia.
      * by rewrite <- app_assoc.
      * rewrite elem_of_app, list_elem_of_singleton. naive_solver.
      * cbn in Hn. lia.
      * rewrite length_app in Hts. cbn [length] in Hts.
        replace (Z.of_nat (length a) + 1) with (Z.of_nat (length a + 1)) by lia.
        exists ts. split; [done|]. by rewrite <- app_assoc in Hp.
Qed.

(** [Finish] takes the thread off the list, and no other. *)
Lemma forget_queue ts :
  NoDup ts → Z.of_nat (length ts) < 2 ^ 31 → ∃ ts', forget_loop (Z.to_nat (asize (queue_of ts))) 0 self (queue_of ts) =
    Ok (queue_of ts') ∧ ts' ≡ₚ filter (λ t, t ≠ self) ts.
Proof.
  intros Hnd Hsz. destruct (forget_loop_queue (length ts) [] ts) as (ts' & Ht & Hp);
    [by rewrite app_nil_r|done|set_solver|done|].
  exists ts'. rewrite app_nil_r in Ht. rewrite queue_size by done. by rewrite Nat2Z.id.
Qed.

End Forget.

(** ** Threads by ID *)





(** ** Kernel routines with interrupts off *)

Lemma SetLevel_IntOff k : SetLevel IntOff k = Ok (level (interrupt k), set_level k IntOff).
Proof. reflexivity. Qed.

Lemma get_thread_Ok k t th : threads k !! t = Some th → get_thread k t = Ok th.
Proof. unfold get_thread. by intros ->. Qed.

Lemma upd_thread_Ok k t th f :
  threads k !! t = Some th → upd_thread k t f = Ok (put_thread k t (f th)).
Proof. intros H. unfold upd_thread. by rewrite (get_thread_Ok _ _ _ H). Qed.

Lemma put_twice k t th th' : put_thread (put_thread k t th) t th' = put_thread k t th'.
Proof. unfold put_thread, set_threads. cbn. by rewrite insert_insert_eq. Qed.

Lemma put_get k t th : threads (put_thread k t th) !! t = Some th.
Proof. apply lookup_insert_eq. Qed.

Lemma put_get_ne k t t' th : t ≠ t' → threads (put_thread k t th) !! t' = threads k !! t'.
Proof. intros. by apply lookup_insert_ne. Qed.

Lemma WakeUpFromJoin_run p th k :
  threads k !! p = Some th →
  WakeUpFromJoin p k = Ok (set_readyList (put_thread k p (set_tstatus READY (set_isJoined false th)))
    (aPrepend (readyList k) (Some p))).
Proof.
  intros H. unfold WakeUpFromJoin. rewrite (upd_thread_Ok _ _ _ _ H). cbn [mbind result_bind].
  unfold setStatus. erewrite upd_thread_Ok by apply put_get. cbn [mbind result_bind].
  by rewrite put_twice.
Qed.

Lemma Sleep_run k th :
  level (interrupt k) = IntOff → threads k !! currentThread k = Some th →
  Sleep k = Ok (put_thread k (currentThread k)
    (set_frames (FSleepLoop :: frames th) (set_tstatus BLOCKED th))).
Proof.
  intros Hl H. unfold Sleep. rewrite Hl, bool_decide_true by done. cbn [ASSERT mbind result_bind].
  unfold setStatus. rewrite (upd_thread_Ok _ _ _ _ H). cbn [mbind result_bind].
  unfold push. change (currentThread (put_thread _ _ _)) with (currentThread k).
  erewrite upd_thread_Ok by apply put_get. by rewrite put_twice.
Qed.

(** ** A process exits *)

Section Exit.
Variables (Random : nat → Z) (be : bool) (virtualOption fifo : Z) (named_main : tid → bool)
  (junkRegs : list Z) (junkBuf junkHdr : nat → Z) (junkTable : nat → TranslationEntry)
  (junkSpace : Space).
Variables (c p : tid) (thc thp : Thread) (ts : list tid).

(** The child [c] is running, and its parent [p] has joined it. *)
Record family (k : Kernel) : Prop := {
  fa_current : currentThread k = c;
  fa_child : threads k !! c = Some thc;
  fa_parent : threads k !! p = Some thp;
  fa_ne : p ≠ c;
  fa_joined : parent thc = Some p;
  fa_active : activeThreads k = queue_of ts ∧ Z.of_nat (length ts) < 2 ^ 31;
  fa_nodup : NoDup ts }.

Lemma Finish_family k :
  family k →
  ∃ k', Finish true junkRegs k = Ok k' ∧ currentThread k' = c ∧ threadToBeDestroyed k' = Some c ∧
    readyList k' = aPrepend (readyList k) (Some p) ∧ machine k' = machine k ∧
    threads k' !! c = Some (set_frames (FSleepLoop :: frames thc) (set_tstatus BLOCKED thc)) ∧
    threads k' !! p = Some (set_tstatus READY (set_isJoined false thp)) ∧
    ∃ ts', activeThreads k' = queue_of ts' ∧ ts' ≡ₚ filter (λ t, t ≠ c) ts.
Proof.
  intros []. unfold Finish. rewrite SetLevel_IntOff. cbn [mbind result_bind].
  change (currentThread (set_level k IntOff)) with (currentThread k). rewrite fa_current0.
  rewrite (get_thread_Ok _ c thc) by done. cbn [mbind result_bind]. rewrite fa_joined0.
  rewrite (WakeUpFromJoin_run p thp) by done. cbn [mbind result_bind]. unfold newThread.
  set (k1 := set_readyList _ _). set (t := fresh (dom (threads k1))).
  assert (threads k1 !! t = None) as Ht by (apply not_elem_of_dom, is_fresh).
  assert (threads k1 !! c = Some thc) as Hc.
  { unfold k1. cbn [threads set_readyList]. by rewrite put_get_ne. }
  assert (threads k1 !! p = Some (set_tstatus READY (set_isJoined false thp))) as Hp by apply put_get.
  erewrite upd_thread_Ok by apply put_get. rewrite put_twice. cbn [mbind result_bind].
  set (k2 := put_thread k1 t _).
  assert (threads k2 !! c = Some thc) as Hc2 by (unfold k2; rewrite put_get_ne; congruence).
  assert (threads k2 !! p = threads k1 !! p) as Hp2 by (unfold k2; rewrite put_get_ne; congruence).
  change (activeThreads k2) with (activeThreads k). destruct fa_active0 as [Hact Hfew]. rewrite Hact.
  destruct (forget_queue c ts fa_nodup0 Hfew) as (ts' & -> & Hts). cbn [mbind result_bind].
  erewrite Sleep_run; [|done|].
  2: { change (currentThread (set_activeThreads k2 _)) with (currentThread k). rewrite fa_current0. exact Hc2. }
  change (currentThread (set_activeThreads k2 (queue_of ts'))) with (currentThread k). rewrite fa_current0.
  eexists. split; [done|]. split; [exact fa_current0|]. split; [done|]. split; [done|]. split; [done|].
  split; [apply put_get|]. split; [|by exists ts'].
  rewrite put_get_ne by done. change (threads (set_activeThreads k2 (queue_of ts')) !! p) with (threads k2 !! p).
  by rewrite Hp2.
Qed.

(** The dispatch from the exiting child to its parent, and the parent's return
    from [SWITCH]. *)
Lemma Sleep_loop_run k m :
  currentThread k = c → p ≠ c → machine k = Some m →
  Z.of_nat (length (registers m)) = NumTotalRegs →
  (∃ th fs, threads k !! c = Some (set_frames (FSleepLoop :: fs) th) ∧ is_Some (space th) ∧
     (stack th = None ∨ stack th = Some STACK_FENCEPOST)) →
  (∃ th, threads k !! p = Some th) → (∃ q, readyList k = aPrepend q (Some p)) →
  ∃ k' thp', step Random true junkRegs k = Ok k' ∧ currentThread k' = p ∧
    threadToBeDestroyed k' = threadToBeDestroyed k ∧ machine k' = machine k ∧
    activeThreads k' = activeThreads k ∧ is_Some (threads k' !! c) ∧
    threads k !! p = Some thp' ∧ threads k' !! p = Some (set_tstatus RUNNING thp').
Proof.
  intros Hc Hne Hm Hl (th & fs & Hth & [sp Hsp] & Hst) (thp' & Hp) (q & Hq).
  unfold step. rewrite Hc, (get_thread_Ok _ _ _ Hth). cbn [mbind result_bind frames set_frames exec].
  unfold Sleep_loop, FindNextToRun. cbn [readyList put_thread set_threads]. rewrite Hq.
  cbn [aRemove aPrepend elems asize snd]. unfold Run.
  set (k1 := set_readyList _ _).
  assert (Hk1 : threads k1 !! c = Some (set_frames fs th)) by apply put_get.
  change (currentThread k1) with (currentThread k). rewrite Hc, (get_thread_Ok _ _ _ Hk1).
  cbn [mbind result_bind space set_frames]. rewrite Hsp.
  rewrite (SaveUserState_run c _ m k1 Hk1 Hm Hl). cbn [mbind result_bind].
  set (k2 := put_thread k1 c _).
  unfold CheckOverflow. rewrite (get_thread_Ok k2 c _ (put_get _ _ _)). cbn [mbind result_bind stack
    set_userRegisters set_frames].
  assert ((match stack th with Some w => ASSERT (w =? STACK_FENCEPOST) | None => Ok tt end) = Ok tt) as ->
    by (by destruct Hst as [->| ->]). cbn [mbind result_bind].
  unfold push. change (currentThread k2) with (currentThread k). rewrite Hc.
  rewrite (upd_thread_Ok k2 c _ _ (put_get _ _ _)). cbn [mbind result_bind]. unfold k2. rewrite put_twice.
  set (k3 := put_thread k1 c _).
  assert (Hp3 : threads k3 !! p = Some thp').
  { unfold k3. rewrite put_get_ne by done. unfold k1. cbn [threads set_readyList].
    by rewrite put_get_ne. }
  unfold setStatus. rewrite (upd_thread_Ok (set_current k3 p) p thp' _ Hp3).
  eexists _, thp'. split; [done|]. split; [done|]. split; [done|]. split; [done|]. split; [done|].
  split; [|split; [done|apply put_get]].
  rewrite put_get_ne by done. eexists. apply put_get.
Qed.

Lemma Run_tail_run k m thp' spp fs :
  currentThread k = p → p ≠ c → threadToBeDestroyed k = Some c → machine k = Some m →
  Z.of_nat (length (registers m)) = NumTotalRegs →
  threads k !! p = Some thp' → frames thp' = FRunTail :: fs → space thp' = Some spp →
  Z.of_nat (length (userRegisters thp')) = NumTotalRegs →
  ∃ k', step Random true junkRegs k = Ok k' ∧ currentThread k' = p ∧ threads k' !! c = None ∧
    threads k' !! p = Some (set_frames fs thp') ∧ threadToBeDestroyed k' = None ∧
    activeThreads k' = activeThreads k ∧
    machine k' = Some (set_pageTable (set_registers m (userRegisters thp'))
      (Some (spaceTable spp)) (numPages spp)).
Proof.
  intros Hc Hne Hd Hm Hl Hp Hf Hs Hu. unfold step. rewrite Hc, (get_thread_Ok _ _ _ Hp).
  cbn [mbind result_bind]. rewrite Hf. cbn [exec]. unfold Run_tail.
  set (k1 := put_thread k p _). change (threadToBeDestroyed k1) with (threadToBeDestroyed k).
  rewrite Hd. unfold delete_thread. change (currentThread k1) with (currentThread k). rewrite Hc.
  rewrite bool_decide_false by congruence. cbn [negb ASSERT mbind result_bind].
  set (k2 := set_doomed _ None).
  assert (Hp2 : threads k2 !! p = Some (set_frames fs thp')).
  { unfold k2. cbn [threads set_doomed set_threads]. rewrite lookup_delete_ne by done. apply put_get. }
  change (currentThread k2) with (currentThread k). rewrite Hc, (get_thread_Ok _ _ _ Hp2).
  cbn [mbind result_bind space set_frames]. rewrite Hs.
  rewrite (RestoreUserState_run p _ m k2 Hp2 Hm Hl Hu). cbn [mbind result_bind].
  unfold RestoreState, the_machine. cbn [machine set_machine mbind result_bind].
  eexists. split; [done|]. split; [done|]. split; [apply lookup_delete_eq|]. split; [exact Hp2|].
  done.
Qed.

End Exit.

(** ** [~AddrSpace] frees every frame *)

Lemma clear_frames_loop n i bm : clear_frames n i bm = clear_loop n i bm.
Proof. reflexivity. Qed.

Lemma delete_space_run sp m bm h :
  wf bm → numBits bm = NumPhysPages →
  ∃ bm', delete_space sp m bm h =
      Ok (set_tables m (delete (spaceTable sp) (tables m)), bm', snd (stub_Remove (swapFileName sp) h)) ∧
    wf bm' ∧ numBits bm' = NumPhysPages ∧ view bm' = replicate (Z.to_nat NumPhysPages) false.
Proof.
  intros Hw Hn. unfold delete_space. rewrite clear_frames_loop.
  destruct (clear_loop_spec (Z.to_nat NumPhysPages) 0 bm) as (bm' & -> & Hw' & Hn' & Hv);
    [done|lia|unfold NumPhysPages in *; lia|]. cbn [mbind result_bind].
  exists bm'. destruct (stub_Remove _ _) as [r h']. split; [done|]. split; [done|]. split; [lia|].
  by rewrite Hv.
Qed.

Section ExitCall.
Variables (Random : nat → Z) (be : bool) (virtualOption fifo : Z) (named_main : tid → bool)
  (junkRegs : list Z) (junkBuf junkHdr : nat → Z) (junkTable : nat → TranslationEntry)
  (junkSpace : Space).

Lemma SC_Exit_run a s c p thc thp ts sp m :
  family c p thc thp ts (kern s) → space thc = Some sp → 0 <= numPages sp < NumPhysPages →
  machine (kern s) = Some m → wf (frameMap s) → numBits (frameMap s) = NumPhysPages →
  ∃ s', SC_Exit_call junkRegs a s = Ok s' ∧
    (wf (frameMap s') ∧ view (frameMap s') = replicate (Z.to_nat NumPhysPages) false) ∧
    currentThread (kern s') = c ∧ threadToBeDestroyed (kern s') = Some c ∧
    readyList (kern s') = aPrepend (readyList (kern s)) (Some p) ∧
    machine (kern s') = Some (set_tables m (delete (spaceTable sp) (tables m))) ∧
    threads (kern s') !! c = Some (set_frames (FSleepLoop :: frames thc) (set_tstatus BLOCKED thc)) ∧
    threads (kern s') !! p = Some (set_tstatus READY (set_isJoined false thp)) ∧
    ∃ ts', activeThreads (kern s') = queue_of ts' ∧ ts' ≡ₚ filter (λ t, t ≠ c) ts.
Proof.
  intros Hf Hs Hn Hm Hw Hb. pose proof Hf as [Hc Hth _ _ _ _ _]. unfold SC_Exit_call, me. rewrite Hc.
  rewrite (get_thread_Ok _ _ _ Hth). cbn [mbind result_bind]. rewrite Hs.
  rewrite wrap32_id by (unfold int32, NumPhysPages in *; lia).
  destruct (Clear_spec (frameMap s) (numPages sp) Hw) as (bm & -> & Hw1 & Hn1 & _); [lia|].
  cbn [mbind result_bind]. unfold delete_current_space, me. cbn [kern set_frameMap].
  rewrite Hc, (get_thread_Ok _ _ _ Hth). cbn [mbind result_bind]. rewrite Hs. unfold the_machine.
  rewrite Hm. cbn [mbind result_bind frameMap set_frameMap vhost].
  destruct (delete_space_run sp m bm (vhost s) Hw1) as (bm' & -> & Hwf' & _ & Hv'); [congruence|].
  cbn [mbind result_bind]. unfold in_kernel. cbn [kern set_frameMap set_vhost put_machine set_kern].
  set (k := set_machine (kern s) _).
  destruct (Finish_family junkRegs c p thc thp ts k) as (k' & -> & H); [by destruct Hf|].
  cbn [mbind result_bind]. eexists. split; [done|]. split; [done|]. exact H.
Qed.

(** A step that is not of a user program *)
Lemma sys_step_kernel s th f fs k' :
  threads (kern s) !! me s = Some th → frames th = f :: fs →
  match f with Do (CUser _) => False | _ => True end →
  step Random true junkRegs (kern s) = Ok k' →
  sys_step Random be virtualOption fifo named_main junkRegs junkBuf junkHdr junkTable junkSpace s =
  Ok (set_kern s k').
Proof.
  intros Ht Hf Hnot Hst. unfold sys_step, in_kernel. rewrite (get_thread_Ok _ _ _ Ht).
  cbn [mbind result_bind]. rewrite Hf, Hst. cbn [mbind result_bind].
  destruct f as [[| | | | | | | |u]| | | | | | | | | |]; done.
Qed.

(** ** Properties *)

(** C36: [Exit] resumes the parent that joined.  When a process of fewer pages than
    the machine has frames exits whose parent is asleep in [Join], the parent is the next thread to run whatever
    else is ready: within two steps of the kernel it is the running thread, no
    longer marked as joined, back at the point where it went to sleep, with its
    own registers and page table in the machine; the child's thread is deleted
    and the child is off the list of active threads, on which the others
    stay. *)
Theorem exit_resumes_parent a s c p thc thp ts sp spp m fs :
  family c p thc thp ts (kern s) → space thc = Some sp → 0 <= numPages sp < NumPhysPages →
  machine (kern s) = Some m → Z.of_nat (length (registers m)) = NumTotalRegs →
  wf (frameMap s) → numBits (frameMap s) = NumPhysPages →
  (stack thc = None ∨ stack thc = Some STACK_FENCEPOST) →
  frames thp = FRunTail :: fs → space thp = Some spp →
  Z.of_nat (length (userRegisters thp)) = NumTotalRegs →
  ∃ s1 s2 s3, SC_Exit_call junkRegs a s = Ok s1 ∧
    sys_steps Random be virtualOption fifo named_main junkRegs junkBuf junkHdr junkTable junkSpace
      1 s1 = Ok s2 ∧ me s2 = p ∧
    sys_steps Random be virtualOption fifo named_main junkRegs junkBuf junkHdr junkTable junkSpace
      2 s1 = Ok s3 ∧ me s3 = p ∧ threads (kern s3) !! c = None ∧
    threads (kern s3) !! p =
      Some (set_frames fs (set_tstatus RUNNING (set_tstatus READY (set_isJoined false thp)))) ∧
    (∃ m', machine (kern s3) = Some m' ∧ registers m' = userRegisters thp ∧
       pageTable m' = Some (spaceTable spp) ∧ pageTableSize m' = numPages spp) ∧
    ∃ ts', activeThreads (kern s3) = queue_of ts' ∧ ts' ≡ₚ filter (λ t, t ≠ c) ts.
Proof.
  intros Hf Hs Hn Hm Hl Hw Hb Hst Hfp Hsp Hu.
  destruct (SC_Exit_run a s c p thc thp ts sp m Hf Hs Hn Hm Hw Hb) as
    (s1 & -> & _ & Hc1 & Hd1 & Hr1 & Hm1 & Hth1 & Hp1 & ts' & Ha1 & Hts).
  destruct (Sleep_loop_run Random junkRegs c p (kern s1) _ Hc1 (fa_ne _ _ _ _ _ _ Hf) Hm1 Hl) as
    (k2 & thp2 & Hs2 & Hc2 & Hd2 & Hm2 & Ha2 & _ & Hpx & Hp2).
  { exists (set_tstatus BLOCKED thc), (frames thc). split; [done|]. split; [by exists sp|done]. }
  { eauto. }
  { by exists (readyList (kern s)). }
  rewrite Hp1 in Hpx. injection Hpx as <-. rewrite Hd1 in Hd2. rewrite Hm1 in Hm2.
  destruct (Run_tail_run Random junkRegs c p k2 _ _ spp fs Hc2 (fa_ne _ _ _ _ _ _ Hf) Hd2 Hm2 Hl Hp2) as
    (k3 & Hs3 & Hc3 & Hdel & Hp3 & _ & Ha3 & Hm3); try done.
  eapply sys_step_kernel in Hs2 as Hy2; [|unfold me; rewrite Hc1; exact Hth1|done|done].
  eapply (sys_step_kernel (set_kern s1 k2)) in Hs3 as Hy3;
    [|unfold me; cbn [kern set_kern]; rewrite Hc2; exact Hp2|done|done].
  exists s1, (set_kern s1 k2), (set_kern (set_kern s1 k2) k3). split; [done|].
  cbn [sys_steps]. rewrite Hy2. cbn [mbind result_bind]. rewrite Hy3. cbn [mbind result_bind].
  split; [done|]. split; [exact Hc2|]. split; [done|]. split; [exact Hc3|]. split; [exact Hdel|].
  split; [exact Hp3|]. split; [eexists; split; [exact Hm3|done]|].
  exists ts'. split; [|done]. cbn [kern set_kern]. congruence.
Qed.

End ExitCall.



(** ** Exit and the frames of other processes *)

(** [Exit] frees the frames of all processes.  Whatever frames are in use, and by
    whom, after the call none is marked as used, so that the next page fault gets
    frame 0; the page tables of the other processes, with the frames they hold, are as
    before. *)
Theorem exit_frees_all_frames junkRegs a s c p thc thp ts sp m :
  family c p thc thp ts (kern s) → space thc = Some sp → 0 <= numPages sp < NumPhysPages →
  machine (kern s) = Some m → wf (frameMap s) → numBits (frameMap s) = NumPhysPages →
  ∃ s' m' bm, SC_Exit_call junkRegs a s = Ok s' ∧
    view (frameMap s') = replicate (Z.to_nat NumPhysPages) false ∧ Find (frameMap s') = Ok (0, bm) ∧
    machine (kern s') = Some m' ∧ mainMemory m' = mainMemory m ∧
    ∀ t, t ≠ spaceTable sp → tables m' !! t = tables m !! t.
Proof.
  intros Hf Hs Hn Hm Hw Hb.
  destruct (SC_Exit_run junkRegs a s c p thc thp ts sp m Hf Hs Hn Hm Hw Hb)
    as (s' & Hex & [Hw' Hv] & _ & _ & _ & Hm' & _).
  pose proof (Find_spec (frameMap s') Hw') as Hfind. rewrite Hv in Hfind.
  change (first_clear (replicate (Z.to_nat NumPhysPages) false)) with (Some 0%nat) in Hfind.
  destruct Hfind as (bm & Hfind & _). eexists s', _, bm. split; [done|]. split; [done|]. split; [exact Hfind|]. split; [exact Hm'|]. split; [done|].
  intros t Ht. cbn [tables set_tables]. by rewrite lookup_delete_ne.
Qed.

(** [new AddrSpace] with the program of [demo_vm] *)
Definition load_demo (threadID : Z) (v : VM) : result (Space * VM) :=
  '(sp, m, h) ← newAddrSpace false (λ _, 0) (λ _, 0) (λ _, mkTE 0 0 false false false false) 3
     threadID (vmMachine v) (vmHost v);
  match sp with
  | None => Undefined
  | Some sp => Ok (sp, mkVM m h (bitMap v) (IPT v) (IPT_VP v) (pageFaults v))
  end.

(** Three processes run the same program, process 0 writes 77 at address 300, the
    address space of process 1 is deleted, and after process 2 writes 55 at its address
    300, process 0 reads 55. *)
Example delete_space_breaks_isolation :
  (v0 ← Ok demo_vm;
   '(sp0, v) ← load_demo 0 v0; '(sp1, v) ← load_demo 1 v; '(sp2, v) ← load_demo 2 v;
   let spaces := [sp0; sp1; sp2] in
   '(r0, v) ← turns 0 0 0 false Z.of_nat spaces [(0%nat, UWrite 300 4 77)] v;
   '(m, bm, h) ← delete_space sp1 (vmMachine v) (bitMap v) (vmHost v);
   let v := mkVM m h bm (IPT v) (IPT_VP v) (pageFaults v) in
   '(r2, v) ← turns 0 0 0 false Z.of_nat spaces [(2%nat, UWrite 300 4 55)] v;
   '(r0', v) ← turns 0 0 0 false Z.of_nat spaces [(0%nat, URead 300 4)] v;
   Ok (r0, r2, r0')) =
  Ok ([AWrite (Done tt)], [AWrite (Done tt)], [ARead (Done 55)]).
Proof. vm_compute. reflexivity. Qed.

(** ** Witnesses *)

Definition demo_parent (joined : bool) : Thread :=
  mkThread [FRunTail; Do (CUser CEndException); FOneTick; Do (CUser CMachineRun); FThreadFinish]
    None (if joined then BLOCKED else RUNNING) (Some (mkSpace 1 5 [48])) (replicate 40 3) None 0
    false joined.
Definition demo_child (p : option tid) : Thread :=
  mkThread [Do (CUser CEndException); FOneTick; Do (CUser CMachineRun); FThreadFinish]
    (Some STACK_FENCEPOST) RUNNING (Some (mkSpace 2 5 [49])) (replicate 40 0) p 1 false false.

(** Thread 1 is the child of thread 0; thread [cur] is running. *)
Definition demo_system (joined : bool) (cur : tid) : System :=
  mkSystem (mkKernel newInterrupt newStatistics
      (<[0%nat := demo_parent joined]> {[ 1%nat := demo_child (if joined then Some 0%nat else None) ]})
      cur None (queue_of [5%nat]) (queue_of [1%nat]) [] None None
      (Some (newMachine false (mkTE 0 0 false false false false) 0 ∅)) ∅ 0 [] None)
    (mkHost ∅ ∅ ∅) (mkBitMap 32 1 [7]) (replicate 32 None) (replicate 32 0) 2 [] [].

Lemma exit_resumes_parent_witness :
  ∃ s1 s3, SC_Exit_call [] 0 (demo_system true 1) = Ok s1 ∧
    sys_steps (λ _, 0) false 0 0 (λ _, false) [] (λ _, 0) (λ _, 0) (λ _, mkTE 0 0 false false false false)
      (mkSpace 0 0 []) 2 s1 = Ok s3 ∧ me s3 = 0%nat ∧ threads (kern s3) !! 1%nat = None.
Proof.
  destruct (exit_resumes_parent (λ _, 0) false 0 0 (λ _, false) [] (λ _, 0) (λ _, 0)
    (λ _, mkTE 0 0 false false false false) (mkSpace 0 0 []) 0 (demo_system true 1) 1 0
    (demo_child (Some 0%nat)) (demo_parent true) [1%nat] (mkSpace 2 5 [49]) (mkSpace 1 5 [48])
    (newMachine false (mkTE 0 0 false false false false) 0 ∅)
    [Do (CUser CEndException); FOneTick; Do (CUser CMachineRun); FThreadFinish])
    as (s1 & s2 & s3 & H1 & _ & _ & H3 & H4 & H5 & _).
  - split; try reflexivity; [discriminate|split; reflexivity|]. apply NoDup_singleton.
  - reflexivity.
  - unfold NumPhysPages. cbn. lia.
  - reflexivity.
  - reflexivity.
  - split; [cbn; lia|reflexivity|reflexivity|]. cbn. constructor; [|constructor]. unfold uint32. lia.
  - reflexivity.
  - right. reflexivity.
  - reflexivity.
  - reflexivity.
  - reflexivity.
  - exists s1, s3. split; [exact H1|]. split; [exact H3|]. split; [exact H4|exact H5].
Defined.


(** ** Two programs, from boot to halt *)

(** A program file: its instructions, and from address 128 its data. *)
Definition noff_file (instrs : list Z) (data : list Z) : list Z :=
  let text := mjoin (le_bytes 4 <$> instrs) in
  le_bytes 4 NOFFMAGIC ++ le_bytes 4 0 ++ le_bytes 4 40 ++ le_bytes 4 160 ++ replicate 24 0 ++
  text ++ replicate (128 - length text) 0 ++ data ++ replicate (32 - length data) 0.

(** [Join(Exec("c")); Halt();] *)
Definition parent_program : list Z :=
  noff_file [0x24020002; 0x24040080; 0x0000000c;   (* r2 = SC_Exec; r4 = 128; syscall *)
             0x00402021; 0x24020003; 0x0000000c;   (* r4 = r2; r2 = SC_Join; syscall *)
             0x24020000; 0x0000000c] [99; 0].      (* r2 = SC_Halt; syscall *)

(** [Write("hi", 2, 1); Exit(0);] *)
Definition child_program : list Z :=
  noff_file [0x24020007; 0x24040080; 0x24050002; 0x24060001; 0x0000000c;
             0x24020001; 0x24040000; 0x0000000c] [104; 105; 0].

Definition demo_boot : result System :=
  sys_boot (λ _, 0) [] (λ _, 0) (newMachine false (mkTE 0 0 false false false false) 0 ∅)
    (mkHost (<[ [112] := 1%positive ]> {[ [99] := 2%positive ]})
       (<[1%positive := parent_program]> {[ 2%positive := child_program ]}) ∅) [112] [].

Definition demo_run (n : nat) : result System :=
  s ← demo_boot;
  sys_steps (λ _, 0) false 0 0 (λ t, bool_decide (t = 0%nat)) (replicate 40 0) (λ _, 0) (λ _, 0)
    (λ _, mkTE 0 0 false false false false) (mkSpace 0 0 []) n s.

(** Running threads, the output and the counters of a state *)
Definition observe (r : result System) : result (tid * list Z * Z * Z * list tid * list tid) :=
  s ← r;
  Ok (currentThread (kern s), shown s, totalTicks (stats (kern s)), numPageFaults (stats (kern s)),
      (map_to_list (threads (kern s))).*1, omap snd (elems (activeThreads (kern s)))).

(** The parts work together.  From power on with two program files, the
    main thread loads the first one and runs it instruction by instruction; it
    executes the second with [Exec], waits for it with [Join] (the main thread
    does not run from step 25 until the child has exited), the child writes
    "hi" and exits, its thread is deleted, and the parent comes back and halts
    the machine: the system stops after 65 steps with the status 0 of [Halt],
    after one page fault per program. *)
Example exec_join_halts :
  demo_run 65 = Exited 0 ∧
  observe (demo_run 64) = Ok (0%nat, [104; 105], 46, 2, [2%nat; 0%nat], []) ∧
  observe (demo_run 24) = Ok (0%nat, [], 26, 1, [1%nat; 0%nat], [1%nat]) ∧
  (λ n, s ← demo_run n; Ok (me s)) <$> seq 25 32 = replicate 32 (Ok 1%nat) ∧
  observe (demo_run 57) = Ok (0%nat, [104; 105], 44, 2, [2%nat; 1%nat; 0%nat], []).
Proof.
  split; [vm_compute; reflexivity|]. split; [vm_compute; reflexivity|].
  split; [vm_compute; reflexivity|]. split; [|vm_compute; reflexivity].
  vm_compute. reflexivity.
Qed.
