(* ===== verification/Exec.v ===== *)
(** * userprog/exception.cc: Exec

    The system call [Exec] on the memory of the process that calls it: the kernel reads
    the name of the program out of that memory, and makes a process of the program, with
    a thread that starts it. *)

From S2P Require Import Prelude Params.
From S2P Require Import LList.
From S2P Require Import BitMap.
From S2P Require Import Machine MipsSim.
From S2P Require Import HostFs.
From S2P Require Import Kernel Interrupt Threads Sched.
From S2P Require Import AddrSpace Paging Loader Exception Process.
Local Open Scope Z_scope.

(** The virtual memory of a system whose machine is [m] *)
Definition vm_of (m : Machine) (s : System) : VM :=
  mkVM m (vhost s) (frameMap s) (ipt s) (ipt_vp s) (numPageFaults (stats (kern s))).

(** [name] is the C string at address [a] of the memory [L]. *)
Definition c_string (L : list Z) (a : Z) (name : list Z) : Prop :=
  0 <= a ∧ take (S (length name)) (drop (Z.to_nat a) L) = name ++ [0] ∧ Forall byte name ∧ 0 ∉ name.

(** Every page with a character of the string is in memory. *)
Definition string_present (v : VM) (sp : Space) (a : Z) (name : list Z) : Prop :=
  ∀ i, 0 <= i <= Z.of_nat (length name) → is_Some (frame_of v sp (Z.to_nat ((a + i) / PageSize))).

Lemma c_string_next L a b name : c_string L a (b :: name) → c_string L (a + 1) name.
Proof.
  intros (Ha & Ht & Hb & Hz). apply Forall_cons in Hb as [_ Hb]. apply not_elem_of_cons in Hz as [_ Hz].
  split; [lia|]. split; [|done]. replace (Z.to_nat (a + 1)) with (Z.to_nat a + 1)%nat by lia.
  rewrite <- drop_drop. destruct (drop (Z.to_nat a) L) as [|x l]; [done|]. cbn in Ht. injection Ht as _ Ht.
  exact Ht.
Qed.

(** The first character, which is the 0 at the end for the empty string *)
Lemma c_string_char L a name :
  c_string L a name → Z.of_nat (length L) <= 2 ^ 31 →
  in_memory L a 1 = true ∧ int32 a ∧ spec_read L a 1 = Done (schar (hd 0 name)).
Proof.
  intros (Ha & Ht & Hb & Hz) HL.
  assert (∃ l, drop (Z.to_nat a) L = hd 0 name :: l) as [l Hl].
  { destruct (drop (Z.to_nat a) L) as [|x l]; [by destruct name|]. exists l. f_equal. destruct name; by injection Ht. }
  assert (Z.to_nat a < length L)%nat as Hlt.
  { apply (f_equal length) in Hl. rewrite length_drop in Hl. cbn in Hl. lia. }
  assert (int32 a) as Hi by (unfold int32; lia). rewrite <- (u32_nonneg_id a) in Hl, Hlt by done.
  assert (in_memory L a 1 = true) as Hin.
  { unfold in_memory. rewrite Z.mod_1_r. cbn [Z.eqb andb]. apply Z.leb_le. lia. }
  split; [done|]. split; [done|]. unfold spec_read, load. rewrite Hin, Hl. cbn [Z.eqb Pos.eqb].
  change (Z.to_nat 1) with 1%nat. cbn [take le_val]. by rewrite Z.mul_0_r, Z.add_0_r.
Qed.

Lemma schar_zero b : byte b → (schar b =? 0) = (b =? 0).
Proof.
  unfold byte, schar. intros Hb. destruct (Z.eqb_spec b 0) as [->|Hn]; [done|]. apply Z.eqb_neq. intros H.
  apply Hn. pose proof (Z.mod_pos_bound (b + 2 ^ 7) (2 ^ 8)). pose proof (Z.div_mod (b + 2 ^ 7) (2 ^ 8)). lia.
Qed.

(** The thread that [Fork] makes of a new one *)
Definition forked (th : Thread) (func : list Call) : Thread :=
  set_tstatus READY (set_stack STACK_FENCEPOST ([FInterruptEnable] ++ (Do <$> func) ++ [FThreadFinish]) th).

Lemma Fork_run t func kn th thc :
  threads kn !! t = Some th → t ≠ currentThread kn → threads kn !! currentThread kn = Some thc →
  level (interrupt kn) = IntOn → inHandler (interrupt kn) = false →
  ∃ k', Fork t func kn = Ok k' ∧ currentThread k' = currentThread kn ∧
    threads k' = <[currentThread kn := set_frames (FOneTick :: frames thc) thc]> (<[t := forked th func]> (threads kn)) ∧
    readyList k' = aAppend (readyList kn) (Some t) ∧ activeThreads k' = activeThreads kn ∧
    machine k' = machine kn ∧ stats k' = stats kn.
Proof.
  intros Ht Hne Hc Hl Hh. unfold Fork, StackAllocate. rewrite (upd_thread_Ok _ _ _ _ Ht). cbn [mbind result_bind].
  set (k1 := put_thread kn t _). rewrite SetLevel_IntOff. change (level (interrupt k1)) with (level (interrupt kn)). rewrite Hl.
  cbn [mbind result_bind]. unfold ReadyToRun, setStatus.
  rewrite (upd_thread_Ok (set_level k1 IntOff) t _ _ (put_get _ _ _)). cbn [mbind result_bind].
  unfold SetLevel. cbn [interrupt set_readyList put_thread set_threads set_level set_interrupt k1 level inHandler].
  rewrite Hh. cbn [negb]. rewrite orb_true_r. cbn [ASSERT mbind result_bind]. rewrite !bool_decide_true by done.
  cbn [andb]. unfold push.
  match goal with |- context [upd_thread ?K _ _] => set (k2 := K) end.
  assert (threads k2 !! currentThread k2 = Some thc) as Hc2.
  { unfold k2. cbn [threads ChangeLevel set_level set_interrupt set_readyList put_thread set_threads currentThread k1].
    by rewrite !lookup_insert_ne. }
  rewrite (upd_thread_Ok _ _ _ _ Hc2). eexists. split; [done|]. split; [done|]. split; [|done].
  cbn [put_thread set_threads threads]. f_equal. unfold k2.
  cbn [threads ChangeLevel set_level set_interrupt set_readyList put_thread set_threads k1]. by rewrite insert_insert_eq.
Qed.

Section Exec.
Variables (Random : nat → Z) (be : bool) (virtualOption fifo : Z) (named_main : tid → bool)
  (junkRegs : list Z) (junkBuf junkHdr : nat → Z) (junkTable : nat → TranslationEntry)
  (junkSpace : Space).
Variables (ps : list (Space * list Z)) (k : nat) (sp : Space) (L : list Z).
Hypothesis Hk : ps !! k = Some (sp, L).

Abbreviation read_name := (read_filename Random be virtualOption fifo named_main junkRegs).

(** Process [k] is running on the machine [m]. *)
Record running (m : Machine) (s : System) : Prop := {
  ru_machine : machine (kern s) = Some m;
  ru_vm : vm_ok ps (vm_of m s);
  ru_current : current sp m;
  ru_space : space_of_thread (kern s) (me s) = Ok sp }.

Lemma running_length m s : running m s → Z.of_nat (length L) <= 2 ^ 31.
Proof. intros []. destruct (vo_resident _ _ ru_vm0 _ _ _ Hk). lia. Qed.

(** A character on a page that is in memory *)
Lemma read_char_present m s a name :
  running m s → c_string L a name → is_Some (frame_of (vm_of m s) sp (Z.to_nat (a / PageSize))) →
  ∃ m', kernel_read Random be virtualOption fifo named_main junkRegs a s =
      Ok (KDone (schar (hd 0 name)), put_machine s m') ∧
    running m' (put_machine s m') ∧
    ∀ i, frame_of (vm_of m' (put_machine s m')) sp i = frame_of (vm_of m s) sp i.
Proof.
  intros Hr Hc [f Hf]. pose proof (running_length _ _ Hr) as HL. destruct Hr as [Hm Hok Hcu Hsp].
  destruct (c_string_char L a name Hc HL) as (Hin & Hi & Hread).
  unfold frame_of in Hf. destruct (table (vm_of m s) sp) as [pt|] eqn:Hpt; [|done]. cbn in Hf.
  destruct (pt !! Z.to_nat (a / PageSize)) as [e|] eqn:He; [|done]. cbn in Hf. destruct (valid e) eqn:Hv; [|done].
  destruct (read_present be ps k sp L Hk (vm_of m s) a 1 pt e) as (m' & Hrd & Hok' & Hcu' & Hst); try done; [by left|].
  exists m'. unfold kernel_read, kernel_access, the_machine. rewrite Hm. cbn [mbind result_bind].
  cbn [vm_of vmMachine] in Hrd. rewrite Hrd, Hread. cbn [mbind result_bind]. split; [done|]. split; [by split|].
  intros i. exact (frame_of_same (vm_of m s) m' sp i Hst).
Qed.

(** What the call leaves alone when it does nothing *)
Record undisturbed (s s' : System) : Prop := {
  un_threads : threads (kern s') = threads (kern s);
  un_current : currentThread (kern s') = currentThread (kern s);
  un_ready : readyList (kern s') = readyList (kern s);
  un_active : activeThreads (kern s') = activeThreads (kern s);
  un_ID : threadID s' = threadID s }.

Lemma undisturbed_trans s s' s'' : undisturbed s s' → undisturbed s' s'' → undisturbed s s''.
Proof. intros [] []. split; congruence. Qed.

(** A character on a page that is not in memory, while there is a free frame: the page
    is brought in, but the kernel does not read again. *)
Lemma read_char_absent m s a name :
  running m s → c_string L a name → frame_of (vm_of m s) sp (Z.to_nat (a / PageSize)) = None →
  ¬ memory_full (vm_of m s) →
  ∃ m' s', kernel_read Random be virtualOption fifo named_main junkRegs a s = Ok (KFail, s') ∧
    running m' s' ∧ undisturbed s s'.
Proof.
  intros Hr Hc Hf Hfull. pose proof (running_length _ _ Hr) as HL. destruct Hr as [Hm Hok Hcu Hsp].
  destruct (c_string_char L a name Hc HL) as (Hin & Hi & Hread). set (v := vm_of m s) in *.
  assert (access_size 1) as Hsz by by left.
  destruct (translate_cases ps k sp L Hk v a 1 false Hok Hcu Hsz Hi) as (Hwf & pt & Hpt & Htr).
  rewrite Hin in Htr. destruct Htr as (_ & _ & _ & e & He & _).
  assert (valid e = false) as Hv.
  { unfold frame_of in Hf. rewrite Hpt in Hf. cbn in Hf. rewrite He in Hf. cbn in Hf. by destruct (valid e). }
  destruct (get_thread (kern s) (me s)) as [th| | | |] eqn:Hth; unfold space_of_thread in Hsp; rewrite Hth in Hsp; try done.
  destruct (absent_ok (space_of_thread (kern s)) virtualOption fifo (Random (randoms (kern s))) (me s) (ID th) ps k sp L Hk)
    with (v := v) (a := a) (size := 1) (w := false) (pt := pt) (e := e) as (m1 & Htr1 & Hra & _ & Hpf); try done.
  { unfold space_of_thread. by rewrite Hth. }
  destruct (Hpf Hfull) as (v' & pt' & e' & Hpf' & Hok' & Hcu' & _).
  unfold kernel_read, kernel_access, the_machine. rewrite Hm. cbn [mbind result_bind].
  rewrite (ReadMem_spec be m a 1 (vo_machine _ _ Hok) Hwf Hsz). change (vmMachine v) with m in Htr1, Hra.
  rewrite Htr1, Hra. cbn [mbind result_bind]. cbn [fault_handler].
  unfold page_fault, the_machine. cbn [kern set_kern put_machine machine set_machine set_status set_interrupt mbind result_bind].
  change (get_thread _ _) with (get_thread (kern s) (me s)). rewrite Hth. cbn [mbind result_bind].
  destruct (vo_bits _ _ Hok) as [Hw Hn]. cbn [vm_of v bitMap] in Hw.
  pose proof (Find_spec (frameMap s) Hw) as Hfind.
  assert (∃ r, Find (frameMap s) = Ok r) as [r Hfr] by (destruct (first_clear _); [destruct Hfind as (? & ? & _)|]; by eexists).
  change (Find _) with (Find (frameMap s)). rewrite Hfr. cbn [mbind result_bind].
  change (PageFault _ _ _ _ _ _ _) with
    (PageFault (space_of_thread (kern s)) virtualOption fifo (Random (randoms (kern s))) (me s) (ID th) (set_vmMachine v m1)).
  rewrite Hpf'. cbn [mbind result_bind]. exists (vmMachine v'). eexists. split; [done|].
  split; [|by destruct (_ && _)]. split; [by destruct (_ && _)| |done|].
  - assert (vm_of (vmMachine v') _ = v') as ->; [|done]. by destruct v'; destruct (_ && _).
  - transitivity (space_of_thread (kern s) (me s)); [by destruct (_ && _)|]. unfold space_of_thread. by rewrite Hth.
Qed.
(** ** The name *)

Lemma next_char m s a b name : running m s → c_string L a (b :: name) → wrap32 (a + 1) = a + 1.
Proof.
  intros Hr Hc. apply wrap32_id. apply (c_string_char L (a + 1) name); [by eapply c_string_next|by eapply running_length].
Qed.

Lemma string_present_next v v' a b name :
  (∀ i, frame_of v' sp i = frame_of v sp i) → string_present v sp a (b :: name) → string_present v' sp (a + 1) name.
Proof.
  intros Hf Hp i Hi. rewrite Hf. replace (a + 1 + i) with (a + (i + 1)) by lia. apply Hp. cbn [length]. lia.
Qed.

Lemma string_absent_next v v' a b name :
  (∀ i, frame_of v' sp i = frame_of v sp i) → is_Some (frame_of v sp (Z.to_nat (a / PageSize))) →
  ¬ string_present v sp a (b :: name) → ¬ string_present v' sp (a + 1) name.
Proof.
  intros Hf H0 Hn Hp. apply Hn. intros i Hi. destruct (decide (i = 0)) as [->|Hi0]; [by rewrite Z.add_0_r|].
  rewrite <- Hf. replace (a + i) with (a + 1 + (i - 1)) by lia. apply Hp. cbn [length] in Hi. lia.
Qed.

(** One turn of the loop over a character that is not the last *)
Lemma read_name_next fuel a done b name s s' :
  kernel_read Random be virtualOption fifo named_main junkRegs a s = Ok (KDone (schar b), s') →
  byte b → b ≠ 0 → (length done < 100)%nat → wrap32 (a + 1) = a + 1 →
  read_name (S fuel) a done s = read_name fuel (a + 1) (done ++ [b]) s' ∧ done ++ b :: name = (done ++ [b]) ++ name.
Proof.
  intros Hr Hb Hz Hl Ha. split; [|by rewrite <- app_assoc]. cbn [read_filename]. rewrite Hr. cbn [mbind result_bind].
  rewrite (proj2 (Z.leb_gt _ _)) by lia. rewrite schar_zero, (proj2 (Z.eqb_neq _ _)), Ha by done.
  unfold u8. by rewrite schar_mod.
Qed.

Lemma read_name_present name : ∀ fuel m s a done,
  running m s → c_string L a name → string_present (vm_of m s) sp a name →
  (length done + length name < 100)%nat → (length name < fuel)%nat →
  ∃ m', read_name fuel a done s = Ok (Some (done ++ name), put_machine s m') ∧ running m' (put_machine s m').
Proof.
  induction name as [|b name IH]; intros [|fuel] m s a done Hr Hc Hp Hl Hf; cbn [length] in *; try lia;
    (destruct (read_char_present m s a _ Hr Hc) as (m1 & Hk1 & Hr1 & Hfr);
      [rewrite <- (Z.add_0_r a); apply Hp; lia|]); cbn [hd] in Hk1.
  - exists m1. split; [|done]. cbn [read_filename]. rewrite Hk1. cbn [mbind result_bind].
    rewrite (proj2 (Z.leb_gt _ _)), app_nil_r by lia. done.
  - pose proof (c_string_next _ _ _ _ Hc) as Hc1. pose proof (next_char _ _ _ _ _ Hr Hc) as Hw.
    destruct Hc as (_ & _ & [Hb _]%Forall_cons & [Hz _]%not_elem_of_cons).
    destruct (read_name_next fuel a done b name s _ Hk1 Hb (not_eq_sym Hz) ltac:(lia) Hw) as [-> ->].
    destruct (IH fuel m1 (put_machine s m1) (a + 1) (done ++ [b]) Hr1 Hc1) as (m' & Hm' & Hr'); [|rewrite length_app; cbn; lia|lia|].
    + by eapply string_present_next.
    + exists m'. by split.
Qed.

Lemma read_name_absent name : ∀ fuel m s a done,
  running m s → c_string L a name → ¬ string_present (vm_of m s) sp a name → ¬ memory_full (vm_of m s) →
  (length done + length name < 100)%nat → (length name < fuel)%nat →
  ∃ m' s', read_name fuel a done s = Ok (None, s') ∧ running m' s' ∧ undisturbed s s'.
Proof.
  induction name as [|b name IH]; intros [|fuel] m s a done Hr Hc Hp Hm Hl Hf; cbn [length] in *; try lia.
  - destruct (frame_of (vm_of m s) sp (Z.to_nat (a / PageSize))) as [f|] eqn:Hfr.
    { destruct Hp. intros i Hi. cbn in Hi. assert (i = 0) as -> by lia. rewrite Z.add_0_r, Hfr. by eexists. }
    destruct (read_char_absent m s a _ Hr Hc Hfr Hm) as (m' & s' & Hk1 & Hr1 & Hu). exists m', s'.
    cbn [read_filename]. by rewrite Hk1.
  - destruct (frame_of (vm_of m s) sp (Z.to_nat (a / PageSize))) as [f|] eqn:Hfr.
    + destruct (read_char_present m s a _ Hr Hc) as (m1 & Hk1 & Hr1 & Hfr1); [by eexists|]. cbn [hd] in Hk1.
      pose proof (c_string_next _ _ _ _ Hc) as Hc1. pose proof (next_char _ _ _ _ _ Hr Hc) as Hw.
      destruct Hc as (_ & _ & [Hb _]%Forall_cons & [Hz _]%not_elem_of_cons).
      destruct (read_name_next fuel a done b name s _ Hk1 Hb (not_eq_sym Hz) ltac:(lia) Hw) as [-> _].
      destruct (IH fuel m1 (put_machine s m1) (a + 1) (done ++ [b]) Hr1 Hc1) as (m' & s' & Hm' & Hr' & Hu);
        [|done|rewrite length_app; cbn; lia|lia|].
      * eapply string_absent_next; [exact Hfr1|by eexists|done].
      * exists m', s'. split; [done|]. split; [done|]. eapply undisturbed_trans; [|exact Hu]. done.
    + destruct (read_char_absent m s a _ Hr Hc Hfr Hm) as (m' & s' & Hk1 & Hr1 & Hu). exists m', s'.
      cbn [read_filename]. by rewrite Hk1.
Qed.
(** ** The new process *)

(** The file [name] is a program that can be loaded for the next process. *)
Record program_named (name exe : list Z) (s : System) : Prop := {
  pn_file : file_named (vhost s) name = Some exe;
  pn_byte : Forall byte exe;
  pn_length : 40 <= Z.of_nat (length exe);
  pn_magic : noffMagic (noff_of_bytes false (take 40 exe)) = NOFFMAGIC;
  pn_size : space_pages (noff_of_bytes false (take 40 exe)) * PageSize < 2 ^ 31;
  pn_swap : name ≠ swap_name (threadID s);
  pn_others : ∀ k sp L, ps !! k = Some (sp, L) → swapFileName sp ≠ swap_name (threadID s) }.

Hypothesis Hjunk : ∀ i, byte (junkBuf i).

(** Opening the program, [new AddrSpace] and closing it *)
Lemma load_new m s name exe :
  running m s → program_named name exe s →
  let n := space_pages (noff_of_bytes false (take 40 exe)) in
  ∃ fd h1 sp' m' h2 h3, stub_Open name (vhost s) = Ok (Some fd, h1) ∧
    new_space be junkBuf junkHdr junkTable junkSpace fd (threadID s) (set_vhost s h1) =
      Ok (sp', set_vhost (put_machine (set_vhost s h1) m') h2) ∧
    Close fd h2 = Ok h3 ∧ numPages sp' = n ∧ current sp m' ∧
    vm_ok (ps ++ [(sp', image junkBuf exe (n * PageSize))]) (set_vmMachine (vm_of m (set_vhost s h3)) m').
Proof.
  intros [Hm Hok Hcu Hsp] [] n. pose proof (vo_host _ _ Hok) as Hw. cbn [vm_of vmHost] in Hw.
  destruct (stub_Open_spec name exe (vhost s) Hw pn_file0) as (fd & i & h1 & Hop & Hi & Hbs & Hfd & Hh1).
  set (v1 := mkVM m h1 (frameMap s) (ipt s) (ipt_vp s) (numPageFaults (stats (kern s)))).
  assert (vm_ok ps v1) as Hok1.
  { apply (vm_ok_host ps (vm_of m s) h1 Hok); [by eapply stub_Open_wf|]. intros. by rewrite Hh1. }
  assert (loadable junkBuf fd (threadID s) name i 0 exe (noff_of_bytes false (take 40 exe)) ps v1) as Hlo.
  { split; cbn [v1 vmHost]; rewrite ?Hh1; cbn [names inodes fds]; try done. apply lookup_insert_eq. }
  assert (read_header be (take 40 exe) = Some (noff_of_bytes false (take 40 exe))) as Hhd.
  { apply read_header_le; [by apply Forall_take| |done]. rewrite length_take. lia. }
  destruct (newAddrSpace_ok be junkBuf junkHdr junkTable _ _ _ _ _ _ _ ps v1 Hok1 Hlo Hhd)
    as (sp' & m' & h2 & off & Hnew & Hn & _ & Hfds & _ & Hfiles & Hok2).
  destruct (newAddrSpace_run be junkBuf junkHdr junkTable _ _ _ _ _ _ _ ps v1 (vo_host _ _ Hok1) Hlo Hhd)
    as (h2' & off' & Hrun & _). rewrite Hnew in Hrun. cbn zeta in Hrun.
  assert (m' = set_tables m (tables m')) as Hm' by (injection Hrun as _ -> _; done).
  exists fd, h1, sp', m', h2, (mkHost (names h2) (inodes h2) (fds (vhost s))). split; [done|]. split; [|split; [|split; [done|split]]].
  - unfold new_space, the_machine. cbn [kern set_vhost vhost]. rewrite Hm. cbn [mbind result_bind].
    change h1 with (vmHost v1). change m with (vmMachine v1). rewrite Hnew. done.
  - unfold Close. rewrite Hfds, lookup_insert_eq. cbn [v1 vmHost]. rewrite Hh1. cbn [fds].
    by rewrite insert_insert_eq, delete_insert_id.
  - rewrite Hm'. by destruct Hcu.
  - apply (vm_ok_host _ (mkVM m' h2 _ _ _ _) (mkHost (names h2) (inodes h2) (fds (vhost s))) Hok2); [|done].
    destruct (vo_host _ _ Hok2) as [H1 H2 _]. cbn [vmHost] in *. split; [done|done|]. apply (wh_fds _ Hw).
Qed.
Lemma WriteRegister_result m x :
  wf_machine m → int32 x →
  ∃ m', WriteRegister m 2 x = Ok m' ∧ ReadRegister m' 2 = Ok x ∧ wf_machine m' ∧
    m' = set_registers m (registers m').
Proof.
  intros [Hl Hi (r & Hr & Hb) Hml Hmb] Hx. unfold WriteRegister. unfold NumTotalRegs in *. cbn [Z.leb Z.ltb Z.compare andb ASSERT mbind result_bind].
  rewrite aset_Ok by lia. cbn [mbind result_bind]. eexists. split; [done|]. split; [|split; [|done]].
  - unfold ReadRegister. cbn [registers set_registers]. unfold aget. change (Z.to_nat 2) with 2%nat.
    rewrite list_lookup_insert_eq by lia. done.
  - split; cbn [registers set_registers mainMemory]; rewrite ?length_insert; try done.
    + by apply Forall_insert.
    + exists r. split; [|done]. rewrite <- Hr. apply aget_insert_ne; (done || lia).
Qed.

(** What [Exec] has made: the thread [c] of the new process with the address space [sp']
    and the memory [L'], and the ID of the process in register 2 of the caller *)
Record executed (s : System) (th : Thread) (s' : System) (c : tid) (sp' : Space) (L' : list Z) : Prop := {
  ex_new : threads (kern s) !! c = None;
  ex_threads : threads (kern s') =
    <[me s := set_frames (FOneTick :: frames th) th]>
      (<[c := forked (set_ID (threadID s) (set_space (Some sp') (newThread_obj junkRegs))) [CUser CprocessCreator]]>
        (threads (kern s)));
  ex_current : me s' = me s;
  ex_ready : readyList (kern s') = aAppend (readyList (kern s)) (Some c);
  ex_active : activeThreads (kern s') = aAppend (activeThreads (kern s)) (Some c);
  ex_ID : threadID s' = wrap32 (threadID s + 1);
  ex_machine : ∃ m', machine (kern s') = Some m' ∧ ReadRegister m' 2 = Ok (threadID s) ∧ current sp m' ∧
    vm_ok (ps ++ [(sp', L')]) (vm_of m' s') }.

Lemma exec_program m s a name exe th :
  running m s → threads (kern s) !! me s = Some th →
  level (interrupt (kern s)) = IntOn → inHandler (interrupt (kern s)) = false → int32 (threadID s) →
  c_string L a name → (length name < 100)%nat → string_present (vm_of m s) sp a name →
  program_named name exe s → killNewChild th = false →
  let n := space_pages (noff_of_bytes false (take 40 exe)) in
  ∃ s' c sp', SC_Exec_call Random be virtualOption fifo named_main junkRegs junkBuf junkHdr junkTable junkSpace a s = Ok s' ∧
    numPages sp' = n ∧ executed s th s' c sp' (image junkBuf exe (n * PageSize)).
Proof.
  intros Hr Hth Hlv Hh Hid Hc Hl Hp Hpn Hkill n. unfold SC_Exec_call.
  destruct (read_name_present name filename_fuel m s a [] Hr Hc Hp) as (m1 & -> & Hr1);
    [cbn [length]; lia|unfold filename_fuel; lia|]. cbn [mbind result_bind app].
  destruct (load_new m1 (put_machine s m1) name exe Hr1) as (fd & h1 & sp' & m2 & h2 & h3 & Hop & Hnew & Hcl & Hn & Hcu & Hok).
  { by destruct Hpn. }
  cbn [put_machine set_kern vhost] in Hop. cbn [vhost put_machine set_kern]. rewrite Hop. cbn [mbind result_bind].
  change (threadID (set_vhost (put_machine s m1) h1)) with (threadID (put_machine s m1)).
  rewrite Hnew. cbn [mbind result_bind vhost set_vhost put_machine set_kern]. rewrite Hcl. cbn [mbind result_bind].
  set (s1 := set_vhost _ h3). rewrite (get_thread_Ok (kern s1) (me s1) th Hth). cbn [mbind result_bind].
  rewrite Hkill. cbn [negb]. unfold newThread.
  set (k1 := kern s1). set (c := fresh (dom (threads k1))).
  assert (threads (kern s) !! c = None) as Hnone by (apply not_elem_of_dom, (is_fresh (dom (threads (kern s))))).
  assert (c ≠ me s) as Hne by (intros E; rewrite E in Hnone; congruence).
  rewrite (upd_thread_Ok _ _ _ _ (put_get _ _ _)). cbn [mbind result_bind]. rewrite put_twice.
  unfold in_machine, the_machine.
  change (machine (kern (set_kern s1 _))) with (Some m2). cbn [mbind result_bind]. change (threadID s1) with (threadID s).
  destruct (WriteRegister_result m2 (threadID s) (vo_machine _ _ Hok) Hid) as (m3 & -> & Hreg & Hwf & Hm3).
  cbn [mbind result_bind]. unfold in_kernel.
  set (k3 := kern _).
  destruct (Fork_run c [CUser CprocessCreator] k3
    (set_ID (threadID s) (set_space (Some sp') (newThread_obj junkRegs))) th) as (k4 & -> & Hcur & Hthr & Hrd & Hac & Hma & Hst).
  { apply lookup_insert_eq. }
  { done. }
  { change (threads k3 !! currentThread k3) with (<[c := set_ID (threadID s) (set_space (Some sp') (newThread_obj junkRegs))]>
      (threads (kern s)) !! me s). by rewrite lookup_insert_ne. }
  { done. }
  { done. }
  cbn [mbind result_bind]. eexists _, c, sp'. split; [done|]. split; [done|]. split; try done.
  - cbn [kern set_kern]. rewrite Hthr. f_equal.
    change (threads k3) with (<[c := set_ID (threadID s) (set_space (Some sp') (newThread_obj junkRegs))]> (threads (kern s))).
    by rewrite insert_insert_eq.
  - exists m3. split; [exact Hma|]. split; [done|]. split; [rewrite Hm3; by destruct Hcu|].
    unfold vm_of. cbn [kern set_kern]. rewrite Hst.
    pose proof (vm_ok_same _ _ m3 Hok Hwf) as Hsame. rewrite Hm3 in Hsame |- *. cbn [mainMemory tables set_registers tlb] in Hsame.
    apply Hsame; [apply (vo_tlb _ _ Hok)|done|apply same_tables_refl].
Qed.

(** C39: [Exec] of the program whose name is the C string at address [a] in the memory
    of the process that calls.  If a page of the string is not in memory the page is
    brought in, and the call has done nothing more.  Otherwise, if there is no such
    file, the call does nothing; if it is a program, and the flag [killNewChild] of the
    caller is not set (no code ever sets it), there is a process more, beside the
    others, whose memory is the program file after its header, and a new thread that is
    ready and active, has the next ID and starts the process; the caller goes on with
    that ID in register 2. *)
Theorem exec_correct m s a name th :
  running m s → threads (kern s) !! me s = Some th →
  level (interrupt (kern s)) = IntOn → inHandler (interrupt (kern s)) = false → int32 (threadID s) →
  c_string L a name → (length name < 100)%nat →
  let call := SC_Exec_call Random be virtualOption fifo named_main junkRegs junkBuf junkHdr junkTable junkSpace a s in
  (¬ string_present (vm_of m s) sp a name → ¬ memory_full (vm_of m s) →
     ∃ m' s', call = Ok s' ∧ running m' s' ∧ undisturbed s s') ∧
  (string_present (vm_of m s) sp a name → file_named (vhost s) name = None →
     ∃ m', call = Ok (put_machine s m') ∧ running m' (put_machine s m')) ∧
  (∀ exe, string_present (vm_of m s) sp a name → program_named name exe s → killNewChild th = false →
     let n := space_pages (noff_of_bytes false (take 40 exe)) in
     ∃ s' c sp', call = Ok s' ∧ numPages sp' = n ∧ executed s th s' c sp' (image junkBuf exe (n * PageSize))).
Proof.
  intros Hr Hth Hlv Hh Hid Hc Hl call. split; [|split].
  - intros Hp Hm. unfold call, SC_Exec_call.
    destruct (read_name_absent name filename_fuel m s a [] Hr Hc Hp Hm) as (m' & s' & -> & Hr' & Hu);
      [cbn [length]; lia|unfold filename_fuel; lia|]. by exists m', s'.
  - intros Hp Hno. unfold call, SC_Exec_call.
    destruct (read_name_present name filename_fuel m s a [] Hr Hc Hp) as (m' & -> & Hr');
      [cbn [length]; lia|unfold filename_fuel; lia|]. cbn [mbind result_bind app vhost put_machine set_kern].
    rewrite stub_Open_none; [|done|apply (vo_host _ _ (ru_vm _ _ Hr))]. exists m'. by split.
  - intros exe Hp Hpn Hkill. by eapply exec_program.
Qed.
End Exec.

(** ** Witnesses *)

(** A process that runs the parent program of Process.v: it has the file name "c" at
    address 128, and the file is the child program. *)
Definition exec_start : VM :=
  mkVM (newMachine false (mkTE 0 0 false false false false) 0 ∅)
    (mkHost (<[ [112] := 1%positive ]> {[ [99] := 2%positive ]})
       (<[1%positive := parent_program]> {[ 2%positive := child_program ]}) {[ 3 := (1%positive, 0) ]})
    (mkBitMap 32 1 [0]) (replicate 32 None) (replicate 32 0) 0.

Lemma exec_start_ok : vm_ok [] exec_start.
Proof.
  split; try done.
  - split; [done|by apply Forall_replicate|by exists 0| |by apply Forall_replicate]. vm_compute. done.
  - split; cbn [exec_start vmHost names inodes fds].
    + intros x i [[<- <-]|[_ [<- <-]%lookup_singleton_Some]]%lookup_insert_Some; by eexists.
    + intros x y i [[<- <-]|[_ [<- <-]%lookup_singleton_Some]]%lookup_insert_Some
        [[<- H]|[_ [<- H]%lookup_singleton_Some]]%lookup_insert_Some; done.
    + intros fd i off [<- _]%lookup_singleton_Some. done.
  - split; [|done]. split; cbn; try done. repeat constructor; done.
Qed.

Definition exec_memory : list Z := image (λ _, 0) parent_program 1280.

(** The process, after it has used the page with the name *)
Definition exec_boot : result (Space * VM) :=
  '(sp, m, h) ← newAddrSpace false (λ _, 0) (λ _, 0) (λ _, mkTE 0 0 false false false false) 3 0
     (vmMachine exec_start) (vmHost exec_start);
  match sp with
  | None => Undefined
  | Some sp =>
      m ← InitRegisters sp m;
      '(_, v) ← user_read (λ _, Ok sp) 0 0 0 0 0 false 128 1
        (mkVM (set_pageTable m (Some (spaceTable sp)) (numPages sp)) h (bitMap exec_start) (IPT exec_start)
          (IPT_VP exec_start) (pageFaults exec_start));
      Ok (sp, v)
  end.

Lemma exec_boot_ok : ∃ sp v, exec_boot = Ok (sp, v) ∧ vm_ok [(sp, exec_memory)] v ∧ current sp (vmMachine v).
Proof.
  destruct (load_ok false (λ _, 0) (λ _, 0) (λ _, mkTE 0 0 false false false false) 3 0 [112] 1
    0 parent_program (noff_of_bytes false (take 40 parent_program)) [] exec_start exec_start_ok)
    as (sp & m & h & m' & Hn & Hp & Hi & _ & _ & Hc & Hok).
  - split; try done; try (by vm_compute). apply (bool_decide_unpack _). vm_compute. exact I.
  - reflexivity.
  - assert (space_pages (noff_of_bytes false (take 40 parent_program)) * PageSize = 1280) as Hsz by by vm_compute.
    rewrite Hsz in Hok. fold exec_memory in Hok. cbn [app] in Hok.
    unfold exec_boot. rewrite Hn. cbn [mbind result_bind]. rewrite Hi. cbn [mbind result_bind].
    set (v1 := mkVM _ h _ _ _ _) in *.
    destruct (user_read_ok (λ _, Ok sp) 0 0 0 0 0 false [(sp, exec_memory)] 0 sp exec_memory eq_refl eq_refl v1 128 1 Hok Hc)
      as [(v & Hr & Hv & Hcv)|[Hfull _]]; [left; reflexivity|split; [discriminate|reflexivity]| |].
    + exists sp, v. rewrite Hr. split; [reflexivity|]. split; [exact Hv|exact Hcv].
    + by vm_compute in Hfull.
Qed.

(** What the run leaves, as far as [Exec] needs it *)
Lemma exec_boot_facts sp v : exec_boot = Ok (sp, v) →
  is_Some (frame_of v sp 0) ∧ file_named (vmHost v) [99] = Some child_program ∧ swapFileName sp = swap_name 0.
Proof.
  intros Hb.
  assert (match exec_boot with
          | Ok (sp, v) => bool_decide (is_Some (frame_of v sp 0) ∧ file_named (vmHost v) [99] = Some child_program ∧
              swapFileName sp = swap_name 0)
          | _ => false end = true) as H by (vm_compute; reflexivity).
  rewrite Hb in H. by apply bool_decide_eq_true in H.
Qed.

Definition exec_thread (sp : Space) : Thread :=
  mkThread [Do (CUser CEndException); FOneTick; Do (CUser CMachineRun); FThreadFinish]
    None RUNNING (Some sp) (replicate 40 0) None 0 false false.

(** The main thread runs the process; the next ID is 1. *)
Definition exec_system (sp : Space) (v : VM) : System :=
  mkSystem (set_numPageFaults (pageFaults v)
      (mkKernel (mkInterrupt IntOn aempty false false SystemMode) newStatistics {[ 0%nat := exec_thread sp ]}
        0 None aempty aempty [] None None (Some (vmMachine v)) ∅ 0 [] None))
    (vmHost v) (bitMap v) (IPT v) (IPT_VP v) 1 [] [].

Lemma exec_correct_witness : ∃ sp v s' c sp',
  exec_boot = Ok (sp, v) ∧
  SC_Exec_call (λ _, 0) false 0 0 (λ _, true) [] (λ _, 0) (λ _, 0) (λ _, mkTE 0 0 false false false false)
    (mkSpace 0 0 []) 128 (exec_system sp v) = Ok s' ∧ numPages sp' = 5 ∧ threadID s' = 2 ∧
  readyList (kern s') = aAppend aempty (Some c) ∧ c ≠ 0%nat.
Proof.
  destruct exec_boot_ok as (sp & v & Hb & Hok & Hc).
  destruct (exec_boot_facts sp v Hb) as (Hfr & Hfile & Hsw).
  destruct (exec_correct (λ _, 0) false 0 0 (λ _, true) [] (λ _, 0) (λ _, 0) (λ _, mkTE 0 0 false false false false)
    (mkSpace 0 0 []) [(sp, exec_memory)] 0 sp exec_memory eq_refl (λ _, conj (Z.le_refl 0) eq_refl)
    (vmMachine v) (exec_system sp v) 128 [99] (exec_thread sp)) as (_ & _ & H).
  - split; [reflexivity| |exact Hc|reflexivity]. destruct v. exact Hok.
  - reflexivity.
  - reflexivity.
  - reflexivity.
  - split; [discriminate|reflexivity].
  - split; [discriminate|]. split; [vm_compute; reflexivity|]. split; [repeat constructor; discriminate|].
    intros [Hx|Hx]%elem_of_cons; [discriminate Hx|by apply not_elem_of_nil in Hx].
  - cbn. lia.
  - destruct (H child_program) as (s' & c & sp' & Hcall & Hn & Hex).
    + intros i Hi. cbn [length] in Hi. destruct v.
      replace ((128 + i) / PageSize) with 0; [exact Hfr|]. unfold PageSize, SectorSize.
      symmetry. apply Z.div_small. lia.
    + split; [exact Hfile| |discriminate|reflexivity|reflexivity|discriminate|].
      * apply (bool_decide_unpack _). vm_compute. exact I.
      * intros [|j] sp1 L1 Hj; [|by destruct j]. injection Hj as <- _. rewrite Hsw. discriminate.
    + reflexivity.
    + exists sp, v, s', c, sp'. split; [exact Hb|]. split; [exact Hcall|]. split; [exact Hn|].
      split; [exact (ex_ID _ _ _ _ _ _ _ _ _ Hex)|]. split; [exact (ex_ready _ _ _ _ _ _ _ _ _ Hex)|].
      intros ->. pose proof (ex_new _ _ _ _ _ _ _ _ _ Hex) as Hnew. discriminate Hnew.
Defined.
