(* ===== verification/Network.v ===== *)
(** * machine/network.cc, threads/synchlist.cc and network/post.cc: mail

    Machines that exchange mail over a network.  A network device sends packets
    of 64 bytes to the UNIX socket of another machine and buffers one packet
    that came in; the post office of each machine adds mailboxes.  The state is
    all machines with the queues of their sockets.  Threads and interrupts show
    as the events of a machine: a call of [Send] or [Receive], the device's
    polling interrupt, the interrupt that ends a send, and a turn of the postal
    worker thread, which waits on the semaphore [messageAvailable]. *)

From Stdlib Require Import SpecFloat.
From S2P Require Import Prelude Params.
From S2P Require Import LList.
From S2P Require Import Machine.
Local Open Scope Z_scope.

(** ** Data *)

Record PacketHeader := mkPkt { pktTo : Z; pktFrom : Z; pktLength : Z }.
Record MailHeader := mkMailHdr { mailTo : Z; mailFrom : Z; mailLength : Z }.

Definition sizeof_Header : Z := 12.
Definition MaxWireSize : Z := 64.
Definition MaxPacketSize : Z := MaxWireSize - sizeof_Header.
Definition MaxMailSize : Z := MaxPacketSize - sizeof_Header.

(** [data] is the part of the array that is initialised. *)
Record Mail := mkMail { mpkt : PacketHeader; mhdr : MailHeader; mdata : list Z }.

Record Network := mkNetwork {
  ident : Z;
  chanceToWork : spec_float;   (** a double *)
  sendBusy : bool;
  inHdr : PacketHeader;
  inbox : list Z }.

Record PostOffice := mkPO {
  network : Network;
  netAddr : Z;
  numBoxes : Z;
  boxes : list (alist Mail);
  poBuffer : list Z;            (** the postal worker's buffer *)
  messageAvailable : Z;         (** values of the semaphores *)
  messageSent : Z;
  sendsPending : Z;             (** send interrupts that have been scheduled *)
  numPacketsSent : Z;
  numPacketsRecvd : Z }.

(** All machines, and the datagrams waiting at their sockets. *)
Record Net := mkNet {
  offices : gmap Z PostOffice;
  wire : gmap Z (list (list Z));
  drawn : nat }.                (** calls of [Random] *)

Definition set_network (po : PostOffice) (n : Network) : PostOffice :=
  mkPO n (netAddr po) (numBoxes po) (boxes po) (poBuffer po) (messageAvailable po) (messageSent po)
    (sendsPending po) (numPacketsSent po) (numPacketsRecvd po).
Definition set_boxes (po : PostOffice) (b : list (alist Mail)) : PostOffice :=
  mkPO (network po) (netAddr po) (numBoxes po) b (poBuffer po) (messageAvailable po) (messageSent po)
    (sendsPending po) (numPacketsSent po) (numPacketsRecvd po).
Definition set_poBuffer (po : PostOffice) (b : list Z) : PostOffice :=
  mkPO (network po) (netAddr po) (numBoxes po) (boxes po) b (messageAvailable po) (messageSent po)
    (sendsPending po) (numPacketsSent po) (numPacketsRecvd po).
Definition add_counts (po : PostOffice) (avail sent pending nsent nrecvd : Z) : PostOffice :=
  mkPO (network po) (netAddr po) (numBoxes po) (boxes po) (poBuffer po)
    (wrap32 (messageAvailable po + avail)) (wrap32 (messageSent po + sent))
    (sendsPending po + pending) (wrap32 (numPacketsSent po + nsent))
    (wrap32 (numPacketsRecvd po + nrecvd)).
Definition put_office (s : Net) (a : Z) (po : PostOffice) : Net :=
  mkNet (<[a := po]> (offices s)) (wire s) (drawn s).
Definition set_inHdr (n : Network) (h : PacketHeader) : Network :=
  mkNetwork (ident n) (chanceToWork n) (sendBusy n) h (inbox n).

Definition office (s : Net) (a : Z) : result PostOffice :=
  match offices s !! a with Some po => Ok po | None => Undefined end.

(** An [int] as a double *)
Definition double (z : Z) : spec_float := binary_normalize 53 1024 z 0 false.

(** ** Headers in memory *)

Section Code.
Variables (be : bool) (Random : nat → Z) (junk : nat → Z).

Definition read_word (bs : list Z) (i : nat) : Z := host_val be (take 4 (drop (4 * i) bs)).

Definition header_bytes (x y z : Z) : list Z :=
  host_bytes be 4 x ++ host_bytes be 4 y ++ host_bytes be 4 z.
Definition pkt_bytes (h : PacketHeader) : list Z :=
  header_bytes (pktTo h) (pktFrom h) (pktLength h).
Definition mail_bytes (h : MailHeader) : list Z :=
  header_bytes (mailTo h) (mailFrom h) (mailLength h).

Definition pkt_of_bytes (bs : list Z) : PacketHeader :=
  mkPkt (wrap32 (read_word bs 0)) (wrap32 (read_word bs 1)) (read_word bs 2).
Definition mail_of_bytes (bs : list Z) : MailHeader :=
  mkMailHdr (wrap32 (read_word bs 0)) (wrap32 (read_word bs 1)) (read_word bs 2).

(** A fresh [char] array of [n] bytes *)
Definition fresh_bytes (n : Z) : list Z := junk <$> seq 0 (Z.to_nat n).

(** ** machine/network.cc *)

Definition clamp (reliability : spec_float) : spec_float :=
  if SFltb reliability (double 0) then double 0
  else if SFltb (double 1) reliability then double 1
  else reliability.

(** The constructor; its socket gets an empty queue.  The polling interrupt it
    schedules is the event [EPoll] below. *)
Definition newNetwork (addr : Z) (reliability : spec_float) : Network :=
  mkNetwork addr (clamp reliability) false (mkPkt 0 0 0) (fresh_bytes MaxPacketSize).

(** [Random() % 100 >= chanceToWork * 100] *)
Definition lost (chance : spec_float) (r : Z) : bool :=
  SFleb (SFmul 53 1024 chance (double 100)) (double (Z.rem r 100)).

(** [SendToSocket]: there must be such a socket. *)
Definition SendToSocket (buffer : list Z) (to : Z) (w : gmap Z (list (list Z)))
  : result (gmap Z (list (list Z))) :=
  match w !! to with
  | None => AssertFail
  | Some q => Ok (<[to := q ++ [buffer]]> w)
  end.

Definition Network_Send (hdr : PacketHeader) (data : list Z) (a : Z) (s : Net) : result Net :=
  po ← office s a;
  let n := network po in
  ASSERT (negb (sendBusy n) && (0 <? pktLength hdr) && (pktLength hdr <=? MaxPacketSize) &&
          (pktFrom hdr =? ident n));;
  let s := put_office s a (add_counts po 0 0 1 0 0) in
  let r := Random (drawn s) in
  let s := mkNet (offices s) (wire s) (S (drawn s)) in
  if lost (chanceToWork n) r then Ok s
  else
    bs ← aslice data 0 (pktLength hdr);
    buffer ← asplice (fresh_bytes MaxWireSize) 0 (pkt_bytes hdr);
    buffer ← asplice buffer sizeof_Header bs;
    w ← SendToSocket buffer (pktTo hdr) (wire s);
    Ok (mkNet (offices s) w (drawn s)).

(** [CheckPktAvail], with [IncomingPacket] of the post office *)
Definition CheckPktAvail (a : Z) (s : Net) : result Net :=
  po ← office s a;
  let n := network po in
  if negb (pktLength (inHdr n) =? 0) then Ok s
  else
    match wire s !! a with
    | None | Some [] => Ok s
    | Some (buffer :: q) =>
        ASSERT (Z.of_nat (length buffer) =? MaxWireSize);;
        let h := pkt_of_bytes buffer in
        ASSERT ((pktTo h =? ident n) && (pktLength h <=? MaxPacketSize));;
        bs ← aslice buffer sizeof_Header (pktLength h);
        box ← asplice (inbox n) 0 bs;
        let n := mkNetwork (ident n) (chanceToWork n) (sendBusy n) h box in
        let po := add_counts (set_network po n) 1 0 0 0 1 in
        Ok (mkNet (<[a := po]> (offices s)) (<[a := q]> (wire s)) (drawn s))
    end.

(** [SendDone], with [PacketSent] of the post office *)
Definition SendDone (a : Z) (s : Net) : result Net :=
  po ← office s a;
  let n := network po in
  let n := mkNetwork (ident n) (chanceToWork n) false (inHdr n) (inbox n) in
  Ok (put_office s a (add_counts (set_network po n) 0 1 (-1) 1 0)).

(** The header, [data] after the copy, and the device *)
Definition Network_Receive (data : list Z) (n : Network) : result (PacketHeader * list Z * Network) :=
  let hdr := inHdr n in
  let n := set_inHdr n (mkPkt (pktTo hdr) (pktFrom hdr) 0) in
  if negb (pktLength hdr =? 0) then
    bs ← aslice (inbox n) 0 (pktLength hdr);
    data ← asplice data 0 bs;
    Ok (hdr, data, n)
  else Ok (hdr, data, n).

(** ** threads/synchlist.cc *)

(** [Lock] and [Condition] are those of threads/synch.cc: the lock does nothing,
    and [Wait] fails an ASSERT. *)
Definition SynchList_Append {A} (l : alist A) (item : A) : alist A := aAppend l (Some item).

Definition SynchList_Remove {A} (l : alist A) : result (A * alist A) :=
  if aIsEmpty l then AssertFail
  else
    match aRemove l with
    | (Some item, l) => Ok (item, l)
    | (None, _) => AssertFail
    end.

(** ** network/post.cc *)

Definition newMail (pktH : PacketHeader) (mailH : MailHeader) (msgData : list Z) : result Mail :=
  ASSERT (mailLength mailH <=? MaxMailSize);;
  bs ← aslice msgData 0 (mailLength mailH);
  Ok (mkMail pktH mailH bs).

Definition MailBox_Put (b : alist Mail) (pktH : PacketHeader) (mailH : MailHeader) (data : list Z)
  : result (alist Mail) :=
  mail ← newMail pktH mailH data;
  Ok (SynchList_Append b mail).

Definition MailBox_Get (b : alist Mail) : result (Mail * alist Mail) := SynchList_Remove b.

(** The constructor; the postal worker it forks is the event [EDelivery] below. *)
Definition newPostOffice (addr : Z) (reliability : spec_float) (nBoxes : Z) : PostOffice :=
  mkPO (newNetwork addr reliability) addr nBoxes (replicate (Z.to_nat nBoxes) aempty)
    (fresh_bytes MaxPacketSize) 0 0 0 0 0.

(** [Send] up to [messageSent->P()] *)
Definition PostOffice_Send (pktHdr : PacketHeader) (mailHdr : MailHeader) (data : list Z) (a : Z)
    (s : Net) : result Net :=
  po ← office s a;
  ASSERT (mailLength mailHdr <=? MaxMailSize);;
  ASSERT ((0 <=? mailTo mailHdr) && (mailTo mailHdr <? numBoxes po));;
  let pktHdr := mkPkt (pktTo pktHdr) (netAddr po) (u32 (mailLength mailHdr + sizeof_Header)) in
  bs ← aslice data 0 (mailLength mailHdr);
  buffer ← asplice (fresh_bytes MaxPacketSize) 0 (mail_bytes mailHdr);
  buffer ← asplice buffer sizeof_Header bs;
  Network_Send pktHdr buffer a s.

(** An iteration of [PostalDelivery] after [messageAvailable->P()] returns *)
Definition PostalDelivery (a : Z) (s : Net) : result Net :=
  po ← office s a;
  let po := add_counts po (-1) 0 0 0 0 in
  '(pktHdr, buffer, n) ← Network_Receive (poBuffer po) (network po);
  let mailHdr := mail_of_bytes buffer in
  ASSERT ((0 <=? mailTo mailHdr) && (mailTo mailHdr <? numBoxes po));;
  ASSERT (mailLength mailHdr <=? MaxMailSize);;
  b ← aget (boxes po) (mailTo mailHdr);
  b ← MailBox_Put b pktHdr mailHdr (drop (Z.to_nat sizeof_Header) buffer);
  bs ← aset (boxes po) (mailTo mailHdr) b;
  Ok (put_office s a (set_boxes (set_poBuffer (set_network po n) buffer) bs)).

Definition PostOffice_Receive (box a : Z) (s : Net) : result (Mail * Net) :=
  po ← office s a;
  ASSERT ((0 <=? box) && (box <? numBoxes po));;
  b ← aget (boxes po) box;
  '(mail, b) ← MailBox_Get b;
  ASSERT (mailLength (mhdr mail) <=? MaxMailSize);;
  bs ← aset (boxes po) box b;
  Ok (mail, put_office s a (set_boxes po bs)).

(** ** The events of the machines *)

Inductive event :=
| ESend (a : Z) (pktH : PacketHeader) (mailH : MailHeader) (data : list Z)
| EPoll (a : Z)
| ESendDone (a : Z)
| EProceed (a : Z)
| EDelivery (a : Z)
| EReceive (a box : Z).

(** What can happen: the interrupt of a send that is pending, the return of
    [messageSent->P()] in a sender and of [messageAvailable->P()] in the postal
    worker when the value is positive, and a [Receive] that does not have to
    wait. *)
Definition can_happen (e : event) (s : Net) : bool :=
  match e with
  | ESend a _ _ _ | EPoll a => bool_decide (is_Some (offices s !! a))
  | ESendDone a => match offices s !! a with Some po => 0 <? sendsPending po | None => false end
  | EProceed a => match offices s !! a with Some po => 0 <? messageSent po | None => false end
  | EDelivery a => match offices s !! a with Some po => 0 <? messageAvailable po | None => false end
  | EReceive a box =>
      match offices s !! a with
      | Some po => match boxes po !! Z.to_nat box with
                   | Some b => (0 <=? box) && negb (aIsEmpty b) | None => false end
      | None => false
      end
  end.

(** A message received from box [box] of machine [a], if the event is that. *)
Definition happen (e : event) (s : Net) : result (option Mail * Net) :=
  match e with
  | ESend a pktH mailH data => s ← PostOffice_Send pktH mailH data a s; Ok (None, s)
  | EPoll a => s ← CheckPktAvail a s; Ok (None, s)
  | ESendDone a => s ← SendDone a s; Ok (None, s)
  | EProceed a => po ← office s a; Ok (None, put_office s a (add_counts po 0 (-1) 0 0 0))
  | EDelivery a => s ← PostalDelivery a s; Ok (None, s)
  | EReceive a box => '(m, s) ← PostOffice_Receive box a s; Ok (Some m, s)
  end.

End Code.

(** ** Headers survive the wire *)

Section Bytes.
Variable be : bool.

Lemma length_host_bytes n z : length (host_bytes be n z) = n.
Proof. unfold host_bytes. destruct be; rewrite ?length_reverse; apply length_le_bytes. Qed.

Lemma host_val_bytes z : host_val be (host_bytes be 4 z) = u32 z.
Proof.
  unfold host_val, host_bytes. destruct be; rewrite ?reverse_involutive; by rewrite le_val_bytes.
Qed.

Lemma length_header x y z : length (header_bytes be x y z) = 12%nat.
Proof. unfold header_bytes. by rewrite !length_app, !length_host_bytes. Qed.

Lemma read_header_words x y z rest :
  let bs := header_bytes be x y z ++ rest in
  read_word be bs 0 = u32 x ∧ read_word be bs 1 = u32 y ∧ read_word be bs 2 = u32 z.
Proof.
  cbn [read_word]. unfold read_word, header_bytes. rewrite <- !app_assoc.
  pose proof (length_host_bytes 4 x) as Hx. pose proof (length_host_bytes 4 y) as Hy.
  pose proof (length_host_bytes 4 z) as Hz. cbn [Nat.mul Nat.add]. split; [|split].
  - rewrite drop_0, take_app_length' by done. apply host_val_bytes.
  - rewrite drop_app_length' by done. rewrite take_app_length' by done. apply host_val_bytes.
  - rewrite app_assoc, drop_app_length' by (rewrite length_app; lia).
    rewrite take_app_length' by done. apply host_val_bytes.
Qed.

Lemma pkt_of_pkt_bytes h rest :
  int32 (pktTo h) → int32 (pktFrom h) → uint32 (pktLength h) →
  pkt_of_bytes be (pkt_bytes be h ++ rest) = h.
Proof.
  intros Ht Hf Hl. unfold pkt_of_bytes, pkt_bytes.
  destruct (read_header_words (pktTo h) (pktFrom h) (pktLength h) rest) as (-> & -> & ->).
  rewrite !wrap32_u32, !wrap32_id, u32_id by done. by destruct h.
Qed.

Lemma mail_of_mail_bytes h rest :
  int32 (mailTo h) → int32 (mailFrom h) → uint32 (mailLength h) →
  mail_of_bytes be (mail_bytes be h ++ rest) = h.
Proof.
  intros Ht Hf Hl. unfold mail_of_bytes, mail_bytes.
  destruct (read_header_words (mailTo h) (mailFrom h) (mailLength h) rest) as (-> & -> & ->).
  rewrite !wrap32_u32, !wrap32_id, u32_id by done. by destruct h.
Qed.

End Bytes.

(** ** Messages in flight *)

Section Flight.
Variables (be : bool) (nb : Z).

(** A message that machine [a] may get *)
Record legal (a : Z) (m : Mail) : Prop := {
  le_to : pktTo (mpkt m) = a;
  le_from : int32 (pktFrom (mpkt m));
  le_addr : int32 a;
  le_length : pktLength (mpkt m) = mailLength (mhdr m) + sizeof_Header;
  le_mail : 0 <= mailLength (mhdr m) <= MaxMailSize;
  le_data : Z.of_nat (length (mdata m)) = mailLength (mhdr m);
  le_box : 0 <= mailTo (mhdr m) < nb;
  le_boxes : int32 (mailTo (mhdr m)) ∧ int32 (mailFrom (mhdr m)) }.

Definition payload (m : Mail) : list Z := mail_bytes be (mhdr m) ++ mdata m.

(** [d] is the datagram of [m]; its end is junk. *)
Definition carries (d : list Z) (m : Mail) : Prop :=
  ∃ rest, d = pkt_bytes be (mpkt m) ++ payload m ++ rest ∧ Z.of_nat (length d) = MaxWireSize.

Lemma length_payload a m : legal a m → Z.of_nat (length (payload m)) = pktLength (mpkt m).
Proof.
  intros []. unfold payload, mail_bytes. rewrite length_app, length_header.
  unfold sizeof_Header in *. lia.
Qed.

(** The device's buffer: nothing, or one message with the semaphore raised. *)
Definition buffered (po : PostOffice) (a : Z) (B : list Mail) : Prop :=
  match B with
  | [] => pktLength (inHdr (network po)) = 0 ∧ messageAvailable po = 0
  | [m] => legal a m ∧ inHdr (network po) = mpkt m ∧ messageAvailable po = 1 ∧
      ∃ rest, inbox (network po) = payload m ++ rest
  | _ => False
  end.

Definition box_of (ms : list Mail) : alist Mail :=
  mkAList ((λ m, (0, Some m)) <$> ms) (wrap32 (Z.of_nat (length ms))).

Definition for_box (box : Z) (ms : list Mail) : list Mail :=
  filter (λ m, mailTo (mhdr m) = box) ms.

(** What has arrived, of what was sent: all of it in order, or in a network that
    loses packets a part of it in order. *)
Definition arrives (lossless : bool) (got sent : list Mail) : Prop :=
  if lossless then got = sent else got `sublist_of` sent.

(** A machine with the messages [B] in its device, [W] on the wire to it, of the
    messages [sent] to it, [got box] already received from its boxes. *)
Record office_ok (lossless : bool) (a : Z) (po : PostOffice) (q : list (list Z))
    (sent : list Mail) (got : Z → list Mail) (B W : list Mail) : Prop := {
  oo_ident : ident (network po) = a ∧ netAddr po = a ∧ sendBusy (network po) = false;
  oo_int : int32 a;
  oo_boxes : numBoxes po = nb ∧ Z.of_nat (length (boxes po)) = nb;
  oo_buffers : Z.of_nat (length (inbox (network po))) = MaxPacketSize ∧
    Z.of_nat (length (poBuffer po)) = MaxPacketSize;
  oo_chance : lossless = true → chanceToWork (network po) = double 1;
  oo_wire : Forall2 carries q W ∧ Forall (legal a) W;
  oo_buffered : buffered po a B;
  oo_arrives : ∀ box b, boxes po !! Z.to_nat box = Some b → 0 <= box →
    ∃ ms, b = box_of ms ∧ Forall (legal a) ms ∧
      arrives lossless (got box ++ ms ++ for_box box (B ++ W)) (for_box box sent) }.

Lemma box_remove m ms : aRemove (box_of (m :: ms)) = (Some m, box_of ms).
Proof.
  unfold aRemove, box_of. cbn [elems asize fmap list_fmap snd]. rewrite wrap32_sub_l. cbn [length].
  by replace (Z.of_nat (S (length ms)) - 1) with (Z.of_nat (length ms)) by lia.
Qed.

Lemma box_append ms m : SynchList_Append (box_of ms) m = box_of (ms ++ [m]).
Proof.
  unfold SynchList_Append, aAppend, box_of. cbn [elems asize]. rewrite wrap32_add_l, fmap_app, length_app. cbn.
  do 2 f_equal. lia.
Qed.

Lemma for_box_app box l l' : for_box box (l ++ l') = for_box box l ++ for_box box l'.
Proof. apply filter_app. Qed.

Lemma arrives_more lossless got sent l :
  arrives lossless got sent → arrives lossless (got ++ l) (sent ++ l).
Proof. unfold arrives. destruct lossless; [by intros ->|]. intros. by apply sublist_app. Qed.

Lemma arrives_lost got sent l : arrives false got sent → arrives false got (sent ++ l).
Proof. unfold arrives. intros. rewrite <- (app_nil_r got). apply sublist_app; [done|]. apply sublist_nil_l. Qed.

End Flight.

(** ** What each routine does to a machine *)

Section Routines.
Variables (be : bool) (Random junk : nat → Z) (nb : Z) (lossless : bool).

Abbreviation ok := (office_ok be nb lossless).

Lemma office_Ok s a po : offices s !! a = Some po → office s a = Ok po.
Proof. unfold office. by intros ->. Qed.

(** The other counters do not matter. *)
Lemma office_counts a po q sent got B W x y z w :
  ok a po q sent got B W → ok a (add_counts po 0 x y z w) q sent got B W.
Proof.
  intros []. split; try done. unfold buffered in *.
  destruct B as [|m [|]]; [| |done]; cbn [add_counts network messageAvailable].
  - destruct oo_buffered0 as [? ->]. done.
  - destruct oo_buffered0 as (? & ? & -> & ?). done.
Qed.

Lemma SendDone_ok s a po q sent got B W :
  offices s !! a = Some po → ok a po q sent got B W →
  ∃ po', SendDone a s = Ok (put_office s a po') ∧ ok a po' q sent got B W.
Proof.
  intros Ho Hok. unfold SendDone. rewrite (office_Ok _ _ _ Ho). cbn [mbind result_bind].
  eexists. split; [done|]. apply office_counts. destruct Hok as [(? & ? & ?) ? ? ? ? ? ? ?]. by split.
Qed.

Lemma asplice_0 (l src : list Z) :
  (length src <= length l)%nat → asplice l 0 src = Ok (src ++ drop (length src) l).
Proof. intros. rewrite asplice_Ok by lia. done. Qed.

Lemma CheckPktAvail_ok s a po q sent got B W :
  offices s !! a = Some po → wire s !! a = Some q → ok a po q sent got B W →
  ∃ po' q' B' W', CheckPktAvail be a s =
      Ok (mkNet (<[a := po']> (offices s)) (<[a := q']> (wire s)) (drawn s)) ∧
    ok a po' q' sent got B' W'.
Proof.
  intros Ho Hw Hok. unfold CheckPktAvail. rewrite (office_Ok _ _ _ Ho), Hw. cbn [mbind result_bind].
  assert (Hsame : ∃ po' q' B' W', Ok s =
      Ok (mkNet (<[a := po']> (offices s)) (<[a := q']> (wire s)) (drawn s)) ∧
    ok a po' q' sent got B' W').
  { exists po, q, B, W. rewrite !insert_id by done. by destruct s. }
  destruct (Z.eqb_spec (pktLength (inHdr (network po))) 0) as [Hz|]; cbn [negb]; [|done].
  destruct q as [|d q]; [done|]. clear Hsame. destruct Hok as [(Hid & Hna & Hsb) Hint Hbx (Hib & Hpb) Hch
    [Hwire Hleg] Hbuf Harr]. inversion Hwire as [|? m ? W' Hcar Hwire' E1 E2]. clear E1. subst W. clear Hwire.
  apply Forall_cons in Hleg as [Hm Hleg]. pose proof Hm as [Hto Hfr _ Hlen Hml Hdata Hbox Hb32].
  assert (B = []) as ->.
  { destruct B as [|m' [|]]; [done| |done]. destruct Hbuf as (Hm' & Hh & _). rewrite Hh in Hz.
    destruct Hm'. unfold sizeof_Header in *. lia. }
  destruct Hcar as (rest & -> & Hd). rewrite Hd. cbn [Z.eqb MaxWireSize ASSERT mbind result_bind].
  change (MaxWireSize =? MaxWireSize) with true. cbn [ASSERT mbind result_bind].
  rewrite pkt_of_pkt_bytes; [|by rewrite Hto|done|].
  2: { unfold uint32, sizeof_Header, MaxMailSize, MaxPacketSize, MaxWireSize, sizeof_Header in *. lia. }
  rewrite Hto, Hid, Z.eqb_refl. cbn [andb].
  rewrite (proj2 (Z.leb_le (pktLength (mpkt m)) MaxPacketSize))
    by (unfold sizeof_Header, MaxMailSize, sizeof_Header in *; lia). cbn [ASSERT mbind result_bind].
  pose proof (length_payload be nb _ _ Hm) as Hlp.
  assert (length (pkt_bytes be (mpkt m)) = 12%nat) as H12 by apply length_header.
  rewrite aslice_Ok; [|done|unfold sizeof_Header in *; lia|].
  2: { rewrite !length_app. unfold sizeof_Header in *. lia. }
  cbn [mbind result_bind]. change (Z.to_nat sizeof_Header) with 12%nat. rewrite <- H12.
  rewrite drop_app_length. rewrite <- Hlp, Nat2Z.id, take_app_length.
  rewrite asplice_0.
  2: { unfold sizeof_Header, MaxMailSize, sizeof_Header in *. lia. }
  cbn [mbind result_bind]. eexists _, q, [m], W'. split; [done|].
  destruct Hbuf as [_ Hav]. split; try done; cbn [add_counts set_network network inbox poBuffer].
  - split; [|done]. rewrite length_app, length_drop.
    unfold sizeof_Header, MaxMailSize, sizeof_Header in *. lia.
  - split; [done|]. split; [done|]. split; [cbn [messageAvailable add_counts set_network]; by rewrite Hav|].
    by eexists.
Qed.

Lemma PostalDelivery_ok s a po q sent got B W :
  offices s !! a = Some po → 0 < messageAvailable po → ok a po q sent got B W →
  ∃ po', PostalDelivery be a s = Ok (put_office s a po') ∧ ok a po' q sent got [] W.
Proof.
  intros Ho Hav Hok. unfold PostalDelivery. rewrite (office_Ok _ _ _ Ho). cbn [mbind result_bind].
  destruct Hok as [(Hid & Hna & Hsb) Hint (Hnb & Hbl) (Hib & Hpb) Hch Hwire Hbuf Harr].
  destruct B as [|m [|]]; cbn [buffered] in Hbuf; [lia| |done].
  destruct Hbuf as (Hm & Hh & Hav1 & rest & Hin). pose proof Hm as [Hto Hfr _ Hlen Hml Hdata Hbox [Hb1 Hb2]].
  pose proof (length_payload be nb _ _ Hm) as Hlp.
  assert (length (mail_bytes be (mhdr m)) = 12%nat) as H12 by apply length_header.
  unfold Network_Receive. cbn [network add_counts poBuffer]. rewrite Hh.
  destruct (Z.eqb_spec (pktLength (mpkt m)) 0); [unfold sizeof_Header in *; lia|]. cbn [negb inbox set_inHdr].
  rewrite Hin. rewrite aslice_Ok; [|done|unfold sizeof_Header in *; lia|rewrite length_app; lia].
  cbn [mbind result_bind Z.to_nat]. rewrite drop_0, <- Hlp, Nat2Z.id, take_app_length.
  rewrite asplice_0.
  2: { unfold sizeof_Header, MaxMailSize, sizeof_Header in *. lia. }
  cbn [mbind result_bind]. set (tl := drop (length (payload be m)) (poBuffer po)).
  assert (mail_of_bytes be (payload be m ++ tl) = mhdr m) as Hmh.
  { unfold payload. rewrite <- app_assoc. apply mail_of_mail_bytes; [done|done|].
    unfold uint32, MaxMailSize, MaxPacketSize, MaxWireSize, sizeof_Header in *. lia. }
  cbn [add_counts numBoxes]. rewrite Hmh, Hnb, (proj2 (Z.leb_le _ _)), (proj2 (Z.ltb_lt _ _)) by lia.
  cbn [andb ASSERT mbind result_bind]. rewrite (proj2 (Z.leb_le _ _)) by lia.
  cbn [ASSERT mbind result_bind boxes add_counts].
  destruct (aget_in (boxes po) (mailTo (mhdr m))) as [b Hb]; [lia|]. rewrite Hb. cbn [mbind result_bind].
  apply aget_Ok in Hb as [_ Hb]. destruct (Harr _ _ Hb) as (ms & -> & Hms & Har); [lia|].
  unfold MailBox_Put, newMail. rewrite (proj2 (Z.leb_le _ _)) by lia. cbn [ASSERT mbind result_bind].
  change (Z.to_nat sizeof_Header) with 12%nat.
  assert (drop 12 (payload be m ++ tl) = mdata m ++ tl) as ->.
  { unfold payload. rewrite <- app_assoc, <- H12. by rewrite drop_app_length. }
  rewrite aslice_Ok; [|done|lia|rewrite length_app; lia]. cbn [mbind result_bind Z.to_nat].
  rewrite drop_0, <- Hdata, Nat2Z.id, take_app_length. cbn [mbind result_bind].
  assert (mkMail (mpkt m) (mhdr m) (mdata m) = m) as -> by (by destruct m).
  rewrite box_append, aset_Ok by lia. cbn [mbind result_bind].
  eexists. split; [done|]. split; try done;
    cbn [set_boxes set_poBuffer set_network network inbox poBuffer boxes inHdr set_inHdr buffered
         messageAvailable add_counts ident netAddr sendBusy numBoxes chanceToWork].
  - by rewrite length_insert.
  - split; [done|]. unfold tl. rewrite length_app, length_drop.
    unfold sizeof_Header, MaxMailSize, sizeof_Header in *. lia.
  - split; [done|]. by rewrite Hav1.
  - intros box b' Hb' Hbox0. rewrite list_lookup_insert in Hb'. case_decide as Hd.
    + destruct Hd as [Heq _]. injection Hb' as <-. assert (box = mailTo (mhdr m)) as -> by lia.
      exists (ms ++ [m]). split; [done|]. split; [apply Forall_app; auto|].
      rewrite for_box_app in Har. unfold for_box at 1 in Har. rewrite filter_cons, decide_True in Har by done.
      cbn [app]. rewrite <- !app_assoc in *. exact Har.
    + destruct (Harr _ _ Hb' Hbox0) as (ms' & -> & Hms' & Har'). exists ms'. split; [done|]. split; [done|].
      rewrite for_box_app in Har'. unfold for_box at 1 in Har'. rewrite filter_cons, decide_False in Har'.
      * exact Har'.
      * intros Heq. apply Hd. rewrite Heq. split; [done|]. lia.
Qed.

Lemma Receive_ok s a po q sent got B W box b :
  offices s !! a = Some po → 0 <= box → boxes po !! Z.to_nat box = Some b → aIsEmpty b = false →
  ok a po q sent got B W →
  ∃ m po', PostOffice_Receive box a s = Ok (m, put_office s a po') ∧
    ok a po' q sent (λ x, if decide (x = box) then got x ++ [m] else got x) B W.
Proof.
  intros Ho Hbox Hb Hne Hok. unfold PostOffice_Receive. rewrite (office_Ok _ _ _ Ho).
  cbn [mbind result_bind]. destruct Hok as [Hid Hint (Hnb & Hbl) Hbufs Hch Hwire Hbuf Harr].
  pose proof (lookup_lt_Some _ _ _ Hb) as Hlt.
  rewrite Hnb, (proj2 (Z.leb_le _ _)), (proj2 (Z.ltb_lt _ _)) by lia. cbn [andb ASSERT mbind result_bind].
  assert (aget (boxes po) box = Ok b) as -> by (by apply aget_Ok). cbn [mbind result_bind].
  destruct (Harr _ _ Hb Hbox) as (ms & -> & Hms & Har). destruct ms as [|m ms]; [done|].
  unfold MailBox_Get, SynchList_Remove. rewrite Hne, box_remove. cbn [mbind result_bind].
  apply Forall_cons in Hms as [Hm Hms]. rewrite (proj2 (Z.leb_le _ _)) by apply Hm.
  cbn [ASSERT mbind result_bind]. rewrite aset_Ok by lia. cbn [mbind result_bind].
  eexists m, _. split; [done|]. split; try done.
  - cbn [set_boxes boxes numBoxes]. by rewrite length_insert.
  - intros x b' Hb' Hx. cbn [set_boxes boxes] in Hb'. rewrite list_lookup_insert in Hb'. case_decide as Hd.
    + destruct Hd as [Heq _]. injection Hb' as <-. assert (x = box) as -> by lia. exists ms.
      split; [done|]. split; [done|]. rewrite decide_True by done. by rewrite <- app_assoc.
    + destruct (Harr _ _ Hb' Hx) as (ms' & -> & Hms' & Har'). exists ms'.
      rewrite decide_False; [done|]. intros ->. apply Hd. lia.
Qed.

End Routines.

(** ** A message sent *)

(** The message of [Send] at machine [a] *)
Definition posted (a : Z) (pktH : PacketHeader) (mailH : MailHeader) (data : list Z) : Mail :=
  mkMail (mkPkt (pktTo pktH) a (mailLength mailH + sizeof_Header)) mailH
    (take (Z.to_nat (mailLength mailH)) data).

Section Sending.
Variables (be : bool) (Random junk : nat → Z) (nb : Z) (lossless : bool).

Lemma length_fresh n : 0 <= n → Z.of_nat (length (fresh_bytes junk n)) = n.
Proof. intros. unfold fresh_bytes. rewrite length_fmap, length_seq. lia. Qed.

(** A header and data put in a buffer *)
Lemma pack {B} (buf hdr data : list Z) (k : list Z → result B) :
  length hdr = 12%nat → (12 + length data <= length buf)%nat →
  (b ← asplice buf 0 hdr; b' ← asplice b sizeof_Header data; k b') =
    k (hdr ++ data ++ drop (12 + length data) buf).
Proof.
  intros Hh Hl. rewrite asplice_0 by lia. cbn [mbind result_bind].
  rewrite asplice_Ok; [|done|rewrite length_app, length_drop; unfold sizeof_Header; lia].
  change (Z.to_nat sizeof_Header) with 12%nat. rewrite <- Hh at 1. rewrite take_app_length.
  cbn [mbind result_bind]. do 3 f_equal. rewrite drop_app, drop_ge by lia. rewrite app_nil_l, drop_drop. f_equal. lia.
Qed.

(** With a likelihood of 1 no packet is lost, as [Random() % 100] is below 100. *)
Lemma never_lost r : lost (double 1) r = false.
Proof.
  unfold lost. pose proof (Z.rem_bound_abs r 100 ltac:(lia)) as Hb. set (k := Z.rem r 100) in *.
  set (f := λ i, negb (SFleb (SFmul 53 1024 (double 1) (double 100)) (double (Z.of_nat i - 99)))).
  assert (forallb f (seq 0 199) = true) as Hall by (vm_compute; reflexivity).
  rewrite List.forallb_forall in Hall. specialize (Hall (Z.to_nat (k + 99))).
  unfold f in Hall. replace (Z.of_nat (Z.to_nat (k + 99)) - 99) with k in Hall by lia.
  apply negb_true_iff, Hall, List.in_seq. lia.
Qed.

Lemma Network_Send_ok s a po m buf b q :
  offices s !! a = Some po → sendBusy (network po) = false → ident (network po) = a →
  (lossless = true → chanceToWork (network po) = double 1) →
  legal nb b m → pktFrom (mpkt m) = a → wire s !! b = Some q →
  (∃ rest, buf = payload be m ++ rest) →
  ∃ w, Network_Send be Random junk (mpkt m) buf a s =
      Ok (mkNet (<[a := add_counts po 0 0 1 0 0]> (offices s)) w (S (drawn s))) ∧
    ((lossless = false ∧ w = wire s) ∨ ∃ d, carries be d m ∧ w = <[b := q ++ [d]]> (wire s)).
Proof.
  intros Ho Hsb Hid Hch Hm Hfrom Hw [rest ->]. unfold Network_Send. rewrite (office_Ok _ _ _ Ho).
  cbn [mbind result_bind]. pose proof (length_payload be nb _ _ Hm) as Hlp.
  destruct Hm as [Hto _ _ Hlen Hml _ _ _].
  unfold sizeof_Header, MaxMailSize, MaxPacketSize, sizeof_Header in *.
  rewrite Hsb, Hfrom, Hid, Z.eqb_refl, (proj2 (Z.ltb_lt _ _)), (proj2 (Z.leb_le _ _))
    by (unfold MaxPacketSize, sizeof_Header; lia).
  cbn [negb andb ASSERT mbind result_bind drawn put_office offices wire].
  destruct (lost _ _) eqn:Hlost.
  - eexists. split; [done|]. left. split; [|done]. destruct lossless; [|done].
    rewrite Hch, never_lost in Hlost; done.
  - rewrite aslice_Ok by (rewrite ?length_app; lia). cbn [mbind result_bind].
    rewrite drop_0, <- Hlp, Nat2Z.id, take_app_length.
    set (fr := fresh_bytes junk MaxWireSize).
    assert (length fr = 64%nat) as Hfr.
    { pose proof (length_fresh 64 ltac:(lia)). unfold fr, MaxWireSize in *. lia. }
    unfold MaxWireSize in *.
    assert (length (pkt_bytes be (mpkt m)) = 12%nat) as H12 by apply length_header.
    rewrite pack by lia.
    unfold SendToSocket. rewrite Hto, Hw. cbn [mbind result_bind]. eexists. split; [done|]. right.
    eexists. split; [|done]. eexists. split; [done|]. rewrite !length_app, length_drop, H12, Hfr.
    unfold MaxWireSize. lia.
Qed.

Lemma PostOffice_Send_ok s a po pktH mailH data qa sent got B W b q :
  offices s !! a = Some po → office_ok be nb lossless a po qa sent got B W →
  legal nb b (posted a pktH mailH data) → wire s !! b = Some q →
  ∃ w, PostOffice_Send be Random junk pktH mailH data a s =
      Ok (mkNet (<[a := add_counts po 0 0 1 0 0]> (offices s)) w (S (drawn s))) ∧
    ((lossless = false ∧ w = wire s) ∨
     ∃ d, carries be d (posted a pktH mailH data) ∧ w = <[b := q ++ [d]]> (wire s)).
Proof.
  intros Ho [(Hid & Hna & Hsb) _ (Hnb & _) _ Hch _ _ _] Hm Hw. unfold PostOffice_Send.
  rewrite (office_Ok _ _ _ Ho). cbn [mbind result_bind].
  pose proof Hm as [_ _ _ _ Hml Hdata Hbox _]. cbn [posted mhdr mdata] in Hml, Hdata, Hbox.
  rewrite length_take in Hdata. rewrite Hnb, !(proj2 (Z.leb_le _ _)), (proj2 (Z.ltb_lt _ _)) by lia.
  cbn [andb ASSERT mbind result_bind]. rewrite aslice_Ok by lia. cbn [mbind result_bind].
  unfold sizeof_Header, MaxMailSize, MaxPacketSize, MaxWireSize, sizeof_Header in Hml.
  rewrite Hna, u32_id by (unfold uint32, sizeof_Header; lia). rewrite drop_0.
  rewrite pack; [|apply length_header|].
  2: { pose proof (length_fresh MaxPacketSize ltac:(done)).
       unfold MaxPacketSize, MaxWireSize, sizeof_Header in *. rewrite length_take. lia. }
  apply (Network_Send_ok s a po (posted a pktH mailH data)); try done.
  eexists. unfold payload. by rewrite <- app_assoc.
Qed.

(** The destination gets the datagram, or it is lost. *)
Lemma office_arrival a po q sent got B W d m :
  office_ok be nb lossless a po q sent got B W → legal nb a m → carries be d m →
  office_ok be nb lossless a po (q ++ [d]) (sent ++ [m]) got B (W ++ [m]).
Proof.
  intros [] Hm Hd. destruct oo_wire0 as [Hw Hl]. split; try done.
  - split; [by apply Forall2_app; [|constructor]|by apply Forall_app; auto].
  - intros box b Hb Hbox. destruct (oo_arrives0 _ _ Hb Hbox) as (ms & -> & Hms & Har). exists ms.
    split; [done|]. split; [done|]. apply (arrives_more _ _ _ (for_box box [m])) in Har.
    rewrite <- !app_assoc, <- !for_box_app, <- app_assoc in Har. exact Har.
Qed.

Lemma office_loss a po q sent got B W m :
  lossless = false → office_ok be nb lossless a po q sent got B W →
  office_ok be nb lossless a po q (sent ++ [m]) got B W.
Proof.
  intros Hloss []. split; try done. intros box b Hb Hbox.
  destruct (oo_arrives0 _ _ Hb Hbox) as (ms & -> & Hms & Har). exists ms. split; [done|]. split; [done|].
  rewrite (for_box_app _ sent). rewrite Hloss in *. by apply arrives_lost.
Qed.

End Sending.

(** ** All machines *)

#[export] Instance spec_float_eq_dec : EqDecision spec_float.
Proof. solve_decision. Defined.

(** What a run has sent, and received as (machine, box, message) *)
Definition sent_by (e : event) : list Mail :=
  match e with ESend a pktH mailH data => [posted a pktH mailH data] | _ => [] end.

Definition received_by (e : event) (m : option Mail) : list (Z * Z * Mail) :=
  match e, m with EReceive a box, Some m => [(a, box, m)] | _, _ => [] end.

Definition sent_to (a : Z) (sent : list Mail) : list Mail := filter (λ m, pktTo (mpkt m) = a) sent.

Definition received_at (a box : Z) (log : list (Z * Z * Mail)) : list Mail :=
  (filter (λ x, x.1 = (a, box)) log).*2.

(** A call of [Send] within the contract: to a machine there is, a box there is,
    with as much data as the header says. *)
Definition proper (nb : Z) (e : event) (s : Net) : bool :=
  match e with
  | ESend _ pktH mailH data =>
      bool_decide (is_Some (offices s !! pktTo pktH)) &&
      (0 <=? mailTo mailH) && (mailTo mailH <? nb) &&
      (0 <=? mailLength mailH) && (mailLength mailH <=? MaxMailSize) &&
      (mailLength mailH <=? Z.of_nat (length data)) &&
      bool_decide (int32 (mailFrom mailH))
  | _ => true
  end.

(** Machines that have just started *)
Definition newNet (junk : nat → Z) (addrs : list Z) (reliability : spec_float) (nb : Z) : Net :=
  mkNet (list_to_map ((λ a, (a, newPostOffice junk a reliability nb)) <$> addrs))
    (list_to_map ((λ a, (a, [])) <$> addrs)) 0.

Section All.
Variables (be : bool) (Random junk : nat → Z) (addrs : list Z) (reliability : spec_float) (nb : Z).

(** States that the machines get to, with what was sent and received *)
Inductive reach : Net → list Mail → list (Z * Z * Mail) → Prop :=
| reach_start : reach (newNet junk addrs reliability nb) [] []
| reach_event s sent log e m s' :
    reach s sent log → can_happen e s = true → proper nb e s = true →
    happen be Random junk e s = Ok (m, s') →
    reach s' (sent ++ sent_by e) (log ++ received_by e m).

Hypothesis addrs_int : Forall int32 addrs.
Hypothesis boxes_int : 0 <= nb ∧ int32 nb.

Definition lossless : bool := bool_decide (clamp reliability = double 1).

Record net_ok (s : Net) (sent : list Mail) (log : list (Z * Z * Mail)) : Prop := {
  no_wire : ∀ a, is_Some (wire s !! a) ↔ is_Some (offices s !! a);
  no_office : ∀ a po q, offices s !! a = Some po → wire s !! a = Some q → ∃ B W,
    office_ok be nb lossless a po q (sent_to a sent) (λ box, received_at a box log) B W }.

Lemma net_office s sent log a : net_ok s sent log → is_Some (offices s !! a) →
  ∃ po q B W, offices s !! a = Some po ∧ wire s !! a = Some q ∧
    office_ok be nb lossless a po q (sent_to a sent) (λ box, received_at a box log) B W.
Proof.
  intros [Hw Ho] [po Hpo]. destruct (proj2 (Hw a)) as [q Hq]; [by eexists|].
  destruct (Ho _ _ _ Hpo Hq) as (B & W & Hok). by exists po, q, B, W.
Qed.

(** A step of one machine *)
Lemma net_put s sent log log' a po q q' :
  net_ok s sent log → is_Some (offices s !! a) → wire s !! a = Some q →
  (∀ a', a' ≠ a → ∀ box, received_at a' box log' = received_at a' box log) →
  (∃ B W, office_ok be nb lossless a po q' (sent_to a sent) (λ box, received_at a box log') B W) →
  net_ok (mkNet (<[a := po]> (offices s)) (<[a := q']> (wire s)) (drawn s)) sent log'.
Proof.
  intros [Hw Ho] Hpo Hq Hlog Hok. split; cbn [offices wire].
  - intros a'. destruct (decide (a' = a)) as [->|]; simplify_map_eq; [split; by eexists|].
    apply Hw.
  - intros a' po' q''. destruct (decide (a' = a)) as [->|Hne].
    + rewrite !lookup_insert_eq. by intros [= <-] [= <-].
    + rewrite !lookup_insert_ne by done. intros Hpo' Hq''.
      destruct (Ho _ _ _ Hpo' Hq'') as (B & W & []). exists B, W. split; try done.
      intros box b Hb Hbox. rewrite Hlog by done. by apply oo_arrives0.
Qed.

(** The machine goes on with its queue as it is. *)
Lemma net_put_office s sent log log' a po q :
  net_ok s sent log → is_Some (offices s !! a) → wire s !! a = Some q →
  (∀ a', a' ≠ a → ∀ box, received_at a' box log' = received_at a' box log) →
  (∃ B W, office_ok be nb lossless a po q (sent_to a sent) (λ box, received_at a box log') B W) →
  net_ok (put_office s a po) sent log'.
Proof.
  intros Hok Hpo Hq Hlog Hex. unfold put_office. rewrite <- (insert_id (wire s) a q Hq).
  by eapply net_put.
Qed.

Lemma sent_to_app a l l' : sent_to a (l ++ l') = sent_to a l ++ sent_to a l'.
Proof. apply filter_app. Qed.

Lemma received_at_app a box l l' : received_at a box (l ++ l') = received_at a box l ++ received_at a box l'.
Proof. unfold received_at. by rewrite filter_app, fmap_app. Qed.

Lemma received_at_one a box m a' box' :
  received_at a box [(a', box', m)] = if decide ((a', box') = (a, box)) then [m] else [].
Proof. unfold received_at. rewrite filter_cons. cbn [fst]. by case_decide. Qed.

(** The message of a proper call *)
Lemma posted_legal s a pktH mailH data :
  int32 a → int32 (pktTo pktH) → proper nb (ESend a pktH mailH data) s = true →
  legal nb (pktTo pktH) (posted a pktH mailH data).
Proof.
  intros Ha Hto Hp. cbn [proper] in Hp. rewrite !andb_true_iff, !bool_decide_eq_true in Hp.
  destruct Hp as ((((((_ & H1) & H2) & H3) & H4) & H5) & H6). split; cbn [posted mpkt mhdr mdata pktTo pktFrom pktLength];
    try done; rewrite ?length_take; try lia. split; [|done]. destruct boxes_int as [_ Hi]. unfold int32 in *. lia.
Qed.

Lemma net_send s sent log a pktH mailH data :
  net_ok s sent log → is_Some (offices s !! a) → proper nb (ESend a pktH mailH data) s = true →
  ∃ s', PostOffice_Send be Random junk pktH mailH data a s = Ok s' ∧
    net_ok s' (sent ++ [posted a pktH mailH data]) log.
Proof.
  intros Hok Ha Hp. set (m := posted a pktH mailH data). set (b := pktTo pktH).
  assert (is_Some (offices s !! b)) as Hb.
  { cbn [proper] in Hp. rewrite !andb_true_iff, !bool_decide_eq_true in Hp. apply Hp. }
  destruct (net_office _ _ _ _ Hok Ha) as (po & q & B & W & Hpo & Hq & Hoa).
  destruct (net_office _ _ _ _ Hok Hb) as (pb & qb & Bb & Wb & Hpb & Hqb & Hob).
  assert (legal nb b m) as Hm by (apply (posted_legal s); [apply Hoa|apply Hob|done]).
  destruct (PostOffice_Send_ok be Random junk nb lossless s a po pktH mailH data _ _ _ _ _ b qb Hpo Hoa Hm Hqb)
    as (w & -> & Hw). eexists. split; [done|].
  assert (∀ x, sent_to x (sent ++ [m]) = sent_to x sent ++ if decide (b = x) then [m] else []) as Hst.
  { intros x. by rewrite sent_to_app. }
  split; cbn [offices wire].
  - intros x. assert (is_Some (w !! x) ↔ is_Some (wire s !! x)) as ->.
    { destruct Hw as [[_ ->]|(d & _ & ->)]; [done|]. destruct (decide (x = b)) as [->|]; simplify_map_eq; [|done].
      split; by eexists. }
    rewrite (no_wire _ _ _ Hok). destruct (decide (x = a)) as [->|]; simplify_map_eq; [|done].
    split; by eexists.
  - intros x px qx Hpx Hqx.
    assert (∃ qx' B' W', wire s !! x = Some qx' ∧ office_ok be nb lossless x px qx' (sent_to x sent)
              (λ box, received_at x box log) B' W') as (qx' & B' & W' & Hqx' & Hx).
    { destruct (decide (x = a)) as [->|].
      - rewrite lookup_insert_eq in Hpx. injection Hpx as <-. exists q, B, W. split; [done|].
        by apply office_counts.
      - rewrite lookup_insert_ne in Hpx by done.
        destruct (net_office _ _ _ x Hok) as (? & q' & B' & W' & ? & ? & ?); [by eexists|].
        exists q', B', W'. simplify_eq. done. }
    rewrite Hst. destruct Hw as [[Hl ->]|(d & Hd & ->)].
    + simplify_eq. exists B', W'. case_decide; [by apply office_loss|by rewrite app_nil_r].
    + case_decide as Hd'.
      * subst x. rewrite lookup_insert_eq in Hqx. simplify_eq. exists B', (W' ++ [m]). by apply office_arrival.
      * rewrite lookup_insert_ne in Hqx by done. simplify_eq. exists B', W'. by rewrite app_nil_r.
Qed.

Lemma net_step s sent log e :
  net_ok s sent log → can_happen e s = true → proper nb e s = true →
  ∃ m s', happen be Random junk e s = Ok (m, s') ∧
    net_ok s' (sent ++ sent_by e) (log ++ received_by e m).
Proof.
  intros Hok Hcan Hp. destruct e as [a pktH mailH data|a|a|a|a|a box]; cbn [happen sent_by];
    [cbn [can_happen] in Hcan; rewrite bool_decide_eq_true in Hcan| | | | |];
    (assert (is_Some (offices s !! a)) as Ha
      by (cbn [can_happen] in Hcan; rewrite ?bool_decide_eq_true in Hcan; by destruct (offices s !! a)));
    destruct (net_office _ _ _ _ Hok Ha) as (po & q & B & W & Hpo & Hq & Hoa).
  - destruct (net_send _ _ _ _ _ _ _ Hok Ha Hp) as (s' & -> & Hs'). cbn [mbind result_bind].
    exists None, s'. cbn [received_by]. by rewrite app_nil_r.
  - destruct (CheckPktAvail_ok be nb lossless s a po q _ _ B W Hpo Hq Hoa) as (po' & q' & B' & W' & -> & Ho').
    cbn [mbind result_bind received_by]. eexists None, _. rewrite !app_nil_r. split; [done|].
    eapply net_put; eauto.
  - destruct (SendDone_ok be nb lossless s a po q _ _ B W Hpo Hoa) as (po' & -> & Ho').
    cbn [mbind result_bind received_by]. eexists None, _. rewrite !app_nil_r. split; [done|].
    eapply net_put_office; eauto.
  - rewrite (office_Ok _ _ _ Hpo). cbn [mbind result_bind received_by].
    eexists None, _. rewrite !app_nil_r. split; [done|].
    eapply net_put_office; eauto. exists B, W. by apply office_counts.
  - cbn [can_happen] in Hcan. rewrite Hpo in Hcan. apply Z.ltb_lt in Hcan.
    destruct (PostalDelivery_ok be nb lossless s a po q _ _ B W Hpo Hcan Hoa) as (po' & -> & Ho').
    cbn [mbind result_bind received_by]. eexists None, _. rewrite !app_nil_r. split; [done|].
    eapply net_put_office; eauto.
  - cbn [can_happen] in Hcan. rewrite Hpo in Hcan. destruct (boxes po !! Z.to_nat box) as [b|] eqn:Hb; [|done].
    apply andb_true_iff in Hcan as [Hbox%Z.leb_le Hne%negb_true_iff].
    destruct (Receive_ok be nb lossless s a po q _ _ B W box b Hpo Hbox Hb Hne Hoa) as (m & po' & -> & Ho').
    cbn [mbind result_bind received_by]. eexists (Some m), _. split; [done|]. rewrite app_nil_r.
    eapply net_put_office; eauto.
    + intros a' Hne' x. rewrite received_at_app, received_at_one, decide_False by congruence. by rewrite app_nil_r.
    + exists B, W. destruct Ho'. split; try done. intros x b' Hb' Hx.
      destruct (oo_arrives0 _ _ Hb' Hx) as (ms & -> & Hms & Har). exists ms. split; [done|]. split; [done|].
      rewrite received_at_app, received_at_one. destruct (decide (x = box)) as [->|]; [by rewrite decide_True|].
      rewrite decide_False by congruence. by rewrite app_nil_r.
Qed.

Lemma lookup_tabulate {A} (f : Z → A) l a :
  (list_to_map ((λ a, (a, f a)) <$> l) : gmap Z A) !! a = if decide (a ∈ l) then Some (f a) else None.
Proof.
  induction l as [|x l IH]; cbn [fmap list_fmap list_to_map foldr fst snd uncurry].
  - by rewrite decide_False by apply not_elem_of_nil.
  - destruct (decide (a = x)) as [->|Hne].
    + rewrite lookup_insert_eq, decide_True by constructor. done.
    + rewrite lookup_insert_ne, IH by done. apply decide_ext. rewrite elem_of_cons. naive_solver.
Qed.

Lemma net_start : net_ok (newNet junk addrs reliability nb) [] [].
Proof.
  split; cbn [newNet offices wire].
  - intros a. rewrite !lookup_tabulate. case_decide; split; intros [? ?]; by eauto.
  - intros a po q. rewrite !lookup_tabulate. case_decide as Ha'; [|done]. intros [= <-] [= <-].
    exists [], []. rewrite Forall_forall in addrs_int.
    split; cbn [newPostOffice newNetwork network ident netAddr sendBusy numBoxes boxes inbox poBuffer chanceToWork];
      try done; auto.
    + rewrite length_replicate. split; [done|]. lia.
    + unfold lossless. by rewrite bool_decide_eq_true.
    + intros box b Hb Hbox. apply lookup_replicate in Hb as [-> _]. exists []. split; [done|]. split; [done|].
      unfold arrives. destruct lossless; done.
Qed.

Lemma reach_ok s sent log : reach s sent log → net_ok s sent log.
Proof.
  induction 1 as [|s sent log e m s' _ IH Hcan Hp Hh]; [by apply net_start|].
  destruct (net_step _ _ _ _ IH Hcan Hp) as (m' & s'' & Hh' & Hok). rewrite Hh in Hh'. by injection Hh' as -> ->.
Qed.

End All.

(** Nothing for box [box] of machine [a] is on its way or waiting. *)
Definition settled (a box : Z) (s : Net) : bool :=
  match offices s !! a, wire s !! a with
  | Some po, Some [] =>
      (messageAvailable po =? 0) &&
      match boxes po !! Z.to_nat box with Some b => aIsEmpty b | None => false end
  | _, _ => false
  end.

(** What has been received from a box, of what was sent to it *)
Lemma net_mail be reliability nb s sent log a box :
  net_ok be reliability nb s sent log → is_Some (offices s !! a) → 0 <= box < nb →
  received_at a box log `sublist_of` for_box box (sent_to a sent) ∧
  (clamp reliability = double 1 →
     received_at a box log `prefix_of` for_box box (sent_to a sent) ∧
     (settled a box s = true → received_at a box log = for_box box (sent_to a sent))).
Proof.
  intros Hok Ha Hbox. destruct (net_office _ _ _ _ _ _ _ Hok Ha) as (po & q & B & W & Hpo & Hq & Hoa).
  destruct Hoa as [_ _ [_ Hbl] _ _ [Hwire _] Hbuf Harr].
  destruct (lookup_lt_is_Some_2 (boxes po) (Z.to_nat box)) as [b Hb]; [lia|].
  destruct (Harr _ _ Hb ltac:(lia)) as (ms & -> & _ & Har). unfold lossless, arrives in Har. split; [|intros Hrel; split].
  - case_bool_decide; [rewrite <- Har; by apply sublist_inserts_r|].
    etrans; [|exact Har]. by apply sublist_inserts_r.
  - rewrite bool_decide_true in Har by done. by eexists.
  - rewrite bool_decide_true in Har by done. unfold settled. rewrite Hpo, Hq, Hb.
    destruct q; [|done]. intros [Hz He]%andb_true_iff. apply Z.eqb_eq in Hz.
    assert (ms = []) as -> by (by destruct ms). apply Forall2_nil_inv_l in Hwire as ->.
    destruct B as [|m [|]]; [|cbn [buffered] in Hbuf; lia|done]. by rewrite <- Har, app_nil_r.
Qed.

(** C40.  Mail between any machines with addresses [addrs] and [nb] mailboxes
    each, in every order in which their calls of [Send] and [Receive], the
    interrupts of their network devices and their postal workers can go.  As long
    as calls of [Send] address a machine and a box that there are, with at most
    [MaxMailSize] bytes, and calls of [Receive] find a message in the box, nothing
    fails: no ASSERT of the network, the post office or the sockets, no copy out
    of bounds.  What is received from a box is what
    was sent to it, headers and data intact, in the order sent over all senders,
    each message at most once, with messages missing only if the network loses
    packets.  With a reliability of at least 1 it is a prefix of what was sent to
    the box, and all of it once nothing is on its way. *)
Theorem mail_in_order be Random junk addrs reliability nb s sent log :
  Forall int32 addrs → 0 <= nb ∧ int32 nb →
  reach be Random junk addrs reliability nb s sent log →
  (∀ e, can_happen e s = true → proper nb e s = true →
     ∃ m s', happen be Random junk e s = Ok (m, s')) ∧
  (∀ a box, is_Some (offices s !! a) → 0 <= box < nb →
     received_at a box log `sublist_of` for_box box (sent_to a sent) ∧
     (clamp reliability = double 1 →
        received_at a box log `prefix_of` for_box box (sent_to a sent) ∧
        (settled a box s = true → received_at a box log = for_box box (sent_to a sent)))).
Proof.
  intros Haddrs Hnb Hreach. apply reach_ok in Hreach as Hok; [|done|done]. split.
  - intros e Hcan Hp. destruct (net_step be Random junk reliability nb Hnb _ _ _ e Hok Hcan Hp) as (m & s' & ? & _).
    by exists m, s'.
  - intros a box Ha Hbox. by apply (net_mail be reliability nb s).
Qed.

(** ** Two machines *)

(** A run of given events *)
Fixpoint run be Random junk nb (es : list event) (s : Net) (sent : list Mail) (log : list (Z * Z * Mail))
  : option (Net * list Mail * list (Z * Z * Mail)) :=
  match es with
  | [] => Some (s, sent, log)
  | e :: es =>
      if can_happen e s && proper nb e s then
        match happen be Random junk e s with
        | Ok (m, s) => run be Random junk nb es s (sent ++ sent_by e) (log ++ received_by e m)
        | _ => None
        end
      else None
  end.

Lemma run_reach be Random junk addrs reliability nb es s sent log s' sent' log' :
  reach be Random junk addrs reliability nb s sent log →
  run be Random junk nb es s sent log = Some (s', sent', log') →
  reach be Random junk addrs reliability nb s' sent' log'.
Proof.
  revert s sent log. induction es as [|e es IH]; intros s sent log Hr; cbn [run]; [by intros [= <- <- <-]|].
  destruct (can_happen e s && _) eqn:Hc; [|done]. apply andb_true_iff in Hc as [Hcan Hp].
  destruct (happen _ _ _ _ _) as [[m s1]| | | |] eqn:Hh; [|done..]. apply IH. by eapply reach_event.
Qed.

(** [MailTest] at machine 0: a message to box 0 of machine 1, answered to box 1. *)
Definition hello : list Z := [72; 101; 108; 108; 111; 0].
Definition got_it : list Z := [71; 111; 116; 32; 105; 116; 33; 0].
Definition exchange : list event :=
  [ESend 0 (mkPkt 1 0 0) (mkMailHdr 0 1 6) hello; EPoll 0; EPoll 1; ESendDone 0; EDelivery 1; EProceed 0;
   EReceive 1 0; ESend 1 (mkPkt 0 0 0) (mkMailHdr 1 1 8) got_it; EPoll 0; EDelivery 0; EReceive 0 1].

Lemma mail_in_order_witness :
  ∃ s sent log,
    run false (λ _, 57) (λ _, 0) 10 exchange (newNet (λ _, 0) [0; 1] (double 1) 10) [] [] = Some (s, sent, log) ∧
    mdata <$> received_at 1 0 log = [hello] ∧ mdata <$> received_at 0 1 log = [got_it] ∧
    received_at 0 1 log = for_box 1 (sent_to 0 sent) ∧
    ∃ m s', happen false (λ _, 57) (λ _, 0) (ESendDone 1) s = Ok (m, s').
Proof.
  destruct (run false (λ _, 57) (λ _, 0) 10 exchange (newNet (λ _, 0) [0; 1] (double 1) 10) [] [])
    as [[[s sent] log]|] eqn:Hrun; [|vm_compute in Hrun; discriminate].
  exists s, sent, log. split; [reflexivity|].
  assert (Hr : reach false (λ _, 57) (λ _, 0) [0; 1] (double 1) 10 s sent log).
  { eapply run_reach; [apply reach_start|exact Hrun]. }
  assert (Heval : (mdata <$> received_at 1 0 log, mdata <$> received_at 0 1 log, settled 0 1 s,
                   can_happen (ESendDone 1) s, bool_decide (is_Some (offices s !! 0))) = ([hello], [got_it], true, true, true)).
  { vm_compute in Hrun. injection Hrun as <- <- <-. vm_compute. reflexivity. }
  injection Heval as -> -> Hset Hcan Hex. apply bool_decide_eq_true in Hex.
  assert (H01 : Forall int32 [0; 1]) by (repeat constructor; done).
  assert (H10 : 0 <= 10 ∧ int32 10) by (unfold int32; lia).
  destruct (mail_in_order false (λ _, 57) (λ _, 0) [0; 1] (double 1) 10 s sent log H01 H10 Hr) as [Hsafe Hmail].
  split; [reflexivity|]. split; [reflexivity|]. split; [|by apply Hsafe].
  destruct (Hmail 0 1 Hex ltac:(lia)) as (_ & Hpre). apply Hpre; [reflexivity|exact Hset].
Defined.
