(* ===== verification/Sockets.v ===== *)
(** * machine/sysdep.cc: the sockets of the network

    The network device of a machine is a UNIX datagram socket with a name in the
    current directory.  Network.v has the sockets of all machines as one map from
    addresses to queues, its [wire]; here are the routines of sysdep.cc over the
    sockets of UNIX, as the constructor and destructor of [Network], [Send] and
    [CheckPktAvail] call them, and why the map is right. *)

From S2P Require Import Prelude Params LList Machine Network.
Local Open Scope Z_scope.

(** ** UNIX *)

(** Names of sockets, open sockets with the datagrams that wait there, and the
    descriptors of the processes.  A process is known by the address of its
    machine.  Queues do not fill up. *)
Record Unix := mkUnix {
  names : gmap (list Z) Z;
  queues : gmap Z (list (list Z));
  descs : gmap (Z * Z) Z;
  nextSocket : Z }.

Section Sockets.

(** [socket] returns a descriptor that the process does not use. *)
Variable newfd : Unix → Z → Z.

Definition unlink (name : list Z) (u : Unix) : Unix :=
  mkUnix (delete name (names u)) (queues u) (descs u) (nextSocket u).

Definition bind (pid fd : Z) (name : list Z) (u : Unix) : Z * Unix :=
  match descs u !! (pid, fd), names u !! name with
  | Some k, None => (0, mkUnix (<[name := k]> (names u)) (queues u) (descs u) (nextSocket u))
  | _, _ => (-1, u)
  end.

Definition sendto (pid fd : Z) (d : list Z) (name : list Z) (u : Unix) : Z * Unix :=
  match descs u !! (pid, fd), names u !! name with
  | Some _, Some k =>
      match queues u !! k with
      | Some q => (Z.of_nat (length d), mkUnix (names u) (<[k := q ++ [d]]> (queues u)) (descs u) (nextSocket u))
      | None => (-1, u)
      end
  | _, _ => (-1, u)
  end.

(** A datagram that is longer than the buffer is cut off; with no datagram there,
    [recvfrom] does not return. *)
Definition recvfrom (pid fd n : Z) (u : Unix) : result (Z * list Z * Unix) :=
  match descs u !! (pid, fd) with
  | None => Ok (-1, [], u)
  | Some k =>
      match queues u !! k with
      | Some (d :: q) =>
          let d := take (Z.to_nat n) d in
          Ok (Z.of_nat (length d), d, mkUnix (names u) (<[k := q]> (queues u)) (descs u) (nextSocket u))
      | _ => NoFuel
      end
  end.

Definition close (pid fd : Z) (u : Unix) : Unix :=
  match descs u !! (pid, fd) with
  | None => u
  | Some k => mkUnix (names u) (delete k (queues u)) (delete (pid, fd) (descs u)) (nextSocket u)
  end.

(** ** sysdep.cc *)

Definition OpenSocket (pid : Z) (u : Unix) : result (Z * Unix) :=
  let sockID := newfd u pid in
  ASSERT (sockID >=? 0);;
  Ok (sockID, mkUnix (names u) (<[nextSocket u := []]> (queues u)) (<[(pid, sockID) := nextSocket u]> (descs u))
                (nextSocket u + 1)).

Definition CloseSocket (pid sockID : Z) (u : Unix) : Unix := close pid sockID u.

(** [sun_path] has 108 characters. *)
Definition InitSocketName (name : list Z) : result (list Z) :=
  if Z.of_nat (length name) <? 108 then Ok name else Undefined.

Definition AssignNameToSocket (pid : Z) (socketName : list Z) (sockID : Z) (u : Unix) : result Unix :=
  let u := unlink socketName u in
  uName ← InitSocketName socketName;
  let (retVal, u) := bind pid sockID uName u in
  ASSERT (retVal >=? 0);;
  Ok u.

Definition DeAssignNameToSocket (socketName : list Z) (u : Unix) : Unix := unlink socketName u.

(** [PollFile] of a socket; the descriptor is a bit of an [int]. *)
Definition PollSocket (pid sockID : Z) (u : Unix) : result bool :=
  if (0 <=? sockID) && (sockID <? 31) then
    match descs u !! (pid, sockID) with
    | None => AssertFail
    | Some k => Ok (match queues u !! k with Some (_ :: _) => true | _ => false end)
    end
  else Undefined.

Definition ReadFromSocket (pid sockID packetSize : Z) (u : Unix) : result (list Z * Unix) :=
  '(retVal, buffer, u) ← recvfrom pid sockID packetSize u;
  ASSERT (retVal =? packetSize);;
  Ok (buffer, u).

Definition SendToSocket_unix (pid sockID : Z) (buffer : list Z) (packetSize : Z) (toName : list Z) (u : Unix)
  : result Unix :=
  uName ← InitSocketName toName;
  d ← aslice buffer 0 packetSize;
  let (retVal, u) := sendto pid sockID d uName u in
  ASSERT (retVal =? packetSize);;
  Ok u.

(** ** network.cc *)

(** SOCKET_%d *)
Definition sockName (addr : Z) : list Z := [83; 79; 67; 75; 69; 84; 95] ++ decimal addr.

(** The sockets of the machines that are up *)
Record Hosts := mkHosts { unix : Unix; sock : gmap Z Z }.

(** What the constructor, [Send], [CheckPktAvail] with a free buffer and the
    destructor of [Network] do to the sockets *)
Inductive netop := OStart (a : Z) | OSend (a b : Z) (buffer : list Z) | OPoll (a : Z) | OStop (a : Z).

Definition host_op (o : netop) (h : Hosts) : result (option (list Z) * Hosts) :=
  match o with
  | OStart a =>
      '(fd, u) ← OpenSocket a (unix h);
      u ← AssignNameToSocket a (sockName a) fd u;
      Ok (None, mkHosts u (<[a := fd]> (sock h)))
  | OSend a b buffer =>
      match sock h !! a with
      | None => Undefined
      | Some fd => u ← SendToSocket_unix a fd buffer MaxWireSize (sockName b) (unix h); Ok (None, mkHosts u (sock h))
      end
  | OPoll a =>
      match sock h !! a with
      | None => Undefined
      | Some fd =>
          there ← PollSocket a fd (unix h);
          if (there : bool) then
            '(buffer, u) ← ReadFromSocket a fd MaxWireSize (unix h);
            Ok (Some buffer, mkHosts u (sock h))
          else Ok (None, h)
      end
  | OStop a =>
      match sock h !! a with
      | None => Undefined
      | Some fd =>
          Ok (None, mkHosts (DeAssignNameToSocket (sockName a) (CloseSocket a fd (unix h))) (delete a (sock h)))
      end
  end.
End Sockets.

(** ** The wire of Network.v *)

Definition wire_op (o : netop) (w : gmap Z (list (list Z))) : result (option (list Z) * gmap Z (list (list Z))) :=
  match o with
  | OStart a => Ok (None, <[a := []]> w)
  | OSend a b buffer => w ← SendToSocket buffer b w; Ok (None, w)
  | OPoll a =>
      match w !! a with
      | Some (d :: q) => Ok (Some d, <[a := q]> w)
      | _ => Ok (None, w)
      end
  | OStop a => Ok (None, delete a w)
  end.

(** Machines are started when they are not up and do things when they are, and
    send whole packets. *)
Definition op_ok (o : netop) (w : gmap Z (list (list Z))) : bool :=
  match o with
  | OStart a => bool_decide (int32 a) && bool_decide (w !! a = None)
  | OSend a b buffer =>
      bool_decide (is_Some (w !! a)) && bool_decide (int32 b) && (Z.of_nat (length buffer) =? MaxWireSize)
  | OPoll a | OStop a => bool_decide (is_Some (w !! a))
  end.

(** Runs of the machines on UNIX and on the wire: what the polls found *)
Fixpoint run_ops {S} (step : netop → S → result (option (list Z) * S)) (ops : list netop) (s : S)
  : result (list (option (list Z))) :=
  match ops with
  | [] => Ok []
  | o :: ops =>
      '(x, s) ← step o s;
      xs ← run_ops step ops s;
      Ok (x :: xs)
  end.

Fixpoint ops_ok (ops : list netop) (w : gmap Z (list (list Z))) : bool :=
  match ops with
  | [] => true
  | o :: ops => op_ok o w && match wire_op o w with Ok (_, w) => ops_ok ops w | _ => true end
  end.

(** ** Names of sockets *)

Lemma sockName_inj a b : int32 a → int32 b → sockName a = sockName b → a = b.
Proof.
  intros Ha Hb E. unfold sockName in E. apply app_inv_head in E. by apply decimal_inj.
Qed.

(** The array for the name has 32 characters, and the one in the address of a
    socket 108: both have room for any name and the zero after it. *)
Lemma length_sockName a : (length (sockName a) < 32)%nat.
Proof.
  unfold sockName. rewrite length_app. cbn [length]. pose proof (length_decimal a). lia.
Qed.

Lemma InitSocketName_Ok a : InitSocketName (sockName a) = Ok (sockName a).
Proof.
  unfold InitSocketName. pose proof (length_sockName a).
  by rewrite (proj2 (Z.ltb_lt _ 108)) by lia.
Qed.

(** ** The wire is right *)

(** A machine that is up has one socket, open and with its name, where the
    datagrams of the wire wait; a name of a machine that is not up may be left
    over, of a socket that is closed. *)
Record carries (h : Hosts) (w : gmap Z (list (list Z))) : Prop := {
  carries_up : ∀ a q, w !! a = Some q → int32 a ∧ Forall (λ d, Z.of_nat (length d) = MaxWireSize) q ∧
    ∃ fd k, sock h !! a = Some fd ∧ 0 <= fd < 31 ∧ descs (unix h) !! (a, fd) = Some k ∧
      names (unix h) !! sockName a = Some k ∧ queues (unix h) !! k = Some q;
  carries_down : ∀ a k, int32 a → w !! a = None → names (unix h) !! sockName a = Some k →
    queues (unix h) !! k = None;
  carries_sock : ∀ a, w !! a = None → sock h !! a = None;
  carries_descs : ∀ a fd k, descs (unix h) !! (a, fd) = Some k → sock h !! a = Some fd;
  carries_distinct : ∀ a b fd fd' k, descs (unix h) !! (a, fd) = Some k → descs (unix h) !! (b, fd') = Some k → a = b;
  carries_names : map_Forall (λ _ k, k < nextSocket (unix h)) (names (unix h));
  carries_old : map_Forall (λ _ k, k < nextSocket (unix h)) (descs (unix h));
  carries_queues : map_Forall (λ k _, k < nextSocket (unix h)) (queues (unix h)) }.

Section Refine.
Variable newfd : Unix → Z → Z.

(** The descriptor that a process gets for the first of its sockets fits in a
    mask of an [int]. *)
Hypothesis newfd_small : ∀ u pid, (∀ fd, descs u !! (pid, fd) = None) → 0 <= newfd u pid < 31.

Lemma carries_start h w a :
  carries h w → int32 a → w !! a = None →
  ∃ h', host_op newfd (OStart a) h = Ok (None, h') ∧ carries h' (<[a := []]> w).
Proof.
  intros [Hup Hdn Hsk Hds Hdi Hnm Hold Hq] Ha Hw.
  assert (Hnone : ∀ fd, descs (unix h) !! (a, fd) = None).
  { intros fd. destruct (descs _ !! _) eqn:E; [|done]. apply Hds in E. by rewrite Hsk in E. }
  pose proof (newfd_small _ a Hnone) as Hfd. set (fd := newfd (unix h) a) in *.
  unfold host_op, OpenSocket, AssignNameToSocket. fold fd.
  destruct (Z.geb_spec fd 0); [|lia]. cbn [ASSERT mbind result_bind]. rewrite InitSocketName_Ok.
  cbn [mbind result_bind]. unfold bind, unlink. cbn [descs names queues nextSocket].
  rewrite lookup_insert_eq, lookup_delete_eq. cbn. eexists. split; [done|].
  set (k := nextSocket (unix h)) in *.
  split; cbn [unix sock names queues descs nextSocket].
  - intros b q [[-> <-]|[Hab Hb]]%lookup_insert_Some.
    + split; [done|]. split; [constructor|]. exists fd, k. by rewrite !lookup_insert_eq.
    + destruct (Hup b q Hb) as (Hb32 & Hl & fd' & k' & ? & ? & Hd & Hn & Hqq). split; [done|]. split; [done|].
      exists fd', k'. rewrite !lookup_insert_ne; [rewrite lookup_delete_ne; [done|]|..]; try congruence.
      * intros E. by apply Hab, sockName_inj.
      * apply Hq in Hqq. lia.
      * intros E. by apply Hab, sockName_inj.
  - intros b j Hb [Hab Hbn]%lookup_insert_None [[E _]|[E [_ Hn]%lookup_delete_Some]]%lookup_insert_Some.
    + by destruct Hbn; apply sockName_inj.
    + rewrite lookup_insert_ne; [by eapply Hdn|]. apply Hnm in Hn. lia.
  - intros b [Hbn Hab]%lookup_insert_None. rewrite lookup_insert_ne by done. by apply Hsk.
  - intros b fd' j [[[= <- <-] _]|[Hne Hd]]%lookup_insert_Some; [by rewrite lookup_insert_eq|].
    rewrite lookup_insert_ne; [by eapply Hds|]. intros <-. by rewrite Hnone in Hd.
  - intros b c f g j [[[= <- <-] <-]|[_ H1]]%lookup_insert_Some [[[= <- <-] E]|[_ H2]]%lookup_insert_Some;
      [done|apply Hold in H2; lia|apply Hold in H1; lia|by eapply Hdi].
  - apply map_Forall_insert_2; [lia|]. intros i j [_ Hj]%lookup_delete_Some. apply Hnm in Hj. lia.
  - apply map_Forall_insert_2; [lia|]. intros i j Hj. apply Hold in Hj. lia.
  - apply map_Forall_insert_2; [lia|]. intros i j Hj. apply Hq in Hj. lia.
Qed.

(** A queue of the wire is the queue of one socket. *)
Lemma carries_queue h w a q q' k :
  carries h w → w !! a = Some q → names (unix h) !! sockName a = Some k →
  Forall (λ d, Z.of_nat (length d) = MaxWireSize) q' →
  carries (mkHosts (mkUnix (names (unix h)) (<[k := q']> (queues (unix h))) (descs (unix h)) (nextSocket (unix h)))
             (sock h)) (<[a := q']> w).
Proof.
  intros [Hup Hdn Hsk Hds Hdi Hnm Hold Hq] Hw Hn Hq'.
  destruct (Hup a q Hw) as (Ha & _ & fda & k' & Hsa & Hfa & Hda & Hna & Hqa).
  rewrite Hn in Hna. injection Hna as <-.
  split; cbn [unix sock names queues descs nextSocket]; try done.
  - intros b p [[-> <-]|[Hab Hb]]%lookup_insert_Some.
    + split; [done|]. split; [done|]. exists fda, k. by rewrite lookup_insert_eq.
    + destruct (Hup b p Hb) as (Hb32 & Hl & fd & j & ? & ? & Hd & Hnb & Hqb). split; [done|]. split; [done|].
      exists fd, j. rewrite lookup_insert_ne; [done|]. intros <-. by eapply Hab, Hdi.
  - intros b j Hb [Hbn Hab]%lookup_insert_None Hj. pose proof (Hdn b j Hb Hbn Hj) as Hqj.
    rewrite lookup_insert_ne; [done|]. intros <-. by rewrite Hqa in Hqj.
  - intros b [Hbn _]%lookup_insert_None. by apply Hsk.
  - apply map_Forall_insert_2; [|done]. by apply Hnm in Hn.
Qed.

Lemma carries_stop h w a :
  carries h w → is_Some (w !! a) →
  ∃ h', host_op newfd (OStop a) h = Ok (None, h') ∧ carries h' (delete a w).
Proof.
  intros [Hup Hdn Hsk Hds Hdi Hnm Hold Hq] [q Hw].
  destruct (Hup a q Hw) as (Ha & _ & fd & k & Hsa & Hfa & Hda & Hna & Hqa).
  cbn [host_op]. rewrite Hsa. eexists. split; [done|]. unfold CloseSocket, close. rewrite Hda.
  split; cbn [DeAssignNameToSocket unlink unix sock names queues descs nextSocket].
  - intros b p [Hab Hb]%lookup_delete_Some.
    destruct (Hup b p Hb) as (Hb32 & Hl & fd' & j & ? & ? & Hd & Hnb & Hqb). split; [done|]. split; [done|].
    exists fd', j. rewrite !lookup_delete_ne; [done|..]; try congruence.
    + intros <-. by eapply Hab, Hdi.
    + intros E. by apply Hab, sockName_inj.
  - intros b j Hb Hbn [Hne Hj]%lookup_delete_Some. apply lookup_delete_None in Hbn as [->|Hbn]; [done|].
    apply lookup_delete_None. right. by eapply Hdn.
  - intros b Hbn. apply lookup_delete_None. apply lookup_delete_None in Hbn as [->|]; auto.
  - intros b fd' j [Hne Hd]%lookup_delete_Some. pose proof (Hds _ _ _ Hd) as E.
    rewrite lookup_delete_ne; [done|]. intros <-. congruence.
  - intros b c f g j [_ H1]%lookup_delete_Some [_ H2]%lookup_delete_Some. by eapply Hdi.
  - by apply map_Forall_delete.
  - by apply map_Forall_delete.
  - by apply map_Forall_delete.
Qed.

Lemma carries_send h w a b buffer :
  carries h w → is_Some (w !! a) → int32 b → Z.of_nat (length buffer) = MaxWireSize →
  match w !! b with
  | None => host_op newfd (OSend a b buffer) h = AssertFail
  | Some q => ∃ h', host_op newfd (OSend a b buffer) h = Ok (None, h') ∧ carries h' (<[b := q ++ [buffer]]> w)
  end.
Proof.
  intros HR [p Hw] Hb Hlen. pose proof HR as [Hup Hdn Hsk Hds Hdi Hnm Hold Hq].
  destruct (Hup a p Hw) as (Ha & _ & fd & k & Hsa & Hfa & Hda & Hna & Hqa).
  cbn [host_op]. rewrite Hsa. unfold SendToSocket_unix. rewrite InitSocketName_Ok. cbn [mbind result_bind].
  rewrite aslice_Ok by (unfold MaxWireSize in *; lia). cbn [mbind result_bind].
  rewrite drop_0, take_ge by lia. unfold sendto. rewrite Hda.
  destruct (w !! b) as [q|] eqn:Hwb.
  - destruct (Hup b q Hwb) as (_ & Hl & fdb & j & Hsb & Hfb & Hdb & Hnb & Hqb).
    rewrite Hnb, Hqb, Hlen, Z.eqb_refl. cbn. eexists. split; [done|].
    eapply carries_queue; [done..|]. apply Forall_app. auto.
  - destruct (names (unix h) !! sockName b) as [j|] eqn:Hnb; [|done]. by rewrite (Hdn b j Hb Hwb Hnb).
Qed.

Lemma carries_poll h w a q :
  carries h w → w !! a = Some q →
  match q with
  | [] => host_op newfd (OPoll a) h = Ok (None, h)
  | d :: q => ∃ h', host_op newfd (OPoll a) h = Ok (Some d, h') ∧ carries h' (<[a := q]> w)
  end.
Proof.
  intros HR Hw. pose proof HR as [Hup Hdn Hsk Hds Hdi Hnm Hold Hq].
  destruct (Hup a q Hw) as (Ha & Hl & fd & k & Hsa & Hfa & Hda & Hna & Hqa).
  cbn [host_op]. rewrite Hsa. unfold PollSocket.
  destruct (Z.leb_spec 0 fd); [|lia]. destruct (Z.ltb_spec fd 31); [|lia]. cbn [andb]. rewrite Hda, Hqa.
  destruct q as [|d q]; [done|]. apply Forall_cons in Hl as [Hd Hl].
  cbn [mbind result_bind]. unfold ReadFromSocket, recvfrom. rewrite Hda, Hqa. cbn [mbind result_bind].
  rewrite take_ge by lia. rewrite Hd, Z.eqb_refl. cbn. eexists. split; [done|].
  by eapply carries_queue.
Qed.

Lemma carries_op o h w :
  carries h w → op_ok o w = true →
  match wire_op o w with
  | Ok (x, w') => ∃ h', host_op newfd o h = Ok (x, h') ∧ carries h' w'
  | AssertFail => host_op newfd o h = AssertFail
  | _ => False
  end.
Proof.
  intros HR Hok. destruct o as [a|a b buffer|a|a]; cbn [op_ok wire_op] in *.
  - apply andb_true_iff in Hok as [Ha%bool_decide_eq_true Hw%bool_decide_eq_true]. by apply carries_start.
  - rewrite !andb_true_iff in Hok.
    destruct Hok as [[Ha%bool_decide_eq_true Hb%bool_decide_eq_true] Hl%Z.eqb_eq].
    pose proof (carries_send h w a b buffer HR Ha Hb Hl) as Hs. unfold SendToSocket.
    by destruct (w !! b).
  - apply bool_decide_eq_true in Hok as [q Hq]. rewrite Hq. pose proof (carries_poll h w a q HR Hq) as Hs.
    destruct q as [|d q]; [|done]. eauto.
  - apply bool_decide_eq_true in Hok. by apply carries_stop.
Qed.

Lemma carries_ops ops h w :
  carries h w → ops_ok ops w = true → run_ops (host_op newfd) ops h = run_ops wire_op ops w.
Proof.
  revert h w. induction ops as [|o ops IH]; intros h w HR Hok; [done|]. cbn [ops_ok run_ops] in *.
  apply andb_true_iff in Hok as [Ho Hok]. pose proof (carries_op o h w HR Ho) as Hs.
  destruct (wire_op o w) as [[x w']| | | |]; try done.
  - destruct Hs as (h' & -> & HR'). cbn [mbind result_bind]. by rewrite (IH h' w').
  - by rewrite Hs.
Qed.
End Refine.

(** C30: the sockets of sysdep.cc are the wire of the model of the network.  In a
    directory where names of sockets may be left over from earlier runs, any
    sequence of starts, sends, polls and stops of any machines gives through
    [OpenSocket], [AssignNameToSocket], [SendToSocket], [PollSocket],
    [ReadFromSocket] and [CloseSocket] what the map from addresses to queues of
    packets gives: packets reach the machine with the address, whole and in the
    order they were sent, no system call fails, and the ASSERT of [SendToSocket]
    fails exactly when the machine is not up. *)
Theorem sockets_refine (newfd : Unix → Z → Z)
  (newfd_small : ∀ u pid, (∀ fd, descs u !! (pid, fd) = None) → 0 <= newfd u pid < 31)
  (left_over : gmap (list Z) Z) (n : Z) (Hn : map_Forall (λ _ k, k < n) left_over) (ops : list netop)
  (Hok : ops_ok ops ∅ = true) :
  run_ops (host_op newfd) ops (mkHosts (mkUnix left_over ∅ ∅ n) ∅) = run_ops wire_op ops ∅.
Proof.
  apply carries_ops; [done| |done]. split; cbn [unix sock names queues descs nextSocket]; try done.
Qed.

(** Machine 1 is stopped and started again while machine 0 sends to it, where the
    name of its socket was there already. *)
Definition packet_of (z : Z) : list Z := replicate 64 z.
Definition sockets_example : list netop :=
  [OStart 0; OStart 1; OSend 0 1 (packet_of 7); OSend 0 1 (packet_of 8); OPoll 1; OPoll 0; OStop 1; OStart 1;
   OPoll 1; OSend 1 0 (packet_of 9); OPoll 0].

Lemma sockets_refine_witness :
  run_ops (host_op (λ _ _, 3)) sockets_example (mkHosts (mkUnix {[sockName 1 := 4]} ∅ ∅ 5) ∅) =
    Ok [None; None; None; None; Some (packet_of 7); None; None; None; None; None; Some (packet_of 9)] ∧
  run_ops (host_op (λ _ _, 3)) [OStart 0; OSend 0 1 (packet_of 7)] (mkHosts (mkUnix {[sockName 1 := 4]} ∅ ∅ 5) ∅) =
    AssertFail.
Proof.
  split.
  - rewrite (sockets_refine (λ _ _, 3) ltac:(lia) {[sockName 1 := 4]} 5
      ltac:(apply map_Forall_singleton; lia) sockets_example ltac:(vm_compute; reflexivity)).
    vm_compute. reflexivity.
  - rewrite (sockets_refine (λ _ _, 3) ltac:(lia) {[sockName 1 := 4]} 5
      ltac:(apply map_Forall_singleton; lia) [OStart 0; OSend 0 1 (packet_of 7)] ltac:(vm_compute; reflexivity)).
    vm_compute. reflexivity.
Defined.
