(* ===== verification/Coff2Noff.v ===== *)
(** * bin/coff2noff.c: the converter of program files

    User programs are compiled to COFF files; coff2noff makes the NOFF files
    that [AddrSpace] loads.  It is a program of its own over UNIX files: its
    routines are in a monad with the host's files as its state, that ends early
    when the program calls [exit].  The converter is built for 32-bit hosts
    (bin/Makefile: -m32), so [long] has four bytes. *)

From S2P Require Import Prelude Params.
From S2P Require Import BitMap.
From S2P Require Import Machine.
From S2P Require Import HostFs.
From S2P Require Import Kernel AddrSpace Paging Loader.
Local Open Scope Z_scope.

(** ** Programs that exit *)

Inductive flow (A : Type) := Go (a : A) | Exit (code : Z).
Arguments Go {A} a.
Arguments Exit {A} code.

Definition tool (A : Type) : Type := Host → result (flow A * Host).

#[export] Instance tool_ret : MRet tool := fun A a h => Ok (Go a, h).
#[export] Instance tool_bind : MBind tool := fun A B f m h =>
  match m h with
  | Ok (Go a, h) => f a h
  | Ok (Exit c, h) => Ok (Exit c, h)
  | AssertFail => AssertFail
  | Undefined => Undefined
  | Exited c => Exited c
  | NoFuel => NoFuel
  end.

Definition exit {A} (code : Z) : tool A := fun h => Ok (Exit code, h).

(** ** bin/coff.h *)

Definition MIPSELMAGIC : Z := 0x0162.
Definition OMAGIC : Z := 263.   (* 0407 *)
Definition sizeof_filehdr : Z := 20.
Definition sizeof_aouthdr : Z := 56.
Definition sizeof_scnhdr : Z := 40.

(** The members of a section header that the program reads *)
Record scnhdr := mkScn { s_name : list Z; s_paddr : Z; s_size : Z; s_scnptr : Z }.

(** String literals *)
Definition dot_text : list Z := [46; 116; 101; 120; 116].
Definition dot_data : list Z := [46; 100; 97; 116; 97].
Definition dot_rdata : list Z := [46; 114; 100; 97; 116; 97].
Definition dot_bss : list Z := [46; 98; 115; 115].
Definition dot_sbss : list Z := [46; 115; 98; 115; 115].

(** [!strcmp(s_name, lit)], for a literal shorter than the array [s_name] *)
Definition named (lit name : list Z) : bool :=
  bool_decide (take (S (length lit)) name = lit ++ [0]).

Section Code.
Variables (be : bool) (junkNoff : NoffHeader).

(** [short] and [long] members, in the host's byte order *)
Definition short_at (bs : list Z) (off : nat) : Z := host_val be (take 2 (drop off bs)).
Definition long_at (bs : list Z) (off : nat) : Z := wrap32 (host_val be (take 4 (drop off bs))).

(** [x = WordToHost(x)] *)
Definition long_to_host (w : Z) : Z := wrap32 (WordToHost be (u32 w)).

Definition noff_bytes (H : NoffHeader) : list Z :=
  let seg s := host_bytes be 4 (virtualAddr s) ++ host_bytes be 4 (inFileAddr s) ++
               host_bytes be 4 (segSize s) in
  host_bytes be 4 (noffMagic H) ++ seg (code H) ++ seg (initData H) ++ seg (uninitData H).

(** ** System calls *)

Definition open_in (name : list Z) : tool Z := fun h =>
  '(fd, h) ← OpenForReadWrite name false h; Ok (Go fd, h).

(** [open(name, O_WRONLY|O_CREAT|O_TRUNC, 0666)]; [NULL] is no name. *)
Definition open_out (name : option (list Z)) : tool Z := fun h =>
  match name with
  | None => Ok (Go (-1), h)
  | Some name => '(fd, h) ← OpenForWrite name h; Ok (Go fd, h)
  end.

Definition unlink (name : option (list Z)) : tool unit := fun h =>
  match name with None => Ok (Go tt, h) | Some name => Ok (Go tt, (Unlink name h).2) end.

Definition lseek (fd off : Z) : tool unit := fun h =>
  match file_of h fd with
  | None => Ok (Go tt, h)
  | Some (i, _, _) => if off <? 0 then Ok (Go tt, h) else Ok (Go tt, set_offset h fd i off)
  end.

Definition close (fd : Z) : tool unit := fun h =>
  match fds h !! fd with
  | None => Ok (Go tt, h)
  | Some _ => h ← Close fd h; Ok (Go tt, h)
  end.

(** [malloc] of a negative size, which is one of more than 2 GB, gives [NULL]. *)
Definition malloc (n : Z) : tool unit := fun h => if n <? 0 then Undefined else Ok (Go tt, h).

(** ** The program *)

Section Main.
Variable noffFileName : option (list Z).

Definition quit {A} : tool A := unlink noffFileName ;; exit 1.

Definition Coff_Read (fd nBytes : Z) : tool (list Z) := fun h =>
  match file_of h fd with
  | None => quit h
  | Some _ =>
      '(got, h) ← ReadPartial fd nBytes h;
      if Z.of_nat (length got) =? nBytes then Ok (Go got, h) else quit h
  end.

Definition Coff_Write (fd : Z) (buf : list Z) : tool unit := fun h =>
  match file_of h fd with
  | None => quit h
  | Some _ => h ← WriteFile fd buf h; Ok (Go tt, h)
  end.

(** The section headers, after the loop that converts them *)
Definition section_at (bs : list Z) (off : nat) : scnhdr :=
  mkScn (take 8 (drop off bs)) (long_to_host (long_at bs (off + 8)))
    (long_to_host (long_at bs (off + 16))) (long_to_host (long_at bs (off + 20))).

Definition sections_of (n : nat) (bs : list Z) : list scnhdr :=
  (λ i, section_at bs (40 * i)) <$> seq 0 n.

Variables fdIn fdOut : Z.

(** [lseek], [malloc], [Read], [Write], [free] *)
Definition copy_segment (s : scnhdr) : tool unit :=
  lseek fdIn (s_scnptr s) ;;
  malloc (s_size s) ;;
  buffer ← Coff_Read fdIn (s_size s);
  Coff_Write fdOut buffer.

(** An iteration of the loop over the sections, on the header and [inNoffFile] *)
Definition copy_section (s : scnhdr) (noffH : NoffHeader) (inNoffFile : Z)
  : tool (NoffHeader * Z) :=
  if s_size s =? 0 then mret (noffH, inNoffFile)
  else if named dot_text (s_name s) then
    let noffH := mkNoff (noffMagic noffH) (mkSegment (s_paddr s) inNoffFile (s_size s))
                   (initData noffH) (uninitData noffH) in
    copy_segment s ;;
    mret (noffH, wrap32 (inNoffFile + s_size s))
  else if named dot_data (s_name s) || named dot_rdata (s_name s) then
    if negb (segSize (initData noffH) =? 0) then quit
    else
      let noffH := mkNoff (noffMagic noffH) (code noffH)
                     (mkSegment (s_paddr s) inNoffFile (s_size s)) (uninitData noffH) in
      copy_segment s ;;
      mret (noffH, wrap32 (inNoffFile + s_size s))
  else if named dot_bss (s_name s) || named dot_sbss (s_name s) then
    let u := uninitData noffH in
    if negb (segSize u =? 0) then
      if s_paddr s =? wrap32 (virtualAddr u + segSize u) then quit
      else mret (mkNoff (noffMagic noffH) (code noffH) (initData noffH)
                   (mkSegment (virtualAddr u) (inFileAddr u) (wrap32 (segSize u + s_size s))),
                 inNoffFile)
    else mret (mkNoff (noffMagic noffH) (code noffH) (initData noffH)
                 (mkSegment (s_paddr s) (inFileAddr u) (s_size s)), inNoffFile)
  else quit.

Fixpoint copy_sections (secs : list scnhdr) (noffH : NoffHeader) (inNoffFile : Z)
  : tool NoffHeader :=
  match secs with
  | [] => mret noffH
  | s :: secs =>
      '(noffH, inNoffFile) ← copy_section s noffH inNoffFile;
      copy_sections secs noffH inNoffFile
  end.

(** The header before the loop: the rest of it is not initialised. *)
Definition noff_start : NoffHeader :=
  let seg s := mkSegment (virtualAddr s) (inFileAddr s) 0 in
  mkNoff NOFFMAGIC (seg (code junkNoff)) (seg (initData junkNoff)) (seg (uninitData junkNoff)).

(** From the reading of the first header on *)
Definition convert : tool unit :=
  fileh ← Coff_Read fdIn sizeof_filehdr;
  let f_magic := ShortToHost be (short_at fileh 0) in
  let f_nscns := ShortToHost be (short_at fileh 2) in
  if negb (f_magic =? MIPSELMAGIC) then quit
  else
    systemh ← Coff_Read fdIn sizeof_aouthdr;
    if negb (ShortToHost be (short_at systemh 0) =? OMAGIC) then quit
    else
      raw ← Coff_Read fdIn (f_nscns * sizeof_scnhdr);
      let sections := sections_of (Z.to_nat f_nscns) raw in
      lseek fdOut sizeof_NoffHeader ;;
      noffH ← copy_sections sections noff_start sizeof_NoffHeader;
      lseek fdOut 0 ;;
      Coff_Write fdOut (noff_bytes noffH) ;;
      close fdIn ;;
      close fdOut ;;
      exit 0.

End Main.

(** [main]: the test after the second [open] looks at [fdIn], as the first. *)
Definition coff2noff_main (argv : list (list Z)) : tool unit :=
  match argv !! 1%nat with
  | None => exit 1
  | Some coffFileName =>
      fdIn ← open_in coffFileName;
      if fdIn =? -1 then exit 1
      else
        fdOut ← open_out (argv !! 2%nat);
        if fdIn =? -1 then exit 1
        else convert (argv !! 2%nat) fdIn fdOut
  end.

End Code.

(** ** The file format *)

Inductive kind := KText | KData | KBss.
#[export] Instance kind_eq_dec : EqDecision kind.
Proof. solve_decision. Defined.

Definition kind_of (s : scnhdr) : option kind :=
  if named dot_text (s_name s) then Some KText
  else if named dot_data (s_name s) || named dot_rdata (s_name s) then Some KData
  else if named dot_bss (s_name s) || named dot_sbss (s_name s) then Some KBss
  else None.

Definition segment (k : kind) (H : NoffHeader) : Segment :=
  match k with KText => code H | KData => initData H | KBss => uninitData H end.

(** The sections of a COFF file, which is little-endian *)
Definition coff_count (exe : list Z) : nat := Z.to_nat (le_val (take 2 (drop 2 exe))).
Definition coff_sections (exe : list Z) : list scnhdr :=
  sections_of false (coff_count exe) (drop 76 exe).

(** What the segment file has of a section *)
Definition contents (exe : list Z) (s : scnhdr) : list Z :=
  match kind_of s with
  | Some KText | Some KData => take (Z.to_nat (s_size s)) (drop (Z.to_nat (s_scnptr s)) exe)
  | _ => []
  end.
Definition body (exe : list Z) (secs : list scnhdr) : list Z := concat (contents exe <$> secs).

Lemma body_snoc exe secs s : body exe (secs ++ [s]) = body exe secs ++ contents exe s.
Proof. unfold body. rewrite fmap_app, concat_app. cbn. by rewrite app_nil_r. Qed.

(** ** The open files *)

(** The output before its header is written: a hole, then what was copied *)
Definition out_file (B : list Z) : list Z :=
  match B with [] => [] | _ => replicate 40 0 ++ B end.

Lemma write_at_end B bs : bs ≠ [] →
  write_at (out_file B) (40 + Z.of_nat (length B)) bs = out_file (B ++ bs).
Proof.
  intros Hne. unfold write_at. set (f := out_file B).
  assert (f ++ replicate (Z.to_nat (40 + Z.of_nat (length B)) - length f) 0 = replicate 40 0 ++ B) as ->.
  { unfold f, out_file. destruct B as [|b B]; [done|]. rewrite length_app, length_replicate.
    replace (_ - _)%nat with 0%nat by lia. cbn [replicate]. by rewrite app_nil_r. }
  replace (Z.to_nat (40 + Z.of_nat (length B))) with (length (replicate 40 0 ++ B))
    by (rewrite length_app, length_replicate; lia).
  rewrite take_ge by lia. rewrite drop_ge by lia. rewrite app_nil_r, <- app_assoc.
  unfold out_file. destruct (B ++ bs) eqn:E; [|done]. apply app_eq_nil in E as [_ ->]. done.
Qed.

Lemma write_header B hd : length hd = 40%nat → write_at (out_file B) 0 hd = hd ++ B.
Proof.
  intros Hl. unfold write_at. cbn [Z.to_nat Nat.sub replicate]. rewrite app_nil_r, take_0, Nat.add_0_l, Hl.
  assert (drop 40 (out_file B) = B) as ->; [|done].
  unfold out_file. destruct B as [|b B]; [done|]. by rewrite drop_app_length'.
Qed.

Section Files.
Variables (be : bool) (junkNoff : NoffHeader) (exe : list Z) (noff : list Z).
Variables (ns : gmap (list Z) positive) (ino : gmap positive (list Z)) (ds : gmap Z (positive * Z))
  (fi fo : Z) (ii io : positive).
Hypotheses (Hfd : fi ≠ fo) (Hino : ii ≠ io) (Hexe : ino !! ii = Some exe).

(** The input at offset [off], the output at [pos] with the contents [F] *)
Definition opened (off : Z) (F : list Z) (pos : Z) : Host :=
  mkHost ns (<[io := F]> ino) (<[fi := (ii, off)]> (<[fo := (io, pos)]> ds)).
Definition copying (off : Z) (B : list Z) : Host := opened off (out_file B) (40 + Z.of_nat (length B)).

Lemma file_in off F pos : file_of (opened off F pos) fi = Some (ii, off, exe).
Proof.
  unfold file_of, opened. cbn [fds inodes]. rewrite lookup_insert_eq. cbn.
  rewrite lookup_insert_ne by done. by rewrite Hexe.
Qed.

Lemma file_out off F pos : file_of (opened off F pos) fo = Some (io, pos, F).
Proof.
  unfold file_of, opened. cbn [fds inodes]. rewrite lookup_insert_ne, lookup_insert_eq by done. cbn.
  by rewrite lookup_insert_eq.
Qed.

Lemma Coff_Read_run n off F pos : 0 <= n → 0 <= off →
  let got := take (Z.to_nat n) (drop (Z.to_nat off) exe) in
  Coff_Read (Some noff) fi n (opened off F pos) =
    (if Z.of_nat (length got) =? n then Ok (Go got, opened (off + n) F pos)
     else quit (Some noff) (opened (off + Z.of_nat (length got)) F pos)).
Proof.
  intros Hn Hoff got. unfold Coff_Read, ReadPartial. rewrite file_in, (proj2 (Z.ltb_ge n 0)) by lia. cbn [mbind result_bind].
  assert (∀ o, set_offset (opened off F pos) fi ii o = opened o F pos) as Hset.
  { intros o. unfold set_offset, opened. cbn [names inodes fds]. by rewrite insert_insert_eq. }
  rewrite !Hset. fold got. destruct (Z.eqb_spec (Z.of_nat (length got)) n) as [->|]; done.
Qed.

Lemma lseek_in o off F pos : lseek fi o (opened off F pos) = Ok (Go tt, opened (if o <? 0 then off else o) F pos).
Proof.
  unfold lseek. rewrite file_in. destruct (o <? 0); [done|]. unfold set_offset, opened.
  cbn [names inodes fds]. by rewrite insert_insert_eq.
Qed.

Lemma lseek_out o off F pos : 0 <= o → lseek fo o (opened off F pos) = Ok (Go tt, opened off F o).
Proof.
  intros Ho. unfold lseek. rewrite file_out. rewrite (proj2 (Z.ltb_ge o 0)) by lia. unfold set_offset, opened.
  cbn [names inodes fds]. rewrite (insert_insert_ne _ fo fi) by done. by rewrite insert_insert_eq.
Qed.

Lemma Coff_Write_run bs off F pos :
  Coff_Write (Some noff) fo bs (opened off F pos) =
  Ok (Go tt, opened off (write_at F pos bs) (pos + Z.of_nat (length bs))).
Proof.
  unfold Coff_Write, WriteFile. rewrite file_out. cbn [mbind result_bind]. unfold set_offset, opened.
  cbn [names inodes fds]. rewrite insert_insert_eq, (insert_insert_ne _ fo fi) by done.
  by rewrite insert_insert_eq.
Qed.

(** A segment is copied to the end of the output, if the input has it. *)
Lemma copy_segment_run s off B : 0 < s_size s → 0 <= off →
  let from := if s_scnptr s <? 0 then off else s_scnptr s in
  let got := take (Z.to_nat (s_size s)) (drop (Z.to_nat from) exe) in
  copy_segment (Some noff) fi fo s (copying off B) =
    (if Z.of_nat (length got) =? s_size s then Ok (Go tt, copying (from + s_size s) (B ++ got))
     else quit (Some noff) (copying (from + Z.of_nat (length got)) B)).
Proof.
  intros Hs Hoff from got. unfold copy_segment, copying. unfold mbind, tool_bind. rewrite lseek_in.
  fold from. unfold malloc. rewrite (proj2 (Z.ltb_ge _ 0)) by lia.
  assert (0 <= from) by (unfold from; destruct (Z.ltb_spec (s_scnptr s) 0); lia).
  rewrite Coff_Read_run by lia. fold got. destruct (Z.eqb_spec (Z.of_nat (length got)) (s_size s)) as [Hl|]; [|done].
  rewrite Coff_Write_run, write_at_end by (intros E; rewrite E in Hl; cbn in Hl; lia).
  rewrite length_app. do 3 f_equal. lia.
Qed.

End Files.

(** ** The header *)

Definition int_segment (s : Segment) : Prop :=
  int32 (virtualAddr s) ∧ int32 (inFileAddr s) ∧ int32 (segSize s).
Definition int_header (H : NoffHeader) : Prop := int32 (noffMagic H) ∧ ∀ k, int_segment (segment k H).

(** [H] says where the sections [pre] are. *)
Definition describes (exe : list Z) (pre : list scnhdr) (H : NoffHeader) : Prop := ∀ k,
  (∀ a s b, pre = a ++ s :: b → s_size s ≠ 0 → kind_of s = Some k →
     virtualAddr (segment k H) = s_paddr s ∧ segSize (segment k H) = s_size s ∧
     (k ≠ KBss → inFileAddr (segment k H) = sizeof_NoffHeader + Z.of_nat (length (body exe a)))) ∧
  ((∀ s, s ∈ pre → s_size s ≠ 0 → kind_of s ≠ Some k) → segSize (segment k H) = 0).

(** The bytes that uninitialised data takes *)
Definition bss_size (secs : list scnhdr) : Z :=
  foldr (λ s n, (if decide (kind_of s = Some KBss) then s_size s else 0) + n) 0 secs.

Definition sized (exe : list Z) (pre : list scnhdr) (H : NoffHeader) : Prop :=
  Z.of_nat (length (body exe pre)) = segSize (code H) + segSize (initData H) ∧
  segSize (uninitData H) = bss_size pre.

Lemma bss_size_app l l' : bss_size (l ++ l') = bss_size l + bss_size l'.
Proof. unfold bss_size. induction l as [|s l IH]; cbn [app foldr]; [done|]. rewrite IH. lia. Qed.

Lemma snoc_split {A} (pre a b : list A) s t :
  pre ++ [s] = a ++ t :: b → (a = pre ∧ t = s) ∨ ∃ b', pre = a ++ t :: b'.
Proof.
  intros Heq. destruct b as [|x b] using rev_ind.
  - apply app_inj_tail in Heq as [-> ->]. by left.
  - right. exists b. rewrite app_comm_cons, app_assoc in Heq. by apply app_inj_tail in Heq as [-> _].
Qed.

Lemma describes_skip exe pre H s : describes exe pre H → s_size s = 0 → describes exe (pre ++ [s]) H.
Proof.
  intros Hd Hs k. destruct (Hd k) as [H1 H2]. split.
  - intros a t b [[-> ->]|[b' Hb]]%snoc_split; [done|]. by eapply H1.
  - intros Hall. apply H2. intros t Ht. apply Hall, elem_of_app. by left.
Qed.

Lemma describes_add exe pre H H' s k :
  describes exe pre H → s_size s ≠ 0 → kind_of s = Some k →
  (∀ t, t ∈ pre → s_size t ≠ 0 → kind_of t ≠ Some k) →
  (∀ k', k' ≠ k → segment k' H' = segment k' H) →
  virtualAddr (segment k H') = s_paddr s → segSize (segment k H') = s_size s →
  (k ≠ KBss → inFileAddr (segment k H') = sizeof_NoffHeader + Z.of_nat (length (body exe pre))) →
  describes exe (pre ++ [s]) H'.
Proof.
  intros Hd Hs Hk Hnew Hother Hv Hz Hf k'. destruct (decide (k' = k)) as [->|Hne]; [split|].
  - intros a t b [[-> ->]|[b' Hb]]%snoc_split Ht Htk; [done|]. exfalso.
    apply (Hnew t); [|done..]. rewrite Hb. set_solver.
  - intros Hall. exfalso. apply (Hall s); [set_solver|done..].
  - rewrite Hother by done. destruct (Hd k') as [H1 H2]. split.
    + intros a t b [[-> ->]|[b' Hb]]%snoc_split Ht Htk; [congruence|]. by eapply H1.
    + intros Hall. apply H2. intros t Ht. apply Hall. set_solver.
Qed.

(** ** Sections that are copied *)

Record good (exe : list Z) (s : scnhdr) : Prop := {
  gd_kind : is_Some (kind_of s);
  gd_size : 0 < s_size s;
  gd_file : kind_of s ≠ Some KBss →
    0 <= s_scnptr s ∧ s_scnptr s + s_size s <= Z.of_nat (length exe) }.

Definition int_scn (s : scnhdr) : Prop := int32 (s_paddr s) ∧ int32 (s_size s).

Section Header.
Variable exe : list Z.
Abbreviation pos pre := (sizeof_NoffHeader + Z.of_nat (length (body exe pre))).

Definition put_segment (k : kind) (sg : Segment) (H : NoffHeader) : NoffHeader :=
  match k with
  | KText => mkNoff (noffMagic H) sg (initData H) (uninitData H)
  | KData => mkNoff (noffMagic H) (code H) sg (uninitData H)
  | KBss => mkNoff (noffMagic H) (code H) (initData H) sg
  end.

(** The new segment of a section *)
Definition segment_of (k : kind) (s : scnhdr) (p : Z) (H : NoffHeader) : Segment :=
  mkSegment (s_paddr s) (if decide (k = KBss) then inFileAddr (uninitData H) else p) (s_size s).

Record header_ok (pre : list scnhdr) (H : NoffHeader) : Prop := {
  ho_describes : describes exe pre H;
  ho_int : int_header H;
  ho_sized : sized exe pre H;
  ho_magic : noffMagic H = NOFFMAGIC }.

Lemma length_contents s : good exe s →
  Z.of_nat (length (contents exe s)) = if decide (kind_of s = Some KBss) then 0 else s_size s.
Proof.
  intros [[k Hk] Hs Hf]. unfold contents. rewrite Hk. case_decide as Hd; [by injection Hd as ->|].
  destruct Hf as [Hp Hl]; [congruence|]. destruct k; [| |done]; rewrite length_take, length_drop; lia.
Qed.

Lemma header_ok_skip pre s H : header_ok pre H → s_size s = 0 →
  header_ok (pre ++ [s]) H ∧ body exe (pre ++ [s]) = body exe pre.
Proof.
  intros [Hd Hi [Hb Hu] Hm] Hs. assert (body exe (pre ++ [s]) = body exe pre) as Hbody.
  { rewrite body_snoc. unfold contents. rewrite Hs. cbn [Z.to_nat].
    destruct (kind_of s) as [[]|]; by rewrite app_nil_r. }
  split; [|done]. split; [by apply describes_skip|done| |done]. split; [by rewrite Hbody|].
  rewrite bss_size_app. cbn. case_decide; lia.
Qed.

Lemma header_ok_put pre s H k :
  header_ok pre H → good exe s → int_scn s → kind_of s = Some k →
  (∀ t, t ∈ pre → s_size t ≠ 0 → kind_of t ≠ Some k) → pos pre < 2 ^ 31 →
  header_ok (pre ++ [s]) (put_segment k (segment_of k s (pos pre) H) H).
Proof.
  intros [Hd [Hmi Hi] [Hb Hu] Hm] Hg [Hpa Hsz] Hk Hnew Hpos. pose proof Hg as [_ Hs _].
  assert (segSize (segment k H) = 0) as H0 by (by apply (Hd k)). split.
  - eapply describes_add with (k := k); try done; [lia|by intros k'; destruct k, k'|by destruct k..|].
    intros Hk'. by destruct k.
  - split; [by destruct k|]. intros k'. destruct (decide (k' = k)) as [->|];
      [|assert (segment k' (put_segment k (segment_of k s (pos pre) H) H) = segment k' H) as ->
          by (by destruct k, k'); apply Hi].
    assert (int32 (pos pre)) by (unfold int32, sizeof_NoffHeader in *; lia).
    destruct (Hi KBss) as (_ & ? & _). destruct k; by split_and!.
  - unfold sized. rewrite body_snoc, length_app, Nat2Z.inj_add, (length_contents s Hg), bss_size_app, Hb.
    cbn [bss_size foldr]. rewrite Hk. destruct k; cbn [put_segment segment_of code initData uninitData segSize segment] in *;
      repeat case_decide; try done; lia.
  - by destruct k.
Qed.

End Header.

Section Copy.
Variables (be : bool) (exe noff : list Z).
Variables (ns : gmap (list Z) positive) (ino : gmap positive (list Z)) (ds : gmap Z (positive * Z))
  (fi fo : Z) (ii io : positive).
Hypotheses (Hfd : fi ≠ fo) (Hino : ii ≠ io) (Hexe : ino !! ii = Some exe).

Abbreviation st := (copying ns ino ds fi fo ii io).
Abbreviation pos pre := (sizeof_NoffHeader + Z.of_nat (length (body exe pre))).

Lemma copy_segment_good s off B : good exe s → kind_of s ≠ Some KBss → 0 <= off →
  ∃ off', 0 <= off' ∧ copy_segment (Some noff) fi fo s (st off B) = Ok (Go tt, st off' (B ++ contents exe s)) ∧
    Z.of_nat (length (contents exe s)) = s_size s.
Proof.
  intros [[k Hk] Hs Hf] Hbss Hoff. destruct (Hf Hbss) as [Hp Hl].
  assert (contents exe s = take (Z.to_nat (s_size s)) (drop (Z.to_nat (s_scnptr s)) exe)) as Hc.
  { unfold contents. rewrite Hk. destruct k; congruence || done. }
  assert (Z.of_nat (length (contents exe s)) = s_size s) as Hlen.
  { rewrite Hc, length_take, length_drop. lia. }
  rewrite copy_segment_run with (exe := exe) by done. rewrite (proj2 (Z.ltb_ge _ 0)) by done.
  rewrite <- Hc, Hlen, Z.eqb_refl. eexists. split; [|by split]. lia.
Qed.

(** A section of a kind that the file has only once *)
Lemma copy_section_good pre s off H :
  (s_size s ≠ 0 → good exe s) → int_scn s → 0 <= off → header_ok exe pre H →
  (∀ t, t ∈ pre → s_size s ≠ 0 → s_size t ≠ 0 → kind_of t ≠ kind_of s) →
  pos (pre ++ [s]) < 2 ^ 31 →
  ∃ H' off', 0 <= off' ∧ header_ok exe (pre ++ [s]) H' ∧
    copy_section (Some noff) fi fo s H (pos pre) (st off (body exe pre)) =
      Ok (Go (H', pos (pre ++ [s])), st off' (body exe (pre ++ [s]))).
Proof.
  intros Hg Hint Hoff Hok Hnew Hpos. unfold copy_section.
  destruct (Z.eqb_spec (s_size s) 0) as [Hz|Hnz].
  { exists H, off. destruct (header_ok_skip _ _ _ _ Hok Hz) as [Hok' ->]. done. }
  specialize (Hg Hnz). pose proof Hg as [[k Hk] Hs _].
  assert (Hnew' : ∀ t, t ∈ pre → s_size t ≠ 0 → kind_of t ≠ Some k) by (intros; rewrite <- Hk; auto).
  assert (segSize (segment k H) = 0) as H0 by (by apply (ho_describes _ _ _ Hok k)).
  rewrite body_snoc, length_app in Hpos.
  assert (Hp : wrap32 (pos pre + Z.of_nat (length (contents exe s))) = pos (pre ++ [s])).
  { rewrite body_snoc, length_app. rewrite wrap32_id; unfold int32, sizeof_NoffHeader in *; lia. }
  assert (header_ok exe (pre ++ [s]) (put_segment k (segment_of k s (pos pre) H) H)) as Hok'
    by (apply header_ok_put; (done || lia)).
  assert (Hcopy : k ≠ KBss → ∃ off', 0 <= off' ∧ wrap32 (pos pre + s_size s) = pos (pre ++ [s]) ∧
    copy_segment (Some noff) fi fo s (st off (body exe pre)) = Ok (Go tt, st off' (body exe (pre ++ [s])))).
  { intros Hb. destruct (copy_segment_good s off (body exe pre)) as (off' & Ho' & Hc & Hl); [done|congruence|done|].
    exists off'. rewrite Hl in Hp. split; [done|]. split; [done|]. by rewrite body_snoc. }
  exists (put_segment k (segment_of k s (pos pre) H) H).
  pose proof Hk as Hk'. unfold kind_of in Hk. destruct (named dot_text (s_name s)); [|
    destruct (named dot_data (s_name s) || named dot_rdata (s_name s)); [|
    destruct (named dot_bss (s_name s) || named dot_sbss (s_name s)); [|done]]];
    injection Hk as <-; cbn [segment] in H0; rewrite ?H0; cbn [negb Z.eqb].
  1,2: destruct Hcopy as (off' & Ho' & Hp' & Hc); [done|]; exists off'; split; [done|]; split; [done|];
    unfold mbind, tool_bind; by rewrite Hc, Hp'.
  exists off. split; [done|]. split; [done|]. rewrite body_snoc, length_app.
  unfold contents. rewrite Hk'. rewrite app_nil_r, Nat.add_0_r. done.
Qed.

End Copy.

(** ** Headers on hosts of both byte orders *)

Section Headers.
Variable be : bool.

Lemma short_to_host bs off : Forall byte bs → (off + 2 <= length bs)%nat →
  ShortToHost be (short_at be bs off) = le_val (take 2 (drop off bs)).
Proof.
  intros Hb Hl. apply ShortToHost_val; [rewrite length_take, length_drop; lia|].
  by apply Forall_take, Forall_drop.
Qed.

Lemma long_to_host_at bs off : Forall byte bs → (off + 4 <= length bs)%nat →
  long_to_host be (long_at be bs off) = wrap32 (le_val (take 4 (drop off bs))).
Proof.
  intros Hb Hl. unfold long_to_host, long_at. set (w := take 4 (drop off bs)).
  assert (length w = 4%nat) as Hw by (unfold w; rewrite length_take, length_drop; lia).
  assert (Forall byte w) as Hbw by (by apply Forall_take, Forall_drop).
  assert (∀ l, length l = 4%nat → Forall byte l → u32 (le_val l) = le_val l) as Hu.
  { intros l Hl4 Hbl. apply u32_id. pose proof (le_val_bound l Hbl) as H. rewrite Hl4 in H. exact H. }
  rewrite u32_wrap32.
  assert (u32 (host_val be w) = host_val be w) as ->.
  { unfold host_val. destruct be; apply Hu; rewrite ?length_reverse; try done. by apply Forall_reverse. }
  by rewrite WordToHost_val.
Qed.

Lemma section_at_le bs off : Forall byte bs → (off + 40 <= length bs)%nat →
  section_at be bs off =
  let long k := wrap32 (le_val (take 4 (drop (off + k) bs))) in
  mkScn (take 8 (drop off bs)) (long 8%nat) (long 16%nat) (long 20%nat).
Proof. intros Hb Hl. unfold section_at. by rewrite !long_to_host_at by (done || lia). Qed.

Definition words_of (H : NoffHeader) : list Z :=
  let seg s := [virtualAddr s; inFileAddr s; segSize s] in
  noffMagic H :: seg (code H) ++ seg (initData H) ++ seg (uninitData H).

Lemma noff_bytes_words H : noff_bytes be H = concat (host_bytes be 4 <$> words_of H).
Proof. unfold noff_bytes, words_of. cbn [fmap list_fmap app concat]. by rewrite <- !app_assoc, app_nil_r. Qed.

Lemma length_word z : length (host_bytes be 4 z) = 4%nat.
Proof. unfold host_bytes. destruct be; by rewrite ?length_reverse, length_le_bytes. Qed.

Lemma length_noff_bytes H : length (noff_bytes be H) = 40%nat.
Proof. unfold noff_bytes. by rewrite !length_app, !length_word. Qed.

Lemma word_of_words zs i z : zs !! i = Some z → int32 z →
  word_of be (concat (host_bytes be 4 <$> zs)) i = z.
Proof.
  intros Hi Hz. revert i Hi. induction zs as [|z' zs IH]; intros [|i] Hi; [done..| |].
  - injection Hi as ->. unfold word_of. cbn [Nat.mul fmap list_fmap concat]. rewrite drop_0.
    rewrite take_app_length' by (by rewrite length_word). unfold host_val, host_bytes.
    destruct be; rewrite ?reverse_involutive; by apply wrap32_le_val.
  - rewrite <- (IH i Hi). unfold word_of. cbn [fmap list_fmap concat]. do 3 f_equal.
    replace (4 * S i)%nat with (4 + 4 * i)%nat by lia. rewrite <- drop_drop.
    by rewrite drop_app_length' by (by rewrite length_word).
Qed.

(** The header is read back as it was written. *)
Lemma noff_roundtrip H : int_header H → noff_of_bytes be (noff_bytes be H) = H.
Proof.
  intros [Hm Hseg]. rewrite noff_bytes_words.
  destruct (Hseg KText) as (? & ? & ?), (Hseg KData) as (? & ? & ?), (Hseg KBss) as (? & ? & ?).
  cbn [segment] in *. unfold noff_of_bytes. cbn [Nat.add].
  rewrite (word_of_words (words_of H) 0 (noffMagic H)), (word_of_words _ 1 (virtualAddr (code H))),
    (word_of_words _ 2 (inFileAddr (code H))), (word_of_words _ 3 (segSize (code H))),
    (word_of_words _ 4 (virtualAddr (initData H))), (word_of_words _ 5 (inFileAddr (initData H))),
    (word_of_words _ 6 (segSize (initData H))), (word_of_words _ 7 (virtualAddr (uninitData H))),
    (word_of_words _ 8 (inFileAddr (uninitData H))), (word_of_words _ 9 (segSize (uninitData H))) by done.
  by destruct H as [? [] [] []].
Qed.

End Headers.

Lemma take_drop_take {A} (l : list A) a b n : (a + b <= n)%nat → take b (drop a (take n l)) = take b (drop a l).
Proof. intros. rewrite skipn_firstn_comm, take_take. f_equal. lia. Qed.

Lemma sections_of_host be n bs : Forall byte bs → (40 * n <= length bs)%nat →
  sections_of be n (take (40 * n) bs) = sections_of false n bs.
Proof.
  intros Hb Hl. unfold sections_of. apply list_fmap_ext. intros i j Hij.
  apply lookup_seq in Hij as [-> Hin]. cbn [Nat.add].
  rewrite !section_at_le by (rewrite ?length_take; (by apply Forall_take) || done || lia).
  cbn beta zeta. by rewrite !take_drop_take by lia.
Qed.

(** ** The conversion *)

(** A file as the converter's documentation assumes it: at most one section of
    each kind has anything in it. *)
Record convertible (exe : list Z) : Prop := {
  cv_byte : Forall byte exe;
  cv_magic : le_val (take 2 exe) = MIPSELMAGIC;
  cv_omagic : le_val (take 2 (drop 20 exe)) = OMAGIC;
  cv_headers : (76 + 40 * coff_count exe <= length exe)%nat;
  cv_good : ∀ s, s ∈ coff_sections exe → s_size s ≠ 0 → good exe s;
  cv_once : ∀ a s b t, coff_sections exe = a ++ s :: b → t ∈ a → s_size s ≠ 0 → s_size t ≠ 0 →
    kind_of t ≠ kind_of s;
  cv_small : sizeof_NoffHeader + Z.of_nat (length (body exe (coff_sections exe))) < 2 ^ 31 }.

Lemma coff_section_int exe s : s ∈ coff_sections exe → int_scn s.
Proof.
  unfold coff_sections, sections_of. intros (i & -> & _)%list_elem_of_fmap.
  unfold section_at, long_to_host. split; apply wrap32_int32.
Qed.

Lemma body_app exe l l' : body exe (l ++ l') = body exe l ++ body exe l'.
Proof. unfold body. by rewrite fmap_app, concat_app. Qed.

Local Ltac tool_step := unfold mbind at 1; unfold tool_bind at 1.

Section Convert.
Variables (be : bool) (junkNoff : NoffHeader) (exe noff : list Z).
Variables (ns : gmap (list Z) positive) (ino : gmap positive (list Z)) (ds : gmap Z (positive * Z))
  (fi fo : Z) (ii io : positive).
Hypotheses (Hfd : fi ≠ fo) (Hino : ii ≠ io) (Hexe : ino !! ii = Some exe).

Abbreviation st := (copying ns ino ds fi fo ii io).
Abbreviation pos pre := (sizeof_NoffHeader + Z.of_nat (length (body exe pre))).

Lemma copy_sections_good secs pre off H :
  (∀ s, s ∈ secs → (s_size s ≠ 0 → good exe s) ∧ int_scn s) → 0 <= off →
  header_ok exe pre H →
  (∀ a s b t, pre ++ secs = a ++ s :: b → t ∈ a → s_size s ≠ 0 → s_size t ≠ 0 → kind_of t ≠ kind_of s) →
  pos (pre ++ secs) < 2 ^ 31 →
  ∃ H' off', copy_sections (Some noff) fi fo secs H (pos pre) (st off (body exe pre)) =
      Ok (Go H', st off' (body exe (pre ++ secs))) ∧
    header_ok exe (pre ++ secs) H'.
Proof.
  revert pre off H. induction secs as [|s secs IH]; intros pre off H Hs Hoff Hok Honce Hpos;
    cbn [copy_sections].
  { exists H, off. by rewrite app_nil_r. }
  destruct (Hs s) as [Hg Hint]; [set_solver|].
  assert (pre ++ s :: secs = (pre ++ [s]) ++ secs) as Hcons by (by rewrite <- app_assoc).
  destruct (copy_section_good exe noff ns ino ds fi fo ii io Hfd Hino Hexe pre s off H)
    as (H1 & off1 & Ho1 & Hok1 & Hc); try done.
  - intros t Ht Hz Hzt. by eapply Honce.
  - rewrite Hcons, (body_app _ (pre ++ [s])), length_app in Hpos. lia.
  - unfold mbind, tool_bind. rewrite Hc.
    destruct (IH (pre ++ [s]) off1 H1) as (H2 & off2 & Hc2 & Hok2); try done.
    + intros t Ht. apply Hs. set_solver.
    + rewrite <- Hcons. exact Honce.
    + by rewrite <- Hcons.
    + exists H2, off2. rewrite Hcons. split; [exact Hc2|done].
Qed.

(** Reading within the input *)
Lemma read_part n off F p : 0 <= n → 0 <= off → off + n <= Z.of_nat (length exe) →
  Coff_Read (Some noff) fi n (opened ns ino ds fi fo ii io off F p) =
  Ok (Go (take (Z.to_nat n) (drop (Z.to_nat off) exe)), opened ns ino ds fi fo ii io (off + n) F p).
Proof.
  intros Hn Hoff Hl. rewrite Coff_Read_run with (exe := exe) by done.
  rewrite length_take, length_drop. by rewrite (proj2 (Z.eqb_eq _ n)) by lia.
Qed.

Lemma close_both F off p : ds !! fi = None → ds !! fo = None →
  (close fi ;; close fo ;; exit 0 : tool unit) (opened ns ino ds fi fo ii io off F p) =
  Ok (Exit 0, mkHost ns (<[io := F]> ino) ds).
Proof.
  intros Hfi Hfo. unfold mbind, tool_bind, close, Close, opened, exit. cbn [fds names inodes].
  rewrite lookup_insert_eq. cbn [mbind result_bind fds names inodes].
  rewrite delete_insert_id by (by rewrite lookup_insert_ne). rewrite lookup_insert_eq. cbn [mbind result_bind].
  by rewrite delete_insert_id.
Qed.

Lemma convert_good : convertible exe → int_header junkNoff → ds !! fi = None → ds !! fo = None →
  ∃ H, convert be junkNoff (Some noff) fi fo (opened ns ino ds fi fo ii io 0 [] 0) =
      Ok (Exit 0, mkHost ns (<[io := noff_bytes be H ++ body exe (coff_sections exe)]> ino) ds) ∧
    header_ok exe (coff_sections exe) H.
Proof.
  intros [] Hjunk Hfi Hfo. unfold convert. set (n := coff_count exe) in *.
  unfold sizeof_filehdr, sizeof_aouthdr, sizeof_scnhdr. tool_step.
  rewrite read_part by lia. rewrite Z.add_0_l. change (Z.to_nat 0) with 0%nat. rewrite drop_0.
  change (Z.to_nat 20) with 20%nat.
  rewrite !short_to_host; [|by apply Forall_take|rewrite length_take; lia|by apply Forall_take|rewrite length_take; lia].
  rewrite !take_drop_take by lia. rewrite drop_0, cv_magic0. cbn [negb Z.eqb MIPSELMAGIC Pos.eqb].
  tool_step. rewrite read_part by lia.
  rewrite short_to_host; [|by apply Forall_take, Forall_drop|rewrite length_take, length_drop; lia].
  rewrite take_drop_take, drop_0 by lia. change (Z.to_nat 20) with 20%nat. rewrite cv_omagic0.
  rewrite Z.eqb_refl. cbn [negb].
  assert (le_val (take 2 (drop 2 exe)) = Z.of_nat n) as Hn.
  { unfold n, coff_count. rewrite Z2Nat.id; [done|].
    apply le_val_bound. by apply Forall_take, Forall_drop. }
  rewrite Hn, Nat2Z.id. tool_step. rewrite read_part by lia.
  replace (Z.to_nat (Z.of_nat n * 40)) with (40 * n)%nat by lia. change (20 + 56) with 76.
  change (Z.to_nat 76) with 76%nat.
  rewrite sections_of_host by (rewrite ?length_drop; (by apply Forall_drop) || lia). fold n.
  change (sections_of false n (drop 76 exe)) with (coff_sections exe).
  tool_step. rewrite lseek_out by done.
  destruct (copy_sections_good (coff_sections exe) [] (76 + Z.of_nat n * 40) (noff_start junkNoff))
    as (H & off & Hc & Hok); try done.
  - intros s Hs. split; [by apply cv_good0|by eapply coff_section_int].
  - lia.
  - split; [|split; [done|]|done|done].
    + intros k. split; [intros [] ? ?; done|]. by destruct k.
    + intros k. destruct Hjunk as [_ Hj]. destruct (Hj k) as (? & ? & _). by destruct k; split.
  - tool_step.
    change (copying ns ino ds fi fo ii io (76 + Z.of_nat n * 40) (body exe []))
      with (opened ns ino ds fi fo ii io (76 + Z.of_nat n * 40) [] sizeof_NoffHeader) in Hc.
    change (sizeof_NoffHeader + Z.of_nat (length (body exe []))) with sizeof_NoffHeader in Hc.
    rewrite Hc. tool_step. unfold copying. rewrite lseek_out by done.
    tool_step. rewrite Coff_Write_run by done.
    rewrite write_header by apply length_noff_bytes.
    exists H. split; [by apply close_both|done].
Qed.

End Convert.

(** ** From the command line *)

Lemma free_fd_fds h n fd h' : fds h' = fds h → free_fd n fd h' = free_fd n fd h.
Proof. intros Hf. revert fd. induction n as [|n IH]; intros fd; cbn [free_fd]; [done|]. by rewrite Hf, IH. Qed.

Lemma OpenForWrite_spec name h : wf_host h →
  ∃ fd io, OpenForWrite name h =
      Ok (fd, mkHost (<[name := io]> (names h)) (<[io := []]> (inodes h)) (<[fd := (io, 0)]> (fds h))) ∧
    fds h !! fd = None ∧ 3 <= fd ∧ (∀ x j, x ≠ name → names h !! x = Some j → j ≠ io).
Proof.
  intros Hw. unfold OpenForWrite. destruct (free_fd_spec h Hw) as [Hn H3].
  destruct (names h !! name) as [io|] eqn:E; eexists _, _.
  - split; [unfold new_fd; cbn [fds names inodes]; rewrite (free_fd_fds h) by done;
      by rewrite (insert_id (names h)) by done|].
    split; [done|]. split; [done|]. intros x j Hx Hj ->. apply Hx. by eapply (wh_inj _ Hw).
  - split; [unfold new_fd; cbn [fds names inodes]; by rewrite (free_fd_fds h) by done|].
    split; [done|]. split; [done|]. intros x j Hx Hj ->. destruct (wh_inode _ Hw x _ Hj) as [y Hy].
    apply elem_of_dom_2 in Hy. by apply is_fresh in Hy.
Qed.

(** The files with [noff] new *)
Definition with_file (h : Host) (noff : list Z) (io : positive) (F : list Z) : Host :=
  mkHost (<[noff := io]> (names h)) (<[io := F]> (inodes h)) (fds h).

Lemma file_named_with h noff io F x : (∀ x j, x ≠ noff → names h !! x = Some j → j ≠ io) →
  file_named (with_file h noff io F) x = if decide (x = noff) then Some F else file_named h x.
Proof.
  intros Hio. unfold file_named, with_file. cbn [names inodes]. destruct (decide (x = noff)) as [->|Hne].
  - rewrite lookup_insert_eq. cbn. apply lookup_insert_eq.
  - rewrite lookup_insert_ne by done. destruct (names h !! x) as [j|] eqn:Ej; [|done]. cbn.
    apply lookup_insert_ne. intros <-. by eapply Hio.
Qed.

Lemma wf_with h noff io F : wf_host h → (∀ x j, x ≠ noff → names h !! x = Some j → j ≠ io) →
  wf_host (with_file h noff io F).
Proof.
  intros [H1 H2 H3] Hio. split; cbn [with_file names inodes fds]; [| |done].
  - intros x j. destruct (decide (x = noff)) as [->|]; simplify_map_eq.
    + intros [= <-]. rewrite lookup_insert_eq. by eexists.
    + intros Hj. rewrite lookup_insert_ne by (intros <-; by eapply Hio). by eapply H1.
  - intros x y j Hx Hy. destruct (decide (x = noff)) as [->|Hxn], (decide (y = noff)) as [->|Hyn]; simplify_map_eq; try done.
    + by destruct (Hio y j).
    + by destruct (Hio x j).
    + by eapply H2.
Qed.

Section Run.
Variables (be : bool) (junkNoff : NoffHeader) (prog coff noff exe : list Z) (h : Host).
Hypotheses (Hw : wf_host h) (Hcoff : file_named h coff = Some exe) (Hne : coff ≠ noff).

Abbreviation run := (coff2noff_main be junkNoff [prog; coff; noff] h).

(** Both files are open; [io] is the inode of the output. *)
Lemma opens_both : ∃ fi fo ii io, fi ≠ fo ∧ ii ≠ io ∧ inodes h !! ii = Some exe ∧
  fds h !! fi = None ∧ fds h !! fo = None ∧ (∀ x j, x ≠ noff → names h !! x = Some j → j ≠ io) ∧
  ∀ program : Z → Z → tool unit,
    (fdIn ← open_in coff;
     if fdIn =? -1 then exit 1
     else fdOut ← open_out (Some noff); if fdIn =? -1 then exit 1 else program fdIn fdOut) h =
    program fi fo (opened (<[noff := io]> (names h)) (inodes h) (fds h) fi fo ii io 0 [] 0).
Proof.
  unfold file_named in Hcoff.
  destruct (names h !! coff) as [ii|] eqn:Hn; [|done]. cbn in Hcoff.
  unfold mbind, tool_bind, open_in, OpenForReadWrite. rewrite Hn.
  destruct (free_fd_spec h Hw) as [Hfi Hf3]. unfold new_fd. cbn [mbind result_bind].
  set (fi := free_fd _ _ _) in *. rewrite (proj2 (Z.eqb_neq fi (-1))) by lia.
  set (h1 := mkHost _ _ _). assert (wf_host h1) as Hw1.
  { destruct Hw as [H1 H2 H3]. split; cbn [h1 names inodes fds]; try done.
    intros fd j off. destruct (decide (fd = fi)) as [->|]; [done|]. rewrite lookup_insert_ne by done. apply H3. }
  destruct (OpenForWrite_spec noff h1 Hw1) as (fo & io & Ho & Hfo & Hfo3 & Hio).
  unfold open_out. rewrite Ho. cbn [mbind result_bind h1 names inodes fds] in *.
  assert (fi ≠ fo) as Hfd by (intros ->; by rewrite lookup_insert_eq in Hfo).
  rewrite lookup_insert_ne in Hfo by done.
  exists fi, fo, ii, io. split; [done|]. split; [by eapply Hio|]. split; [done|]. split; [done|]. split; [done|].
  split; [done|]. intros program. unfold opened. by rewrite (insert_insert_ne _ fo fi) by done.
Qed.

Lemma main_opens : ∃ fi fo ii io, fi ≠ fo ∧ ii ≠ io ∧ inodes h !! ii = Some exe ∧
  fds h !! fi = None ∧ fds h !! fo = None ∧ (∀ x j, x ≠ noff → names h !! x = Some j → j ≠ io) ∧
  run = convert be junkNoff (Some noff) fi fo
    (opened (<[noff := io]> (names h)) (inodes h) (fds h) fi fo ii io 0 [] 0).
Proof.
  destruct opens_both as (fi & fo & ii & io & ? & ? & ? & ? & ? & ? & Hrun). exists fi, fo, ii, io.
  repeat (split; [done|]). apply (Hrun (convert be junkNoff (Some noff))).
Qed.

Lemma main_good : convertible exe → int_header junkNoff →
  ∃ io H, run = Ok (Exit 0, with_file h noff io (noff_bytes be H ++ body exe (coff_sections exe))) ∧
    (∀ x j, x ≠ noff → names h !! x = Some j → j ≠ io) ∧
    header_ok exe (coff_sections exe) H.
Proof.
  intros Hcv Hj. destruct main_opens as (fi & fo & ii & io & Hfd & Hino & Hexe & Hfi & Hfo & Hio & ->).
  destruct (convert_good be junkNoff exe noff (<[noff := io]> (names h)) (inodes h) (fds h) fi fo ii io)
    as (H & -> & Hok); try done. by exists io, H.
Qed.

End Run.

(** ** Every outcome *)

Section Outcome.
Variables (be : bool) (junkNoff : NoffHeader) (exe noff : list Z).
Variables (ns : gmap (list Z) positive) (ino : gmap positive (list Z)) (ds : gmap Z (positive * Z))
  (fi fo : Z) (ii io : positive).
Hypotheses (Hfd : fi ≠ fo) (Hino : ii ≠ io) (Hexe : ino !! ii = Some exe).

Abbreviation st := (copying ns ino ds fi fo ii io).

(** The program goes on, or ends after it removed the output. *)
Definition proceeds {A} (P : A → Prop) (r : result (flow A * Host)) : Prop :=
  (∃ a off B, r = Ok (Go a, st off B) ∧ 0 <= off ∧ P a) ∨
  (∃ off F p, r = Ok (Exit 1, (Unlink noff (opened ns ino ds fi fo ii io off F p)).2)).

Lemma quit_proceeds {A} (P : A → Prop) off F p :
  proceeds P (quit (Some noff) (opened ns ino ds fi fo ii io off F p)).
Proof. right. by exists off, F, p. Qed.

Lemma copy_segment_proceeds s off B : 0 < s_size s → 0 <= off →
  proceeds (λ _, True) (copy_segment (Some noff) fi fo s (st off B)).
Proof.
  intros Hs Hoff. rewrite copy_segment_run with (exe := exe) by done.
  destruct (_ =? s_size s); [|apply quit_proceeds]. left. eexists _, _, _. split; [done|].
  split; [|done]. destruct (Z.ltb_spec (s_scnptr s) 0); lia.
Qed.

Lemma bind_proceeds {A C} (P : A → Prop) (Q : C → Prop) (m : tool A) (f : A → tool C) h :
  proceeds P (m h) → (∀ a off B, 0 <= off → P a → proceeds Q (f a (st off B))) →
  proceeds Q ((m ≫= f) h).
Proof.
  intros [(a & off & B & Hm & Hoff & HP)|(off & F & p & Hm)] Hf; unfold mbind, tool_bind; rewrite Hm; [by apply Hf|].
  right. by exists off, F, p.
Qed.

Lemma copy_section_proceeds s H n off B : 0 <= s_size s → 0 <= off →
  proceeds (λ x, noffMagic x.1 = noffMagic H) (copy_section (Some noff) fi fo s H n (st off B)).
Proof.
  intros Hs Hoff. unfold copy_section.
  assert (Hret : ∀ H' n', noffMagic H' = noffMagic H → proceeds (λ x, noffMagic x.1 = noffMagic H)
            ((mret (H', n') : tool (NoffHeader * Z)) (st off B))).
  { intros H' n' HH'. left. by exists (H', n'), off, B. }
  assert (Hcopy : ∀ H' n', noffMagic H' = noffMagic H → s_size s ≠ 0 →
    proceeds (λ x, noffMagic x.1 = noffMagic H)
      ((copy_segment (Some noff) fi fo s ;; (mret (H', n') : tool (NoffHeader * Z))) (st off B))).
  { intros H' n' HH' Hz. eapply bind_proceeds; [apply copy_segment_proceeds; lia|]. intros _ off' B' Ho' _.
    left. by exists (H', n'), off', B'. }
  destruct (Z.eqb_spec (s_size s) 0); [by apply Hret|].
  destruct (named dot_text (s_name s)); [by apply Hcopy|].
  destruct (named dot_data (s_name s) || _).
  { destruct (negb _); [apply quit_proceeds|by apply Hcopy]. }
  destruct (named dot_bss (s_name s) || _); [|apply quit_proceeds].
  destruct (negb _); [|by apply Hret]. destruct (_ =? _); [apply quit_proceeds|by apply Hret].
Qed.

Lemma copy_sections_proceeds secs H n off B : Forall (λ s, 0 <= s_size s) secs → 0 <= off →
  proceeds (λ H', noffMagic H' = noffMagic H) (copy_sections (Some noff) fi fo secs H n (st off B)).
Proof.
  intros Hs. revert H n off B. induction Hs as [|s secs Hs _ IH]; intros H n off B Hoff; cbn [copy_sections].
  { left. by exists H, off, B. }
  eapply bind_proceeds; [by apply copy_section_proceeds|]. intros [H1 n1] off1 B1 Ho1 HH1. cbn [fst] in HH1.
  rewrite <- HH1. by apply IH.
Qed.

Lemma read_cases n off F p : 0 <= n → 0 <= off →
  let got := take (Z.to_nat n) (drop (Z.to_nat off) exe) in
  (Coff_Read (Some noff) fi n (opened ns ino ds fi fo ii io off F p) =
     Ok (Go got, opened ns ino ds fi fo ii io (off + n) F p) ∧ Z.of_nat (length got) = n) ∨
  (∃ off', Coff_Read (Some noff) fi n (opened ns ino ds fi fo ii io off F p) =
     Ok (Exit 1, (Unlink noff (opened ns ino ds fi fo ii io off' F p)).2)).
Proof.
  intros Hn Hoff got. rewrite Coff_Read_run with (exe := exe) by done. fold got.
  destruct (Z.eqb_spec (Z.of_nat (length got)) n); [by left|]. right. by eexists.
Qed.

(** How the conversion ends *)
Definition ends (r : result (flow unit * Host)) : Prop :=
  (∃ H B, r = Ok (Exit 0, mkHost ns (<[io := noff_bytes be H ++ B]> ino) ds) ∧ noffMagic H = NOFFMAGIC) ∨
  (∃ off F p, r = Ok (Exit 1, (Unlink noff (opened ns ino ds fi fo ii io off F p)).2)).

Lemma quit_ends off F p : ends (quit (Some noff) (opened ns ino ds fi fo ii io off F p)).
Proof. right. by exists off, F, p. Qed.

(** From the section headers on *)
Lemma copy_ends secs off : Forall (λ s, 0 <= s_size s) secs → 0 <= off → ds !! fi = None → ds !! fo = None →
  ends ((lseek fo sizeof_NoffHeader ;;
         noffH ← copy_sections (Some noff) fi fo secs (noff_start junkNoff) sizeof_NoffHeader;
         lseek fo 0 ;; Coff_Write (Some noff) fo (noff_bytes be noffH) ;; close fi ;; close fo ;; exit 0)
    (opened ns ino ds fi fo ii io off [] 0)).
Proof.
  intros Hs Hoff Hfi Hfo. tool_step. rewrite lseek_out by done. tool_step.
  change (opened ns ino ds fi fo ii io off [] sizeof_NoffHeader) with (st off []).
  destruct (copy_sections_proceeds secs (noff_start junkNoff) sizeof_NoffHeader off [])
    as [(H & off' & B & -> & _ & Hm)|(off' & F & p & ->)]; [done|done| |by right; exists off', F, p].
  unfold copying. tool_step. rewrite lseek_out by done. tool_step. rewrite Coff_Write_run by done.
  rewrite write_header by apply length_noff_bytes. left. exists H, B. split; [by apply close_both|done].
Qed.

Lemma convert_ends : Forall byte exe → Forall (λ s, 0 <= s_size s) (coff_sections exe) →
  ds !! fi = None → ds !! fo = None →
  ends (convert be junkNoff (Some noff) fi fo (opened ns ino ds fi fo ii io 0 [] 0)).
Proof.
  intros Hb Hs Hfi Hfo. unfold convert, sizeof_filehdr, sizeof_aouthdr, sizeof_scnhdr. tool_step.
  destruct (read_cases 20 0 [] 0) as [[-> Hl1]|[off ->]]; [done|done| |apply quit_ends with (off := off)].
  change (Z.to_nat 20) with 20%nat in *. change (Z.to_nat 0) with 0%nat in *. rewrite drop_0 in *. rewrite Z.add_0_l.
  assert (20 <= length exe)%nat as Hl20 by (rewrite length_take in Hl1; lia).
  rewrite !short_to_host; [|by apply Forall_take|rewrite length_take; lia|by apply Forall_take|rewrite length_take; lia].
  rewrite !take_drop_take by lia. destruct (negb _); [apply quit_ends|]. tool_step.
  destruct (read_cases 56 20 [] 0) as [[-> Hl2]|[off ->]]; [done|done| |apply quit_ends with (off := off)].
  destruct (negb _); [apply quit_ends|]. change (20 + 56) with 76. tool_step.
  assert (0 <= le_val (take 2 (drop 2 exe))) as Hn0 by (apply le_val_bound; by apply Forall_take, Forall_drop).
  destruct (read_cases (le_val (take 2 (drop 2 exe)) * 40) 76 [] 0) as [[-> Hl3]|[off ->]];
    [lia|done| |apply quit_ends with (off := off)].
  change (Z.to_nat (le_val (take 2 (drop 2 exe)))) with (coff_count exe).
  replace (Z.to_nat (le_val (take 2 (drop 2 exe)) * 40)) with (40 * coff_count exe)%nat in *
    by (unfold coff_count; lia).
  change (Z.to_nat 76) with 76%nat in *. rewrite length_take in Hl3.
  rewrite sections_of_host by ((by apply Forall_drop) || (unfold coff_count in *; lia)).
  apply copy_ends; try done. lia.
Qed.

End Outcome.

(** ** Properties *)

(** C4: what the converter makes of a program.  For a COFF file with at most one
    section with contents of each kind (.text; .data or .rdata; .bss or .sbss),
    on a host of either byte order, the converter exits with 0 and has written
    the NOFF file: a header with the magic number that says of each of these
    sections its address, its size and where its bytes are in the file, and has
    size 0 for a kind that the program lacks; then the bytes of the sections.
    No other file has changed, and all descriptors are closed. *)
Theorem coff2noff_correct be junkNoff prog coff noff exe h :
  wf_host h → file_named h coff = Some exe → coff ≠ noff → convertible exe → int_header junkNoff →
  ∃ H h', coff2noff_main be junkNoff [prog; coff; noff] h = Ok (Exit 0, h') ∧
    fds h' = fds h ∧ wf_host h' ∧
    (∀ x, file_named h' x = if decide (x = noff) then Some (noff_bytes be H ++ body exe (coff_sections exe))
                            else file_named h x) ∧
    noff_of_bytes be (noff_bytes be H) = H ∧ noffMagic H = NOFFMAGIC ∧ describes exe (coff_sections exe) H.
Proof.
  intros Hw Hf Hne Hcv Hj. destruct (main_good be junkNoff prog coff noff exe h Hw Hf Hne Hcv Hj)
    as (io & H & -> & Hio & []). exists H. eexists. split; [done|]. split; [done|].
  split; [by apply wf_with|]. split; [intros x; by apply file_named_with|]. split; [by apply noff_roundtrip|done].
Qed.

(** The converter on any file.  Whatever bytes the input has, as long as no
    section claims a negative size, the converter ends with exit code 0 or 1.
    With 0 the output is a NOFF file; with 1 there is no output file, not even
    the one that had the name before.  Other files are as before. *)
Theorem coff2noff_outcome be junkNoff prog coff noff exe h :
  wf_host h → file_named h coff = Some exe → coff ≠ noff → Forall byte exe →
  Forall (λ s, 0 <= s_size s) (coff_sections exe) →
  ∃ c h', coff2noff_main be junkNoff [prog; coff; noff] h = Ok (Exit c, h') ∧
    (∀ x, x ≠ noff → file_named h' x = file_named h x) ∧
    ((c = 0 ∧ ∃ H B, file_named h' noff = Some (noff_bytes be H ++ B) ∧ noffMagic H = NOFFMAGIC) ∨
     (c = 1 ∧ file_named h' noff = None)).
Proof.
  intros Hw Hf Hne Hb Hs.
  destruct (main_opens be junkNoff prog coff noff exe h Hw Hf Hne)
    as (fi & fo & ii & io & Hfd & Hino & Hexe & Hfi & Hfo & Hio & ->).
  destruct (convert_ends be junkNoff exe noff (<[noff := io]> (names h)) (inodes h) (fds h) fi fo ii io)
    as [(H & B & -> & Hm)|(off & F & p & ->)]; try done; eexists _, _; (split; [done|]).
  - set (F := noff_bytes be H ++ B). change (mkHost _ _ _) with (with_file h noff io F).
    split; [intros x Hx; by rewrite file_named_with, decide_False|]. left. split; [done|]. exists H, B.
    by rewrite file_named_with, decide_True.
  - unfold Unlink, opened. cbn [names]. rewrite lookup_insert_eq. cbn [snd].
    rewrite delete_insert_eq. split.
    + intros x Hx. unfold file_named. cbn [names inodes]. rewrite lookup_delete_ne by done.
      destruct (names h !! x) as [j|] eqn:Ej; [|done]. cbn. apply lookup_insert_ne. intros <-. by eapply Hio.
    + right. split; [done|]. unfold file_named. cbn [names]. by rewrite lookup_delete_eq.
Qed.

(** ** From the compiler's file to memory *)

(** Sections that follow one another in memory as in the file, from address 0 *)
Definition contiguous (exe : list Z) : Prop := ∀ a s b, coff_sections exe = a ++ s :: b →
  s_size s ≠ 0 → kind_of s ≠ Some KBss → s_paddr s = Z.of_nat (length (body exe a)).

Definition memory_size (exe : list Z) : Z :=
  Z.of_nat (length (body exe (coff_sections exe))) + bss_size (coff_sections exe).

Lemma space_pages_memory exe H : header_ok exe (coff_sections exe) H →
  0 <= bss_size (coff_sections exe) → memory_size exe + UserStackSize <= 2 ^ 31 - PageSize →
  space_pages H = divRoundUp (memory_size exe + UserStackSize) PageSize ∧
  Z.of_nat (length (body exe (coff_sections exe))) <= space_pages H * PageSize < 2 ^ 31.
Proof.
  intros [_ _ [Hb Hu] _] Hbss Hmax. unfold space_pages, memory_size in *. rewrite Hu, <- Hb.
  set (n := Z.of_nat (length _)) in *. assert (0 <= n) by (unfold n; lia).
  assert (UserStackSize = 1024) as -> by done.
  change (UserStackSize) with 1024 in Hmax. change PageSize with 256 in Hmax.
  rewrite u32_id by (unfold uint32; lia). split; [done|].
  rewrite divRoundUp_spec by (unfold PageSize, SectorSize; lia).
  unfold PageSize, SectorSize in *. pose proof (Z.div_mod (n + bss_size (coff_sections exe) + 1024 + 256 - 1) 256 ltac:(lia)).
  pose proof (Z.mod_pos_bound (n + bss_size (coff_sections exe) + 1024 + 256 - 1) 256 ltac:(lia)).
  split; [lia|]. assert (2 ^ 31 = 8388608 * 256) as Hp by done. lia.
Qed.

(** The bytes of the program in the image of its NOFF file *)
Lemma image_sections junkBuf exe hd size a s b :
  length hd = 40%nat → coff_sections exe = a ++ s :: b → good exe s → kind_of s ≠ Some KBss →
  Z.of_nat (length (body exe (coff_sections exe))) <= size →
  take (Z.to_nat (s_size s)) (drop (length (body exe a)) (image junkBuf (hd ++ body exe (coff_sections exe)) size)) =
  contents exe s.
Proof.
  intros Hhd Heq Hg Hk Hsize. unfold image. change (Z.to_nat sizeof_NoffHeader) with 40%nat.
  rewrite <- Hhd, drop_app_length. rewrite (take_ge (body _ _)) by lia.
  pose proof (length_contents exe s Hg) as Hl. rewrite decide_False in Hl by done.
  rewrite Heq, body_app. rewrite <- !app_assoc, drop_app_length. change (s :: b) with ([s] ++ b).
  rewrite body_app. unfold body at 1. cbn [fmap list_fmap concat]. rewrite app_nil_r, <- app_assoc.
  rewrite <- Hl, Nat2Z.id. apply take_app_length.
Qed.

Lemma noff_bytes_byte be H : Forall byte (noff_bytes be H).
Proof.
  assert (∀ z, Forall byte (host_bytes be 4 z)) as Hz.
  { intros z. unfold host_bytes. destruct be; [apply Forall_reverse|]; apply le_bytes_byte. }
  unfold noff_bytes. rewrite !Forall_app. auto 20.
Qed.

Lemma body_byte exe secs : Forall byte exe → Forall byte (body exe secs).
Proof.
  intros Hb. unfold body. apply Forall_concat, Forall_fmap, Forall_forall. intros s _. cbn. unfold contents.
  destruct (kind_of s) as [[]|]; [by apply Forall_take, Forall_drop..|done|done].
Qed.

(** The loader accepts what the converter wrote, on the same host. *)
Lemma read_header_noff be H rest : int_header H → noffMagic H = NOFFMAGIC →
  read_header be (take 40 (noff_bytes be H ++ rest)) = Some H.
Proof.
  intros Hi Hm. rewrite take_app_length' by (by rewrite length_noff_bytes). unfold read_header.
  rewrite noff_roundtrip by done. rewrite Hm, Z.eqb_refl. cbn [negb andb]. by rewrite Hm, Z.eqb_refl.
Qed.

Lemma bss_size_nonneg exe : convertible exe → 0 <= bss_size (coff_sections exe).
Proof.
  intros Hcv. unfold bss_size. pose proof (cv_good _ Hcv) as Hg.
  induction (coff_sections exe) as [|s l IH]; cbn [foldr]; [done|].
  assert (0 <= s_size s); [|case_decide; specialize (IH ltac:(intros; apply Hg; set_solver)); lia].
  destruct (decide (s_size s = 0)) as [->|Hz]; [done|]. destruct (Hg s ltac:(set_solver) Hz). lia.
Qed.

(** Past the program the memory is what the buffer held. *)
Lemma image_rest junkBuf hd rest size i :
  length hd = 40%nat → Z.of_nat (length rest) <= Z.of_nat i < size →
  image junkBuf (hd ++ rest) size !! i = Some (junkBuf i).
Proof.
  intros Hh Hi. unfold image. change (Z.to_nat sizeof_NoffHeader) with 40%nat. rewrite drop_app_length' by done.
  rewrite take_ge by lia. rewrite lookup_app_r by lia. rewrite lookup_drop, list_lookup_fmap, lookup_seq_lt by lia.
  cbn. do 2 f_equal. lia.
Qed.

(** C8: compiling to running.  A program file that the converter can handle is
    converted, opened and loaded by the constructor of [AddrSpace] on the same host,
    beside processes that run already; the process has room for all sections and the
    stack.  In its memory the sections of code and initialised data follow one another
    from address 0 in the order of the file, whatever addresses they have: each is at
    the address the COFF file gave it if the linker put them so.  All the rest, where
    the uninitialised data and the stack are to be, is not cleared: it is what the
    buffer of the constructor held. *)
Theorem coff_to_memory be junkNoff junkBuf junkHdr junkTable prog coff noff exe threadID ps v :
  vm_ok ps v → file_named (vmHost v) coff = Some exe → coff ≠ noff →
  convertible exe → int_header junkNoff → (∀ i, byte (junkBuf i)) →
  memory_size exe + UserStackSize <= 2 ^ 31 - PageSize → noff ≠ swap_name threadID →
  (∀ k sp L, ps !! k = Some (sp, L) → swapFileName sp ≠ swap_name threadID ∧ swapFileName sp ≠ noff) →
  ∃ h1 fd h2 sp m h3 L,
    coff2noff_main be junkNoff [prog; coff; noff] (vmHost v) = Ok (Exit 0, h1) ∧
    stub_Open noff h1 = Ok (Some fd, h2) ∧
    newAddrSpace be junkBuf junkHdr junkTable fd threadID (vmMachine v) h2 = Ok (Some sp, m, h3) ∧
    numPages sp = divRoundUp (memory_size exe + UserStackSize) PageSize ∧
    vm_ok (ps ++ [(sp, L)]) (mkVM m h3 (bitMap v) (IPT v) (IPT_VP v) (pageFaults v)) ∧
    (∀ a s b, coff_sections exe = a ++ s :: b → s_size s ≠ 0 → kind_of s ≠ Some KBss →
       take (Z.to_nat (s_size s)) (drop (length (body exe a)) L) = contents exe s) ∧
    (contiguous exe → ∀ s, s ∈ coff_sections exe → s_size s ≠ 0 → kind_of s ≠ Some KBss →
       take (Z.to_nat (s_size s)) (drop (Z.to_nat (s_paddr s)) L) = contents exe s) ∧
    (∀ i, (length (body exe (coff_sections exe)) <= i < length L)%nat → L !! i = Some (junkBuf i)).
Proof.
  intros Hok Hf Hne Hcv Hj Hjb Hmax Hns Hps.
  destruct (main_good be junkNoff prog coff noff exe (vmHost v) (vo_host _ _ Hok) Hf Hne Hcv Hj)
    as (io & H & Hrun & Hio & Hho). set (out := noff_bytes be H ++ body exe (coff_sections exe)) in *.
  set (h1 := with_file (vmHost v) noff io out) in *.
  assert (wf_host h1) as Hw1 by (apply wf_with; [apply Hok|done]).
  assert (file_named h1 noff = Some out) as Hout by (unfold h1; by rewrite file_named_with, decide_True).
  destruct (stub_Open_spec noff out h1 Hw1 Hout) as (fd & i & h2 & Hop & Hi & Hbs & Hfd & Hh2).
  destruct (space_pages_memory exe H Hho (bss_size_nonneg _ Hcv) Hmax) as (Hn & Hlow & Hhigh).
  set (v2 := mkVM (vmMachine v) h2 (bitMap v) (IPT v) (IPT_VP v) (pageFaults v)).
  assert (Hfiles : ∀ x, x ≠ noff → file_named h2 x = file_named (vmHost v) x).
  { intros x Hx. rewrite Hh2. change (file_named h1 x = file_named (vmHost v) x).
    unfold h1. by rewrite file_named_with, decide_False. }
  assert (vm_ok ps v2) as Hok2.
  { apply vm_ok_host; [done| |].
    - by eapply stub_Open_wf.
    - intros k sp L Hk. apply Hfiles, (Hps _ _ _ Hk). }
  assert (loadable junkBuf fd threadID noff i 0 out H ps v2) as Hlo.
  { split; cbn [v2 vmHost]; rewrite ?Hh2; cbn [names inodes fds]; try done.
    - apply lookup_insert_eq.
    - apply Forall_app. split; [apply noff_bytes_byte|apply body_byte, Hcv].
    - unfold out. rewrite length_app, length_noff_bytes. lia.
    - intros k sp L Hk. apply (Hps _ _ _ Hk). }
  destruct Hho as [_ Hint _ Hm].
  destruct (newAddrSpace_ok be junkBuf junkHdr junkTable fd threadID noff i 0 out H ps v2 Hok2 Hlo)
    as (sp & m & h3 & off & Hnew & Hnp & _ & _ & _ & _ & Hok3); [by apply read_header_noff|].
  exists h1, fd, h2, sp, m, h3. eexists. split; [done|]. split; [done|]. split; [exact Hnew|].
  split; [congruence|]. split; [exact Hok3|].
  assert (∀ a s b, coff_sections exe = a ++ s :: b → s_size s ≠ 0 → kind_of s ≠ Some KBss →
    take (Z.to_nat (s_size s)) (drop (length (body exe a)) (image junkBuf out (space_pages H * PageSize))) =
    contents exe s) as Hsec.
  { intros a s b Heq Hz Hk. apply (image_sections _ _ _ _ a s b); try done; [apply length_noff_bytes|].
    apply (cv_good _ Hcv); [|done]. rewrite Heq. set_solver. }
  split; [exact Hsec|]. split.
  - intros Hcont s Hs Hz Hk. apply list_elem_of_split in Hs as (a & b & Heq).
    rewrite (Hcont a s b Heq Hz Hk), Nat2Z.id. by eapply Hsec.
  - intros j Hr. rewrite length_image in Hr. unfold out. apply image_rest; [apply length_noff_bytes|lia].
Qed.

(** ** Witnesses *)

Definition demo_section (name : list Z) (paddr size scnptr : Z) : list Z :=
  name ++ replicate (8 - length name) 0 ++ le_bytes 4 paddr ++ le_bytes 4 paddr ++ le_bytes 4 size ++
  le_bytes 4 scnptr ++ replicate 16 0.

Definition demo_coff_of (secs : list (list Z)) (data : list Z) : list Z :=
  le_bytes 2 MIPSELMAGIC ++ le_bytes 2 (Z.of_nat (length secs)) ++ replicate 16 0 ++
  le_bytes 2 OMAGIC ++ replicate 54 0 ++ concat secs ++ data.

(** Two instructions, a word of data, and 16 bytes of uninitialised data *)
Definition demo_coff : list Z :=
  demo_coff_of [demo_section dot_text 0 8 196; demo_section dot_data 8 4 204; demo_section dot_bss 12 16 0]
    [0; 0; 2; 36; 12; 0; 0; 0; 1; 2; 3; 4].

Definition demo_host (exe : list Z) : Host := mkHost {[ [99] := 1%positive ]} {[ 1%positive := exe ]} ∅.

Lemma demo_host_wf exe : wf_host (demo_host exe).
Proof.
  split; cbn [demo_host names inodes fds].
  - intros x i [<- <-]%lookup_singleton_Some. by rewrite lookup_singleton_eq.
  - intros x y i [<- <-]%lookup_singleton_Some [<- _]%lookup_singleton_Some. done.
  - intros fd i off. by rewrite lookup_empty.
Qed.

Lemma demo_sections : coff_sections demo_coff =
  [mkScn (dot_text ++ [0; 0; 0]) 0 8 196; mkScn (dot_data ++ [0; 0; 0]) 8 4 204;
   mkScn (dot_bss ++ [0; 0; 0; 0]) 12 16 0].
Proof. vm_compute. reflexivity. Qed.

Lemma demo_byte : Forall byte demo_coff.
Proof. apply (bool_decide_unpack _). vm_compute. exact I. Qed.

Lemma three_split {A} (x y z : A) a s b : [x; y; z] = a ++ s :: b →
  (a = [] ∧ s = x) ∨ (a = [x] ∧ s = y) ∨ (a = [x; y] ∧ s = z).
Proof.
  destruct a as [|? [|? [|? [|]]]]; cbn; intros [=]; subst; auto.
Qed.

Lemma demo_convertible : convertible demo_coff.
Proof.
  split; try reflexivity.
  - exact demo_byte.
  - vm_compute. lia.
  - rewrite demo_sections. intros s Hs _. rewrite !elem_of_cons in Hs.
    destruct Hs as [->|[->|[->|Hs]]]; [..|by apply not_elem_of_nil in Hs];
      (split; [by eexists|done|]); intros Hk; try (by vm_compute); by destruct Hk.
  - rewrite demo_sections. intros a s b t [[-> ->]|[[-> ->]|[-> ->]]]%three_split Ht;
      rewrite ?elem_of_cons in Ht; intros _ _.
    + by apply not_elem_of_nil in Ht.
    + destruct Ht as [->|Ht]; [done|by apply not_elem_of_nil in Ht].
    + destruct Ht as [->|[->|Ht]]; [done|done|by apply not_elem_of_nil in Ht].
Qed.

Lemma demo_int : int_header (mkNoff 7 (mkSegment 7 7 7) (mkSegment 7 7 7) (mkSegment 7 7 7)).
Proof. split; [done|]. by intros []. Qed.

Lemma coff2noff_correct_witness : ∃ H h',
  coff2noff_main true (mkNoff 7 (mkSegment 7 7 7) (mkSegment 7 7 7) (mkSegment 7 7 7)) [[]; [99]; [110]]
    (demo_host demo_coff) = Ok (Exit 0, h') ∧
  virtualAddr (initData H) = 8 ∧ inFileAddr (initData H) = 48 ∧ segSize (uninitData H) = 16 ∧
  file_named h' [110] = Some (noff_bytes true H ++ [0; 0; 2; 36; 12; 0; 0; 0; 1; 2; 3; 4]).
Proof.
  destruct (coff2noff_correct true (mkNoff 7 (mkSegment 7 7 7) (mkSegment 7 7 7) (mkSegment 7 7 7)) [] [99]
    [110] demo_coff (demo_host demo_coff) (demo_host_wf _)) as (H & h' & Hr & _ & _ & Hf & _ & _ & Hd).
  - reflexivity.
  - discriminate.
  - exact demo_convertible.
  - exact demo_int.
  - exists H, h'. split; [exact Hr|]. rewrite demo_sections in Hd.
    destruct (Hd KData) as [Hdata _]. destruct (Hd KBss) as [Hbss _].
    destruct (Hdata [_] _ [_] eq_refl ltac:(done) eq_refl) as (Hv & _ & Hi).
    destruct (Hbss [_; _] _ [] eq_refl ltac:(done) eq_refl) as (_ & Hz & _). cbn [segment] in Hv, Hi, Hz.
    split; [exact Hv|]. split; [rewrite Hi by discriminate; vm_compute; reflexivity|]. split; [exact Hz|].
    rewrite Hf, decide_True by reflexivity. do 2 f_equal.
Defined.

Lemma coff2noff_outcome_witness : ∃ c h',
  coff2noff_main false (mkNoff 7 (mkSegment 7 7 7) (mkSegment 7 7 7) (mkSegment 7 7 7)) [[]; [99]; [110]]
    (demo_host (take 100 demo_coff)) = Ok (Exit c, h') ∧ c = 1 ∧ file_named h' [110] = None.
Proof.
  destruct (coff2noff_outcome false (mkNoff 7 (mkSegment 7 7 7) (mkSegment 7 7 7) (mkSegment 7 7 7)) [] [99]
    [110] (take 100 demo_coff) (demo_host (take 100 demo_coff)) (demo_host_wf _)) as (c & h' & Hr & _ & Hc).
  - reflexivity.
  - discriminate.
  - apply Forall_take, demo_byte.
  - apply (bool_decide_unpack _). vm_compute. exact I.
  - exists c, h'. split; [exact Hr|]. assert (Hev : coff2noff_main false (mkNoff 7 (mkSegment 7 7 7) (mkSegment 7 7 7)
      (mkSegment 7 7 7)) [[]; [99]; [110]] (demo_host (take 100 demo_coff)) ≠ Ok (Exit 0, h')).
    { vm_compute. discriminate. }
    destruct Hc as [[-> _]|[-> Hn]]; [by destruct Hev|]. by split.
Defined.

(** The test for .bss and .sbss is the wrong way round: sections that follow one
    another are refused, others are joined as if they did. *)
Example bss_test_inverted :
  let run secs := coff2noff_main false (mkNoff 7 (mkSegment 7 7 7) (mkSegment 7 7 7) (mkSegment 7 7 7))
    [[]; [99]; [110]] (demo_host (demo_coff_of secs [])) in
  (∃ h, run [demo_section dot_bss 0 16 0; demo_section dot_sbss 16 8 0] = Ok (Exit 1, h)) ∧
  (∃ h, run [demo_section dot_bss 0 16 0; demo_section dot_sbss 160 8 0] = Ok (Exit 0, h)).
Proof. split; eexists; vm_compute; reflexivity. Qed.

Lemma coff_to_memory_witness : ∃ h1 fd h2 sp m h3 L,
  coff2noff_main false (mkNoff 7 (mkSegment 7 7 7) (mkSegment 7 7 7) (mkSegment 7 7 7)) [[]; [99]; [110]]
    (demo_host demo_coff) = Ok (Exit 0, h1) ∧ stub_Open [110] h1 = Ok (Some fd, h2) ∧
  newAddrSpace false (λ _, 0) (λ _, 0) (λ _, mkTE 0 7 true true true true) fd 0 (vmMachine demo_vm) h2 =
    Ok (Some sp, m, h3) ∧ numPages sp = 5 ∧ take 4 (drop 8 L) = [1; 2; 3; 4].
Proof.
  set (v := mkVM (vmMachine demo_vm) (demo_host demo_coff) (bitMap demo_vm) (IPT demo_vm) (IPT_VP demo_vm)
    (pageFaults demo_vm)).
  assert (Hok : vm_ok [] v).
  { apply vm_ok_host; [exact demo_vm_ok|apply demo_host_wf|]. intros k sp L Hk. discriminate Hk. }
  destruct (coff_to_memory false (mkNoff 7 (mkSegment 7 7 7) (mkSegment 7 7 7) (mkSegment 7 7 7)) (λ _, 0)
    (λ _, 0) (λ _, mkTE 0 7 true true true true) [] [99] [110] demo_coff 0 [] v Hok)
    as (h1 & fd & h2 & sp & m & h3 & L & Hr & Ho & Hn & Hp & _ & _ & Hs & _).
  - reflexivity.
  - discriminate.
  - exact demo_convertible.
  - exact demo_int.
  - done.
  - vm_compute. discriminate.
  - discriminate.
  - intros k sp L Hk. discriminate Hk.
  - exists h1, fd, h2, sp, m, h3, L. split; [exact Hr|]. split; [exact Ho|]. split; [exact Hn|].
    split; [rewrite Hp; vm_compute; reflexivity|].
    assert (Hcont : contiguous demo_coff).
    { unfold contiguous. rewrite demo_sections.
      intros a s b [[-> ->]|[[-> ->]|[-> ->]]]%three_split _ Hk; [reflexivity|vm_compute; reflexivity|]. by destruct Hk. }
    specialize (Hs Hcont). rewrite demo_sections in Hs.
    specialize (Hs (mkScn (dot_data ++ [0; 0; 0]) 8 4 204)). etransitivity; [apply Hs|vm_compute; reflexivity].
    + right. left.
    + discriminate.
    + vm_compute. discriminate.
Defined.
