(* ===== verification/Coff2Flat.v ===== *)
(** * bin/coff2flat.c: COFF files to memory images

    An earlier converter, over the same system calls as coff2noff.  Its headers are
    those of the host's own COFF (filehdr.h, aouthdr.h and scnhdr.h of MIPS), which
    are not in the repository: their sizes, and how their members are read, are
    parameters here. *)

From S2P Require Import Prelude Params.
From S2P Require Import BitMap.
From S2P Require Import Machine.
From S2P Require Import HostFs.
From S2P Require Import Kernel AddrSpace Paging Loader.
From S2P Require Import Coff2Noff.
Local Open Scope Z_scope.

(** The host's headers *)
Record headers := mkHeaders {
  filehdr_size : Z; f_magic : list Z → Z; f_nscns : list Z → Z;
  aouthdr_size : Z; magic : list Z → Z;
  scnhdr_size : Z; section : list Z → scnhdr }.

(** Sizes are positive, and the number of sections is an unsigned number. *)
Record headers_ok (ch : headers) : Prop := {
  ho_file : 0 <= filehdr_size ch; ho_aout : 0 <= aouthdr_size ch; ho_scn : 0 < scnhdr_size ch;
  ho_nscns : ∀ bs, 0 <= f_nscns ch bs }.

(** StackSize *)
Definition flat_stack : Z := 1024.

Section Code.
Variable ch : headers.

(** [read] and [write], checked *)
Definition Flat_Read (fd nBytes : Z) : tool (list Z) := fun h =>
  match file_of h fd with
  | None => exit 1 h
  | Some _ =>
      '(got, h) ← ReadPartial fd nBytes h;
      if Z.of_nat (length got) =? nBytes then Ok (Go got, h) else exit 1 h
  end.

Definition Flat_Write (fd : Z) (buf : list Z) : tool unit := fun h =>
  match file_of h fd with
  | None => exit 1 h
  | Some _ => h ← WriteFile fd buf h; Ok (Go tt, h)
  end.

(** .bss and .sbss are not copied. *)
Definition uncopied (s : scnhdr) : bool := named dot_bss (s_name s) || named dot_sbss (s_name s).

(** An iteration of the loop, on [top] *)
Definition flat_section (fdIn fdOut : Z) (s : scnhdr) (top : Z) : tool Z :=
  let above := wrap32 (s_paddr s + s_size s) in
  let top := if above >? top then above else top in
  if negb (uncopied s) then
    lseek fdIn (s_scnptr s) ;;
    malloc (s_size s) ;;
    buffer ← Flat_Read fdIn (s_size s);
    Flat_Write fdOut buffer ;;
    mret top
  else mret top.

Fixpoint flat_sections (fdIn fdOut : Z) (secs : list scnhdr) (top : Z) : tool Z :=
  match secs with
  | [] => mret top
  | s :: secs => top ← flat_section fdIn fdOut s top; flat_sections fdIn fdOut secs top
  end.

(** The section headers in what was read *)
Definition flat_headers (n : nat) (bs : list Z) : list scnhdr :=
  (λ i, section ch (take (Z.to_nat (scnhdr_size ch)) (drop (Z.to_nat (scnhdr_size ch) * i) bs))) <$> seq 0 n.

(** From the reading of the first header on *)
Definition flatten (fdIn fdOut : Z) : tool unit :=
  fileh ← Flat_Read fdIn (filehdr_size ch);
  if negb (f_magic ch fileh =? MIPSELMAGIC) then exit 1
  else
    systemh ← Flat_Read fdIn (aouthdr_size ch);
    if negb (magic ch systemh =? OMAGIC) then exit 1
    else
      let numsections := f_nscns ch fileh in
      raw ← Flat_Read fdIn (numsections * scnhdr_size ch);
      top ← flat_sections fdIn fdOut (flat_headers (Z.to_nat numsections) raw) 0;
      lseek fdOut (wrap32 (top + flat_stack - 4)) ;;
      Flat_Write fdOut [0; 0; 0; 0] ;;
      close fdIn ;;
      close fdOut.

(** [main], which does not return a value; the test after the second [open] looks at
    [fdIn], as the first. *)
Definition coff2flat_main (argv : list (list Z)) : tool unit :=
  match argv !! 1%nat with
  | None => exit 1
  | Some coffFileName =>
      fdIn ← open_in coffFileName;
      if fdIn =? -1 then exit 1
      else
        fdOut ← open_out (argv !! 2%nat);
        if fdIn =? -1 then exit 1
        else flatten fdIn fdOut
  end.
End Code.

(** ** What the flat file has *)

Definition flat_contents (exe : list Z) (s : scnhdr) : list Z :=
  if uncopied s then [] else take (Z.to_nat (s_size s)) (drop (Z.to_nat (s_scnptr s)) exe).
Definition flat_body (exe : list Z) (secs : list scnhdr) : list Z := concat (flat_contents exe <$> secs).

(** The end of the memory that the sections take *)
Definition flat_top (secs : list scnhdr) (top : Z) : Z := foldl (λ top s, Z.max top (s_paddr s + s_size s)) top secs.

Record flat_good (exe : list Z) (s : scnhdr) : Prop := {
  fg_size : 0 <= s_size s;
  fg_addr : 0 <= s_paddr s ∧ s_paddr s + s_size s < 2 ^ 31 - flat_stack;
  fg_file : uncopied s = false → 0 <= s_scnptr s ∧ s_scnptr s + s_size s <= Z.of_nat (length exe) }.

(** The parts of the file *)
Definition flat_fileh (ch : headers) (exe : list Z) : list Z := take (Z.to_nat (filehdr_size ch)) exe.
Definition flat_systemh (ch : headers) (exe : list Z) : list Z :=
  take (Z.to_nat (aouthdr_size ch)) (drop (Z.to_nat (filehdr_size ch)) exe).
Definition flat_secs (ch : headers) (exe : list Z) : list scnhdr :=
  let n := f_nscns ch (flat_fileh ch exe) in
  flat_headers ch (Z.to_nat n)
    (take (Z.to_nat (n * scnhdr_size ch)) (drop (Z.to_nat (filehdr_size ch + aouthdr_size ch)) exe)).

Record flattable (ch : headers) (exe : list Z) : Prop := {
  ft_magic : f_magic ch (flat_fileh ch exe) = MIPSELMAGIC;
  ft_omagic : magic ch (flat_systemh ch exe) = OMAGIC;
  ft_headers : filehdr_size ch + aouthdr_size ch + f_nscns ch (flat_fileh ch exe) * scnhdr_size ch <=
    Z.of_nat (length exe);
  ft_good : Forall (flat_good exe) (flat_secs ch exe) }.

(** The sections with contents are next to each other in memory, in the order of
    their headers, from address 0. *)
Definition adjoining (exe : list Z) (secs : list scnhdr) : Prop :=
  ∀ a s b, secs = a ++ s :: b → uncopied s = false → s_paddr s = Z.of_nat (length (flat_body exe a)).

(** ** Running *)

(** [Read] and [Write] differ from those of coff2noff when they fail only. *)
Lemma Flat_Read_ok name fd n h got h' : Coff_Read name fd n h = Ok (Go got, h') → Flat_Read fd n h = Ok (Go got, h').
Proof.
  unfold Coff_Read, Flat_Read, quit. destruct (file_of h fd); [|by destruct name].
  destruct (ReadPartial fd n h) as [[bs h1]| | | |]; cbn [mbind result_bind]; try done.
  destruct (_ =? n); [done|]. by destruct name.
Qed.

Lemma Flat_Write_ok name fd bs h h' : Coff_Write name fd bs h = Ok (Go tt, h') → Flat_Write fd bs h = Ok (Go tt, h').
Proof. unfold Coff_Write, Flat_Write, quit. destruct (file_of h fd); [done|]. by destruct name. Qed.

Lemma write_at_length F bs : write_at F (Z.of_nat (length F)) bs = F ++ bs.
Proof.
  unfold write_at. rewrite Nat2Z.id, Nat.sub_diag. cbn [replicate]. rewrite app_nil_r, take_ge, drop_ge by lia.
  by rewrite app_nil_r.
Qed.

Lemma flat_body_snoc exe pre s : flat_body exe (pre ++ [s]) = flat_body exe pre ++ flat_contents exe s.
Proof. unfold flat_body. rewrite fmap_app, concat_app. cbn. by rewrite app_nil_r. Qed.

Lemma flat_top_ge secs top : top <= flat_top secs top.
Proof.
  revert top. induction secs as [|s secs IH]; intros top; cbn [flat_top foldl]; [lia|].
  specialize (IH (top `max` (s_paddr s + s_size s))). unfold flat_top in IH. lia.
Qed.

Lemma flat_top_lt exe secs top : Forall (flat_good exe) secs → top < 2 ^ 31 - flat_stack →
  flat_top secs top < 2 ^ 31 - flat_stack.
Proof.
  intros Hs. revert top. induction Hs as [|s secs [_ Ha _] _ IH]; intros top Ht; cbn [flat_top foldl]; [done|].
  apply IH. lia.
Qed.

Lemma flat_top_in secs top s : s ∈ secs → s_paddr s + s_size s <= flat_top secs top.
Proof.
  revert top. induction secs as [|t secs IH]; intros top; [by intros ?%elem_of_nil|].
  intros [->|Hs]%elem_of_cons; cbn [flat_top foldl].
  - pose proof (flat_top_ge secs (top `max` (s_paddr t + s_size t))) as H. unfold flat_top in H. lia.
  - by apply IH.
Qed.

Section Run.
Variables (ch : headers) (exe flat : list Z).
Variables (ns : gmap (list Z) positive) (ino : gmap positive (list Z)) (ds : gmap Z (positive * Z))
  (fi fo : Z) (ii io : positive).
Hypotheses (Hfd : fi ≠ fo) (Hino : ii ≠ io) (Hexe : ino !! ii = Some exe).

Abbreviation st off F := (opened ns ino ds fi fo ii io off F (Z.of_nat (length F))).

Lemma flat_read n off F p : 0 <= n → 0 <= off → off + n <= Z.of_nat (length exe) →
  Flat_Read fi n (opened ns ino ds fi fo ii io off F p) =
  Ok (Go (take (Z.to_nat n) (drop (Z.to_nat off) exe)), opened ns ino ds fi fo ii io (off + n) F p).
Proof. intros. apply (Flat_Read_ok (Some flat)). by apply read_part. Qed.

Lemma flat_write bs off F p :
  Flat_Write fo bs (opened ns ino ds fi fo ii io off F p) =
  Ok (Go tt, opened ns ino ds fi fo ii io off (write_at F p bs) (p + Z.of_nat (length bs))).
Proof. apply (Flat_Write_ok (Some flat)). by apply Coff_Write_run. Qed.

Lemma flat_section_run s off F top : flat_good exe s → 0 <= off →
  ∃ off', flat_section fi fo s top (st off F) =
      Ok (Go (Z.max top (s_paddr s + s_size s)), st off' (F ++ flat_contents exe s)) ∧ 0 <= off'.
Proof.
  intros [Hsz Ha Hf] Hoff. unfold flat_section, flat_contents.
  rewrite wrap32_id by (unfold int32, flat_stack in *; lia).
  replace (if s_paddr s + s_size s >? top then s_paddr s + s_size s else top)
    with (Z.max top (s_paddr s + s_size s)) by (destruct (Z.gtb_spec (s_paddr s + s_size s) top); lia).
  destruct (uncopied s); cbn [negb].
  { exists off. rewrite app_nil_r. by split. }
  destruct (Hf eq_refl) as [Hp Hl]. unfold mbind, tool_bind. rewrite lseek_in with (exe := exe) by done.
  rewrite (proj2 (Z.ltb_ge (s_scnptr s) 0)) by lia. unfold malloc. rewrite (proj2 (Z.ltb_ge (s_size s) 0)) by lia.
  rewrite flat_read by lia. set (got := take _ _).
  assert (Z.of_nat (length got) = s_size s) as Hg by (unfold got; rewrite length_take, length_drop; lia).
  rewrite flat_write, write_at_length. exists (s_scnptr s + s_size s). split; [|lia].
  unfold mret, tool_ret. by rewrite length_app, Nat2Z.inj_add.
Qed.

Lemma flat_sections_run secs off F top : Forall (flat_good exe) secs → 0 <= off →
  ∃ off', flat_sections fi fo secs top (st off F) =
      Ok (Go (flat_top secs top), st off' (F ++ flat_body exe secs)) ∧ 0 <= off'.
Proof.
  intros Hs. revert off F top. induction Hs as [|s secs Hs _ IH]; intros off F top Hoff; cbn [flat_sections].
  { exists off. unfold flat_body. cbn. by rewrite app_nil_r. }
  unfold mbind, tool_bind. destruct (flat_section_run s off F top Hs Hoff) as (off1 & -> & H1).
  destruct (IH off1 (F ++ flat_contents exe s) (top `max` (s_paddr s + s_size s)) H1) as (off2 & -> & H2).
  exists off2. unfold flat_body. cbn [fmap list_fmap concat]. by rewrite <- app_assoc.
Qed.

Lemma flatten_run : headers_ok ch → flattable ch exe → ds !! fi = None → ds !! fo = None →
  flatten ch fi fo (opened ns ino ds fi fo ii io 0 [] 0) =
  Ok (Go tt, mkHost ns (<[io := write_at (flat_body exe (flat_secs ch exe))
                                 (flat_top (flat_secs ch exe) 0 + flat_stack - 4) [0; 0; 0; 0]]> ino) ds).
Proof.
  intros [Hf Ha Hs Hn] [Hm Ho Hh Hg] Hfi Hfo. pose proof (Hn (flat_fileh ch exe)) as Hn0.
  assert (0 <= f_nscns ch (flat_fileh ch exe) * scnhdr_size ch) by (apply Z.mul_nonneg_nonneg; lia).
  unfold flatten. unfold mbind at 1, tool_bind at 1. rewrite flat_read by lia.
  change (Z.to_nat 0) with 0%nat. rewrite drop_0, Z.add_0_l. fold (flat_fileh ch exe). rewrite Hm, Z.eqb_refl. cbn [negb].
  unfold mbind at 1, tool_bind at 1. rewrite flat_read by lia. fold (flat_systemh ch exe).
  rewrite Ho, Z.eqb_refl. cbn [negb].
  unfold mbind at 1, tool_bind at 1. rewrite flat_read by lia. fold (flat_secs ch exe).
  unfold mbind at 1, tool_bind at 1.
  destruct (flat_sections_run (flat_secs ch exe) (filehdr_size ch + aouthdr_size ch +
    f_nscns ch (flat_fileh ch exe) * scnhdr_size ch) [] 0 Hg ltac:(lia)) as (off & Hrun & Hoff).
  cbn [length app] in Hrun. change (Z.of_nat 0) with 0 in Hrun. rewrite Hrun.
  pose proof (flat_top_ge (flat_secs ch exe) 0). pose proof (flat_top_lt _ _ 0 Hg ltac:(done)).
  unfold mbind at 1, tool_bind at 1. rewrite wrap32_id by (unfold int32, flat_stack in *; lia).
  rewrite lseek_out by (done || (unfold flat_stack; lia)).
  unfold mbind, tool_bind. rewrite flat_write. unfold close, Close, opened. cbn [fds names inodes].
  rewrite lookup_insert_eq. cbn [mbind result_bind fds names inodes].
  rewrite delete_insert_id by (by rewrite lookup_insert_ne). rewrite lookup_insert_eq. cbn [mbind result_bind].
  by rewrite delete_insert_id.
Qed.
End Run.

(** ** Sections that adjoin *)

Lemma length_flat_contents exe s : flat_good exe s → uncopied s = false →
  Z.of_nat (length (flat_contents exe s)) = s_size s.
Proof. intros [Hs _ Hf] Hu. unfold flat_contents. rewrite Hu, length_take, length_drop. specialize (Hf Hu). lia. Qed.

Lemma adjoining_snoc exe pre s : adjoining exe (pre ++ [s]) → adjoining exe pre.
Proof. intros Ha a t b -> Ht. apply (Ha a t (b ++ [s])); [|done]. by rewrite <- app_assoc. Qed.

(** The sections that are copied take the memory below the end of the last one. *)
Lemma adjoining_covers exe secs (i : nat) : Forall (flat_good exe) secs → adjoining exe secs →
  (i < length (flat_body exe secs))%nat →
  ∃ s, s ∈ secs ∧ uncopied s = false ∧ s_paddr s <= Z.of_nat i < s_paddr s + s_size s.
Proof.
  induction secs as [|s secs IH] using rev_ind; intros Hg Ha Hi; [by cbn in Hi; lia|].
  apply Forall_app in Hg as [Hg [Hs _]%Forall_cons]. rewrite flat_body_snoc, length_app in Hi.
  destruct (decide (i < length (flat_body exe secs))%nat) as [Hlt|Hge].
  - destruct (IH Hg (adjoining_snoc _ _ _ Ha) Hlt) as (t & Ht & ? & ?). exists t. split; [set_solver|done].
  - destruct (uncopied s) eqn:Hu; [unfold flat_contents in Hi; rewrite Hu in Hi; cbn in Hi; lia|].
    exists s. split; [set_solver|]. split; [done|]. rewrite (Ha secs s [] eq_refl Hu).
    pose proof (length_flat_contents exe s Hs Hu). lia.
Qed.

Lemma flat_body_top exe secs : Forall (flat_good exe) secs → adjoining exe secs →
  Z.of_nat (length (flat_body exe secs)) <= flat_top secs 0.
Proof.
  intros Hg Ha. destruct (decide (length (flat_body exe secs) = 0%nat)) as [->|Hne]; [apply flat_top_ge|].
  destruct (adjoining_covers exe secs (length (flat_body exe secs) - 1) Hg Ha ltac:(lia)) as (s & Hs & Hu & Hr).
  pose proof (flat_top_in secs 0 s Hs). lia.
Qed.

(** Writing behind the end leaves a hole of zeros. *)
Lemma write_behind F p : Z.of_nat (length F) <= p →
  write_at F p [0; 0; 0; 0] = F ++ replicate (Z.to_nat (p + 4) - length F) 0.
Proof.
  intros Hp. unfold write_at. set (hole := replicate (Z.to_nat p - length F) 0).
  assert (length (F ++ hole) = Z.to_nat p) as Hl by (unfold hole; rewrite length_app, length_replicate; lia).
  rewrite take_ge, drop_ge by (cbn [length]; lia). rewrite app_nil_r, <- app_assoc. f_equal. unfold hole.
  change [0; 0; 0; 0] with (replicate 4 0). rewrite <- replicate_add. f_equal. lia.
Qed.

(** ** The property *)

(** What coff2flat makes of a program.  For a COFF file with the magic numbers whose
    sections are within it, the program ends normally and has written the contents
    of the sections other than .bss and .sbss in the order of their headers, one
    after the other, and a zero word 1024 bytes above the end of the highest section.
    Where the sections adjoin from address 0, that is the memory of the program:
    every section is at its address, all else is zero, and there is room for the
    stack.  The program does not look at the address of a section when it writes it,
    so otherwise it is not. *)
Theorem coff2flat_correct ch prog coff flat exe h :
  headers_ok ch → wf_host h → file_named h coff = Some exe → coff ≠ flat → flattable ch exe →
  ∃ F h', coff2flat_main ch [prog; coff; flat] h = Ok (Go tt, h') ∧ fds h' = fds h ∧
    (∀ x, file_named h' x = if decide (x = flat) then Some F else file_named h x) ∧
    F = write_at (flat_body exe (flat_secs ch exe)) (flat_top (flat_secs ch exe) 0 + flat_stack - 4) [0; 0; 0; 0] ∧
    (adjoining exe (flat_secs ch exe) →
       Z.of_nat (length F) = flat_top (flat_secs ch exe) 0 + flat_stack ∧
       (∀ s, s ∈ flat_secs ch exe → uncopied s = false →
          take (Z.to_nat (s_size s)) (drop (Z.to_nat (s_paddr s)) F) = flat_contents exe s) ∧
       (∀ i v, F !! i = Some v →
          (∀ s, s ∈ flat_secs ch exe → uncopied s = false → ¬ (s_paddr s <= Z.of_nat i < s_paddr s + s_size s)) →
          v = 0)).
Proof.
  intros Hch Hw Hf Hne Hft.
  destruct (opens_both coff flat exe h Hw Hf Hne) as (fi & fo & ii & io & Hfd & Hino & Hexe & Hfi & Hfo & Hio & Hrun).
  pose proof (flatten_run ch exe flat (<[flat := io]> (names h)) (inodes h) (fds h) fi fo ii io Hfd Hino Hexe Hch Hft
    Hfi Hfo) as Hfl. rewrite <- (Hrun (flatten ch)) in Hfl. eexists _, _. split; [exact Hfl|]. split; [done|].
  split; [intros x; by apply (file_named_with h flat io)|]. split; [done|]. intros Ha.
  set (secs := flat_secs ch exe) in *. pose proof (ft_good _ _ Hft) as Hg. fold secs in Hg.
  pose proof (flat_body_top exe secs Hg Ha) as Hle. rewrite write_behind by (unfold flat_stack; lia).
  set (k := (_ - _)%nat). split; [|split].
  - rewrite length_app, length_replicate. unfold k, flat_stack. lia.
  - intros s Hs Hu. apply list_elem_of_split in Hs as (a & b & Hsplit).
    rewrite (Ha a s b Hsplit Hu), Nat2Z.id.
    assert (flat_good exe s) as Hgs by (rewrite Hsplit in Hg; by apply Forall_app in Hg as [_ [? _]%Forall_cons]).
    assert (flat_body exe secs = flat_body exe a ++ flat_contents exe s ++ flat_body exe b) as ->.
    { unfold flat_body. by rewrite Hsplit, fmap_app, concat_app. }
    rewrite <- !app_assoc, drop_app_length. apply take_app_length'.
    pose proof (length_flat_contents exe s Hgs Hu). lia.
  - intros i v Hv Hout. destruct (decide (i < length (flat_body exe secs))%nat) as [Hlt|Hge].
    + destruct (adjoining_covers exe secs i Hg Ha Hlt) as (s & Hs & Hu & Hr). by destruct (Hout s Hs Hu).
    + rewrite lookup_app_r in Hv by lia. by apply lookup_replicate in Hv as [-> _].
Qed.

(** ** Witnesses *)

(** The structures of coff.h, as on the MIPS *)
Definition mips_headers : headers :=
  mkHeaders sizeof_filehdr (λ bs, short_at false bs 0) (λ bs, short_at false bs 2 mod 2 ^ 16)
    sizeof_aouthdr (λ bs, short_at false bs 0) sizeof_scnhdr (λ bs, section_at false bs 0).

(** demo_coff: eight bytes of code at 0 and four of data at 8 *)
Lemma coff2flat_correct_witness : ∃ F h',
  coff2flat_main mips_headers [[112]; [99]; [102]] (demo_host demo_coff) = Ok (Go tt, h') ∧
  file_named h' [102] = Some F ∧ take 12 F = [0; 0; 2; 36; 12; 0; 0; 0; 1; 2; 3; 4] ∧ Z.of_nat (length F) = 28 + 1024.
Proof.
  destruct (coff2flat_correct mips_headers [112] [99] [102] demo_coff (demo_host demo_coff))
    as (F & h' & Hrun & _ & Hfiles & HF & _).
  - split; [done..|]. intros bs. apply Z.mod_pos_bound. done.
  - apply demo_host_wf.
  - reflexivity.
  - discriminate.
  - split; [by vm_compute|by vm_compute|by vm_compute|].
    assert (flat_secs mips_headers demo_coff = coff_sections demo_coff) as -> by (vm_compute; reflexivity).
    rewrite demo_sections. repeat constructor; cbn; unfold flat_stack; try lia; intros; vm_compute; split; discriminate.
  - exists F, h'. split; [exact Hrun|]. split; [by rewrite Hfiles|]. subst F. split; vm_compute; reflexivity.
Defined.

(** With a gap between the code and the data, which are at 0 and at 16, the data is
    behind the code in the flat file, at 8. *)
Definition gap_coff : list Z :=
  demo_coff_of [demo_section dot_text 0 8 156; demo_section dot_data 16 4 164] [0; 0; 2; 36; 12; 0; 0; 0; 1; 2; 3; 4].

Lemma coff2flat_gap : ∃ F h',
  coff2flat_main mips_headers [[112]; [99]; [102]] (demo_host gap_coff) = Ok (Go tt, h') ∧
  file_named h' [102] = Some F ∧ take 4 (drop 8 F) = [1; 2; 3; 4] ∧ take 4 (drop 16 F) = [0; 0; 0; 0].
Proof. eexists _, _. split; [vm_compute; reflexivity|]. split; [vm_compute; reflexivity|]. by split; vm_compute. Qed.
