(* ===== verification/CxxStack.v ===== *)
(** * c++example: the stacks of the C++ tutorial

    A stack as an array (stack.cc, the class [ArrayStack] of inheritstack.cc and,
    for any type of items, templatestack.cc), a linked list (list.cc) and a stack
    over it ([ListStack]).  The abstract class [Stack] of inheritstack.h is the
    type class [Stack] here: [SelfTest] is written against it, and what it
    promises is a relation to a bounded sequence. *)

From S2P Require Import Prelude.
Local Open Scope Z_scope.

(** ** The abstract class *)

Class Stack (S T : Type) := {
  Push : T → S → result S;
  Pop : S → result (T * S);
  Full : S → bool;
  Empty : S → bool }.

(** What the test programs print *)
Inductive output (T : Type) := Pushing (v : T) | Popping (v : T).
Arguments Pushing {T} v.
Arguments Popping {T} v.

Section SelfTest.
Context {S T : Type} `{Stack S T}.
Variable next : T → T.   (** [count++] *)

(** [while (!Empty()) cout << "popping " << Pop()] *)
Fixpoint pop_all (fuel : nat) (s : S) : result (list (output T) * S) :=
  match fuel with
  | O => NoFuel
  | Datatypes.S n =>
      if Empty s then Ok ([], s)
      else
        '(v, s) ← Pop s;
        '(out, s) ← pop_all n s;
        Ok (Popping v :: out, s)
  end.

(** The first loop of [Stack::SelfTest(int numToPush)] *)
Fixpoint push_some (numToPush : nat) (count : T) (s : S) : result (list (output T) * S) :=
  match numToPush with
  | O => Ok ([], s)
  | Datatypes.S n =>
      ASSERT (negb (Full s));;
      s ← Push count s;
      '(out, s) ← push_some n (next count) s;
      Ok (Pushing count :: out, s)
  end.

Definition SelfTest (fuel : nat) (numToPush : Z) (start : T) (s : S) : result (list (output T) * S) :=
  '(out, s) ← push_some (Z.to_nat numToPush) start s;
  '(out', s) ← pop_all fuel s;
  Ok (out ++ out', s).

(** [while (!Full()) { ... Push(count++); }] of stack.cc and templatestack.cc *)
Fixpoint push_until_full (fuel : nat) (count : T) (s : S) : result (list (output T) * S) :=
  match fuel with
  | O => NoFuel
  | Datatypes.S n =>
      if Full s then Ok ([], s)
      else
        s ← Push count s;
        '(out, s) ← push_until_full n (next count) s;
        Ok (Pushing count :: out, s)
  end.

Definition SelfTestFull (fuel : nat) (start : T) (s : S) : result (list (output T) * S) :=
  '(out, s) ← push_until_full fuel start s;
  '(out', s) ← pop_all fuel s;
  Ok (out ++ out', s).

End SelfTest.

(** ** stack.cc, templatestack.cc and [ArrayStack] *)

Section ArrayStack.
Context {T : Type}.
Variable junk : nat → T.

Record ArrayStack := mkArrayStack { size : Z; top : Z; stack : list T }.

Definition newArrayStack (sz : Z) : result ArrayStack :=
  ASSERT (1 <=? sz);;
  Ok (mkArrayStack sz 0 (junk <$> seq 0 (Z.to_nat sz))).

Definition ArrayStack_Full (s : ArrayStack) : bool := top s =? size s.
Definition ArrayStack_Empty (s : ArrayStack) : bool := top s =? 0.

Definition ArrayStack_Push (value : T) (s : ArrayStack) : result ArrayStack :=
  ASSERT (negb (ArrayStack_Full s));;
  st ← aset (stack s) (top s) value;
  Ok (mkArrayStack (size s) (wrap32 (top s + 1)) st).

Definition ArrayStack_Pop (s : ArrayStack) : result (T * ArrayStack) :=
  ASSERT (negb (ArrayStack_Empty s));;
  let top := wrap32 (top s - 1) in
  v ← aget (stack s) top;
  Ok (v, mkArrayStack (size s) top (stack s)).

#[export] Instance ArrayStack_Stack : Stack ArrayStack T :=
  {| Push := ArrayStack_Push; Pop := ArrayStack_Pop; Full := ArrayStack_Full; Empty := ArrayStack_Empty |}.

End ArrayStack.
Arguments ArrayStack T : clear implicits.

(** ** list.cc *)

Record ListElement := mkElement { next : option positive; item : Z }.

(** A list, with the heap its elements are in *)
Record CList := mkCList { heap : gmap positive ListElement; first : option positive; last : option positive }.

Definition newCList (h : gmap positive ListElement) : CList := mkCList h None None.

Definition CList_Empty (l : CList) : bool := bool_decide (first l = None).

Definition CList_Prepend (value : Z) (l : CList) : CList :=
  let element := fresh (dom (heap l)) in
  if CList_Empty l
  then mkCList (<[element := mkElement None value]> (heap l)) (Some element) (Some element)
  else mkCList (<[element := mkElement (first l) value]> (heap l)) (Some element) (last l).

Definition CList_Remove (l : CList) : result (Z * CList) :=
  ASSERT (negb (CList_Empty l));;
  match first l with
  | None => Undefined
  | Some element =>
      match heap l !! element with
      | None => Undefined
      | Some e =>
          let h := delete element (heap l) in
          Ok (item e, if bool_decide (first l = last l) then mkCList h None None
                      else mkCList h (next e) (last l))
      end
  end.

(** [List::~List]; the fuel is the number of elements in the heap. *)
Fixpoint delete_loop (fuel : nat) (l : CList) : result CList :=
  match fuel with
  | O => NoFuel
  | S n => if CList_Empty l then Ok l else '(_, l) ← CList_Remove l; delete_loop n l
  end.
Definition delete_CList (l : CList) : result (gmap positive ListElement) :=
  l ← delete_loop (S (base.size (heap l))) l; Ok (heap l).

(** ** [ListStack] *)

Definition ListStack := CList.
Definition newListStack (h : gmap positive ListElement) : ListStack := newCList h.
Definition ListStack_Full (s : ListStack) : bool := false.
Definition ListStack_Empty (s : ListStack) : bool := CList_Empty s.
Definition ListStack_Push (value : Z) (s : ListStack) : result ListStack := Ok (CList_Prepend value s).
Definition ListStack_Pop (s : ListStack) : result (Z * ListStack) :=
  ASSERT (negb (ListStack_Empty s));;
  CList_Remove s.

#[export] Instance ListStack_Stack : Stack ListStack Z :=
  {| Push := ListStack_Push; Pop := ListStack_Pop; Full := ListStack_Full; Empty := ListStack_Empty |}.

(** [main] of inheritstack.cc: what is printed, and the heap afterwards *)
Definition count_next (c : Z) : Z := wrap32 (c + 1).

Definition inheritstack_main (junk : nat → Z) (h : gmap positive ListElement)
  : result (list (output Z) * list (output Z) * gmap positive ListElement) :=
  s1 ← newArrayStack junk 10;
  let s2 := newListStack h in
  '(out1, _) ← SelfTest count_next 11 10 17 s1;
  '(out2, s2) ← SelfTest count_next 11 10 17 s2;
  h ← delete_CList s2;
  Ok (out1, out2, h).

(** [main] of stack.cc and of templatestack.cc, which tests [Stack<int>] and
    [Stack<char>]; the fuel is the size of the stack and one more. *)
Definition stack_main (junk : nat → Z) : result (list (output Z)) :=
  s ← newArrayStack junk 10;
  '(out, _) ← SelfTestFull count_next 11 17 s;
  Ok out.

Definition char_next (c : Z) : Z := schar (c + 1).

Definition templatestack_main (junk1 junk2 : nat → Z) : result (list (output Z) * list (output Z)) :=
  s1 ← newArrayStack junk1 10;
  s2 ← newArrayStack junk2 10;
  '(out1, _) ← SelfTestFull count_next 11 17 s1;
  '(out2, _) ← SelfTestFull char_next 11 97 s2;
  Ok (out1, out2).

(** ** What a stack promises *)

(** A sequence with a bound on its length, or none; the first item is the top. *)
Record Bounded (T : Type) := mkBounded { capacity : option Z; items : list T }.
Arguments mkBounded {T} capacity items.
Arguments capacity {T} b.
Arguments items {T} b.

Definition spec_Full {T} (b : Bounded T) : bool := bool_decide (capacity b = Some (Z.of_nat (length (items b)))).

#[export] Instance Bounded_Stack {T} : Stack (Bounded T) T := {|
  Push v b := if spec_Full b then AssertFail else Ok (mkBounded (capacity b) (v :: items b));
  Pop b := match items b with [] => AssertFail | v :: l => Ok (v, mkBounded (capacity b) l) end;
  Full := spec_Full;
  Empty b := match items b with [] => true | _ => false end |}.

(** The same outcome, with related results *)
Definition same {A B} (R : A → B → Prop) (r : result A) (r' : result B) : Prop :=
  match r, r' with
  | Ok a, Ok b => R a b
  | AssertFail, AssertFail => True
  | _, _ => False
  end.

Class StackImpl (S T : Type) `{Stack S T} := {
  models : S → Bounded T → Prop;
  models_Full s b : models s b → Full s = Full b;
  models_Empty s b : models s b → Empty s = Empty b;
  models_Push s b v : models s b → same models (Push v s) (Push v b);
  models_Pop s b : models s b → same (λ x y, x.1 = y.1 ∧ models x.2 y.2) (Pop s) (Pop b) }.

(** Clients *)
Inductive op (T : Type) := OPush (v : T) | OPop | OFull | OEmpty.
Arguments OPush {T} v.
Arguments OPop {T}.
Arguments OFull {T}.
Arguments OEmpty {T}.
Inductive answer (T : Type) := ANone | AItem (v : T) | ABool (b : bool).
Arguments ANone {T}.
Arguments AItem {T} v.
Arguments ABool {T} b.

Fixpoint run_ops {S T} `{Stack S T} (ops : list (op T)) (s : S) : result (list (answer T) * S) :=
  match ops with
  | [] => Ok ([], s)
  | o :: ops =>
      '(a, s) ← match o with
                | OPush v => s ← Push v s; Ok (ANone, s)
                | OPop => '(v, s) ← Pop s; Ok (AItem v, s)
                | OFull => Ok (ABool (Full s), s)
                | OEmpty => Ok (ABool (Empty s), s)
                end;
      '(l, s) ← run_ops ops s;
      Ok (a :: l, s)
  end.

Section Client.
Context {S T : Type} `{StackImpl S T}.

Lemma same_bind {A B C D} (R : A → B → Prop) (Q : C → D → Prop) r r' f g :
  same R r r' → (∀ a b, R a b → same Q (f a) (g b)) → same Q (r ≫= f) (r' ≫= g).
Proof. intros Hr Hf. destruct r, r'; try done. cbn in *. by apply Hf. Qed.

Abbreviation related := (λ x y, x.1 = y.1 ∧ models x.2 y.2).

Lemma run_ops_same ops s b : models s b → same related (run_ops ops s) (run_ops ops b).
Proof.
  revert s b. induction ops as [|o ops IH]; intros s b Hm; cbn [run_ops]; [done|].
  apply (same_bind related).
  - destruct o; cbn [fst snd].
    + eapply same_bind; [by apply models_Push|]. done.
    + eapply same_bind; [by apply models_Pop|]. intros [x s'] [y b'] [Hxy Hm']. cbn in *. by rewrite Hxy.
    + cbn. by rewrite (models_Full s b).
    + cbn. by rewrite (models_Empty s b).
  - intros [x s'] [y b'] [Hxy Hm']. cbn [fst snd] in *. subst y. eapply same_bind; [by apply IH|].
    intros [l s2] [l' b2] [Hl Hm2]. cbn [fst snd] in *. by subst l'.
Qed.

(** The test pushes and pops in opposite orders. *)
Variable nxt : T → T.

Fixpoint counts (n : nat) (c : T) : list T :=
  match n with O => [] | Datatypes.S n => c :: counts n (nxt c) end.

Lemma pop_all_same fuel s b : models s b → (length (items b) < fuel)%nat →
  ∃ s', pop_all fuel s = Ok (Popping <$> items b, s') ∧ models s' (mkBounded (capacity b) []).
Proof.
  revert s b. induction fuel as [|fuel IH]; intros s [cap l] Hm Hf; [lia|]. cbn [pop_all items] in *.
  rewrite (models_Empty _ _ Hm). cbn [Empty Bounded_Stack items]. destruct l as [|v l]; [by exists s|].
  pose proof (models_Pop _ _ Hm) as Hp. cbn [Pop Bounded_Stack items] in Hp.
  destruct (Pop s) as [[v' s1]| | | |]; [|done..]. cbn in Hp. destruct Hp as [-> Hm1]. cbn [mbind result_bind].
  destruct (IH s1 _ Hm1) as (s2 & -> & Hm2); [cbn in *; lia|]. by exists s2.
Qed.

Lemma push_some_same n c s cap l : models s (mkBounded cap l) →
  (∀ k, cap = Some k → Z.of_nat (length l + n) <= k) →
  ∃ s', push_some nxt n c s = Ok (Pushing <$> counts n c, s') ∧
    models s' (mkBounded cap (reverse (counts n c) ++ l)).
Proof.
  revert c s l. induction n as [|n IH]; intros c s l Hm Hcap; cbn [push_some counts]; [by exists s|].
  assert (spec_Full (mkBounded cap l) = false) as Hnf.
  { apply bool_decide_eq_false. cbn. intros Hc. specialize (Hcap _ Hc). lia. }
  rewrite (models_Full _ _ Hm). cbn [Full Bounded_Stack]. rewrite Hnf. cbn [negb ASSERT mbind result_bind].
  pose proof (models_Push _ _ c Hm) as Hp. cbn [Push Bounded_Stack] in Hp. rewrite Hnf in Hp.
  destruct (Push c s) as [s1| | | |]; [|done..]. cbn [same] in Hp. cbn [mbind result_bind].
  destruct (IH (nxt c) s1 (c :: l)) as (s2 & -> & Hm2); [done|intros k Hk; specialize (Hcap k Hk); cbn; lia|].
  exists s2. split; [done|]. rewrite reverse_cons, <- app_assoc. exact Hm2.
Qed.

Lemma SelfTest_ok fuel n c s cap : models s (mkBounded cap []) → (∀ k, cap = Some k → n <= k) → 0 <= n →
  (Z.to_nat n < fuel)%nat →
  ∃ s', SelfTest nxt fuel n c s =
      Ok ((Pushing <$> counts (Z.to_nat n) c) ++ (Popping <$> reverse (counts (Z.to_nat n) c)), s') ∧
    models s' (mkBounded cap []).
Proof.
  intros Hm Hcap Hn Hf. unfold SelfTest.
  destruct (push_some_same (Z.to_nat n) c s cap [] Hm) as (s1 & -> & Hm1).
  { intros k Hk. specialize (Hcap k Hk). cbn. lia. }
  cbn [mbind result_bind]. rewrite app_nil_r in Hm1.
  assert (∀ n c, length (counts n c) = n) as Hlen by (induction n0; intros; cbn; auto).
  destruct (pop_all_same fuel s1 _ Hm1) as (s2 & -> & Hm2); [cbn [items]; by rewrite length_reverse, Hlen|].
  by exists s2.
Qed.

End Client.

(** ** The array *)

Section Array.
Context {T : Type}.
Variable junk : nat → T.

Record array_models (s : ArrayStack T) (b : Bounded T) : Prop := {
  am_capacity : capacity b = Some (size s);
  am_length : Z.of_nat (length (stack s)) = size s;
  am_int : size s < 2 ^ 31;
  am_top : top s = Z.of_nat (length (items b)) ∧ top s <= size s;
  am_items : take (length (items b)) (stack s) = reverse (items b) }.

Lemma array_Full s b : array_models s b → ArrayStack_Full s = spec_Full b.
Proof.
  intros []. unfold ArrayStack_Full, spec_Full. rewrite am_capacity0. destruct am_top0 as [-> _].
  destruct (Z.eqb_spec (Z.of_nat (length (items b))) (size s)) as [->|].
  - by rewrite bool_decide_true.
  - rewrite bool_decide_false; [done|]. congruence.
Qed.

Lemma array_Push s b v : array_models s b → same array_models (ArrayStack_Push v s) (Push v b).
Proof.
  intros Hm. unfold ArrayStack_Push. rewrite (array_Full s b Hm). cbn [Push Bounded_Stack].
  destruct (spec_Full b) eqn:Hf; [done|]. cbn [negb ASSERT mbind result_bind].
  rewrite <- (array_Full s b Hm) in Hf. apply Z.eqb_neq in Hf. destruct Hm as [Hc Hl Hi [Ht Hts] Hit].
  rewrite aset_Ok by lia. cbn [mbind result_bind same].
  split; cbn [capacity size stack top items length]; [done|by rewrite length_insert|done| |].
  - rewrite wrap32_id by (unfold int32; lia). lia.
  - rewrite Ht, Nat2Z.id. rewrite reverse_cons, <- Hit.
    rewrite (take_S_r _ _ v) by (apply list_lookup_insert_eq; lia). f_equal. apply take_insert_ge. lia.
Qed.

Lemma array_Pop s b : array_models s b →
  same (λ x y, x.1 = y.1 ∧ array_models x.2 y.2) (ArrayStack_Pop s) (Pop b).
Proof.
  intros [Hc Hl Hi [Ht Hts] Hit]. unfold ArrayStack_Pop, ArrayStack_Empty. cbn [Pop Bounded_Stack]. rewrite Ht.
  destruct (items b) as [|v l] eqn:E; [done|]. cbn [length] in *.
  rewrite (proj2 (Z.eqb_neq _ 0)) by lia. cbn [negb ASSERT mbind result_bind].
  rewrite wrap32_id by (unfold int32; lia).
  replace (Z.of_nat (S (length l)) - 1) with (Z.of_nat (length l)) by lia.
  rewrite reverse_cons in Hit.
  assert (stack s !! length l = Some v) as Hv.
  { rewrite <- (lookup_take_lt _ (S (length l))) by lia. rewrite Hit.
    rewrite lookup_app_r by (rewrite length_reverse; lia). by rewrite length_reverse, Nat.sub_diag. }
  assert (aget (stack s) (Z.of_nat (length l)) = Ok v) as -> by (apply aget_Ok; split; [lia|by rewrite Nat2Z.id]).
  cbn [mbind result_bind same fst snd]. split; [done|].
  split; cbn [capacity size stack top items]; try done; [lia|].
  assert (take (length l) (stack s) = take (length l) (take (S (length l)) (stack s))) as ->
    by (rewrite take_take; f_equal; lia). rewrite Hit.
  by rewrite take_app_length' by (by rewrite length_reverse).
Qed.

#[export] Program Instance ArrayStack_Impl : StackImpl (ArrayStack T) T := {| models := array_models |}.
Next Obligation. apply array_Full. Qed.
Next Obligation.
  intros s b [Hc Hl Hi [Ht Hts] Hit]. cbn. unfold ArrayStack_Empty. rewrite Ht. by destruct (items b).
Qed.
Next Obligation. intros s b v. apply array_Push. Qed.
Next Obligation. apply array_Pop. Qed.

End Array.

(** ** The list *)

Section List.
Variable F : gmap positive ListElement.   (** the rest of the heap *)

(** The elements of the list are at [ls], beside [F]. *)
Record list_at (l : CList) (ls : list positive) (vs : list Z) : Prop := {
  la_length : length ls = length vs;
  la_nodup : NoDup ls;
  la_first : first l = head ls;
  la_last : last l = list_basics.list.last ls;
  la_elem : ∀ i p v, ls !! i = Some p → vs !! i = Some v → heap l !! p = Some (mkElement (ls !! S i) v);
  la_frame : ∀ p, p ∉ ls → heap l !! p = F !! p;
  la_new : ∀ p, p ∈ ls → F !! p = None }.

Definition list_models (l : CList) (b : Bounded Z) : Prop :=
  capacity b = None ∧ ∃ ls, list_at l ls (items b).

Lemma list_Empty l ls vs : list_at l ls vs → CList_Empty l = match vs with [] => true | _ => false end.
Proof.
  intros []. unfold CList_Empty. rewrite la_first0.
  by destruct ls, vs.
Qed.

Lemma list_Prepend v l ls vs : list_at l ls vs → ∃ p, list_at (CList_Prepend v l) (p :: ls) (v :: vs).
Proof.
  intros Hl. pose proof Hl as []. set (p := fresh (dom (heap l))). exists p.
  assert (heap l !! p = None) as Hp by (apply not_elem_of_dom, is_fresh).
  assert (p ∉ ls) as Hpl.
  { intros [i Hi]%list_elem_of_lookup. destruct (lookup_lt_is_Some_2 vs i) as [v' Hv'].
    { rewrite <- la_length0. by eapply lookup_lt_Some. }
    rewrite (la_elem0 i p v' Hi Hv') in Hp. done. }
  assert (CList_Prepend v l = mkCList (<[p := mkElement (head ls) v]> (heap l)) (Some p)
            (list_basics.list.last (p :: ls))) as ->.
  { unfold CList_Prepend. rewrite (list_Empty _ _ _ Hl). fold p. rewrite la_first0, la_last0.
    destruct vs, ls; done. }
  split; cbn [heap first last length]; try done.
  - by rewrite la_length0.
  - by constructor.
  - intros [|i] q w; cbn [lookup list_lookup].
    + intros [= <-] [= <-]. rewrite lookup_insert_eq. by destruct ls.
    + intros Hi Hw. rewrite lookup_insert_ne; [by apply la_elem0|]. intros <-. apply Hpl. by eapply list_elem_of_lookup_2.
  - intros q Hq. rewrite not_elem_of_cons in Hq. rewrite lookup_insert_ne by naive_solver. apply la_frame0. naive_solver.
  - intros q [->|Hq]%elem_of_cons; [|by apply la_new0]. by rewrite <- la_frame0.
Qed.

Lemma list_Remove l ls v vs : list_at l ls (v :: vs) →
  ∃ ls' l', CList_Remove l = Ok (v, l') ∧ list_at l' ls' vs.
Proof.
  intros Hl. pose proof Hl as []. destruct ls as [|p ls]; [done|]. unfold CList_Remove.
  rewrite (list_Empty _ _ _ Hl), la_first0. cbn [negb ASSERT mbind result_bind head].
  rewrite (la_elem0 0%nat p v eq_refl eq_refl). cbn [item next]. change ((p :: ls) !! 1%nat) with (ls !! 0%nat). apply NoDup_cons in la_nodup0 as [Hp Hnd].
  assert ((if bool_decide (Some p = last l) then mkCList (delete p (heap l)) None None
           else mkCList (delete p (heap l)) (ls !! 0%nat) (last l)) =
          mkCList (delete p (heap l)) (head ls) (list_basics.list.last ls)) as ->.
  { rewrite la_last0. destruct ls as [|q ls]; [by rewrite bool_decide_true|]. rewrite last_cons_cons.
    rewrite bool_decide_false; [done|]. intros Heq. apply Hp. symmetry in Heq. by apply last_Some_elem_of. }
  exists ls. eexists. split; [done|].
  split; cbn [heap first last]; try done.
  - cbn in la_length0. lia.
  - intros i q w Hi Hw. rewrite lookup_delete_ne; [by apply (la_elem0 (S i))|].
    intros <-. apply Hp. by eapply list_elem_of_lookup_2.
  - intros q Hq. destruct (decide (q = p)) as [->|Hne].
    + rewrite lookup_delete_eq. symmetry. apply la_new0. by left.
    + rewrite lookup_delete_ne by done. apply la_frame0. by rewrite not_elem_of_cons.
  - intros q Hq. apply la_new0. by right.
Qed.

Program Instance ListStack_Impl : StackImpl ListStack Z := {| models := list_models |}.
Next Obligation. intros s [c l] [Hc _]. cbn in Hc. subst c. cbn. unfold spec_Full. by rewrite bool_decide_false. Qed.
Next Obligation. intros s b [_ [ls Hl]]. cbn. unfold ListStack_Empty. by rewrite (list_Empty _ _ _ Hl). Qed.
Next Obligation.
  intros s [c l] v [Hc [ls Hl]]. cbn in Hc, Hl. subst c. cbn [Push ListStack_Stack Bounded_Stack].
  unfold spec_Full, ListStack_Push. rewrite bool_decide_false by done. cbn [same].
  destruct (list_Prepend v _ _ _ Hl) as [p Hp]. split; [done|]. by exists (p :: ls).
Qed.
Next Obligation.
  intros s [c l] [Hc [ls Hl]]. cbn in Hc, Hl. subst c. cbn [Pop ListStack_Stack Bounded_Stack items].
  unfold ListStack_Pop, ListStack_Empty. rewrite (list_Empty _ _ _ Hl). destruct l as [|v l]; [done|].
  cbn [negb ASSERT mbind result_bind]. destruct (list_Remove _ _ _ _ Hl) as (ls' & l' & -> & Hl').
  cbn [same fst snd]. split; [done|]. split; [done|]. by exists ls'.
Qed.

(** The destructor frees the elements and nothing else. *)
Lemma list_delete l ls vs : list_at l ls vs → delete_CList l = Ok F.
Proof.
  assert (∀ vs l ls fuel, list_at l ls vs → (length vs < fuel)%nat → delete_loop fuel l = Ok (mkCList F None None)) as Hloop.
  { clear. induction vs as [|v vs IH]; intros l ls [|fuel] Hl Hf; [lia| |lia|]; cbn [delete_loop];
      rewrite (list_Empty _ _ _ Hl).
    - destruct Hl. destruct ls; [|done]. destruct l as [h f la]. cbn in *. subst f la. do 2 f_equal.
      apply map_eq. intros p. apply la_frame0. apply not_elem_of_nil.
    - destruct (list_Remove _ _ _ _ Hl) as (ls' & l' & -> & Hl'). cbn [mbind result_bind].
      apply (IH l' ls'); [done|]. cbn in Hf. lia. }
  intros Hl. unfold delete_CList. rewrite (Hloop vs l ls); [done|done|]. destruct Hl.
  assert (list_to_set ls ⊆ dom (heap l)) as Hsub.
  { intros p Hp%elem_of_list_to_set. apply list_elem_of_lookup in Hp as [i Hi].
    destruct (lookup_lt_is_Some_2 vs i) as [v Hv]; [rewrite <- la_length0; by eapply lookup_lt_Some|].
    apply elem_of_dom. by eexists; eapply la_elem0. }
  apply subseteq_size in Hsub. rewrite size_list_to_set, size_dom in Hsub by done. lia.
Qed.

Lemma newListStack_models : list_models (newListStack F) (mkBounded None []).
Proof. split; [done|]. exists []. split; try done; [constructor|]. intros p Hp. by apply not_elem_of_nil in Hp. Qed.

End List.

(** ** Properties *)

Lemma newArrayStack_models {T} (junk : nat → T) sz : 1 <= sz < 2 ^ 31 →
  ∃ s, newArrayStack junk sz = Ok s ∧ array_models s (mkBounded (Some sz) []).
Proof.
  intros Hsz. unfold newArrayStack. rewrite (proj2 (Z.leb_le 1 sz)) by lia. eexists. split; [done|].
  split; cbn; try done; [rewrite length_fmap, length_seq; lia|lia|lia].
Qed.

(** C19: the stacks of the tutorial.  Every sequence of calls of Push, Pop, Full
    and Empty on an array stack of [sz] items returns what a sequence bounded by
    [sz] returns, and fails an ASSERT exactly where pushing on the full or popping
    from the empty sequence has no answer; no index is out of bounds.  The same
    for the list stack and an unbounded sequence; when it is deleted, the heap is
    as before it was made. *)
Theorem stacks_refine {T} (junk : nat → T) (sz : Z) (ops : list (op T)) (ops' : list (op Z))
    (h : gmap positive ListElement) :
  1 <= sz < 2 ^ 31 →
  (∃ s, newArrayStack junk sz = Ok s ∧
     same (λ x y, x.1 = y.1) (run_ops ops s) (run_ops ops (mkBounded (Some sz) []))) ∧
  same (λ x y, x.1 = y.1 ∧ delete_CList x.2 = Ok h)
    (run_ops ops' (newListStack h)) (run_ops ops' (mkBounded None [])).
Proof.
  intros Hsz. split.
  - destruct (newArrayStack_models junk sz Hsz) as (s & Hs & Hm). exists s. split; [done|].
    pose proof (run_ops_same ops s _ Hm) as Hr. unfold same in *.
    destruct (run_ops ops s), (run_ops ops (mkBounded (Some sz) [])); try done. by destruct Hr.
  - pose proof (@run_ops_same _ _ _ (ListStack_Impl h) ops' _ _ (newListStack_models h)) as Hr. unfold same in *.
    destruct (run_ops ops' (newListStack h)) as [[]| | | |], (run_ops ops' (mkBounded None [])) as [[]| | | |]; try done.
    destruct Hr as (Heq & _ & ls & Hl). split; [done|]. by eapply list_delete.
Qed.

Lemma stacks_refine_witness :
  same (λ x y, x.1 = y.1 ∧ delete_CList x.2 = Ok ∅)
    (run_ops [OPush 5; OPush 7; OPop; OEmpty] (newListStack ∅))
    (run_ops [OPush 5; OPush 7; OPop; OEmpty] (mkBounded None [])) ∧
  (∃ s, newArrayStack (λ _, 0) 1 = Ok s ∧ run_ops [OPush 5; OFull; OPush 7] s = AssertFail).
Proof.
  destruct (stacks_refine (λ _, 0) 1 [OPush 5; OFull; OPush 7] [OPush 5; OPush 7; OPop; OEmpty] ∅)
    as [(s & Hs & Hr) Hl]; [lia|].
  split; [exact Hl|]. exists s. split; [exact Hs|]. by destruct (run_ops _ s).
Defined.

(** The test program prints the numbers from 17 on, and back, for both stacks. *)
Definition seventeen_on : list Z := [17; 18; 19; 20; 21; 22; 23; 24; 25; 26].

Lemma array_test (s : ArrayStack Z) : array_models s (mkBounded (Some 10) []) →
  ∃ s', SelfTest count_next 11 10 17 s = Ok ((Pushing <$> seventeen_on) ++ (Popping <$> reverse seventeen_on), s').
Proof.
  intros Hm. destruct (@SelfTest_ok _ _ _ ArrayStack_Impl count_next 11 10 17 s (Some 10) Hm) as (s1 & Hr & _);
    [intros k [= <-]; lia|lia|lia|]. by exists s1.
Qed.

Lemma list_test h : 
  ∃ s' ls, SelfTest count_next 11 10 17 (newListStack h) =
    Ok ((Pushing <$> seventeen_on) ++ (Popping <$> reverse seventeen_on), s') ∧ list_at h s' ls [].
Proof.
  destruct (@SelfTest_ok _ _ _ (ListStack_Impl h) count_next 11 10 17 _ None (newListStack_models h))
    as (s2 & Hr & _ & ls & Hl); [done|lia|lia|]. by exists s2, ls.
Qed.

Theorem inheritstack_main_prints junk h :
  let out := (Pushing <$> seventeen_on) ++ (Popping <$> reverse seventeen_on) in
  inheritstack_main junk h = Ok (out, out, h).
Proof.
  unfold inheritstack_main. destruct (newArrayStack_models junk 10) as (s & -> & Hm); [lia|].
  cbn [mbind result_bind]. destruct (array_test s Hm) as (s1 & ->). destruct (list_test h) as (s2 & ls & -> & Hl).
  cbn [mbind result_bind]. by rewrite (list_delete h s2 ls [] Hl).
Qed.

(** The test programs of stack.cc and templatestack.cc fill the stack and empty
    it in the opposite order, with the numbers from 17 on and the letters from
    'a' on. *)
Definition letters_a_to_j : list Z := [97; 98; 99; 100; 101; 102; 103; 104; 105; 106].

Theorem stack_mains_print junk junk' :
  let out l := (Pushing <$> l) ++ (Popping <$> reverse l) in
  stack_main junk = Ok (out seventeen_on) ∧
  templatestack_main junk junk' = Ok (out seventeen_on, out letters_a_to_j).
Proof. by split. Qed.
