(* ===== verification/FsTest.v ===== *)
(** * filesys/fstest.cc: Copy, Print and the performance test

    The commands -cp, -p and -t of the build with FILESYS: a UNIX file copied
    into the Nachos file system ten bytes at a time, a Nachos file printed, and
    the test that writes, reads and removes a large file.  UNIX files are those of
    HostFs.v, whose descriptors stand for the streams of the C library. *)

From S2P Require Import Prelude Params SectorStore.
From S2P Require Import HostFs.
From S2P Require Import FileHdr OpenFile Directory FileSys FsSpec.
From S2P Require Kernel.
From S2P Require Import SynchDisk FsWitness.
Local Open Scope Z_scope.

(** What is printed besides file contents *)
Inductive message :=
| CopyNoInput | CopyNoOutput | PrintNoFile
| PerfNoCreate | PerfNoOpen | PerfNoWrite | PerfNoOpenRead | PerfNoRead | PerfNoRemove.

Definition TransferSize : Z := 10.

(** "TestFile", "1234567890" *)
Definition FileName : list Z := [84; 101; 115; 116; 70; 105; 108; 101].
Definition Contents : list Z := [49; 50; 51; 52; 53; 54; 55; 56; 57; 48].
Definition ContentSize : Z := 10.
Definition FileSize : Z := ContentSize * 5000.

Section Code.
Context {D : Type} `{SectorStore D}.
Variables (junk : nat → Z) (junkMap : nat → Z) (junkEntry : nat → DirectoryEntry)
  (junkHdr : FileHeader).

(** [while ((amountRead = fread(...)) > 0) openFile->Write(buffer, amountRead)] *)
Fixpoint copy_loop (fuel : nat) (fp : Z) (openFile : OpenFile) (d : D) (h : Host)
  : result (D * Host) :=
  match fuel with
  | O => NoFuel
  | S n =>
      '(buffer, h) ← ReadPartial fp TransferSize h;
      let amountRead := Z.of_nat (length buffer) in
      if amountRead >? 0 then
        '(_, openFile, d) ← OpenFile.Write junk openFile buffer amountRead d;
        copy_loop n fp openFile d h
      else Ok (d, h)
  end.

(** Every iteration but the last reads a byte or more. *)
Definition Copy (fs : FileSystem) (from to : list Z) (d : D) (h : Host)
  : result (list message * D * Host) :=
  '(fp, h) ← OpenForReadWrite from false h;
  if fp =? -1 then Ok ([CopyNoInput], d, h)
  else
    h ← Lseek fp 0 2 h;
    fileLength ← Tell fp h;
    h ← Lseek fp 0 0 h;
    '(created, d) ← Create junk junkMap junkEntry junkHdr fs to fileLength d;
    if negb created then
      h ← HostFs.Close fp h; Ok ([CopyNoOutput], d, h)
    else
      '(openFile, d) ← Open junk junkEntry fs to d;
      match openFile with
      | None => AssertFail
      | Some openFile =>
          '(d, h) ← copy_loop (S (Z.to_nat fileLength)) fp openFile d h;
          h ← HostFs.Close fp h;
          Ok ([], d, h)
      end.

(** The characters printed *)
Fixpoint print_loop (fuel : nat) (openFile : OpenFile) (d : D) : result (list Z * D) :=
  match fuel with
  | O => NoFuel
  | S n =>
      '(amountRead, buffer, openFile, d) ← OpenFile.Read junk openFile TransferSize d;
      if amountRead >? 0 then
        '(out, d) ← print_loop n openFile d;
        Ok (take (Z.to_nat amountRead) buffer ++ out, d)
      else Ok ([], d)
  end.

Definition Print (fs : FileSystem) (nm : list Z) (d : D) : result (list message * list Z * D) :=
  '(openFile, d) ← Open junk junkEntry fs nm d;
  match openFile with
  | None => Ok ([PrintNoFile], [], d)
  | Some openFile =>
      '(out, d) ← print_loop (S (Z.to_nat (OpenFile.Length openFile))) openFile d;
      Ok ([], out, d)
  end.

(** [for (i = 0; i < FileSize; i += ContentSize)]: [n] iterations are left. *)
Fixpoint filewrite_loop (n : nat) (openFile : OpenFile) (d : D) : result (list message * D) :=
  match n with
  | O => Ok ([], d)
  | S n =>
      '(numBytes, openFile, d) ← OpenFile.Write junk openFile Contents ContentSize d;
      if numBytes <? 10 then Ok ([PerfNoWrite], d) else filewrite_loop n openFile d
  end.

Definition FileWrite (fs : FileSystem) (d : D) : result (list message * D) :=
  '(created, d) ← Create junk junkMap junkEntry junkHdr fs FileName 0 d;
  if negb created then Ok ([PerfNoCreate], d)
  else
    '(openFile, d) ← Open junk junkEntry fs FileName d;
    match openFile with
    | None => Ok ([PerfNoOpen], d)
    | Some openFile => filewrite_loop (Z.to_nat (FileSize / ContentSize)) openFile d
    end.

(** [strncmp] of ten characters with a string that has that many is 0 when they
    are all equal. *)
Fixpoint fileread_loop (n : nat) (openFile : OpenFile) (d : D) : result (list message * D) :=
  match n with
  | O => Ok ([], d)
  | S n =>
      '(numBytes, buffer, openFile, d) ← OpenFile.Read junk openFile ContentSize d;
      if (numBytes <? 10) || negb (bool_decide (take 10 buffer = Contents)) then Ok ([PerfNoRead], d)
      else fileread_loop n openFile d
  end.

Definition FileRead (fs : FileSystem) (d : D) : result (list message * D) :=
  '(openFile, d) ← Open junk junkEntry fs FileName d;
  match openFile with
  | None => Ok ([PerfNoOpenRead], d)
  | Some openFile => fileread_loop (Z.to_nat (FileSize / ContentSize)) openFile d
  end.

Definition PerformanceTest (fs : FileSystem) (d : D) : result (list message * D) :=
  '(out1, d) ← FileWrite fs d;
  '(out2, d) ← FileRead fs d;
  '(removed, d) ← Remove junk junkMap junkEntry fs FileName d;
  if negb removed then Ok (out1 ++ out2 ++ [PerfNoRemove], d) else Ok (out1 ++ out2, d).

End Code.

(** ** Copying *)

Section Proofs.
Context `{SectorStoreLaws D} (junk junkMap : nat → Z) (junkEntry : nat → DirectoryEntry)
  (junkHdr : FileHeader).
Hypothesis Hjunk : junk_ok junkEntry junkHdr.
Implicit Types (d : D) (fs : FileSystem).

(** Sequential writes: the file holds the first [k] bytes of [bs]. *)
Lemma Write_next fs dir bm nm f n k bs old d :
  ready d → fs_inv fs (contents d) dir bm → opened (contents d) dir nm f → Forall byte bs →
  length old = length bs → Z.of_nat (length bs) < 2 ^ 30 → 0 < n < 2 ^ 30 → (k < length bs)%nat →
  files (contents d) dir !! key nm = Some (take k bs ++ drop k old) → seekPosition f = Z.of_nat k →
  let chunk := take (Z.to_nat n) (drop k bs) in
  let k' := (k + length chunk)%nat in
  ∃ d', OpenFile.Write junk f chunk (Z.of_nat (length chunk)) d =
      Ok (Z.of_nat (length chunk), mkOpen (hdr f) (Z.of_nat k'), d') ∧
    ready d' ∧ fs_inv fs (contents d') dir bm ∧ opened (contents d') dir nm f ∧
    files (contents d') dir = <[key nm := take k' bs ++ drop k' old]> (files (contents d) dir).
Proof.
  intros Hr Hi Hop Hb Hlen Hsz Hn Hk Hf Hs chunk k'.
  destruct (opened_wf _ _ _ _ _ _ Hi Hop) as [_ Hfb]. rewrite Hfb in Hf. injection Hf as Hf.
  assert (length chunk <= length bs - k)%nat as Hcl by (unfold chunk; rewrite length_take, length_drop; lia).
  assert (0 < length chunk)%nat as Hcl0 by (unfold chunk; rewrite length_take, length_drop; lia).
  unfold OpenFile.Write. rewrite Hs.
  destruct (WriteAt_files junk fs dir bm nm f chunk (Z.of_nat (length chunk)) (Z.of_nat k) d)
    as (d' & Hw & Hr' & Hi' & Hop' & Hfs); try done; try lia.
  { by apply Forall_take, Forall_drop. }
  rewrite Hf in Hw, Hfs.
  assert (length (take k bs ++ drop k old) = length bs) as Hl by (rewrite length_app, length_take, length_drop; lia).
  assert (transfer (Z.of_nat (length (take k bs ++ drop k old))) (Z.of_nat (length chunk)) (Z.of_nat k) =
    Z.of_nat (length chunk)) as Ht.
  { unfold transfer. rewrite Hl, (proj2 (Z.leb_gt _ 0)), (proj2 (Z.leb_gt (Z.of_nat (length bs)) _)) by lia. cbn [orb]. lia. }
  rewrite Ht in Hw, Hfs. rewrite Hw. cbn [mbind result_bind]. exists d'.
  split; [do 4 f_equal; unfold k'; lia|]. split; [done|]. split; [done|]. split; [done|]. rewrite Hfs. f_equal.
  rewrite !Nat2Z.id. rewrite (take_ge chunk) by lia.
  rewrite take_app_length' by (rewrite length_take; lia).
  rewrite drop_app, drop_ge by (rewrite length_take; lia). rewrite drop_drop, length_take, Nat.min_l by lia. cbn [app].
  rewrite app_assoc. replace (k + (k + length chunk - k))%nat with k' by (unfold k'; lia). f_equal.
  unfold k', chunk. rewrite take_take_drop, length_take, length_drop.
  destruct (decide (Z.to_nat n <= length bs - k)%nat); [by rewrite Nat.min_l by lia|].
  rewrite !take_ge by lia. done.
Qed.

Section Stream.
Variables (ns : gmap (list Z) positive) (ino : gmap positive (list Z)) (ds : gmap Z (positive * Z))
  (fp : Z) (i : positive) (bs : list Z).
Hypotheses (Hi : ino !! i = Some bs) (Hb : Forall byte bs) (Hsz : Z.of_nat (length bs) < 2 ^ 30).

(** The stream at offset [k] *)
Definition stream (k : nat) : Host := mkHost ns ino (<[fp := (i, Z.of_nat k)]> ds).

Lemma stream_read k : let got := take 10 (drop k bs) in
  ReadPartial fp TransferSize (stream k) = Ok (got, stream (k + length got)).
Proof.
  intros got. unfold ReadPartial, stream. rewrite (fd_file ns ino ds fp i (Z.of_nat k) bs Hi). rewrite Nat2Z.id.
  change (TransferSize <? 0) with false. change (Z.to_nat TransferSize) with 10%nat. fold got. unfold set_offset. cbn [names inodes fds].
  rewrite insert_insert_eq, Nat2Z.inj_add. done.
Qed.

Lemma copy_loop_ok fuel : ∀ k f d fs dir bm nm old,
  (length bs - k < fuel)%nat → (k <= length bs)%nat → length old = length bs →
  ready d → fs_inv fs (contents d) dir bm → opened (contents d) dir nm f →
  files (contents d) dir !! key nm = Some (take k bs ++ drop k old) → seekPosition f = Z.of_nat k →
  ∃ d', copy_loop junk fuel fp f d (stream k) = Ok (d', stream (length bs)) ∧ ready d' ∧
    fs_inv fs (contents d') dir bm ∧ files (contents d') dir = <[key nm := bs]> (files (contents d) dir).
Proof.
  induction fuel as [|fuel IH]; intros k f d fs dir bm nm old Hfuel Hk Hold Hr Hinv Hop Hf Hs; [lia|].
  cbn [copy_loop]. rewrite stream_read. cbn [mbind result_bind]. set (chunk := take 10 (drop k bs)).
  destruct (decide (k = length bs)) as [->|Hne].
  - assert (chunk = []) as -> by (unfold chunk; rewrite drop_ge by lia; done). cbn [length Z.of_nat Z.gtb Z.compare].
    exists d. rewrite Nat.add_0_r. split; [done|]. split; [done|]. split; [done|].
    rewrite insert_id; [done|]. rewrite Hf, take_ge, drop_ge by lia. by rewrite app_nil_r.
  - destruct (Write_next fs dir bm nm f 10 k bs old d) as (d1 & Hw & Hr1 & Hi1 & Hop1 & Hf1); try done; try lia.
    change (take (Z.to_nat 10) (drop k bs)) with chunk in Hw, Hf1.
    assert (0 < length chunk)%nat as Hc by (unfold chunk; rewrite length_take, length_drop; lia).
    assert (k + length chunk <= length bs)%nat as Hc' by (unfold chunk; rewrite length_take, length_drop; lia).
    rewrite Z.gtb_ltb, (proj2 (Z.ltb_lt _ _)) by lia. rewrite Hw. cbn [mbind result_bind].
    destruct (IH (k + length chunk)%nat (mkOpen (hdr f) (Z.of_nat (k + length chunk))) d1 fs dir bm nm old)
      as (d2 & -> & Hr2 & Hi2 & Hf2); try done; try lia.
    { rewrite Hf1. by rewrite lookup_insert_eq. }
    exists d2. split; [done|]. split; [done|]. split; [done|]. rewrite Hf2, Hf1. by rewrite insert_insert_eq.
Qed.

End Stream.

(** ** Printing *)

Lemma print_loop_ok fuel : ∀ k f d, wf_hdr (hdr f) → ready d → seekPosition f = Z.of_nat k →
  let fb := file_bytes (contents d) (hdr f) in
  (length fb - k < fuel)%nat → (k <= length fb)%nat →
  ∃ d', print_loop junk fuel f d = Ok (drop k fb, d') ∧ ready d' ∧ contents d' = contents d.
Proof.
  induction fuel as [|fuel IH]; intros k f d Hw Hr Hs fb Hf Hk; [lia|]. cbn [print_loop].
  pose proof (file_bytes_length (contents d) (hdr f) (ready_image _ Hr) Hw) as Hlen. fold fb in Hlen.
  destruct (file_small _ Hw) as [Hsm _]. unfold MaxFileSize in Hsm. change NumDirect with 62 in Hsm.
  unfold SectorSize in Hsm.
  destruct (ReadAt_spec junk f TransferSize (Z.of_nat k) d Hw Hr) as (d1 & Hrd & Hr1 & Hc1);
    [lia|unfold TransferSize; lia|].
  unfold OpenFile.Read. rewrite Hs, Hrd. cbn [mbind result_bind]. rewrite Nat2Z.id. rewrite <- Hlen. fold fb.
  unfold transfer, TransferSize. cbn [Z.leb Z.compare orb].
  destruct (Z.leb_spec (Z.of_nat (length fb)) (Z.of_nat k)) as [Hge|Hlt].
  - cbn [Z.gtb Z.compare]. exists d1. split; [|done]. by rewrite drop_ge by lia.
  - set (c := Z.min 10 (Z.of_nat (length fb) - Z.of_nat k)).
    rewrite Z.gtb_ltb, (proj2 (Z.ltb_lt _ _)) by lia.
    destruct (IH (k + Z.to_nat c)%nat (mkOpen (hdr f) (Z.of_nat k + c)) d1) as (d2 & Hp & Hr2 & Hc2);
      [done|done|cbn; lia| | |].
    { cbn [hdr]. rewrite Hc1. fold fb. lia. }
    { cbn [hdr]. rewrite Hc1. fold fb. lia. }
    cbn [hdr] in Hp. rewrite Hc1 in Hp. fold fb in Hp. rewrite Hp. cbn [mbind result_bind].
    exists d2. split; [|split; [done|congruence]]. rewrite take_take, Nat.min_id, <- drop_drop, take_drop. done.
Qed.

Lemma Print_ok fs F nm d : fs_state fs d F →
  ∃ d', Print junk junkEntry fs nm d =
      Ok (match F !! key nm with Some bs => ([], bs, d') | None => ([PrintNoFile], [], d') end) ∧
    fs_state fs d' F.
Proof.
  intros HF. unfold Print.
  destruct (exec_open junk junkEntry junkHdr Hjunk fs F nm d HF) as (r & d1 & -> & Hop). cbn [mbind result_bind].
  destruct r as [f|].
  - destruct Hop as (Hr1 & dir & bm & Hi & HF1 & _ & Hlk & Hw & Hs).
    pose proof (file_bytes_length (contents d1) (hdr f) (ready_image _ Hr1) Hw) as Hlen.
    destruct (print_loop_ok (S (Z.to_nat (OpenFile.Length f))) 0 f d1) as (d2 & -> & Hr2 & Hc2); try done; try lia.
    { unfold OpenFile.Length, FileLength. lia. }
    cbn [mbind result_bind]. exists d2. rewrite Hlk. split; [done|]. split; [done|]. exists dir, bm. by rewrite Hc2.
  - destruct Hop as [-> HF1]. by exists d1.
Qed.

End Proofs.

Lemma fd_seek ns ino ds fp i off (bs : list Z) : ino !! i = Some bs →
  let at_ o := mkHost ns ino (<[fp := (i, o)]> ds) in
  Lseek fp 0 2 (at_ off) = Ok (at_ (Z.of_nat (length bs))) ∧ Lseek fp 0 0 (at_ off) = Ok (at_ 0) ∧
  Tell fp (at_ off) = Ok off.
Proof.
  intros Hi at_. unfold Lseek, Tell, at_. rewrite (fd_file ns ino ds fp i off bs Hi). cbn [Z.eqb Pos.eqb].
  rewrite Z.add_0_r, (proj2 (Z.leb_le 0 _)) by lia. cbn [ASSERT mbind result_bind Z.leb Z.compare].
  unfold set_offset. cbn [names inodes fds]. by rewrite !insert_insert_eq.
Qed.

Lemma Open_empty `{SectorStoreLaws D} junk junkEntry junkHdr fs F nm (d : D) :
  junk_ok junkEntry junkHdr → fs_state fs d F → F !! key nm = Some [] →
  ∃ f d', Open junk junkEntry fs nm d = Ok (Some f, d') ∧ FileLength (hdr f) = 0 ∧ seekPosition f = 0 ∧
    fs_state fs d' F.
Proof.
  intros Hj HF Hk. destruct (exec_open junk junkEntry junkHdr Hj fs F nm d HF) as (r & d1 & Ho & Hop).
  destruct r as [f|]; [|destruct Hop as [Hno _]; congruence].
  destruct Hop as (Hr & dir & bm & Hinv & HF1 & _ & Hlk & Hw & Hs). rewrite Hk in Hlk. injection Hlk as Hlk.
  exists f, d1. split; [done|]. split; [|split; [done|split; [done|by exists dir, bm]]].
  unfold FileLength. rewrite <- (file_bytes_length (contents d1)); [by rewrite <- Hlk|by apply ready_image|done].
Qed.

(** ** Properties *)

(** C21: copying a file in and printing it.  [Copy] of a UNIX file that exists,
    to a name that [Create] accepts, leaves a Nachos file with the same bytes
    beside the other files, and [Print] prints these bytes.  When there is no
    UNIX file, or [Create] refuses, a message is printed and the file system has
    the files it had.  The UNIX files and descriptors are as before. *)
Theorem Copy_correct `{SectorStoreLaws D} junk junkMap junkEntry junkHdr fs F from to (d : D) h :
  junk_ok junkEntry junkHdr → fs_state fs d F → wf_host h → c_name to →
  (∀ bs, file_named h from = Some bs → Forall byte bs ∧ Z.of_nat (length bs) <= MaxFileSize) →
  let run := Copy junk junkMap junkEntry junkHdr fs from to d h in
  match file_named h from with
  | None => run = Ok ([CopyNoInput], d, h)
  | Some bs =>
      if decide (can_create F to (Z.of_nat (length bs))) then
        ∃ d' d'', run = Ok ([], d', h) ∧ fs_state fs d' (<[key to := bs]> F) ∧
          Print junk junkEntry fs to d' = Ok ([], bs, d'') ∧ fs_state fs d'' (<[key to := bs]> F)
      else ∃ d', run = Ok ([CopyNoOutput], d', h) ∧ fs_state fs d' F
  end.
Proof.
  intros Hj HF Hw Hto Hbs run. unfold run, Copy, OpenForReadWrite. unfold file_named in *.
  destruct (names h !! from) as [i|] eqn:Hn; [|done]. destruct (wh_inode _ Hw _ _ Hn) as [bs Hi].
  cbn [mbind option_bind] in *. rewrite Hi. destruct (Hbs bs Hi) as [Hb Hsz].
  unfold MaxFileSize in Hsz. change NumDirect with 62 in Hsz. unfold SectorSize in Hsz.
  pose proof (new_fd_spec i h Hw) as Hnf. destruct (new_fd i h) as [fp h1]. destruct Hnf as (-> & Hfp & H3 & _).
  cbn [mbind result_bind]. rewrite (proj2 (Z.eqb_neq fp (-1))) by lia.
  destruct (fd_seek (names h) (inodes h) (fds h) fp i 0 bs Hi) as (-> & _ & _). cbn [mbind result_bind].
  destruct (fd_seek (names h) (inodes h) (fds h) fp i (Z.of_nat (length bs)) bs Hi) as (_ & -> & ->).
  cbn [mbind result_bind].
  change (mkHost (names h) (inodes h) (<[fp := (i, 0)]> (fds h)))
    with (stream (names h) (inodes h) (fds h) fp i 0).
  assert (Hclose : ∀ k, HostFs.Close fp (stream (names h) (inodes h) (fds h) fp i k) = Ok h).
  { intros k. unfold stream. rewrite fd_Close by done. by destruct h. }
  destruct (exec_create junk junkMap junkEntry junkHdr Hj fs F to (Z.of_nat (length bs)) d HF Hto)
    as (b & d1 & F1 & -> & HF1 & Hst).
  { unfold MaxFileSize. change NumDirect with 62. unfold SectorSize. lia. }
  cbn [mbind result_bind fs_step] in *. destruct (decide (can_create _ _ _)) as [Hcc|Hcc].
  - destruct Hst as ([= ->] & new & Hnew & ->). cbn [negb].
    destruct (exec_open junk junkEntry junkHdr Hj fs _ to d1 HF1) as (r & d2 & -> & Hop). cbn [mbind result_bind].
    destruct r as [f|]; [|destruct Hop as [Hno _]; by rewrite lookup_insert_eq in Hno].
    destruct Hop as (Hr2 & dir & bm & Hinv & HF2 & Hop & Hlk & _ & Hs). rewrite Nat2Z.id.
    destruct (copy_loop_ok junk (names h) (inodes h) (fds h) fp i bs Hi Hb ltac:(lia) (S (length bs))
      0 f d2 fs dir bm to new) as (d3 & -> & Hr3 & Hi3 & Hf3); try done; try lia.
    { rewrite HF2. by rewrite lookup_insert_eq. }
    cbn [mbind result_bind]. rewrite Hclose. cbn [mbind result_bind].
    assert (fs_state fs d3 (<[key to := bs]> F)) as HF3.
    { split; [done|]. exists dir, bm. split; [done|]. rewrite Hf3, HF2. by rewrite insert_insert_eq. }
    destruct (Print_ok junk junkEntry junkHdr Hj fs _ to d3 HF3) as (d4 & Hp & HF4).
    rewrite lookup_insert_eq in Hp. exists d3, d4. done.
  - destruct Hst as ([= ->] & ->). cbn [negb]. change 0%nat with (Z.to_nat 0). rewrite Hclose. cbn [mbind result_bind].
    by exists d1.
Qed.

(** The performance test creates its file with length 0, and files do not
    grow: on a disk that has room for the file, it reports that it can neither
    write nor read it, removes it, and leaves the files that were there. *)
Theorem PerformanceTest_fails `{SectorStoreLaws D} junk junkMap junkEntry junkHdr fs F (d : D) :
  junk_ok junkEntry junkHdr → fs_state fs d F → can_create F FileName 0 →
  ∃ d', PerformanceTest junk junkMap junkEntry junkHdr fs d = Ok ([PerfNoWrite; PerfNoRead], d') ∧ fs_state fs d' F.
Proof.
  intros Hj HF Hcc. unfold PerformanceTest, FileWrite.
  destruct (exec_create junk junkMap junkEntry junkHdr Hj fs F FileName 0 d HF) as (b & d1 & F1 & -> & HF1 & Hst);
    [by repeat constructor|done|].
  cbn [mbind result_bind fs_step] in *. rewrite decide_True in Hst by done.
  destruct Hst as ([= ->] & new & Hnew & ->). destruct new; [|done]. cbn [negb].
  destruct (Open_empty junk junkEntry junkHdr fs _ FileName d1 Hj HF1) as (f & d2 & -> & Hlen & Hs & HF2);
    [apply lookup_insert_eq|]. cbn [mbind result_bind].
  assert (0 < Z.to_nat (FileSize / ContentSize))%nat as Hpos.
  { assert (0 < FileSize / ContentSize) by done. lia. }
  destruct (Z.to_nat (FileSize / ContentSize)) as [|n] eqn:En; [lia|].
  cbn [filewrite_loop]. unfold OpenFile.Write, WriteAt. rewrite Hs, Hlen.
  cbn [Z.leb Z.geb Z.compare ContentSize orb mbind result_bind Z.ltb]. unfold FileRead.
  destruct (Open_empty junk junkEntry junkHdr fs _ FileName d2 Hj HF2) as (f' & d3 & -> & Hlen' & Hs' & HF3);
    [apply lookup_insert_eq|]. cbn [mbind result_bind]. rewrite En.
  cbn [fileread_loop]. unfold OpenFile.Read, ReadAt. rewrite Hs', Hlen'.
  cbn [Z.leb Z.geb Z.compare ContentSize orb mbind result_bind Z.ltb].
  destruct (exec_remove junk junkMap junkEntry junkHdr Hj fs _ FileName d3 HF3) as (b & d4 & F4 & -> & HF4 & Hb & ->).
  injection Hb as ->. rewrite lookup_insert_eq. rewrite bool_decide_true by (by eexists). cbn [mbind result_bind negb app].
  exists d4. split; [done|]. rewrite delete_insert_id in HF4; [done|]. apply Hcc.
Qed.

(** ** Witnesses *)

#[local] Instance test_store : SectorStore Kernel.Kernel := SynchDisk_store (λ _, 0) false [].
#[local] Instance test_laws : SectorStoreLaws Kernel.Kernel := SynchDisk_laws (λ _, 0) false [].

(** A UNIX file "c" of 12 bytes *)
Definition test_host : Host :=
  mkHost {[ [99] := 1%positive ]} {[ 1%positive := [1; 2; 3; 4; 5; 6; 7; 8; 9; 10; 11; 12] ]} ∅.

Lemma test_host_wf : wf_host test_host.
Proof.
  split; cbn [test_host names inodes fds].
  - intros x i [<- <-]%lookup_singleton_Some. by rewrite lookup_singleton_eq.
  - intros x y i [<- <-]%lookup_singleton_Some [<- _]%lookup_singleton_Some. done.
  - intros fd i off. by rewrite lookup_empty.
Qed.

Lemma Copy_correct_witness : ∃ fs k k' k'',
  Copy zeros zeros zero_entry zero_hdr fs [99] nm_a k test_host = Ok ([], k', test_host) ∧
  Print zeros zero_entry fs nm_a k' = Ok ([], [1; 2; 3; 4; 5; 6; 7; 8; 9; 10; 11; 12], k'').
Proof.
  destruct formatted as (fs & k & HF).
  pose proof (Copy_correct zeros zeros zero_entry zero_hdr fs ∅ [99] nm_a k test_host demo_junk HF
    test_host_wf nm_a_name) as H. cbv zeta in H.
  destruct H as (k' & k'' & H1 & _ & H2 & _).
  - intros bs [= <-]. split; [repeat constructor; done|done].
  - exists fs, k, k', k''. split; [exact H1|exact H2].
Defined.

Lemma PerformanceTest_fails_witness : ∃ fs k k',
  PerformanceTest zeros zeros zero_entry zero_hdr fs k = Ok ([PerfNoWrite; PerfNoRead], k').
Proof.
  destruct formatted as (fs & k & HF).
  destruct (PerformanceTest_fails zeros zeros zero_entry zero_hdr fs ∅ k demo_junk HF) as (k' & H & _).
  - split; [done|]. split; [done|vm_compute; done].
  - exists fs, k, k'. exact H.
Defined.
