(* ===== verification/CommandLine.v ===== *)
(** * The command line of Nachos

    threads/system.cc and threads/main.cc go through the arguments one after the
    other, [Initialize] for the options and [main] for the things to do; each
    skips what it does not know.  threads/utility.cc has the debug flags. *)

From Stdlib Require Import Ascii String.
From S2P Require Import Prelude.
Local Open Scope Z_scope.

Abbreviation word := (list Z).

(** A string of the source as its characters *)
Definition chars (s : string) : word := Z.of_nat ∘ nat_of_ascii <$> list_ascii_of_string s.

(** ** [atoi] of the C library *)

Definition is_space (c : Z) : bool := (c =? 32) || ((9 <=? c) && (c <=? 13)).
Definition is_digit (c : Z) : bool := (48 <=? c) && (c <=? 57).

Fixpoint digits (acc : Z) (s : word) : Z :=
  match s with
  | c :: s => if is_digit c then digits (10 * acc + (c - 48)) s else acc
  | [] => acc
  end.

Fixpoint atoi (s : word) : Z :=
  match s with
  | c :: s' =>
      if is_space c then atoi s'
      else if c =? 45 then wrap32 (- digits 0 s')
      else if c =? 43 then wrap32 (digits 0 s')
      else wrap32 (digits 0 s)
  | [] => 0
  end.

(** ** threads/utility.cc *)

(** [strchr] also finds the null character at the end. *)
Definition strchr (s : word) (c : Z) : bool := (c =? 0) || bool_decide (c ∈ s).

(** [enableFlags] is [NULL] before [DebugInit]. *)
Definition DebugInit (flagList : word) : option word := Some flagList.

Definition DebugIsEnabled (enableFlags : option word) (flag : Z) : bool :=
  match enableFlags with
  | Some s => strchr s flag || strchr s 43
  | None => false
  end.

(** ** The loops *)

(** [for (argc--, argv++; argc > 0; argc -= argCount, argv += argCount)]: [body]
    gets the arguments from the current one on and returns [argCount]; [skip] of
    them are still to be passed over. *)
Fixpoint walk {S} (body : list word → S → result (nat * S)) (skip : nat) (argv : list word) (s : S) : result S :=
  match argv, skip with
  | [], _ => Ok s
  | _ :: argv', Datatypes.S n => walk body n argv' s
  | _ :: argv', O => '(argCount, s) ← body argv s; walk body (argCount - 1) argv' s
  end.

(** The comparison of the current argument with [flag] *)
Definition flag_is (flag : string) (argv : list word) : bool := bool_decide (argv !! 0%nat = Some (chars flag)).

(** The argument [i] places on, which is [NULL] at the end *)
Definition arg (i : nat) (argv : list word) : option word := argv !! i.
Definition arg_word (i : nat) (argv : list word) : result word :=
  match argv !! i with Some w => Ok w | None => Undefined end.

(** The symbols the build defines *)
Record Build := mkBuild { USER_PROGRAM : bool; FILESYS_NEEDED : bool; FILESYS : bool; NETWORK : bool }.

Section Parse.
Variables (b : Build) (double : Type) (atof : word → double).

(** The variables that [Initialize] sets; [seed] is the argument of [RandomInit]. *)
Record Options := mkOptions {
  debugArgs : word;
  seed : option Z;
  randomYield : bool;
  threadChoice : Z;
  debugUserProg : bool;
  format : bool;
  rely : double;
  netname : Z }.

Definition initialize_arg (argv : list word) (o : Options) : result (nat * Options) :=
  let argc := Z.of_nat (length argv) in
  '(argCount, o) ←
    (if flag_is "-d" argv then
       if argc =? 1 then
         Ok (1%nat, mkOptions (chars "+") (seed o) (randomYield o) (threadChoice o) (debugUserProg o) (format o) (rely o) (netname o))
       else
         w ← arg_word 1 argv;
         Ok (2%nat, mkOptions w (seed o) (randomYield o) (threadChoice o) (debugUserProg o) (format o) (rely o) (netname o))
     else if flag_is "-rs" argv then
       ASSERT (1 <? argc);;
       w ← arg_word 1 argv;
       Ok (2%nat, mkOptions (debugArgs o) (Some (atoi w)) true (threadChoice o) (debugUserProg o) (format o) (rely o) (netname o))
     else if flag_is "-A" argv then
       let choice := match arg 1 argv with None => -1 | Some w => atoi w end in
       Ok (2%nat, mkOptions (debugArgs o) (seed o) (randomYield o) choice (debugUserProg o) (format o) (rely o) (netname o))
     else Ok (1%nat, o));
  let o := if USER_PROGRAM b && flag_is "-s" argv
           then mkOptions (debugArgs o) (seed o) (randomYield o) (threadChoice o) true (format o) (rely o) (netname o)
           else o in
  let o := if FILESYS_NEEDED b && flag_is "-f" argv
           then mkOptions (debugArgs o) (seed o) (randomYield o) (threadChoice o) (debugUserProg o) true (rely o) (netname o)
           else o in
  if NETWORK b && flag_is "-l" argv then
    ASSERT (1 <? argc);;
    w ← arg_word 1 argv;
    Ok (2%nat, mkOptions (debugArgs o) (seed o) (randomYield o) (threadChoice o) (debugUserProg o) (format o) (atof w) (netname o))
  else if NETWORK b && flag_is "-m" argv then
    ASSERT (1 <? argc);;
    w ← arg_word 1 argv;
    Ok (2%nat, mkOptions (debugArgs o) (seed o) (randomYield o) (threadChoice o) (debugUserProg o) (format o) (rely o) (atoi w))
  else Ok (argCount, o).

(** The loop of [Initialize]; [threadChoice] is a global variable, zero at first. *)
Definition no_options (one : double) : Options := mkOptions [] None false 0 false false one 0.

Definition initialize_args (one : double) (argv : list word) : result Options :=
  walk initialize_arg 0 (drop 1 argv) (no_options one).

(** What [main] calls *)
Inductive Action :=
| APrintCopyright
| AStartProcess (file : option word)
| AConsoleTest (files : option (word * word))
| AHalt
| ACopy (from to : word)
| APrint (file : word)
| ARemove (file : word)
| AList
| APrintFileSystem
| APerformanceTest
| AMailTest (networkID : Z).

Definition main_arg (argv : list word) (acts : list Action) : result (nat * list Action) :=
  let argc := Z.of_nat (length argv) in
  let acts := if flag_is "-z" argv then acts ++ [APrintCopyright] else acts in
  '(argCount, acts) ←
    (if USER_PROGRAM b && flag_is "-x" argv then Ok (2%nat, acts ++ [AStartProcess (arg 1 argv)])
     else if USER_PROGRAM b && flag_is "-c" argv then
       if argc =? 1 then Ok (1%nat, acts ++ [AConsoleTest None; AHalt])
       else
         ASSERT (2 <? argc);;
         w1 ← arg_word 1 argv; w2 ← arg_word 2 argv;
         Ok (3%nat, acts ++ [AConsoleTest (Some (w1, w2)); AHalt])
     else Ok (1%nat, acts));
  '(argCount, acts) ←
    (if FILESYS b then
       if flag_is "-cp" argv then
         ASSERT (2 <? argc);;
         w1 ← arg_word 1 argv; w2 ← arg_word 2 argv;
         Ok (3%nat, acts ++ [ACopy w1 w2])
       else if flag_is "-p" argv then ASSERT (1 <? argc);; w ← arg_word 1 argv; Ok (2%nat, acts ++ [APrint w])
       else if flag_is "-r" argv then ASSERT (1 <? argc);; w ← arg_word 1 argv; Ok (2%nat, acts ++ [ARemove w])
       else if flag_is "-l" argv then Ok (argCount, acts ++ [AList])
       else if flag_is "-D" argv then Ok (argCount, acts ++ [APrintFileSystem])
       else if flag_is "-t" argv then Ok (argCount, acts ++ [APerformanceTest])
       else Ok (argCount, acts)
     else Ok (argCount, acts));
  if NETWORK b && flag_is "-o" argv then
    ASSERT (1 <? argc);; w ← arg_word 1 argv; Ok (2%nat, acts ++ [AMailTest (atoi w)])
  else Ok (argCount, acts).

(** The calls of [main] in order, each made when the one before has returned;
    [Finish] comes after them. *)
Definition main_args (argv : list word) : result (list Action) := walk main_arg 0 (drop 1 argv) [].

(** ** The grammar the two loops share *)

(** What the usage message at the top of main.cc allows *)
Inductive Item :=
| IDebug (flags : word) | IRandom (n : word) | IChoice (n : word) | IStep | IFormat
| IReliability (r : word) | IMachine (n : word)
| ICopyright | IRun (file : word) | IConsole (input output : word) | ICopy (from to : word)
| IPrint (file : word) | IRemove (file : word) | IList | IDump | IPerformance | IMail (n : word).

Definition item_flag (i : Item) : string := (
  match i with
  | IDebug _ => "-d" | IRandom _ => "-rs" | IChoice _ => "-A" | IStep => "-s" | IFormat => "-f"
  | IReliability _ => "-l" | IMachine _ => "-m" | ICopyright => "-z" | IRun _ => "-x"
  | IConsole _ _ => "-c" | ICopy _ _ => "-cp" | IPrint _ => "-p" | IRemove _ => "-r" | IList => "-l"
  | IDump => "-D" | IPerformance => "-t" | IMail _ => "-o"
  end)%string.

Definition item_params (i : Item) : list word :=
  match i with
  | IDebug w | IRandom w | IChoice w | IReliability w | IMachine w | IRun w | IPrint w | IRemove w | IMail w => [w]
  | IConsole w1 w2 | ICopy w1 w2 => [w1; w2]
  | _ => []
  end.

Definition item_words (i : Item) : list word := chars (item_flag i) :: item_params i.

(** The builds in which an item means something.  In a build with the network -l has
    a parameter, so that one with the file system too has no -l that only lists. *)
Definition item_enabled (i : Item) : bool :=
  match i with
  | IDebug _ | IRandom _ | IChoice _ | ICopyright => true
  | IStep | IRun _ | IConsole _ _ => USER_PROGRAM b
  | IFormat => FILESYS_NEEDED b
  | IReliability _ | IMachine _ | IMail _ => NETWORK b
  | ICopy _ _ | IPrint _ | IRemove _ | IDump | IPerformance => FILESYS b
  | IList => FILESYS b && negb (NETWORK b)
  end.

Definition is_option (i : Item) : bool :=
  match i with
  | IDebug _ | IRandom _ | IChoice _ | IStep | IFormat | IReliability _ | IMachine _ => true
  | _ => false
  end.

(** The flags of each loop *)
Definition initialize_flags : list string := ["-d"; "-rs"; "-A"; "-s"; "-f"; "-l"; "-m"]%string.
Definition main_flags : list string := ["-z"; "-x"; "-c"; "-cp"; "-p"; "-r"; "-l"; "-D"; "-t"; "-o"]%string.

(** A parameter that is not a flag of the loop that passes over the item; it may
    be one of the loop that reads it. *)
Definition plain (flags : list string) (w : word) : Prop := Forall (λ f, w ≠ chars f) flags.
Definition item_ok (i : Item) : Prop :=
  item_enabled i = true ∧ Forall (plain (if is_option i then main_flags else initialize_flags)) (item_params i).

(** What an item means *)
Definition item_option (o : Options) (i : Item) : Options :=
  match i with
  | IDebug w => mkOptions w (seed o) (randomYield o) (threadChoice o) (debugUserProg o) (format o) (rely o) (netname o)
  | IRandom w => mkOptions (debugArgs o) (Some (atoi w)) true (threadChoice o) (debugUserProg o) (format o) (rely o) (netname o)
  | IChoice w => mkOptions (debugArgs o) (seed o) (randomYield o) (atoi w) (debugUserProg o) (format o) (rely o) (netname o)
  | IStep => mkOptions (debugArgs o) (seed o) (randomYield o) (threadChoice o) true (format o) (rely o) (netname o)
  | IFormat => mkOptions (debugArgs o) (seed o) (randomYield o) (threadChoice o) (debugUserProg o) true (rely o) (netname o)
  | IReliability w => mkOptions (debugArgs o) (seed o) (randomYield o) (threadChoice o) (debugUserProg o) (format o) (atof w) (netname o)
  | IMachine w => mkOptions (debugArgs o) (seed o) (randomYield o) (threadChoice o) (debugUserProg o) (format o) (rely o) (atoi w)
  | _ => o
  end.

Definition item_actions (i : Item) : list Action :=
  match i with
  | ICopyright => [APrintCopyright]
  | IRun w => [AStartProcess (Some w)]
  | IConsole w1 w2 => [AConsoleTest (Some (w1, w2)); AHalt]
  | ICopy w1 w2 => [ACopy w1 w2]
  | IPrint w => [APrint w]
  | IRemove w => [ARemove w]
  | IList => [AList]
  | IDump => [APrintFileSystem]
  | IPerformance => [APerformanceTest]
  | IMail w => [AMailTest (atoi w)]
  | IReliability _ => if FILESYS b then [AList] else []  (* the -l of both *)
  | _ => []
  end.

(** *** Both loops read every item *)

Lemma chars_inj s s' : chars s = chars s' → s = s'.
Proof.
  intros E. rewrite <- (string_of_list_ascii_of_string s), <- (string_of_list_ascii_of_string s'). f_equal.
  revert E. unfold chars. generalize (list_ascii_of_string s) (list_ascii_of_string s').
  induction l as [|a l IH]; intros [|a' l']; try done. cbn. intros [= Ea E]. f_equal; [|by apply IH].
  rewrite <- (ascii_nat_embedding a), <- (ascii_nat_embedding a'). f_equal. lia.
Qed.

Lemma flag_is_chars f g rest : flag_is f (chars g :: rest) = String.eqb g f.
Proof.
  unfold flag_is. cbn. destruct (String.eqb_spec g f) as [->|Hne]; [by apply bool_decide_eq_true|].
  apply bool_decide_eq_false. intros [= E]. by apply Hne, chars_inj.
Qed.

Lemma flag_is_plain flags f w rest : plain flags w → f ∈ flags → flag_is f (w :: rest) = false.
Proof.
  intros Hp Hf. apply bool_decide_eq_false. cbn. intros [= E]. by apply (proj1 (Forall_forall _ _) Hp f Hf).
Qed.

Ltac flag_cases := repeat
  first [rewrite flag_is_chars | erewrite flag_is_plain by (first [eassumption|unfold initialize_flags, main_flags; set_solver])];
  cbn [String.eqb Ascii.eqb Bool.eqb andb].

Lemma initialize_plain w rest o : plain initialize_flags w → initialize_arg (w :: rest) o = Ok (1%nat, o).
Proof. intros Hw. unfold initialize_arg. flag_cases. by rewrite !andb_false_r. Qed.

Lemma main_plain w rest acts : plain main_flags w → main_arg (w :: rest) acts = Ok (1%nat, acts).
Proof. intros Hw. unfold main_arg. flag_cases. rewrite !andb_false_r. by destruct (FILESYS b). Qed.

(** An item is read by its own loop together with its parameters, and passed over
    word by word by the other loop. *)
Lemma walk_skip {S} body ps rest (s : S) : walk body (length ps) (ps ++ rest) s = walk body 0 rest s.
Proof. induction ps as [|p ps IH]; [done|]. exact IH. Qed.

Lemma walk_item {S} body w ps rest (s s' : S) n :
  body (w :: ps ++ rest) s = Ok (Datatypes.S n, s') →
  n = length ps ∨ n = 0%nat ∧ Forall (λ p, ∀ r x, body (p :: r) x = Ok (1%nat, x)) ps →
  walk body 0 ((w :: ps) ++ rest) s = walk body 0 rest s'.
Proof.
  intros Hb Hn. cbn [app walk]. rewrite Hb. cbn [mbind result_bind Nat.sub]. rewrite Nat.sub_0_r.
  destruct Hn as [-> |[-> Hp]]; [apply walk_skip|]. clear Hb.
  induction Hp as [|p ps Hp _ IH]; [done|]. cbn [app walk]. by rewrite Hp.
Qed.

Lemma more_args (n : Z) (ws rest : list word) : n < Z.of_nat (length ws) →
  (n <? Z.of_nat (length (ws ++ rest))) = true.
Proof. intros Hn. apply Z.ltb_lt. rewrite length_app. lia. Qed.
Lemma two_ltb (w1 w2 : word) rest : (1 <? Z.of_nat (length (w1 :: w2 :: rest))) = true.
Proof. by apply (more_args 1 [w1; w2]). Qed.
Lemma three_ltb (w1 w2 w3 : word) rest : (2 <? Z.of_nat (length (w1 :: w2 :: w3 :: rest))) = true.
Proof. by apply (more_args 2 [w1; w2; w3]). Qed.
Lemma two_eqb (w1 w2 : word) rest : (Z.of_nat (length (w1 :: w2 :: rest)) =? 1) = false.
Proof. apply Z.eqb_neq. cbn [length]. lia. Qed.

Ltac read_item He :=
  unfold item_words; cbn [item_flag item_params app is_option item_option]; flag_cases; rewrite ?two_eqb, ?two_ltb, ?three_ltb;
  cbn [item_enabled] in He; rewrite ?andb_true_iff, ?negb_true_iff in He;
  match type of He with _ ∧ _ => let E := fresh in let E' := fresh in destruct He as [E E']; rewrite ?E, ?E' | true = true => idtac | _ => rewrite ?He end;
  rewrite ?andb_false_r, ?andb_true_r; cbn [andb ASSERT mbind result_bind arg arg_word lookup list_lookup];
  repeat case_match; try reflexivity.

Lemma initialize_item i rest o : item_ok i →
  walk initialize_arg 0 (item_words i ++ rest) o = walk initialize_arg 0 rest (item_option o i).
Proof.
  intros [He Hp].
  assert (initialize_arg (item_words i ++ rest) o =
    Ok (S (if is_option i then length (item_params i) else 0), item_option o i)) as Hb.
  { unfold initialize_arg. destruct i; read_item He. }
  eapply walk_item; [exact Hb|]. destruct (is_option i); [by left|right]; (split; [done|]);
    (eapply Forall_impl; [exact Hp|]); intros w Hw r x; by apply initialize_plain.
Qed.

Lemma main_item i rest acts : item_ok i →
  walk main_arg 0 (item_words i ++ rest) acts = walk main_arg 0 rest (acts ++ item_actions i).
Proof.
  intros [He Hp].
  assert (main_arg (item_words i ++ rest) acts =
    Ok (S (if is_option i then 0 else length (item_params i)), acts ++ item_actions i)) as Hb.
  { unfold main_arg. destruct i; cbn [item_actions]; rewrite ?app_nil_r; read_item He; by rewrite app_nil_r. }
  eapply walk_item; [exact Hb|]. destruct (is_option i); [right|by left]; (split; [done|]);
    (eapply Forall_impl; [exact Hp|]); intros w Hw r x; by apply main_plain.
Qed.

(** C2: the command line.  Nachos is started with any sequence of options and
    things to do that the build knows; no parameter of an option is a flag of
    [main], and no other parameter a flag of [Initialize].  Then the two loops,
    which go through the same words with different ideas of what takes
    parameters, agree on where the items begin: the options are set as the items
    say, a later one over an earlier one, and [main] does what the items say, in
    order, and nothing else.  In a build with the file system and the network -l,
    which both loops read, sets the reliability and lists the directory. *)
Theorem command_line_read one prog items : Forall item_ok items →
  let argv := prog :: concat (item_words <$> items) in
  initialize_args one argv = Ok (foldl item_option (no_options one) items) ∧
  main_args argv = Ok (concat (item_actions <$> items)).
Proof.
  intros Hok argv. unfold initialize_args, main_args, argv. cbn [drop]. rewrite drop_0. split.
  - generalize (no_options one). induction Hok as [|i items Hi _ IH]; intros o; [done|].
    cbn [fmap list_fmap concat foldl]. rewrite initialize_item by done. apply IH.
  - cut (∀ acts, walk main_arg 0 (concat (item_words <$> items)) acts = Ok (acts ++ concat (item_actions <$> items)));
      [intros H; apply (H [])|].
    induction Hok as [|i items Hi _ IH]; intros acts; cbn [fmap list_fmap concat]; [by rewrite app_nil_r|].
    rewrite main_item by done. rewrite app_assoc. apply IH.
Qed.

End Parse.

(** nachos -rs 7 -d t -x prog *)
Lemma command_line_read_witness :
  let argv := chars <$> ["nachos"; "-rs"; "7"; "-d"; "t"; "-x"; "prog"]%string in
  let b := mkBuild true true false false in
  initialize_args b Z (λ _, 0) 1 argv = Ok (mkOptions Z (chars "t") (Some 7) true 0 false false 1 0) ∧
  main_args b argv = Ok [AStartProcess (Some (chars "prog"))].
Proof.
  apply (command_line_read (mkBuild true true false false) Z (λ _, 0) 1 (chars "nachos")
    [IRandom (chars "7"); IDebug (chars "t"); IRun (chars "prog")]).
  repeat constructor; vm_compute; discriminate.
Defined.

(** Where the loops do not agree with what was meant: -x without a program starts
    the program [NULL], -x takes what follows as a name even if it is an option,
    and in a build with file system and network -l does both. *)
Example x_without_program : main_args (mkBuild true true false false) (chars <$> ["nachos"; "-x"]%string) =
  Ok [AStartProcess None].
Proof. vm_compute. reflexivity. Qed.

Example c_with_one_file : main_args (mkBuild true true false false) (chars <$> ["nachos"; "-c"; "in"]%string) = AssertFail.
Proof. vm_compute. reflexivity. Qed.

Example option_as_flags :
  let argv := chars <$> ["nachos"; "-d"; "-x"; "prog"]%string in
  let b := mkBuild true true false false in
  debugArgs Z <$> initialize_args b Z (λ _, 0) 1 argv = Ok (chars "-x") ∧
  main_args b argv = Ok [AStartProcess (Some (chars "prog"))].
Proof. by vm_compute. Qed.

Example list_or_reliability :
  let argv := chars <$> ["nachos"; "-l"; "0.5"]%string in
  let b := mkBuild false true true true in
  rely Z <$> initialize_args b Z (λ _, 2) 1 argv = Ok 2 ∧ main_args b argv = Ok [AList].
Proof. by vm_compute. Qed.

(** [DEBUG] prints for the flags given to -d, and for all with '+'. *)
Lemma DebugIsEnabled_spec flags c : c ≠ 0 →
  DebugIsEnabled (DebugInit flags) c = true ↔ c ∈ flags ∨ 43 ∈ flags.
Proof.
  intros Hc. unfold DebugIsEnabled, DebugInit, strchr. rewrite (proj2 (Z.eqb_neq c 0) Hc).
  change (43 =? 0) with false. cbn [orb]. rewrite orb_true_iff, !bool_decide_eq_true. done.
Qed.
