(* ===== verification/Execute.v ===== *)
(** * bin/execute.c: the other MIPS interpreter

    The cross tools have an interpreter of their own for MIPS programs
    (execute.c, with instr.h, encode.h, int.h and the system calls of system.c).
    It is the independent implementation against which the simulated machine of
    machine/mipssim.cc can be compared. *)

From S2P Require Import Prelude Params Machine MipsSim MipsExec.
Local Open Scope Z_scope.

Module Exe.

(** ** instr.h: the fields of an instruction, an [int] *)

Definition rd (i : Z) : Z := Z.land (Z.shiftr i 11) 0x1f.
Definition rt (i : Z) : Z := Z.land (Z.shiftr i 16) 0x1f.
Definition rs (i : Z) : Z := Z.land (Z.shiftr i 21) 0x1f.
Definition shamt (i : Z) : Z := Z.land (Z.shiftr i 6) 0x1f.
Definition immed (i : Z) : Z := if negb (Z.land i 0x8000 =? 0) then Z.lor i (-0x8000) else Z.land i 0x7fff.

(** ** int.h: memory *)

Definition MEMSIZE : Z := 2 ^ 24.
Definition memoffset : Z := 0x10000000.

(** The registers and the memory; [mem] is a static array, zero where nothing was
    written. *)
Record Int := mkInt {
  Reg : list Z;
  HI : Z;
  LO : Z;
  mem : gmap Z Z;
  pc : Z;
  npc : Z }.

(** An access of [size] bytes at an address of the program; the host is
    little-endian like the programs. *)
Definition in_mem (addr size : Z) : result unit :=
  if (memoffset <=? addr) && (addr + size <=? memoffset + MEMSIZE) && (addr mod size =? 0) then Ok tt else Undefined.

Definition bytes_at (m : gmap Z Z) (addr size : Z) : list Z :=
  (λ i, default 0 (m !! (addr + Z.of_nat i))) <$> seq 0 (Z.to_nat size).

Definition load_bytes (addr size : Z) (s : Int) : result Z :=
  in_mem addr size;; Ok (le_val (bytes_at (mem s) addr size)).

Definition fetch (addr : Z) (s : Int) : result Z := v ← load_bytes addr 4 s; Ok (wrap32 v).
Definition sfetch (addr : Z) (s : Int) : result Z := v ← load_bytes addr 2 s; Ok (sext16 v).
Definition usfetch (addr : Z) (s : Int) : result Z := load_bytes addr 2 s.
Definition cfetch (addr : Z) (s : Int) : result Z := v ← load_bytes addr 1 s; Ok (schar v).
Definition ucfetch (addr : Z) (s : Int) : result Z := load_bytes addr 1 s.

Fixpoint store_bytes (addr : Z) (bs : list Z) (m : gmap Z Z) : gmap Z Z :=
  match bs with [] => m | b :: bs => store_bytes (addr + 1) bs (<[addr := b]> m) end.

(** The low [size] bytes of [v], least significant first *)
Definition store_int (addr size v : Z) (s : Int) : result Int :=
  in_mem addr size;;
  Ok (mkInt (Reg s) (HI s) (LO s)
    (store_bytes addr ((λ i, u8 (Z.shiftr v (8 * Z.of_nat i))) <$> seq 0 (Z.to_nat size)) (mem s)) (pc s) (npc s)).

(** ** Registers *)

Definition reg (i : Z) (s : Int) : result Z := aget (Reg s) i.
Definition set_reg (i v : Z) (s : Int) : result Int :=
  r ← aset (Reg s) i v; Ok (mkInt r (HI s) (LO s) (mem s) (pc s) (npc s)).
Definition set_HI (v : Z) (s : Int) : Int := mkInt (Reg s) v (LO s) (mem s) (pc s) (npc s).
Definition set_LO (v : Z) (s : Int) : Int := mkInt (Reg s) (HI s) v (mem s) (pc s) (npc s).
Definition set_npc (v : Z) (s : Int) : Int := mkInt (Reg s) (HI s) (LO s) (mem s) (pc s) v.

(** [u()], and the coprocessors *)
Definition unimplemented {A} : result A := Exited 2.

(** A shift of an [int] by its width or more is undefined. *)
Definition shift_amount (n : Z) : result Z := if (0 <=? n) && (n <? 32) then Ok n else Undefined.

(** The high word of the product as the code computes it *)
Definition high_word (t1 t2 : Z) : Z :=
  let t1l := Z.land t1 0xffff in
  let t1h := Z.land (Z.shiftr t1 16) 0xffff in
  let t2l := Z.land t2 0xffff in
  let t2h := Z.land (Z.shiftr t2 16) 0xffff in
  wrap32 (wrap32 (wrap32 (t1h * t2h) + Z.shiftr (wrap32 (t1h * t2l)) 16) + Z.shiftr (wrap32 (t2h * t1l)) 16).

Definition mult (a b : Z) : Z * Z :=
  let '(t1, neg) := if a <? 0 then (wrap32 (- a), true) else (a, false) in
  let '(t2, neg) := if b <? 0 then (wrap32 (- b), negb neg) else (b, neg) in
  let lo := wrap32 (t1 * t2) in
  let hi := high_word t1 t2 in
  if neg then
    let lo := wrap32 (Z.lnot lo + 1) in
    (if lo =? 0 then wrap32 (Z.lnot hi + 1) else Z.lnot hi, lo)
  else (hi, lo).

Section System.
(** The system calls of the host: the number, three arguments and the memory, to
    the result and the memory *)
Variable os : Z → Z → Z → Z → gmap Z Z → Z * gmap Z Z.

(** ** system.c *)

Definition host_call (n o0 o1 o2 : Z) (s : Int) : result Int :=
  let '(r, m) := os n o0 o1 o2 (mem s) in
  set_reg 1 r (mkInt (Reg s) (HI s) (LO s) m (pc s) (npc s)).

Definition system_trap (s : Int) : result Int :=
  syscallno ← reg 2 s; o0 ← reg 4 s; o1 ← reg 5 s; o2 ← reg 6 s;
  match syscallno with
  | 1 => Exited 0
  | 3 | 4 | 5 | 19 | 64 => host_call syscallno o0 o1 o2 s
  | 6 => set_reg 1 0 s
  | 17 => set_reg 1 (wrap32 (wrap32 (Z.quot o0 8192 + 1) * 8192)) s
  | 54 =>
      let size := Z.land (Z.shiftr o1 16) 0x7f in
      let ioctl_group := schar (Z.land (Z.shiftr o1 8) 0x00ff) in
      let o1 := if (ioctl_group =? 116) && (size =? 8)
                then Z.lor (Z.land o1 (Z.lnot (Z.shiftl 0x7f 16))) (Z.shiftl 6 16) else o1 in
      s ← host_call syscallno o0 o1 o2 s;
      set_reg 1 0 s
  | 62 => host_call syscallno o1 o2 0 s
  | _ => Exited 2
  end.

(** ** execute.c: the instructions *)

(** The cases of [I_SPECIAL]; [xpc] is the address of the instruction. *)
Definition exec_special (instr xpc : Z) (s : Int) : result Int :=
  a ← reg (rs instr) s; b ← reg (rt instr) s;
  let d v := set_reg (rd instr) v s in
  match Z.land instr 0x3f with
  | 0 => d (wrap32 (Z.shiftl b (shamt instr)))
  | 2 => d (wrap32 (Z.shiftr (u32 b) (shamt instr)))
  | 3 => d (Z.shiftr b (shamt instr))
  | 4 => n ← shift_amount a; d (wrap32 (Z.shiftl b n))
  | 6 => n ← shift_amount a; d (wrap32 (Z.shiftr (u32 b) n))
  | 7 => n ← shift_amount a; d (Z.shiftr b n)
  | 8 => Ok (set_npc a s)
  | 9 => set_reg (rd instr) (wrap32 (xpc + 8)) (set_npc a s)
  | 12 | 13 => system_trap s
  | 16 => d (HI s)
  | 17 => Ok (set_HI a s)
  | 18 => d (LO s)
  | 19 => Ok (set_LO a s)
  | 24 => let '(hi, lo) := mult a b in Ok (set_HI hi (set_LO lo s))
  | 25 => Ok (set_HI (high_word a b) (set_LO (wrap32 (a * b)) s))
  | 26 => if (b =? 0) || ((a =? - 2 ^ 31) && (b =? -1)) then Undefined
          else Ok (set_HI (Z.rem a b) (set_LO (Z.quot a b) s))
  | 27 => if u32 b =? 0 then Undefined
          else Ok (set_HI (wrap32 (u32 a mod u32 b)) (set_LO (wrap32 (u32 a / u32 b)) s))
  | 32 | 33 => d (wrap32 (a + b))
  | 34 | 35 => d (wrap32 (a - b))
  | 36 => d (Z.land a b)
  | 37 => d (Z.lor a b)
  | 38 => d (Z.lxor a b)
  | 39 => d (Z.lnot (Z.lor a b))
  | 42 => d (Z.b2z (a <? b))
  | 43 => d (Z.b2z (u32 a <? u32 b))
  | _ => unimplemented
  end.

Definition branch (instr xpc : Z) (taken : bool) (s : Int) : Int :=
  if taken then set_npc (wrap32 (xpc + 4 + wrap32 (Z.shiftl (immed instr) 2))) s else s.

(** The cases of [I_BCOND] *)
Definition exec_bcond (instr xpc : Z) (s : Int) : result Int :=
  match rt instr with
  | 0 => a ← reg (rs instr) s; Ok (branch instr xpc (a <? 0) s)
  | 1 => a ← reg (rs instr) s; Ok (branch instr xpc (0 <=? a) s)
  | 16 => s ← set_reg 31 (wrap32 (xpc + 8)) s; a ← reg (rs instr) s; Ok (branch instr xpc (a <? 0) s)
  | 17 => s ← set_reg 31 (wrap32 (xpc + 8)) s; a ← reg (rs instr) s; Ok (branch instr xpc (0 <=? a) s)
  | _ => unimplemented
  end.

(** [(xpc & 0xf0000000) | ((instr & 0x03ffffff) << 2)] *)
Definition jump_target (instr xpc : Z) : Z :=
  wrap32 (Z.lor (Z.land (u32 xpc) 0xf0000000) (Z.shiftl (Z.land instr 0x03ffffff) 2)).

(** The cases of the loads and stores *)
Definition exec_memory (instr : Z) (s : Int) : result Int :=
  a ← reg (rs instr) s; b ← reg (rt instr) s;
  let i := wrap32 (a + immed instr) in
  let t v := set_reg (rt instr) v s in
  match Z.land (Z.shiftr instr 26) 0x3f with
  | 32 => v ← cfetch i s; t v
  | 33 => v ← sfetch i s; t v
  | 34 =>
      v ← fetch (Z.land i (Z.lnot 3)) s;
      let old := Z.land b (Z.shiftr (-1) (8 * Z.land (- i) 3)) in
      t (Z.lor old (wrap32 (Z.shiftl v (8 * Z.land i 3))))
  | 35 => v ← fetch i s; t v
  | 36 => v ← ucfetch i s; t v
  | 37 => v ← usfetch i s; t v
  | 38 =>
      v ← fetch (Z.land i (Z.lnot 3)) s;
      let old := Z.land b (wrap32 (Z.shiftl (-1) (8 * Z.land i 3))) in
      let old := if Z.land i 3 =? 0 then 0 else old in
      t (Z.lor old (Z.shiftr v (8 * Z.land (- i) 3)))
  | 40 => store_int i 1 b s
  | 41 => store_int i 2 b s
  | 43 => store_int i 4 b s
  | _ => unimplemented
  end.

(** The other cases of the outer [switch] *)
Definition exec_normal (instr xpc : Z) (s : Int) : result Int :=
  a ← reg (rs instr) s; b ← reg (rt instr) s;
  let t v := set_reg (rt instr) v s in
  match Z.land (Z.shiftr instr 26) 0x3f with
  | 0 => exec_special instr xpc s
  | 1 => exec_bcond instr xpc s
  | 2 => Ok (set_npc (jump_target instr xpc) s)
  | 3 => s ← set_reg 31 (wrap32 (xpc + 8)) s; Ok (set_npc (jump_target instr xpc) s)
  | 4 => Ok (branch instr xpc (a =? b) s)
  | 5 => Ok (branch instr xpc (negb (a =? b)) s)
  | 6 => Ok (branch instr xpc (a <=? 0) s)
  | 7 => Ok (branch instr xpc (0 <? a) s)
  | 8 | 9 => t (wrap32 (a + immed instr))
  | 10 => t (Z.b2z (a <? immed instr))
  | 11 => t (Z.b2z (u32 a <? u32 (immed instr)))
  | 12 => t (Z.land a (immed instr))
  | 13 => t (Z.lor a (immed instr))
  | 14 => t (Z.lxor a (immed instr))
  | 15 => t (wrap32 (Z.shiftl instr 16))
  | _ => exec_memory instr s
  end.

(** An iteration of the loop of [runprogram] *)
Definition cycle (s : Int) : result Int :=
  let xpc := pc s in
  let s := mkInt (Reg s) (HI s) (LO s) (mem s) (npc s) (wrap32 (npc s + 4)) in
  instr ← fetch xpc s;
  s ← set_reg 0 0 s;
  if negb (instr =? 0) then exec_normal instr xpc s else Ok s.

(** *** The beginning of [runprogram] *)

(** [strcpy] to the address [ai] of the program *)
Fixpoint strcpy (ai : Z) (str : list Z) (s : Int) : result Int :=
  match str with
  | [] => store_int ai 1 0 s
  | c :: str => s ← store_int ai 1 c s; strcpy (ai + 1) str s
  end.

(** The loop over [argv]: the strings from [ai] on, their addresses from [aci] on *)
Fixpoint put_args (argv : list (list Z)) (aci ai : Z) (s : Int) : result Int :=
  match argv with
  | [] => Ok s
  | str :: argv =>
      s ← strcpy ai str s;
      s ← store_int aci 4 ai s;
      put_args argv (aci + 4) (ai + Z.of_nat (length str) + 1) s
  end.

Definition start (startpc : Z) (argv : list (list Z)) (s : Int) : result Int :=
  let s := mkInt (Reg s) (HI s) (LO s) (mem s) startpc (wrap32 (startpc + 4)) in
  let i := MEMSIZE - 1024 + memoffset in
  s ← set_reg 29 i s;
  s ← store_int i 4 (Z.of_nat (length argv)) s;
  put_args argv (i + 4) (i + 4 + 32) s.

End System.
End Exe.

(** ** The fields of an instruction, as both interpreters see them *)

Section Fields.
Local Open Scope Z_scope.

Lemma field_u32 x k n : 0 <= k → 0 <= n → k + n <= 32 →
  Z.land (Z.shiftr x k) (Z.ones n) = Z.land (Z.shiftr (u32 x) k) (Z.ones n).
Proof.
  intros Hk Hn Hkn. apply Z.bits_inj'. intros j Hj. rewrite !Z.land_spec, !Z.shiftr_spec by done.
  destruct (Z.lt_ge_cases j n).
  - by rewrite u32_testbit by lia.
  - rewrite Z.ones_spec_high by lia. by rewrite !andb_false_r.
Qed.

(** A field of the word read as an [int] *)
Lemma field_wrap v k n : uint32 v → 0 <= k → 0 <= n → k + n <= 32 →
  Z.land (Z.shiftr (wrap32 v) k) (Z.ones n) = Z.land (Z.shiftr v k) (Z.ones n).
Proof. intros Hv Hk Hn Hkn. by rewrite field_u32, u32_wrap32, u32_id. Qed.

Lemma lor_ones_high a n : 0 <= n → Z.lor a (- 2 ^ n) = a mod 2 ^ n - 2 ^ n.
Proof.
  intros Hn. pose proof (Z.pow_pos_nonneg 2 n ltac:(lia) Hn) as Hp.
  assert (- 2 ^ n = Z.lnot (Z.ones n)) as ->.
  { unfold Z.lnot. rewrite Z.ones_equiv. lia. }
  rewrite <- (Z.lnot_involutive a), <- Z.lnot_land, Z.land_ones by done.
  assert (Z.lnot a mod 2 ^ n = 2 ^ n - 1 - a mod 2 ^ n) as ->.
  { unfold Z.lnot. symmetry. apply Z.mod_unique with (- (a / 2 ^ n) - 1).
    - left. pose proof (Z.mod_pos_bound a (2 ^ n) Hp). lia.
    - pose proof (Z.div_mod a (2 ^ n) ltac:(lia)). lia. }
  rewrite Z.lnot_involutive. unfold Z.lnot. lia.
Qed.

Lemma immed_wrap v : uint32 v → Exe.immed (wrap32 v) = sext16 (v mod 2 ^ 16).
Proof.
  intros Hv. unfold Exe.immed, sext16. change 0x8000 with (2 ^ 15). change (-0x8000) with (- 2 ^ 15).
  change 0x7fff with (Z.ones 15). rewrite lor_ones_high, Z.land_ones, land_pow2 by lia.
  assert (wrap32 v mod 2 ^ 15 = v mod 2 ^ 15) as ->.
  { pose proof (field_wrap v 0 15 Hv). rewrite !Z.shiftr_0_r, !Z.land_ones in H by lia. by apply H. }
  assert (Z.testbit (wrap32 v) 15 = Z.testbit v 15) as ->.
  { rewrite <- u32_testbit, u32_wrap32 by lia. by rewrite u32_id. }
  rewrite Z.testbit_eqb by lia. pose proof (Z.div_mod v (2 ^ 16) ltac:(lia)) as Hd.
  pose proof (Z.mod_pos_bound v (2 ^ 16) ltac:(lia)) as Hb. set (r := v mod 2 ^ 16) in *.
  assert (v / 2 ^ 15 mod 2 = r / 2 ^ 15 ∧ v mod 2 ^ 15 = r mod 2 ^ 15) as [-> ->].
  { rewrite Hd. replace (2 ^ 16 * (v / 2 ^ 16) + r) with (r + (2 * (v / 2 ^ 16)) * 2 ^ 15) by lia.
    rewrite Z.div_add, Z.mod_add by lia. split; [|done].
    rewrite Z.add_comm, Z.mul_comm, Z.add_comm, Z.mod_add by lia. apply Z.mod_small.
    split; [apply Z.div_pos; lia|apply Z.div_lt_upper_bound; lia]. }
  destruct (Z.ltb_spec r (2 ^ 15)).
  - rewrite (Z.div_small r) by lia. change (0 =? 1) with false. cbn iota. change (negb (0 =? 0)) with false. cbn iota. rewrite Z.mod_small; lia.
  - assert (r / 2 ^ 15 = 1 ∧ r mod 2 ^ 15 = r - 2 ^ 15) as [-> ->].
    { pose proof (Z.div_mod r (2 ^ 15) ltac:(lia)). pose proof (Z.mod_pos_bound r (2 ^ 15) ltac:(lia)). lia. }
    change (1 =? 1) with true. cbn iota. change (negb (2 ^ 15 =? 0)) with true. cbn iota. lia.
Qed.

End Fields.

(** Where an operation is found: by the function field of a SPECIAL word, the rt
    field of a BCOND word, or the opcode *)
Inductive slot := Special (funct : Z) | Bcond (rt : Z) | Normal (op : Z).
#[export] Instance slot_eq_dec : EqDecision slot.
Proof. solve_decision. Defined.

#[export] Instance OpCode_eq_dec : EqDecision OpCode.
Proof. solve_decision. Defined.

Definition slot_of (o : OpCode) : slot :=
  match o with
  | OP_SLL => Special 0 | OP_SRL => Special 2 | OP_SRA => Special 3 | OP_SLLV => Special 4
  | OP_SRLV => Special 6 | OP_SRAV => Special 7 | OP_JR => Special 8 | OP_JALR => Special 9
  | OP_SYSCALL => Special 12 | OP_MFHI => Special 16 | OP_MTHI => Special 17 | OP_MFLO => Special 18
  | OP_MTLO => Special 19 | OP_MULT => Special 24 | OP_MULTU => Special 25 | OP_DIV => Special 26
  | OP_DIVU => Special 27 | OP_ADD => Special 32 | OP_ADDU => Special 33 | OP_SUB => Special 34
  | OP_SUBU => Special 35 | OP_AND => Special 36 | OP_OR => Special 37 | OP_XOR => Special 38
  | OP_NOR => Special 39 | OP_SLT => Special 42 | OP_SLTU => Special 43
  | OP_BLTZ => Bcond 0 | OP_BGEZ => Bcond 1 | OP_BLTZAL => Bcond 16 | OP_BGEZAL => Bcond 17
  | OP_J => Normal 2 | OP_JAL => Normal 3 | OP_BEQ => Normal 4 | OP_BNE => Normal 5
  | OP_BLEZ => Normal 6 | OP_BGTZ => Normal 7 | OP_ADDI => Normal 8 | OP_ADDIU => Normal 9
  | OP_SLTI => Normal 10 | OP_SLTIU => Normal 11 | OP_ANDI => Normal 12 | OP_ORI => Normal 13
  | OP_XORI => Normal 14 | OP_LUI => Normal 15 | OP_LB => Normal 32 | OP_LH => Normal 33
  | OP_LWL => Normal 34 | OP_LW => Normal 35 | OP_LBU => Normal 36 | OP_LHU => Normal 37
  | OP_LWR => Normal 38 | OP_SB => Normal 40 | OP_SH => Normal 41 | OP_SWL => Normal 42
  | OP_SW => Normal 43 | OP_SWR => Normal 46
  | OP_RFE | OP_UNIMP | OP_RES | SPECIAL | BCOND => Normal (-1)
  end.

Definition known_op (o : OpCode) : bool :=
  match o with OP_RFE | OP_UNIMP | OP_RES | SPECIAL | BCOND => false | _ => true end.

Definition jump_op (o : OpCode) : bool := match o with OP_J | OP_JAL => true | _ => false end.

Lemma opTable_slot op o f : aget opTable op = Ok (o, f) →
  match o with
  | SPECIAL => op = 0 ∧ f = RFMT
  | BCOND => op = 1 ∧ f = IFMT
  | _ => known_op o = true → slot_of o = Normal op ∧ f = if jump_op o then JFMT else IFMT
  end.
Proof.
  intros [H0 Hl]%aget_Ok. pose proof (lookup_lt_Some _ _ _ Hl) as Hlt. cbn in Hlt.
  rewrite <- (Z2Nat.id op) by done. clear H0. revert Hl. generalize (Z.to_nat op), Hlt. clear op Hlt.
  intros n Hn. do 64 (destruct n as [|n]; [intros [= <- <-]; by try split|]). lia.
Qed.

Lemma specialTable_slot f o : aget specialTable f = Ok o → known_op o = true → slot_of o = Special f.
Proof.
  intros [H0 Hl]%aget_Ok. pose proof (lookup_lt_Some _ _ _ Hl) as Hlt. cbn in Hlt.
  rewrite <- (Z2Nat.id f) by done. clear H0. revert Hl. generalize (Z.to_nat f), Hlt. clear f Hlt.
  intros n Hn. do 64 (destruct n as [|n]; [intros [= <-]; done|]). lia.
Qed.

Lemma bcond_slot v : known_op (decode_bcond v) = true →
  slot_of (decode_bcond v) = Bcond (Z.land (Z.shiftr v 16) 0x1f).
Proof.
  rewrite decode_bcond_spec. change 0x1f with (Z.ones 5). rewrite land_shiftr by lia.
  generalize (v / 2 ^ 16 mod 2 ^ 5). intros x. rewrite bcond_op_if.
  destruct (Z.eqb_spec x 0) as [->|]; [done|]. destruct (Z.eqb_spec x 1) as [->|]; [done|].
  destruct (Z.eqb_spec x 16) as [->|]; [done|]. by destruct (Z.eqb_spec x 17) as [->|].
Qed.

(** What the decoder of mipssim.cc makes of a word, in terms of execute.c *)
Record seen (w : Z) (i : Instruction) : Prop := {
  seen_rs : Exe.rs w = rs i;
  seen_rt : Exe.rt w = rt i;
  seen_rd : Exe.rd w = rd i;
  seen_slot : known_op (opCode i) = true →
    match slot_of (opCode i) with
    | Special f => Z.land (Z.shiftr w 26) 0x3f = 0 ∧ Z.land w 0x3f = f ∧ extra i = Exe.shamt w
    | Bcond r => Z.land (Z.shiftr w 26) 0x3f = 1 ∧ Exe.rt w = r ∧ extra i = Exe.immed w
    | Normal n => Z.land (Z.shiftr w 26) 0x3f = n ∧
        extra i = if jump_op (opCode i) then Z.land w 0x03ffffff else Exe.immed w
    end }.

Lemma Decode_seen v i : uint32 v → Decode v = Ok i → seen (wrap32 v) i.
Proof.
  intros Hv. unfold Decode. destruct (aget opTable _) as [[o f]| | | |] eqn:Ho; try done.
  cbn [mbind result_bind]. apply opTable_slot in Ho.
  set (op := Z.land (Z.shiftr v 26) 0x3f) in *.
  assert (Z.land (Z.shiftr (wrap32 v) 26) 0x3f = op) as Hop by (apply (field_wrap v 26 6); done || lia).
  assert (Z.land (wrap32 v) 0x3f = Z.land v 0x3f) as Hfn.
  { pose proof (field_wrap v 0 6 Hv). rewrite !Z.shiftr_0_r in H. apply H; lia. }
  assert (Z.land (wrap32 v) 0x03ffffff = Z.land v 0x03ffffff) as Hj.
  { pose proof (field_wrap v 0 26 Hv). rewrite !Z.shiftr_0_r in H. apply H; lia. }
  assert (Exe.rt (wrap32 v) = Z.land (Z.shiftr v 16) 0x1f) as Hrt by (apply (field_wrap v 16 5); done || lia).
  assert (Exe.shamt (wrap32 v) = Z.land (Z.shiftr v 6) 0x1f) as Hsh by (apply (field_wrap v 6 5); done || lia).
  assert (Exe.immed (wrap32 v) =
    if negb (Z.land (Z.land v 0xffff) 0x8000 =? 0) then wrap32 (Z.lor (Z.land v 0xffff) 0xffff0000) else Z.land v 0xffff) as Him.
  { rewrite immed_wrap by done. change 0xffff with (Z.ones 16). rewrite Z.land_ones by lia.
    rewrite sext16_lor; [done|]. apply Z.mod_pos_bound. lia. }
  intros Hd. 
  assert (∃ o', i = mkInstr v o' (Z.land (Z.shiftr v 21) 0x1f) (Z.land (Z.shiftr v 16) 0x1f) (Z.land (Z.shiftr v 11) 0x1f)
    (match f with IFMT => Exe.immed (wrap32 v) | RFMT => Exe.shamt (wrap32 v) | JFMT => Z.land (wrap32 v) 0x03ffffff end) ∧
    match o with SPECIAL => aget specialTable (Z.land v 0x3f) | BCOND => Ok (decode_bcond v) | _ => Ok o end = Ok o') as (o' & -> & Ho').
  { rewrite Him, Hsh, Hj. destruct (match o with SPECIAL => _ | _ => _ end) as [o'| | | |]; try done.
    cbn [mbind result_bind] in Hd. injection Hd as <-. exists o'. by destruct f. }
  clear Hd. split; cbn [rs rt rd opCode extra].
  - apply (field_wrap v 21 5); done || lia.
  - done.
  - apply (field_wrap v 11 5); done || lia.
  - intros Hk. rewrite Hop, Hfn, Hrt.
    destruct (decide (o = SPECIAL)) as [->|H1]; [|destruct (decide (o = BCOND)) as [->|H2]].
    + destruct Ho as [-> ->]. by rewrite (specialTable_slot _ _ Ho' Hk).
    + destruct Ho as [-> ->]. injection Ho' as <-. by rewrite bcond_slot.
    + assert (o' = o) as ->. { destruct o; try done; by injection Ho' as <-. }
      assert (slot_of o = Normal op ∧ f = if jump_op o then JFMT else IFMT) as [-> ->].
      { destruct o; try done; by apply Ho. }
      split; [done|]. by destruct (jump_op o).
Qed.

(** ** The two interpreters in step *)

(** The registers of execute.c, numbered as those of the machine *)
Definition view (s : Exe.Int) (j : Z) : Z :=
  if j =? 0 then 0
  else if j <? 32 then default 0 (Exe.Reg s !! Z.to_nat j)
  else if j =? HiReg then Exe.HI s else Exe.LO s.

Record sim (m : Machine) (s : Exe.Int) : Prop := {
  sim_length : length (Exe.Reg s) = 32%nat;
  sim_view : ∀ j, 0 <= j < 34 → R m j = view s j;
  sim_pc : R m PCReg = Exe.pc s;
  sim_npc : R m NextPCReg = Exe.npc s;
  sim_load : R m LoadReg = 0 }.

(** The instructions on which the two agree.  They do not trap for overflow in
    execute.c, their immediates are extended differently in ANDI, ORI and XORI, the
    amount of a variable shift is not masked in execute.c, OR and SRL deviate in
    mipssim.cc; a branch in the delay slot of another and a jump out of its 256
    megabytes have different targets. *)
Definition agrees (i : Instruction) (s : Exe.Int) : Prop :=
  let a := view s (rs i) in
  let b := view s (rt i) in
  match opCode i with
  | OP_ADD => int32 (a + b)
  | OP_ADDI => int32 (a + extra i)
  | OP_SUB => int32 (a - b)
  | OP_ADDU | OP_ADDIU | OP_SUBU | OP_AND | OP_XOR | OP_NOR | OP_LUI | OP_SLL | OP_SRA
  | OP_SLT | OP_SLTI | OP_SLTU | OP_SLTIU | OP_MFHI | OP_MFLO | OP_MTHI | OP_MTLO | OP_JR => True
  | OP_ANDI | OP_ORI | OP_XORI => 0 <= extra i
  | OP_SLLV | OP_SRAV => 0 <= a < 32
  | OP_DIV => b ≠ 0 ∧ ¬ (a = - 2 ^ 31 ∧ b = -1)
  | OP_DIVU => b ≠ 0
  | OP_BEQ | OP_BNE | OP_BLEZ | OP_BGTZ | OP_BLTZ | OP_BGEZ | OP_BLTZAL | OP_BGEZAL =>
      Exe.npc s = wrap32 (Exe.pc s + 4)
  | OP_JALR => Exe.npc s = wrap32 (Exe.pc s + 4) ∧ rs i ≠ rd i
  | OP_J | OP_JAL => Exe.npc s = wrap32 (Exe.pc s + 4) ∧
      Z.land (u32 (Exe.pc s)) 0xf0000000 = Z.land (u32 (Exe.npc s + 4)) 0xf0000000
  | _ => False
  end.

(** The state in which execute.c executes the instruction it has fetched *)
Definition begun (s : Exe.Int) : Exe.Int :=
  Exe.mkInt (<[0%nat := 0]> (Exe.Reg s)) (Exe.HI s) (Exe.LO s) (Exe.mem s) (Exe.npc s) (wrap32 (Exe.npc s + 4)).

Definition upd (j v : Z) (s : Exe.Int) : Exe.Int :=
  Exe.mkInt (<[Z.to_nat j := v]> (Exe.Reg s)) (Exe.HI s) (Exe.LO s) (Exe.mem s) (Exe.pc s) (Exe.npc s).

Lemma reg_begun s j : length (Exe.Reg s) = 32%nat → 0 <= j < 32 → Exe.reg j (begun s) = Ok (view s j).
Proof.
  intros Hl Hj. apply aget_Ok. split; [lia|]. unfold view, begun. cbn [Exe.Reg].
  destruct (Z.eqb_spec j 0) as [->|]; [apply list_lookup_insert_eq; lia|].
  rewrite list_lookup_insert_ne by lia. destruct (Z.ltb_spec j 32); [|lia].
  destruct (lookup_lt_is_Some_2 (Exe.Reg s) (Z.to_nat j)) as [x Hx]; [lia|]. by rewrite Hx.
Qed.

Lemma set_reg_upd s j v : length (Exe.Reg s) = 32%nat → 0 <= j < 32 → Exe.set_reg j v s = Ok (upd j v s).
Proof. intros Hl Hj. unfold Exe.set_reg. by rewrite aset_Ok by lia. Qed.

Lemma view_upd s j v k : length (Exe.Reg s) = 32%nat → 0 <= j < 32 → 0 < k < 34 →
  view (upd j v s) k = if k =? j then v else view s k.
Proof.
  intros Hl Hj Hk. unfold view. cbn [upd Exe.Reg Exe.HI Exe.LO].
  destruct (Z.eqb_spec k 0); [lia|]. destruct (Z.ltb_spec k 32).
  - destruct (Z.eqb_spec k j) as [->|]; [by rewrite list_lookup_insert_eq by lia|].
    by rewrite list_lookup_insert_ne by lia.
  - destruct (Z.eqb_spec k j); [lia|done].
Qed.

Lemma view_begun s k : 0 < k < 34 → view (begun s) k = view s k.
Proof.
  intros Hk. unfold view. cbn [begun Exe.Reg Exe.HI Exe.LO]. destruct (Z.eqb_spec k 0); [lia|].
  destruct (Z.ltb_spec k 32); [|done]. by rewrite list_lookup_insert_ne by lia.
Qed.

Lemma length_begun s : length (Exe.Reg (begun s)) = length (Exe.Reg s).
Proof. apply length_insert. Qed.

Lemma immed_sext w : int32 w → Exe.immed w = sext16 (w mod 2 ^ 16).
Proof.
  intros Hw. rewrite <- (wrap32_id w) at 1 by done. rewrite <- wrap32_u32, immed_wrap by apply u32_uint32.
  f_equal. unfold u32. apply Z.mod_mod_divide. by exists (2 ^ 16).
Qed.

Lemma immed_mod w : int32 w → u16 (Exe.immed w) = w mod 2 ^ 16.
Proof.
  intros Hw. rewrite immed_sext by done. unfold sext16, u16. pose proof (Z.mod_pos_bound w (2 ^ 16) ltac:(lia)).
  destruct (Z.ltb_spec (w mod 2 ^ 16) (2 ^ 15)); [by rewrite Z.mod_mod by lia|].
  rewrite <- (Z_mod_plus_full _ 1), Z.sub_add. by rewrite Z.mod_mod by lia.
Qed.

Lemma immed_u16 w : int32 w → 0 <= Exe.immed w → u16 (Exe.immed w) = Exe.immed w.
Proof.
  intros Hw H0. rewrite immed_mod by done. rewrite immed_sext in * by done. unfold sext16 in *.
  pose proof (Z.mod_pos_bound w (2 ^ 16) ltac:(lia)). destruct (Z.ltb_spec (w mod 2 ^ 16) (2 ^ 15)); [done|lia].
Qed.

Lemma amount_ok a : 0 <= a < 32 → Exe.shift_amount a = Ok a ∧ u32 a mod 32 = a.
Proof.
  intros Ha. unfold Exe.shift_amount. rewrite (proj2 (Z.leb_le 0 a)), (proj2 (Z.ltb_lt a 32)) by lia.
  split; [done|]. rewrite u32_id by (unfold uint32; lia). by apply Z.mod_small.
Qed.


Ltac reg_ok := unfold HiReg, LoReg, NumTotalRegs in *; lia.

(** The same registers after the instruction, and the machine's other registers
    as before *)
Record matched (m1 m2 : Machine) (s : Exe.Int) : Prop := {
  ma_length : length (Exe.Reg s) = 32%nat;
  ma_view : ∀ j, 0 < j < 34 → R m2 j = view s j;
  ma_rest : ∀ j, 34 <= j < NumTotalRegs → R m2 j = R m1 j }.

Lemma matched_upd m1 m2 s j v : wf_machine m2 → 0 <= j < 32 → matched m1 m2 s → matched m1 (setR m2 j v) (upd j v s).
Proof.
  intros Hm Hj [Hl Hv Hr]. split.
  - cbn. by rewrite length_insert.
  - intros k Hk. rewrite R_setR by (done || reg_ok). rewrite view_upd by done. rewrite Z.eqb_sym. by rewrite Hv.
  - intros k Hk. rewrite R_setR by (done || reg_ok). destruct (Z.eqb_spec j k); [lia|by apply Hr].
Qed.

Lemma matched_npc m1 m2 s v : matched m1 m2 s → matched m1 m2 (Exe.set_npc v s).
Proof. intros [Hl Hv Hr]. split; [done| |done]. intros k Hk. rewrite Hv by done. done. Qed.

Lemma matched_HI m1 m2 s v : wf_machine m2 → matched m1 m2 s → matched m1 (setR m2 HiReg v) (Exe.set_HI v s).
Proof.
  intros Hm [Hl Hv Hr]. split; [done| |].
  - intros k Hk. rewrite R_setR by (done || reg_ok). unfold view. cbn [Exe.set_HI Exe.HI Exe.LO Exe.Reg].
    rewrite Z.eqb_sym. destruct (Z.eqb_spec k HiReg) as [->|]; [done|]. rewrite Hv by done. unfold view.
    destruct (Z.eqb_spec k HiReg); [done|]. done.
  - intros k Hk. rewrite R_setR by (done || reg_ok). destruct (Z.eqb_spec HiReg k); [unfold HiReg in *; lia|by apply Hr].
Qed.

Lemma matched_LO m1 m2 s v : wf_machine m2 → matched m1 m2 s → matched m1 (setR m2 LoReg v) (Exe.set_LO v s).
Proof.
  intros Hm [Hl Hv Hr]. split; [done| |].
  - intros k Hk. rewrite R_setR by (done || reg_ok). unfold view. cbn [Exe.set_LO Exe.HI Exe.LO Exe.Reg].
    destruct (Z.eqb_spec LoReg k) as [<-|]; [done|]. rewrite Hv by done. unfold view, LoReg, HiReg in *.
    destruct (Z.eqb_spec k 0); [lia|]. destruct (Z.ltb_spec k 32); [done|]. destruct (Z.eqb_spec k 32); [done|lia].
  - intros k Hk. rewrite R_setR by (done || reg_ok). destruct (Z.eqb_spec LoReg k); [unfold LoReg in *; lia|by apply Hr].
Qed.
Section Agree.
Variable os : Z → Z → Z → Z → gmap Z Z → Z * gmap Z Z.
Variables (w : Z) (i : Instruction) (s : Exe.Int).
Hypothesis Hw : int32 w.
Hypothesis Hseen : seen w i.
Hypothesis Hwf : wf_instr i.
Hypothesis Hlen : length (Exe.Reg s) = 32%nat.
Abbreviation a := (view s (rs i)).
Abbreviation b := (view s (rt i)).

Lemma reg_rs : Exe.reg (Exe.rs w) (begun s) = Ok a.
Proof. rewrite (seen_rs _ _ Hseen). apply reg_begun; [done|apply Hwf]. Qed.
Lemma reg_rt : Exe.reg (Exe.rt w) (begun s) = Ok b.
Proof. rewrite (seen_rt _ _ Hseen). apply reg_begun; [done|apply Hwf]. Qed.

(** The case of the [switch] that an operation goes to *)
Ltac exe_open Ho :=
  pose proof (seen_slot _ _ Hseen) as Hslot; rewrite Ho in Hslot; specialize (Hslot eq_refl);
  cbn [slot_of jump_op] in Hslot; unfold Exe.exec_normal;
  repeat (rewrite reg_rs, reg_rt || rewrite reg_rs || rewrite reg_rt; cbn [mbind result_bind]);
  match type of Hslot with
  | _ ∧ _ ∧ _ => let H1 := fresh in let H2 := fresh in let H3 := fresh "Hextra" in destruct Hslot as (H1 & H2 & H3);
      rewrite H1; cbn iota; unfold Exe.exec_special, Exe.exec_bcond;
      repeat (rewrite reg_rs, reg_rt || rewrite reg_rs || rewrite reg_rt; cbn [mbind result_bind]);
      rewrite H2; cbn iota
  | _ ∧ _ => let H1 := fresh in let H3 := fresh "Hextra" in destruct Hslot as (H1 & H3); rewrite H1; cbn iota
  end.

Lemma exe_alu xpc d f v :
  int32 a → int32 b → isa_alu (opCode i) = Some (d, f) → agrees i s → f a b (extra i) = Some v →
  Exe.exec_normal os w xpc (begun s) = Ok (upd (alu_dest i d) v (begun s)).
Proof.
  intros Ha Hb Hf Hag Hv. rewrite <- set_reg_upd; cycle 1.
  { by rewrite length_begun. } { destruct Hwf, d; done. }
  unfold agrees in Hag. pose proof (wf_extra _ Hwf) as He.
  destruct (opCode i) eqn:Ho; try discriminate Hf; try done; injection Hf as <- <-; exe_open Ho;
    unfold alu_dest; rewrite ?(seen_rd _ _ Hseen), ?(seen_rt _ _ Hseen), <- ?Hextra;
    cbn beta in Hv; rewrite ?(seen_rt _ _ Hseen) in *.
  1,2: unfold checked in Hv; f_equal; destruct (_ && _) eqn:Hc; [|done]; injection Hv as <-; by apply wrap32_id.
  16: unfold checked in Hv; f_equal; destruct (_ && _) eqn:Hc; [|done]; injection Hv as <-; by apply wrap32_id.
  all: injection Hv as <-.
  all: try (assert (Exe.shift_amount a = Ok a ∧ u32 a mod 32 = a) as [Hamount Hmod]
    by (by apply amount_ok)).
  all: try (assert (u16 (extra i) = extra i) as Hu16 by (rewrite Hextra; apply immed_u16; [done|by rewrite <- Hextra])).
  all: try (assert (u16 (extra i) = w mod 2 ^ 16) as Hlui by (rewrite Hextra; by apply immed_mod)).
  all: try (assert (0 <= extra i < 32) as Hsh by (apply (wf_shift _ Hwf); tauto)).
  - f_equal. symmetry. apply wrap32_eqm, u32_add.
  - f_equal. symmetry. apply wrap32_eqm, u32_add.
  - f_equal. apply as_word; [by apply int32_land|]. by rewrite !u32_land, !u32_u32.
  - f_equal. rewrite Hu16. apply as_word; [by apply int32_land|]. by rewrite !u32_land, u32_u32.
  - f_equal. rewrite Z.shiftl_mul_pow2 by lia. apply wrap32_eqm. rewrite Hlui.
    change (2 ^ 32) with (2 ^ 16 * 2 ^ 16). rewrite !Z.mul_mod_distr_r by lia. by rewrite Z.mod_mod by lia.
  - f_equal. apply as_word; [by apply int32_lnot, int32_lor|]. by rewrite <- u32_lor, u32_lnot_gen.
  - f_equal. rewrite Hu16. apply as_word; [by apply int32_lor|]. by rewrite !u32_lor, u32_u32.
  - f_equal. rewrite Z.shiftl_mul_pow2 by lia. symmetry. apply wrap32_eqm, u32_mul.
  - rewrite Hamount. cbn [mbind result_bind]. f_equal. rewrite Z.shiftl_mul_pow2 by lia. symmetry.
    rewrite Hmod. apply wrap32_eqm, u32_mul.
  - done.
  - done.
  - done.
  - done.
  - f_equal. apply Z.shiftr_div_pow2. lia.
  - rewrite Hamount. cbn [mbind result_bind]. f_equal. rewrite Hmod. apply Z.shiftr_div_pow2. lia.
  - f_equal. symmetry. apply wrap32_eqm, u32_sub.
  - f_equal. apply as_word; [by apply int32_lxor|]. by rewrite !u32_lxor, !u32_u32.
  - f_equal. rewrite Hu16. apply as_word; [by apply int32_lxor|]. by rewrite !u32_lxor, u32_u32.
Qed.
(** On the machine [m1], which has the same registers *)
Variables (be : bool) (m1 : Machine).
Hypothesis Hm1 : wf_machine m1.
Hypothesis Hview : ∀ j, 0 <= j < 34 → R m1 j = view s j.
Hypothesis Hnpc : R m1 NextPCReg = Exe.npc s.

Abbreviation pcAfter := (wrap32 (Exe.npc s + 4)).

Lemma begun_matched : matched m1 m1 (begun s).
Proof.
  split; [by rewrite length_begun| |done]. intros j Hj. by rewrite view_begun, Hview by lia.
Qed.

(** One instruction of both: the machine's program counter after the delay slot
    is [npc] of the other. *)
Definition in_step : Prop :=
  ∃ m2 s', exec be m1 i pcAfter = Ok (Next m2 (Exe.npc s') 0 0) ∧
    Exe.exec_normal os w (Exe.pc s) (begun s) = Ok s' ∧ matched m1 m2 s' ∧ Exe.pc s' = Exe.npc s.

Lemma R_rs : R m1 (rs i) = a.
Proof. apply Hview. destruct Hwf. lia. Qed.
Lemma R_rt : R m1 (rt i) = b.
Proof. apply Hview. destruct Hwf. lia. Qed.

Lemma int32_ab : int32 a ∧ int32 b.
Proof. rewrite <- R_rs, <- R_rt. split; by apply R_int32. Qed.

Lemma alu_in_step d f : isa_alu (opCode i) = Some (d, f) → agrees i s → in_step.
Proof.
  intros Hf Hag. destruct int32_ab as [Ha Hb].
  assert (∃ v, f a b (extra i) = Some v) as [v Hv].
  { revert Hf Hag. unfold agrees. destruct (opCode i); intros [= <- <-] Hag; try done; try by eexists.
    all: unfold checked; rewrite (proj2 (Z.leb_le _ _)), (proj2 (Z.ltb_lt _ _)) by apply Hag; by eexists. }
  assert (deviation (opCode i) = None) as Hdev by (revert Hag; unfold agrees; by destruct (opCode i)).
  assert (0 <= alu_dest i d < 32) as Hd by (destruct Hwf, d; done).
  eexists _, (upd (alu_dest i d) v (begun s)). split; [|split; [by eapply exe_alu|split; [|done]]].
  - rewrite (exec_alu _ _ _ _ _ _ Hm1 Hwf Hf), R_rs, R_rt. unfold alu_result. by rewrite Hdev, Hv.
  - apply matched_upd; [done|done|]. apply begun_matched.
Qed.

Lemma move_in_step : opCode i = OP_MFHI ∨ opCode i = OP_MFLO ∨ opCode i = OP_MTHI ∨ opCode i = OP_MTLO → in_step.
Proof.
  intros [Ho|[Ho|[Ho|Ho]]].
  - exists (setR m1 (rd i) (R m1 HiReg)), (upd (rd i) (Exe.HI s) (begun s)).
    destruct Hwf. split; [exec_open|split; [exe_open Ho|split; [|done]]].
    + by rewrite setreg_setR by (done || reg_ok).
    + rewrite (seen_rd _ _ Hseen), set_reg_upd; [done|by rewrite length_begun|done].
    + rewrite (Hview HiReg) by done. apply matched_upd; [done|done|apply begun_matched].
  - exists (setR m1 (rd i) (R m1 LoReg)), (upd (rd i) (Exe.LO s) (begun s)).
    destruct Hwf. split; [exec_open|split; [exe_open Ho|split; [|done]]].
    + by rewrite setreg_setR by (done || reg_ok).
    + rewrite (seen_rd _ _ Hseen), set_reg_upd; [done|by rewrite length_begun|done].
    + rewrite (Hview LoReg) by done. apply matched_upd; [done|done|apply begun_matched].
  - exists (setR m1 HiReg a), (Exe.set_HI a (begun s)).
    destruct Hwf. split; [exec_open|split; [exe_open Ho|split; [|done]]].
    + rewrite R_rs. by rewrite setreg_setR by (done || reg_ok).
    + done.
    + apply matched_HI; [done|apply begun_matched].
  - exists (setR m1 LoReg a), (Exe.set_LO a (begun s)).
    destruct Hwf. split; [exec_open|split; [exe_open Ho|split; [|done]]].
    + rewrite R_rs. by rewrite setreg_setR by (done || reg_ok).
    + done.
    + apply matched_LO; [done|apply begun_matched].
Qed.

Lemma div_in_step : opCode i = OP_DIV ∨ opCode i = OP_DIVU → agrees i s → in_step.
Proof.
  destruct int32_ab as [Ha Hb]. unfold agrees. intros [Ho|Ho]; rewrite Ho; intros Hag.
  - destruct Hag as [Hb0 Hov].
    assert ((a =? - 2 ^ 31) && (b =? -1) = false) as Hc.
    { apply not_true_iff_false. rewrite andb_true_iff, !Z.eqb_eq. done. }
    assert (int32 (Z.quot a b)) as Hq by (by apply int32_quot).
    exists (setR (setR m1 LoReg (Z.quot a b)) HiReg (Z.rem a b)),
      (Exe.set_HI (Z.rem a b) (Exe.set_LO (Z.quot a b) (begun s))).
    assert (wf_machine (setR m1 LoReg (Z.quot a b))) as Hm2 by (by apply setR_wf).
    destruct Hwf. split; [exec_open|split; [exe_open Ho|split; [|done]]].
    + rewrite R_rs, R_rt, (proj2 (Z.eqb_neq b 0)), Hc by done. do 2 (rewrite setreg_setR by (done || reg_ok); cbn [mbind result_bind]). done.
    + by rewrite ?(seen_rt _ _ Hseen), (proj2 (Z.eqb_neq b 0)), Hc by done.
    + apply matched_HI; [done|]. apply matched_LO; [done|apply begun_matched].
  - assert (u32 b ≠ 0) as Hb0.
    { intros E. apply Hag. rewrite <- (wrap32_id b), <- wrap32_u32, E by done. done. }
    exists (setR (setR m1 LoReg (wrap32 (u32 a / u32 b))) HiReg (wrap32 (u32 a mod u32 b))),
      (Exe.set_HI (wrap32 (u32 a mod u32 b)) (Exe.set_LO (wrap32 (u32 a / u32 b)) (begun s))).
    assert (wf_machine (setR m1 LoReg (wrap32 (u32 a / u32 b)))) as Hm2 by (apply setR_wf; try done; apply wrap32_int32).
    destruct Hwf. split; [exec_open|split; [exe_open Ho|split; [|done]]].
    + rewrite R_rs, R_rt, (proj2 (Z.eqb_neq (u32 b) 0)) by done. do 2 (rewrite setreg_setR by (done || reg_ok); cbn [mbind result_bind]). done.
    + by rewrite ?(seen_rt _ _ Hseen), (proj2 (Z.eqb_neq (u32 b) 0)) by done.
    + apply matched_HI; [done|]. apply matched_LO; [done|apply begun_matched].
Qed.

(** Branches *)

Lemma same_target : Exe.npc s = wrap32 (Exe.pc s + 4) → extra i = Exe.immed w →
  wrap32 (Exe.npc s + IndexToAddr (extra i)) = wrap32 (Exe.pc s + 4 + wrap32 (Z.shiftl (Exe.immed w) 2)).
Proof.
  intros -> ->. unfold IndexToAddr. apply wrap32_eqm.
  rewrite Zplus_mod, (Zplus_mod (Exe.pc s + 4)). by rewrite wrap32_mod.
Qed.

Lemma same_link : Exe.npc s = wrap32 (Exe.pc s + 4) → wrap32 (Exe.npc s + 4) = wrap32 (Exe.pc s + 8).
Proof.
  intros ->. apply wrap32_eqm. rewrite Zplus_mod, wrap32_mod, <- Zplus_mod. f_equal. lia.
Qed.

Lemma branch_in_step taken m2 s0 :
  Exe.npc s = wrap32 (Exe.pc s + 4) → extra i = Exe.immed w →
  matched m1 m2 s0 → Exe.pc s0 = Exe.npc s → Exe.npc s0 = pcAfter →
  exec be m1 i pcAfter =
    Ok (Next m2 (if taken : bool then wrap32 (Exe.npc s + IndexToAddr (extra i)) else pcAfter) 0 0) →
  Exe.exec_normal os w (Exe.pc s) (begun s) = Ok (Exe.branch w (Exe.pc s) taken s0) → in_step.
Proof.
  intros Hn Hx Hma Hp0 Hn0 He Hs. exists m2, (Exe.branch w (Exe.pc s) taken s0).
  rewrite same_target in He by done. unfold Exe.branch in *. destruct taken.
  - split; [done|]. split; [done|]. split; [by apply matched_npc|done].
  - rewrite Hn0. by split.
Qed.

Lemma cond_in_step taken :
  match opCode i with
  | OP_BEQ => taken = (a =? b) | OP_BNE => taken = negb (a =? b)
  | OP_BLEZ => taken = (a <=? 0) | OP_BGTZ => taken = (0 <? a)
  | OP_BLTZ => taken = (a <? 0) | OP_BGEZ => taken = (0 <=? a)
  | _ => False
  end → agrees i s → in_step.
Proof.
  destruct int32_ab as [Ha Hb]. unfold agrees. destruct (opCode i) eqn:Ho; try done; intros -> Hag;
    pose proof (wf_rs _ Hwf); pose proof (wf_rt _ Hwf);
    (assert (Hx : extra i = Exe.immed w) by
      (pose proof (seen_slot _ _ Hseen) as Hs; rewrite Ho in Hs; specialize (Hs eq_refl); cbn in Hs; tauto));
    (eapply branch_in_step; [exact Hag|exact Hx|apply begun_matched|done|done| |]);
    try (exe_open Ho; rewrite ?(seen_rt _ _ Hseen); reflexivity); exec_open; rewrite ?R_rs, ?R_rt, ?Hnpc.
  - done.
  - rewrite sign_bit_int32, Z.ltb_antisym, negb_involutive by done. done.
  - done.
  - done.
  - by rewrite sign_bit_int32.
  - done.
Qed.

Lemma reg_linked v : Exe.reg (Exe.rs w) (upd 31 v (begun s)) = Ok (if 31 =? rs i then v else a).
Proof.
  rewrite (seen_rs _ _ Hseen). pose proof (wf_rs _ Hwf). unfold Exe.reg. apply aget_Ok. split; [lia|]. cbn [upd Exe.Reg].
  destruct (Z.eqb_spec 31 (rs i)) as [<-|]; [apply list_lookup_insert_eq; cbn; rewrite length_insert; lia|].
  rewrite list_lookup_insert_ne by lia. pose proof (reg_begun s (rs i) Hlen ltac:(lia)) as Hr.
  by apply aget_Ok in Hr as [_ Hr].
Qed.

Lemma link_in_step : opCode i = OP_BLTZAL ∨ opCode i = OP_BGEZAL → agrees i s → in_step.
Proof.
  destruct int32_ab as [Ha Hb]. unfold agrees. intros Ho Hag.
  assert (Exe.npc s = wrap32 (Exe.pc s + 4)) as Hn by (by destruct Ho as [Ho|Ho]; rewrite Ho in Hag).
  assert (extra i = Exe.immed w) as Hx.
  { pose proof (seen_slot _ _ Hseen) as Hs. destruct Ho as [Ho|Ho]; rewrite Ho in Hs; specialize (Hs eq_refl); cbn in Hs; tauto. }
  pose proof (wf_rs _ Hwf) as Hrs. set (v := wrap32 (Exe.npc s + 4)).
  set (a' := if 31 =? rs i then v else a).
  assert (int32 v) as Hv by apply wrap32_int32.
  assert (int32 a') as Ha' by (unfold a'; by destruct (_ =? _)).
  assert (setreg m1 R31 v = Ok (setR m1 R31 v)) as Hset by (by apply setreg_setR).
  assert (wf_machine (setR m1 R31 v)) as Hm2 by (by apply setR_wf).
  assert (reg (setR m1 R31 v) (rs i) = Ok a') as Hra.
  { rewrite reg_R by (done || reg_ok). rewrite R_setR, R_rs by (done || reg_ok). done. }
  assert (Exe.set_reg 31 (wrap32 (Exe.pc s + 8)) (begun s) = Ok (upd 31 v (begun s))) as Hes.
  { rewrite <- same_link by done. apply set_reg_upd; [by rewrite length_begun|done]. }
  assert (matched m1 (setR m1 R31 v) (upd 31 v (begun s))) as Hma by (apply matched_upd; [done|done|apply begun_matched]).
  destruct Ho as [Ho|Ho].
  - apply (branch_in_step (a' <? 0) _ _ Hn Hx Hma eq_refl eq_refl).
    + pose proof (wf_rt _ Hwf). exec_open. rewrite Hnpc. fold v. rewrite Hset. cbn [mbind result_bind].
      rewrite Hra. cbn [mbind result_bind]. by rewrite sign_bit_int32.
    + exe_open Ho. rewrite Hes. cbn [mbind result_bind]. rewrite reg_linked. done.
  - apply (branch_in_step (0 <=? a') _ _ Hn Hx Hma eq_refl eq_refl).
    + pose proof (wf_rt _ Hwf). exec_open. rewrite Hnpc. fold v. rewrite Hset. cbn [mbind result_bind].
      rewrite Hra. cbn [mbind result_bind]. rewrite sign_bit_int32, Z.ltb_antisym, negb_involutive by done. done.
    + exe_open Ho. rewrite Hes. cbn [mbind result_bind]. rewrite reg_linked. done.
Qed.

(** Jumps *)
Lemma same_jump : extra i = Z.land w 0x03ffffff →
  Z.land (u32 (Exe.pc s)) 0xf0000000 = Z.land (u32 (Exe.npc s + 4)) 0xf0000000 →
  wrap32 (Z.lor (Z.land (u32 pcAfter) 0xf0000000) (u32 (IndexToAddr (extra i)))) = Exe.jump_target w (Exe.pc s).
Proof.
  intros Hx Hn. unfold Exe.jump_target, IndexToAddr. rewrite Hx, Hn, !u32_wrap32.
  apply wrap32_eqm. rewrite <- !(u32_mod (Z.lor _ _)). f_equal. by rewrite !u32_lor, u32_u32.
Qed.

Lemma jump_in_step : opCode i = OP_J ∨ opCode i = OP_JAL ∨ opCode i = OP_JR ∨ opCode i = OP_JALR →
  agrees i s → in_step.
Proof.
  destruct int32_ab as [Ha Hb]. unfold agrees. pose proof (wf_rs _ Hwf) as Hrs. pose proof (wf_rt _ Hwf) as Hrt.
  pose proof (wf_rd _ Hwf) as Hrd. set (v := wrap32 (Exe.npc s + 4)).
  pose proof (seen_slot _ _ Hseen) as Hs. intros [Ho|[Ho|[Ho|Ho]]] Hag; rewrite Ho in Hag, Hs; specialize (Hs eq_refl); cbn in Hs.
  - exists m1, (Exe.set_npc (Exe.jump_target w (Exe.pc s)) (begun s)).
    split; [exec_open|split; [exe_open Ho; done|split; [apply matched_npc, begun_matched|done]]].
    cbn [Exe.npc Exe.set_npc]. rewrite same_jump; [done|tauto|tauto].
  - exists (setR m1 R31 v), (Exe.set_npc (Exe.jump_target w (Exe.pc s)) (upd 31 v (begun s))).
    split; [exec_open|split; [exe_open Ho|split; [apply matched_npc, matched_upd; [done|done|apply begun_matched]|done]]].
    + rewrite Hnpc. fold v. rewrite setreg_setR by (done || reg_ok). cbn [mbind result_bind Exe.npc Exe.set_npc].
      unfold v. rewrite same_jump; [done|tauto|tauto].
    + rewrite <- same_link by tauto. fold v. rewrite set_reg_upd; [done|by rewrite length_begun|done].
  - exists m1, (Exe.set_npc a (begun s)).
    split; [exec_open; by rewrite R_rs|split; [exe_open Ho; done|split; [apply matched_npc, begun_matched|done]]].
  - exists (setR m1 (rd i) v), (upd (rd i) v (Exe.set_npc a (begun s))).
    assert (wf_machine (setR m1 (rd i) v)) as Hm2 by (apply setR_wf; [done|reg_ok|unfold LoadReg; lia|apply wrap32_int32]).
    split; [exec_open|split; [exe_open Ho|split; [apply matched_upd; [done|done|apply matched_npc, begun_matched]|done]]].
    + rewrite Hnpc. fold v. rewrite setreg_setR by (done || reg_ok). cbn [mbind result_bind].
      rewrite reg_R by (done || reg_ok). rewrite R_setR, R_rs by (done || reg_ok). cbn [mbind result_bind].
      destruct (Z.eqb_spec (rd i) (rs i)); [exfalso; destruct Hag; congruence|done].
    + rewrite (seen_rd _ _ Hseen), <- same_link by tauto. fold v. rewrite set_reg_upd; [done|by cbn; rewrite length_insert|done].
Qed.

Lemma agree_in_step : agrees i s → in_step.
Proof.
  intros Hag. destruct (opCode i) eqn:Ho;
    try (by (unfold agrees in Hag; rewrite Ho in Hag));
    try (eapply alu_in_step; [by rewrite Ho|done]);
    try (by apply move_in_step; tauto); try (by apply div_in_step; tauto);
    try (by (eapply cond_in_step; [rewrite Ho; reflexivity|done]));
    try (by apply link_in_step; tauto); try (by apply jump_in_step; tauto).
Qed.
End Agree.

(** ** Properties *)

Section Run.
Variables (os : Z → Z → Z → Z → gmap Z Z → Z * gmap Z Z) (be : bool).

(** The machine, until [n] instructions are done or one traps *)
Fixpoint machine_run (n : nat) (m : Machine) : result (option ExceptionType * Machine) :=
  match n with
  | O => Ok (None, m)
  | S n => '(e, m) ← OneInstruction be m; match e with None => machine_run n m | Some _ => Ok (e, m) end
  end.

(** [n] iterations of [runprogram] *)
Fixpoint execute_run (n : nat) (s : Exe.Int) : result Exe.Int :=
  match n with O => Ok s | S n => s ← Exe.cycle os s; execute_run n s end.

(** Both find the same word for each of [n] instructions, and it is one on which
    they agree. *)
Fixpoint agree_for (n : nat) (m : Machine) (s : Exe.Int) : Prop :=
  match n with
  | O => True
  | S n =>
      match fetched be m, Exe.fetch (Exe.pc s) s with
      | Some i, Ok w =>
          w = wrap32 (value i) ∧ agrees i s ∧
          match OneInstruction be m, Exe.cycle os s with
          | Ok (None, m), Ok s => agree_for n m s
          | _, _ => True
          end
      | _, _ => False
      end
  end.

Lemma fetched_seen m i : fetched be m = Some i → seen (wrap32 (value i)) i.
Proof.
  unfold fetched. destruct (ReadMem _ _ _ _) as [[[e|raw] m']| | | |]; try done.
  destruct (Decode (u32 raw)) as [i'| | | |] eqn:Hd; intros [= <-].
  assert (value i' = u32 raw) as ->.
  { unfold Decode in Hd. destruct (aget opTable _) as [[o f]| | | |]; try done. cbn [mbind result_bind] in Hd.
    destruct (match o with SPECIAL => _ | _ => _ end); try done. cbn [mbind result_bind] in Hd. by injection Hd as <-. }
  apply Decode_seen; [apply u32_uint32|done].
Qed.

(** An instruction is not a no-op, or nothing happens to any register but R0. *)
Lemma cycle_in_step w i s m1 : int32 w → seen w i → wf_instr i → length (Exe.Reg s) = 32%nat →
  Exe.fetch (Exe.pc s) s = Ok w → in_step os w i s be m1 →
  ∃ m2 s', exec be m1 i (wrap32 (Exe.npc s + 4)) = Ok (Next m2 (Exe.npc s') 0 0) ∧ Exe.cycle os s = Ok s' ∧
    matched m1 m2 s' ∧ Exe.pc s' = Exe.npc s.
Proof.
  intros Hw Hse Hwf Hlen Hf (m2 & s' & He & Hs & Hma & Hpc). unfold Exe.cycle.
  change (Exe.fetch (Exe.pc s) (Exe.mkInt _ _ _ _ _ _)) with (Exe.fetch (Exe.pc s) s). rewrite Hf.
  cbn [mbind result_bind]. rewrite set_reg_upd by done. cbn [mbind result_bind].
  change (upd 0 0 _) with (begun s). destruct (Z.eqb_spec w 0) as [->|]; cbn [negb].
  - assert (∃ v, s' = upd 0 v (begun s)) as [v ->].
    { revert Hs. unfold Exe.exec_normal. rewrite (reg_rs 0 i s Hse Hwf Hlen), (reg_rt 0 i s Hse Hwf Hlen).
      cbn [mbind result_bind]. change (Z.land (Z.shiftr 0 26) 63) with 0. cbn iota. unfold Exe.exec_special.
      rewrite (reg_rs 0 i s Hse Hwf Hlen), (reg_rt 0 i s Hse Hwf Hlen).
      cbn [mbind result_bind]. change (Z.land 0 63) with 0. cbn iota. change (Exe.rd 0) with 0.
      rewrite set_reg_upd; [|by rewrite length_begun|done]. intros [= <-]. by eexists. }
    exists m2, (begun s). split; [done|]. split; [done|]. split; [|done]. destruct Hma as [Hl Hv Hr].
    split; [by rewrite length_begun| |done]. intros j Hj. rewrite Hv by done.
    rewrite view_upd by (done || by rewrite length_begun). by destruct (Z.eqb_spec j 0); [lia|].
  - by exists m2, s'.
Qed.

Lemma agree_step m s i w :
  wf_machine m → wf_translation m → sim m s → fetched be m = Some i →
  Exe.fetch (Exe.pc s) s = Ok w → w = wrap32 (value i) → agrees i s →
  ∃ m' s', OneInstruction be m = Ok (None, m') ∧ Exe.cycle os s = Ok s' ∧
    sim m' s' ∧ wf_machine m' ∧ wf_translation m'.
Proof.
  intros Hm Ht [Hlen Hview Hpc Hnpc Hload] Hf Hw -> Hag.
  pose proof (fetched_seen m i Hf) as Hse.
  destruct (OneInstruction_fetched be m i Hm Ht Hf) as (m1 & Hk & Hreg & Hwf & Hx).
  assert (∀ j, R m1 j = R m j) as HR by (intros; by apply R_registers).
  rewrite Hnpc in Hx.
  assert (in_step os (wrap32 (value i)) i s be m1) as Hst.
  { apply agree_in_step; try done; [apply wrap32_int32|apply Hk| |by rewrite HR].
    intros j Hj. by rewrite HR, Hview. }
  destruct (cycle_in_step _ i s m1 (wrap32_int32 _) Hse Hwf Hlen Hw Hst)
    as (m2 & s' & He & Hc & [Hl Hv Hr] & Hp). rewrite He in Hx.
  destruct Hx as (m' & Ho & Hwf' & Htr' & H0 & Hpc' & _ & Hn' & Hl' & _ & _ & Hj').
  assert (R m2 LoadReg = 0) as Hz by (by rewrite Hr, HR).
  exists m', s'. split; [done|]. split; [done|]. split; [|done]. split.
  - done.
  - intros j Hj. destruct (decide (j = 0)) as [->|]; [done|]. rewrite Hj', Hv by lia. done.
  - rewrite Hpc', Hr, HR, Hnpc by done. by rewrite Hp.
  - done.
  - done.
Qed.

(** C10: two interpreters for one architecture.  When the simulated machine and
    the interpreter of the cross tools have the same registers and program
    counters and no load is pending, then they have again after any number of
    instructions, on a host of either byte order, as long as they find the same
    instructions and these are among the ones on which the two programs agree:
    all arithmetic, logical, shift, comparison, division, branch and jump
    instructions, within the limits that [agrees] spells out. *)
Theorem interpreters_agree n m s :
  wf_machine m → wf_translation m → sim m s → agree_for n m s →
  ∃ m' s', machine_run n m = Ok (None, m') ∧ execute_run n s = Ok s' ∧ sim m' s'.
Proof.
  revert m s. induction n as [|n IH]; intros m s Hm Ht Hsim Hag; cbn [machine_run execute_run agree_for] in *;
    [by exists m, s|].
  destruct (fetched be m) as [i|] eqn:Hf; [|done]. destruct (Exe.fetch (Exe.pc s) s) as [w| | | |] eqn:Hw; try done.
  destruct Hag as (Hwi & Hag & Hrest).
  destruct (agree_step m s i w Hm Ht Hsim Hf Hw Hwi Hag) as (m1 & s1 & Ho & Hc & Hsim1 & Hm1 & Ht1).
  rewrite Ho, Hc in *. cbn [mbind result_bind]. by apply IH.
Qed.

End Run.

(** The multiplication of execute.c: its high word adds the parts without their
    carries, and is right only for factors of 16 bits. *)
Lemma high_word_small t1 t2 : 0 <= t1 < 2 ^ 16 → 0 <= t2 < 2 ^ 16 → Exe.high_word t1 t2 = 0.
Proof.
  intros H1 H2. unfold Exe.high_word. rewrite !Z.shiftr_div_pow2 by lia. rewrite (Z.div_small t1), (Z.div_small t2) by lia. done.
Qed.

Theorem mult_small a b : - 2 ^ 16 < a < 2 ^ 16 → - 2 ^ 16 < b < 2 ^ 16 →
  let '(hi, lo) := Exe.mult a b in hi * 2 ^ 32 + u32 lo = a * b.
Proof.
  intros Ha Hb. unfold Exe.mult.
  assert (∀ x, - 2 ^ 16 < x < 0 → wrap32 (- x) = - x) as Hneg by (intros x Hx; apply wrap32_id; unfold int32; lia).
  assert (∀ t1 t2, 0 <= t1 < 2 ^ 16 → 0 <= t2 < 2 ^ 16 → u32 (wrap32 (t1 * t2)) = t1 * t2) as Hpos.
  { intros. rewrite u32_wrap32, u32_id; [done|]. unfold uint32. nia. }
  assert (∀ t1 t2, 0 <= t1 < 2 ^ 16 → 0 <= t2 < 2 ^ 16 →
    let lo := wrap32 (Z.lnot (wrap32 (t1 * t2)) + 1) in
    (if lo =? 0 then wrap32 (Z.lnot 0 + 1) else Z.lnot 0) * 2 ^ 32 + u32 lo = - (t1 * t2)) as Hminus.
  { intros t1 t2 H1 H2. cbv zeta.
    assert (wrap32 (Z.lnot (wrap32 (t1 * t2)) + 1) = wrap32 (- (t1 * t2))) as ->.
    { apply wrap32_eqm. replace (Z.lnot (wrap32 (t1 * t2)) + 1) with (- wrap32 (t1 * t2)) by (unfold Z.lnot; lia).
      rewrite <- !Z.sub_0_l. rewrite Zminus_mod, wrap32_mod, <- Zminus_mod. done. }
    destruct (decide (t1 * t2 = 0)) as [->|Hp]; [done|].
    assert (u32 (wrap32 (- (t1 * t2))) = 2 ^ 32 - t1 * t2) as Hu.
    { rewrite u32_wrap32. unfold u32. symmetry. apply Z.mod_unique with (-1); [left; nia|lia]. }
    destruct (Z.eqb_spec (wrap32 (- (t1 * t2))) 0) as [E|_]; rewrite Hu; [rewrite E in Hu; change (u32 0) with 0 in Hu; nia|].
    change (Z.lnot 0) with (-1). lia. }
  destruct (Z.ltb_spec a 0), (Z.ltb_spec b 0); rewrite ?Hneg by lia; cbn [negb]; rewrite high_word_small by lia;
    [rewrite Hpos by lia|rewrite Hminus by lia|rewrite Hminus by lia|rewrite Hpos by lia]; lia.
Qed.

Example mult_high_wrong : Exe.mult 0x1ffff 0x1ffff = (1, -262143) ∧ Mult 0x1ffff 0x1ffff true = (3, -262143).
Proof. by vm_compute. Qed.

(** ADDI r1, r0, 5; ADDU r2, r1, r1; BNE r1, r2, +3; the delay slot: NOP *)
Definition demo_words : list Z := [0x20010005; 0x00211021; 0x14220003; 0].

Definition demo_tlb_machine : Machine :=
  setR (setR (mkMachine (replicate 768 0 ++ mjoin (le_bytes 4 <$> demo_words) ++ replicate (Z.to_nat 7408) 0)
    (replicate 40 0)
    (Some [mkTE 0x100000 3 true false false false; mkTE 0 0 false false false false;
           mkTE 0 0 false false false false; mkTE 0 0 false false false false])
    None 0 ∅) PCReg Exe.memoffset) NextPCReg (Exe.memoffset + 4).

Definition demo_int_state : Exe.Int :=
  Exe.mkInt (replicate 32 0) 0 0 (Exe.store_bytes Exe.memoffset (mjoin (le_bytes 4 <$> demo_words)) ∅)
    Exe.memoffset (Exe.memoffset + 4).

Lemma demo_tlb_wf : wf_machine demo_tlb_machine.
Proof.
  unfold demo_tlb_machine. do 2 (apply setR_wf; [|done|done|done]). split.
  - done.
  - by apply Forall_replicate.
  - by exists 0.
  - cbn [mainMemory]. rewrite !length_app, !length_replicate. vm_compute. reflexivity.
  - apply (Forall_app_2 _ (replicate 768 0)); [by apply Forall_replicate|].
    apply Forall_app_2; [vm_compute; repeat constructor; discriminate|by apply Forall_replicate].
Qed.

Lemma interpreters_agree_witness :
  ∃ m' s', machine_run false 4 demo_tlb_machine = Ok (None, m') ∧
    execute_run (λ _ _ _ _ m, (0, m)) 4 demo_int_state = Ok s' ∧ sim m' s'.
Proof.
  apply (interpreters_agree (λ _ _ _ _ m, (0, m)) false 4 demo_tlb_machine demo_int_state).
  - exact demo_tlb_wf.
  - right. split; [reflexivity|]. eexists. split; reflexivity.
  - split; try (vm_compute; reflexivity). intros j Hj.
    assert (∃ k, j = Z.of_nat k ∧ (k < 34)%nat) as (k & -> & Hk) by (exists (Z.to_nat j); lia). clear Hj.
    do 34 (destruct k as [|k]; [vm_compute; reflexivity|]). lia.
  - vm_compute. repeat split; discriminate.
Defined.
