(* ===== verification/Disasm.v ===== *)
(** * bin/d.c and bin/opstrings.c: the disassembler

    One routine, which prints an instruction word with its mnemonic and operands
    from two tables of names.  It is compared with the decoder of
    machine/mipssim.cc, which decides what the simulated machine executes. *)

From Stdlib Require Import String.
From S2P Require Import Prelude Params Machine MipsSim MipsExec Execute.
Local Open Scope Z_scope.

(** ** opstrings.c *)

Definition normalops : list string :=
  ["special"; "bcond"; "j"; "jal"; "beq"; "bne"; "blez"; "bgtz";
   "addi"; "addiu"; "slti"; "sltiu"; "andi"; "ori"; "xori"; "lui";
   "cop0"; "cop1"; "cop2"; "cop3"; "024"; "025"; "026"; "027";
   "030"; "031"; "032"; "033"; "034"; "035"; "036"; "037";
   "lb"; "lh"; "lwl"; "lw"; "lbu"; "lhu"; "lwr"; "047";
   "sb"; "sh"; "swl"; "sw"; "054"; "055"; "swr"; "057";
   "lwc0"; "lwc1"; "lwc2"; "lwc3"; "064"; "065"; "066"; "067";
   "swc0"; "swc1"; "swc2"; "swc3"; "074"; "075"; "076"; "077"]%string.

Definition specialops : list string :=
  ["sll"; "001"; "srl"; "sra"; "sllv"; "005"; "srlv"; "srav";
   "jr"; "jalr"; "012"; "013"; "syscall"; "break"; "016"; "017";
   "mfhi"; "mthi"; "mflo"; "mtlo"; "024"; "025"; "026"; "027";
   "mult"; "multu"; "div"; "divu"; "034"; "035"; "036"; "037";
   "add"; "addu"; "sub"; "subu"; "and"; "or"; "xor"; "nor";
   "050"; "051"; "slt"; "sltu"; "054"; "055"; "056"; "057";
   "060"; "061"; "062"; "063"; "064"; "065"; "066"; "067";
   "070"; "071"; "072"; "073"; "074"; "075"; "076"; "077"]%string.

(** ** d.c *)

Definition regstrings : list string :=
  ["0"; "r1"; "r2"; "r3"; "r4"; "r5"; "r6"; "r7"; "r8"; "r9";
   "r10"; "r11"; "r12"; "r13"; "r14"; "r15"; "r16"; "r17"; "r18"; "r19";
   "r20"; "r21"; "r22"; "r23"; "r24"; "r25"; "r26"; "r27"; "gp"; "sp";
   "r30"; "r31"]%string.

(** What follows the mnemonic: a register, a number (0x%x), an address (%08x), or
    an offset and a register (0x%x(%s)); numbers are printed as [unsigned] *)
Inductive operand := ORegister (name : string) | ONumber (n : Z) | OAddress (n : Z) | OOffset (n : Z) (base : string).

Definition R_ (i : Z) : result operand := s ← aget regstrings i; Ok (ORegister s).

(** instr.h *)
Definition off26 (i : Z) : Z := wrap32 (Z.shiftl (Z.land i (2 ^ 26 - 1)) 2).
Definition top4 (i : Z) : Z := Z.land i (Z.lnot (2 ^ 28 - 1)).
Definition off16 (i : Z) : Z := wrap32 (Z.shiftl (Exe.immed i) 2).

Definition two (a b : result operand) : result (list operand) := x ← a; y ← b; Ok [x; y].
Definition three (a b c : result operand) : result (list operand) := x ← a; y ← b; z ← c; Ok [x; y; z].
Definition one (a : result operand) : result (list operand) := x ← a; Ok [x].

(** The operands of a SPECIAL word *)
Definition dump_special (instruction opcode : Z) : result (list operand) :=
  let rd := R_ (Exe.rd instruction) in
  let rt := R_ (Exe.rt instruction) in
  let rs := R_ (Exe.rs instruction) in
  match opcode with
  | 0 | 2 | 3 => three rd rt (Ok (ONumber (Exe.shamt instruction)))
  | 4 | 6 | 7 => three rd rt rs
  | 8 | 9 | 18 | 19 => one rs
  | 12 | 13 => Ok []
  | 16 | 17 => one rd
  | 24 | 25 | 26 | 27 => two rs rt
  | 32 | 33 | 34 | 35 | 36 | 37 | 38 | 39 | 42 | 43 => three rd rs rt
  | _ => Ok []
  end.

(** The address a branch goes to *)
Definition branch_address (instruction pc : Z) : operand := OAddress (u32 (off16 instruction + pc + 4)).

Definition bcond_name (instruction : Z) : string :=
  match Exe.rt instruction with
  | 0 => "bltz" | 1 => "bgez" | 16 => "bltzal" | 17 => "bgezal" | _ => "BCOND"
  end%string.

(** The operands of the other words *)
Definition dump_normal (instruction pc opcode : Z) : result (list operand) :=
  let rt := R_ (Exe.rt instruction) in
  let rs := R_ (Exe.rs instruction) in
  let im := ONumber (u32 (Exe.immed instruction)) in
  match opcode with
  | 2 | 3 => Ok [OAddress (u32 (Z.lor (top4 pc) (off26 instruction)))]
  | 4 | 5 => three rt rs (Ok (branch_address instruction pc))
  | 8 | 9 | 10 | 11 | 12 | 13 | 14 => three rt rs (Ok im)
  | 15 => two rt (Ok im)
  | 32 | 33 | 34 | 35 | 36 | 37 | 38 | 40 | 41 | 42 | 43 | 46
  | 48 | 49 | 50 | 51 | 56 | 57 | 58 | 59 =>
      base ← aget regstrings (Exe.rs instruction);
      two rt (Ok (OOffset (u32 (Exe.immed instruction)) base))
  | _ => Ok []
  end.

Definition dump_ascii (instruction pc : Z) : result (string * list operand) :=
  let opcode := Z.shiftr (u32 instruction) 26 in
  if instruction =? 0 then Ok ("nop"%string, [])
  else if opcode =? 0 then
    let opcode := Z.land instruction 0x3f in
    name ← aget specialops opcode;
    ops ← dump_special instruction opcode;
    Ok (name, ops)
  else if opcode =? 1 then
    ops ← two (R_ (Exe.rs instruction)) (Ok (branch_address instruction pc));
    Ok (bcond_name instruction, ops)
  else
    name ← aget normalops opcode;
    ops ← dump_normal instruction pc opcode;
    Ok (name, ops).

(** ** What should be printed *)

Definition mnemonic (o : OpCode) : string :=
  match o with
  | OP_SLL => "sll" | OP_SRL => "srl" | OP_SRA => "sra" | OP_SLLV => "sllv" | OP_SRLV => "srlv" | OP_SRAV => "srav"
  | OP_JR => "jr" | OP_JALR => "jalr" | OP_SYSCALL => "syscall" | OP_MFHI => "mfhi" | OP_MTHI => "mthi"
  | OP_MFLO => "mflo" | OP_MTLO => "mtlo" | OP_MULT => "mult" | OP_MULTU => "multu" | OP_DIV => "div"
  | OP_DIVU => "divu" | OP_ADD => "add" | OP_ADDU => "addu" | OP_SUB => "sub" | OP_SUBU => "subu" | OP_AND => "and"
  | OP_OR => "or" | OP_XOR => "xor" | OP_NOR => "nor" | OP_SLT => "slt" | OP_SLTU => "sltu"
  | OP_BLTZ => "bltz" | OP_BGEZ => "bgez" | OP_BLTZAL => "bltzal" | OP_BGEZAL => "bgezal"
  | OP_J => "j" | OP_JAL => "jal" | OP_BEQ => "beq" | OP_BNE => "bne" | OP_BLEZ => "blez" | OP_BGTZ => "bgtz"
  | OP_ADDI => "addi" | OP_ADDIU => "addiu" | OP_SLTI => "slti" | OP_SLTIU => "sltiu" | OP_ANDI => "andi"
  | OP_ORI => "ori" | OP_XORI => "xori" | OP_LUI => "lui" | OP_LB => "lb" | OP_LH => "lh" | OP_LWL => "lwl"
  | OP_LW => "lw" | OP_LBU => "lbu" | OP_LHU => "lhu" | OP_LWR => "lwr" | OP_SB => "sb" | OP_SH => "sh"
  | OP_SWL => "swl" | OP_SW => "sw" | OP_SWR => "swr"
  | _ => ""
  end%string.

(** The fields an assembler line names *)
Inductive field := FRs | FRt | FRd | FShift | FImmediate | FBranch | FJump | FMemory.
#[export] Instance field_eq_dec : EqDecision field.
Proof. solve_decision. Defined.

Definition syntax (o : OpCode) : list field :=
  match o with
  | OP_SLL | OP_SRL | OP_SRA => [FRd; FRt; FShift]
  | OP_SLLV | OP_SRLV | OP_SRAV => [FRd; FRt; FRs]
  | OP_JR | OP_MTHI | OP_MTLO => [FRs]
  | OP_JALR => [FRd; FRs]
  | OP_MFHI | OP_MFLO => [FRd]
  | OP_MULT | OP_MULTU | OP_DIV | OP_DIVU => [FRs; FRt]
  | OP_ADD | OP_ADDU | OP_SUB | OP_SUBU | OP_AND | OP_OR | OP_XOR | OP_NOR | OP_SLT | OP_SLTU => [FRd; FRs; FRt]
  | OP_J | OP_JAL => [FJump]
  | OP_BEQ | OP_BNE => [FRs; FRt; FBranch]
  | OP_BLEZ | OP_BGTZ | OP_BLTZ | OP_BGEZ | OP_BLTZAL | OP_BGEZAL => [FRs; FBranch]
  | OP_ADDI | OP_ADDIU | OP_SLTI | OP_SLTIU | OP_ANDI | OP_ORI | OP_XORI => [FRt; FRs; FImmediate]
  | OP_LUI => [FRt; FImmediate]
  | OP_LB | OP_LH | OP_LWL | OP_LW | OP_LBU | OP_LHU | OP_LWR | OP_SB | OP_SH | OP_SWL | OP_SW | OP_SWR => [FRt; FMemory]
  | _ => []
  end.

(** What d.c names instead *)
Definition misprinted (o : OpCode) : option (list field) :=
  match o with
  | OP_MFLO | OP_JALR => Some [FRs]
  | OP_MTHI => Some [FRd]
  | OP_BLEZ | OP_BGTZ => Some []
  | OP_BEQ | OP_BNE => Some [FRt; FRs; FBranch]
  | _ => None
  end.

(** Registers have their numbers as names, but for the zero register, the global
    pointer and the stack pointer. *)
Definition digit (z : Z) : string := String (Ascii.ascii_of_nat (Z.to_nat (48 + z))) EmptyString.
Definition reg_name (i : Z) : string :=
  if i =? 0 then "0"
  else if i =? 28 then "gp"
  else if i =? 29 then "sp"
  else if i <? 10 then "r" ++ digit i
  else "r" ++ digit (i / 10) ++ digit (i mod 10).

(** A field of a decoded instruction at the address [pc]; the target of a branch
    and of a jump as the simulated machine computes it *)

Definition render (i : Instruction) (pc : Z) (f : field) : operand :=
  match f with
  | FRs => ORegister (reg_name (rs i))
  | FRt => ORegister (reg_name (rt i))
  | FRd => ORegister (reg_name (rd i))
  | FShift => ONumber (extra i)
  | FImmediate => ONumber (u32 (extra i))
  | FBranch => OAddress (u32 (wrap32 (wrap32 (pc + 4) + IndexToAddr (extra i))))
  | FJump => OAddress (Z.lor (Z.land (u32 pc) 0xf0000000) (u32 (IndexToAddr (extra i))))
  | FMemory => OOffset (u32 (extra i)) (reg_name (rs i))
  end.

(** ** Lemmas *)

Lemma regstrings_in i : 0 <= i < 32 → aget regstrings i = Ok (reg_name i).
Proof.
  intros. by rewrite <- (aget_map_seqZ reg_name 32).
Qed.

Lemma opcode_shift w : Z.shiftr (u32 w) 26 = Z.land (Z.shiftr w 26) 0x3f.
Proof.
  change 0x3f with (Z.ones 6). rewrite field_u32, Z.land_ones, Z.shiftr_div_pow2 by lia. symmetry.
  apply Z.mod_small. pose proof (u32_uint32 w) as [H0 H1].
  split; [apply Z.div_pos; lia|apply Z.div_lt_upper_bound; lia].
Qed.

Lemma branch_address_ok w i pc : extra i = Exe.immed w → branch_address w pc = render i pc FBranch.
Proof.
  intros Hx. cbn [render]. unfold branch_address, off16, IndexToAddr. rewrite Hx, u32_wrap32. f_equal. unfold u32.
  rewrite <- Z.add_assoc, Z.add_comm. rewrite (Zplus_mod (wrap32 (pc + 4))), wrap32_mod, <- Zplus_mod. done.
Qed.

Lemma jump_address_ok w i pc : extra i = Z.land w 0x03ffffff →
  OAddress (u32 (Z.lor (top4 pc) (off26 w))) = render i pc FJump.
Proof.
  intros Hx. cbn [render]. unfold off26, top4, IndexToAddr. change (2 ^ 26 - 1) with 0x03ffffff. rewrite Hx. f_equal.
  rewrite u32_lor. f_equal. rewrite u32_land. f_equal.
Qed.

(** ** Properties *)

Section Dump.
Variables (w : Z) (i : Instruction) (pc : Z).
Hypothesis Hseen : seen w i.
Hypothesis Hwf : wf_instr i.
Hypothesis Hne : w ≠ 0.

Lemma R_rs_ok : R_ (Exe.rs w) = Ok (render i pc FRs).
Proof. unfold R_. rewrite (seen_rs _ _ Hseen), regstrings_in by apply Hwf. done. Qed.
Lemma R_rt_ok : R_ (Exe.rt w) = Ok (render i pc FRt).
Proof. unfold R_. rewrite (seen_rt _ _ Hseen), regstrings_in by apply Hwf. done. Qed.
Lemma R_rd_ok : R_ (Exe.rd w) = Ok (render i pc FRd).
Proof. unfold R_. rewrite (seen_rd _ _ Hseen), regstrings_in by apply Hwf. done. Qed.

Lemma dump_special_ok f : slot_of (opCode i) = Special f → known_op (opCode i) = true →
  dump_ascii w pc = Ok (mnemonic (opCode i), render i pc <$> default (syntax (opCode i)) (misprinted (opCode i))).
Proof.
  intros Hs Hk. pose proof (seen_slot _ _ Hseen Hk) as Hsl. rewrite Hs in Hsl. destruct Hsl as (Hop & Hf & Hx).
  unfold dump_ascii. rewrite (proj2 (Z.eqb_neq w 0) Hne), opcode_shift, Hop. cbn [Z.eqb]. rewrite Hf.
  unfold dump_special. rewrite R_rs_ok, R_rt_ok, R_rd_ok, <- Hx.
  destruct (opCode i); try discriminate Hs; injection Hs as <-; reflexivity.
Qed.

Lemma dump_bcond_ok r : slot_of (opCode i) = Bcond r → known_op (opCode i) = true →
  dump_ascii w pc = Ok (mnemonic (opCode i), render i pc <$> default (syntax (opCode i)) (misprinted (opCode i))).
Proof.
  intros Hs Hk. pose proof (seen_slot _ _ Hseen Hk) as Hsl. rewrite Hs in Hsl. destruct Hsl as (Hop & Hf & Hx).
  unfold dump_ascii. rewrite (proj2 (Z.eqb_neq w 0) Hne), opcode_shift, Hop. cbn [Z.eqb Pos.eqb].
  rewrite R_rs_ok, (branch_address_ok w i pc Hx). unfold bcond_name. rewrite Hf.
  destruct (opCode i); try discriminate Hs; injection Hs as <-; reflexivity.
Qed.

Lemma dump_normal_ok n : slot_of (opCode i) = Normal n → known_op (opCode i) = true →
  dump_ascii w pc = Ok (mnemonic (opCode i), render i pc <$> default (syntax (opCode i)) (misprinted (opCode i))).
Proof.
  intros Hs Hk. pose proof (seen_slot _ _ Hseen Hk) as Hsl. rewrite Hs in Hsl. destruct Hsl as (Hop & Hx).
  unfold dump_ascii. rewrite (proj2 (Z.eqb_neq w 0) Hne), opcode_shift, Hop.
  unfold dump_normal. rewrite R_rs_ok, R_rt_ok, (seen_rs _ _ Hseen), regstrings_in by apply Hwf.
  destruct (jump_op (opCode i)) eqn:Hj.
  - rewrite (jump_address_ok w i pc Hx). destruct (opCode i); try discriminate Hs; try discriminate Hj; injection Hs as <-; reflexivity.
  - rewrite (branch_address_ok w i pc Hx), <- Hx.
    destruct (opCode i); try discriminate Hs; try discriminate Hj; try discriminate Hk; injection Hs as <-; reflexivity.
Qed.
End Dump.

(** C29: the disassembler and the decoder.  For every word that the simulated
    machine knows, except the word 0 that is printed as nop, the disassembler
    prints the mnemonic of the operation that the machine executes, the names of
    the registers it uses, its immediate, and the address it branches or jumps to;
    but for seven operations, of which MFLO and MTHI get the wrong register, JALR,
    BLEZ and BGTZ not all their operands, and BEQ and BNE their registers in the
    other order than the manual and the comment in d.c have them. *)
Theorem dump_ascii_correct v i pc :
  uint32 v → v ≠ 0 → Decode v = Ok i → known_op (opCode i) = true →
  dump_ascii (wrap32 v) pc =
    Ok (mnemonic (opCode i), render i pc <$> default (syntax (opCode i)) (misprinted (opCode i))) ∧
  (misprinted (opCode i) = None ↔ opCode i ∉ [OP_MFLO; OP_MTHI; OP_JALR; OP_BLEZ; OP_BGTZ; OP_BEQ; OP_BNE]).
Proof.
  intros Hv Hne Hd Hk. pose proof (Decode_seen v i Hv Hd) as Hse.
  destruct (Decode_wf v) as (i' & Hd' & Hwf). rewrite Hd in Hd'. injection Hd' as <-.
  assert (wrap32 v ≠ 0) as Hw. { intros E. apply Hne. rewrite <- (u32_id v Hv), <- u32_wrap32, E. done. }
  split.
  - destruct (slot_of (opCode i)) as [f|r|n] eqn:Hs;
      [by eapply dump_special_ok|by eapply dump_bcond_ok|by eapply dump_normal_ok].
  - clear. destruct (opCode i); cbn [misprinted]; split; intros H; try done;
      try (exfalso; apply H; rewrite !elem_of_cons; tauto).
    all: rewrite !not_elem_of_cons; repeat split; try discriminate; apply not_elem_of_nil.
Qed.

(** ADDI r2, r1, -1 at 0x100, and BEQ r1, r2, -2 *)
Lemma dump_ascii_correct_witness :
  dump_ascii 0x2022ffff 0x100 = Ok ("addi"%string, [ORegister "r2"; ORegister "r1"; ONumber 0xffffffff]) ∧
  dump_ascii 0x1022fffe 0x100 = Ok ("beq"%string, [ORegister "r2"; ORegister "r1"; OAddress 0xfc]).
Proof.
  split.
  - exact (proj1 (dump_ascii_correct 0x2022ffff (mkInstr 0x2022ffff OP_ADDI 1 2 31 (-1)) 0x100
      ltac:(split; reflexivity || discriminate) ltac:(discriminate) ltac:(reflexivity) eq_refl)).
  - exact (proj1 (dump_ascii_correct 0x1022fffe (mkInstr 0x1022fffe OP_BEQ 1 2 31 (-2)) 0x100
      ltac:(split; reflexivity || discriminate) ltac:(discriminate) ltac:(reflexivity) eq_refl)).
Defined.

(** MFLO r3 and MTHI r3 *)
Example wrong_registers :
  dump_ascii 0x00001812 0 = Ok ("mflo"%string, [ORegister "0"]) ∧
  dump_ascii 0x00600011 0 = Ok ("mthi"%string, [ORegister "0"]).
Proof. by vm_compute. Qed.
