(* ===== verification/NetTest.v ===== *)
(** * network/nettest.cc: the mail test

    [MailTest] on two machines at once: each sends a message to the other, waits
    for the other's message, acknowledges it, waits for the acknowledgement, and
    halts.  A test is a thread that stops where it can lose the processor; the
    machines, their network devices and postal workers are those of Network.v. *)

From Stdlib Require Import SpecFloat.
From S2P Require Import Prelude Params LList Machine Network Directory.
Local Open Scope Z_scope.

(** ** The test *)

(** Where the thread is: before a call of [Send], in its [messageSent->P()],
    before a call of [Receive], before [Halt], and after it.  Between two places
    anything else may happen, as when the timer takes the processor away; without the
    timer nothing happens between the return of [P()] and [Receive]. *)
Inductive place := Send1 | Sent1 | Receive1 | Send2 | Sent2 | Receive2 | Halting | Halted.
#[export] Instance place_eq_dec : EqDecision place.
Proof. solve_decision. Defined.

(** The parameter and variables of [MailTest], and what it printed: the text and
    the numbers of each line *)
Record Test := mkTest {
  farAddr : Z;
  outPktHdr : PacketHeader;
  outMailHdr : MailHeader;
  inPktHdr : PacketHeader;
  inMailHdr : MailHeader;
  buffer : list Z;
  printed : list (list Z * Z * Z) }.

(** The string constants, with their end *)
Definition data : list Z := [72; 101; 108; 108; 111; 32; 116; 104; 101; 114; 101; 33; 0].
Definition ack : list Z := [71; 111; 116; 32; 105; 116; 33; 0].

(** All machines and the test of each *)
Record Sys := mkSys { net : Net; tests : gmap Z (place * Test) }.

Section Code.
Variables (be : bool) (Random junk : nat → Z).

Definition newTest (far : Z) : Test :=
  mkTest far (mkPkt (junk 0) (junk 1) (junk 2)) (mkMailHdr (junk 3) (junk 4) (junk 5))
    (mkPkt (junk 6) (junk 7) (junk 8)) (mkMailHdr (junk 9) (junk 10) (junk 11)) (fresh_bytes junk MaxMailSize) [].

(** The headers of a message to box [box] of [to], answers to box [from] *)
Definition address (to box from len : Z) (t : Test) : Test :=
  mkTest (farAddr t) (mkPkt to (pktFrom (outPktHdr t)) (pktLength (outPktHdr t))) (mkMailHdr box from len)
    (inPktHdr t) (inMailHdr t) (buffer t) (printed t).

(** [postOffice->Receive(box, &inPktHdr, &inMailHdr, buffer)] and the [printf] *)
Definition receive (box a : Z) (t : Test) (s : Net) : result (Test * Net) :=
  '(m, s) ← PostOffice_Receive box a s;
  buf ← asplice (buffer t) 0 (mdata m);
  text ← cstring buf;
  Ok (mkTest (farAddr t) (outPktHdr t) (outMailHdr t) (mpkt m) (mhdr m) buf
        (printed t ++ [(text, pktFrom (mpkt m), mailFrom (mhdr m))]), s).

(** The return of [messageSent->P()] *)
Definition proceed (a : Z) (s : Net) : result Net :=
  '(_, s) ← happen be Random junk (EProceed a) s; Ok s.

(** [Halt]: the process ends, and its socket with it. *)
Definition halt (a : Z) (s : Net) : Net :=
  mkNet (delete a (offices s)) (delete a (wire s)) (drawn s).

(** [MailTest] from one place to the next *)
Definition MailTest (a : Z) (p : place) (t : Test) (s : Net) : result (place * Test * Net) :=
  match p with
  | Send1 =>
      let t := address (farAddr t) 0 1 (Z.of_nat (length data)) t in
      s ← PostOffice_Send be Random junk (outPktHdr t) (outMailHdr t) data a s;
      Ok (Sent1, t, s)
  | Sent1 => s ← proceed a s; Ok (Receive1, t, s)
  | Receive1 => '(t, s) ← receive 0 a t s; Ok (Send2, t, s)
  | Send2 =>
      let t := address (pktFrom (inPktHdr t)) (mailFrom (inMailHdr t)) (mailFrom (outMailHdr t))
                 (Z.of_nat (length ack)) t in
      s ← PostOffice_Send be Random junk (outPktHdr t) (outMailHdr t) ack a s;
      Ok (Sent2, t, s)
  | Sent2 => s ← proceed a s; Ok (Receive2, t, s)
  | Receive2 => '(t, s) ← receive 1 a t s; Ok (Halting, t, s)
  | Halting => Ok (Halted, t, halt a s)
  | Halted => Ok (Halted, t, s)
  end.

(** ** Two machines *)

(** The events of a machine: a step of its test, the two interrupts of its
    network device, and a turn of the postal worker *)
Inductive mevent := MTest (a : Z) | MPoll (a : Z) | MSendDone (a : Z) | MDelivery (a : Z).

Definition who (e : mevent) : Z := match e with MTest a | MPoll a | MSendDone a | MDelivery a => a end.

Definition mcan (e : mevent) (s : Sys) : bool :=
  match e with
  | MTest a =>
      match tests s !! a with
      | Some (Halted, _) | None => false
      | Some (Sent1, _) | Some (Sent2, _) => can_happen (EProceed a) (net s)
      | Some _ => true
      end
  | MPoll a => can_happen (EPoll a) (net s)
  | MSendDone a => can_happen (ESendDone a) (net s)
  | MDelivery a => can_happen (EDelivery a) (net s)
  end.

Definition mhappen (e : mevent) (s : Sys) : result Sys :=
  match e with
  | MTest a =>
      match tests s !! a with
      | None => Undefined
      | Some (p, t) =>
          '(p, t, n) ← MailTest a p t (net s);
          Ok (mkSys n (<[a := (p, t)]> (tests s)))
      end
  | MPoll a => '(_, n) ← happen be Random junk (EPoll a) (net s); Ok (mkSys n (tests s))
  | MSendDone a => '(_, n) ← happen be Random junk (ESendDone a) (net s); Ok (mkSys n (tests s))
  | MDelivery a => '(_, n) ← happen be Random junk (EDelivery a) (net s); Ok (mkSys n (tests s))
  end.

(** Machines [a] and [b] with the post offices that Initialize makes, and their
    tests about to start *)
Definition newSys (a b : Z) (reliability : spec_float) : Sys :=
  mkSys (newNet junk [a; b] reliability 10)
    (<[a := (Send1, newTest b)]> (<[b := (Send1, newTest a)]> ∅)).

Inductive mreach (a b : Z) (reliability : spec_float) : Sys → Prop :=
| mreach_start : mreach a b reliability (newSys a b reliability)
| mreach_event s e s' :
    mreach a b reliability s → who e = a ∨ who e = b → mcan e s = true → mhappen e s = Ok s' → mreach a b reliability s'.

Fixpoint mrun (es : list mevent) (s : Sys) : result Sys :=
  match es with
  | [] => Ok s
  | e :: es => if mcan e s then s ← mhappen e s; mrun es s else Undefined
  end.

(** The event is a call of [Receive] that finds its box empty. *)
Definition empty_box (box a : Z) (s : Net) : bool :=
  match offices s !! a with
  | Some po => match boxes po !! Z.to_nat box with Some b => aIsEmpty b | None => false end
  | None => false
  end.

Definition would_wait (e : mevent) (s : Sys) : bool :=
  match e with
  | MTest a =>
      match tests s !! a with
      | Some (Receive1, _) => empty_box 0 a (net s)
      | Some (Receive2, _) => empty_box 1 a (net s)
      | _ => false
      end
  | _ => false
  end.
End Code.

(** ** What is on its way *)

(** Sends completed but not noticed, sends to complete, messages in the device,
    datagrams at the socket *)
Definition flow (s : Net) (x : Z) : option (Z * Z * Z * nat) :=
  match offices s !! x, wire s !! x with
  | Some po, Some q => Some (messageSent po, sendsPending po, messageAvailable po, length q)
  | _, _ => None
  end.

Ltac flows x a := unfold flow; cbn [offices wire put_office]; destruct (decide (x = a)) as [->|];
  rewrite ?lookup_insert_eq, ?lookup_insert_ne by done; try done.

Lemma flow_Some s a ms sp av n : flow s a = Some (ms, sp, av, n) →
  ∃ po q, offices s !! a = Some po ∧ wire s !! a = Some q ∧ ms = messageSent po ∧ sp = sendsPending po ∧
    av = messageAvailable po ∧ n = length q.
Proof.
  unfold flow. destruct (offices s !! a) as [po|]; [|done]. destruct (wire s !! a) as [q|]; [|done].
  intros [= <- <- <- <-]. by exists po, q.
Qed.

Section Flow.
Variables (be : bool) (Random junk : nat → Z) (s s' : Net) (a : Z) (ms sp av : Z) (n : nat).
Hypothesis Hfl : flow s a = Some (ms, sp, av, n).

Lemma flow_SendDone : SendDone a s = Ok s' →
  ∀ x, flow s' x = if decide (x = a) then Some (wrap32 (ms + 1), sp - 1, wrap32 (av + 0), n) else flow s x.
Proof.
  destruct (flow_Some _ _ _ _ _ _ Hfl) as (po & q & Hpo & Hq & -> & -> & -> & ->).
  unfold SendDone. rewrite (office_Ok _ _ _ Hpo). cbn [mbind result_bind]. intros [= <-] x.
  flows x a. by rewrite Hq.
Qed.

Lemma flow_proceed : proceed be Random junk a s = Ok s' →
  ∀ x, flow s' x = if decide (x = a) then Some (wrap32 (ms + -1), sp + 0, wrap32 (av + 0), n) else flow s x.
Proof.
  destruct (flow_Some _ _ _ _ _ _ Hfl) as (po & q & Hpo & Hq & -> & -> & -> & ->).
  unfold proceed. cbn [happen]. rewrite (office_Ok _ _ _ Hpo). cbn [mbind result_bind]. intros [= <-] x.
  flows x a. by rewrite Hq.
Qed.

Lemma flow_CheckPktAvail m : happen be Random junk (EPoll a) s = Ok (m, s') →
  (s' = s ∧ (n = 0%nat ∨ ∃ po, offices s !! a = Some po ∧ pktLength (inHdr (network po)) ≠ 0)) ∨
  ∃ n' po, offices s !! a = Some po ∧ pktLength (inHdr (network po)) = 0 ∧ n = S n' ∧ ∀ x, flow s' x =
    if decide (x = a) then Some (wrap32 (ms + 0), sp + 0, wrap32 (av + 1), n') else flow s x.
Proof.
  destruct (flow_Some _ _ _ _ _ _ Hfl) as (po & q & Hpo & Hq & -> & -> & -> & ->).
  cbn [happen]. unfold CheckPktAvail. rewrite (office_Ok _ _ _ Hpo), Hq. cbn [mbind result_bind].
  destruct (negb _) eqn:Hz; [intros; inv_ok; b2p; left; eauto|]. destruct q as [|d q]; [intros; inv_ok; left; auto|].
  intros H. right. exists (length q), po. b2p. do 3 (split; [done|]). intros x. inv_ok. flows x a.
Qed.

Lemma flow_PostalDelivery m : happen be Random junk (EDelivery a) s = Ok (m, s') →
  ∀ x, flow s' x = if decide (x = a) then Some (wrap32 (ms + 0), sp + 0, wrap32 (av + -1), n) else flow s x.
Proof.
  destruct (flow_Some _ _ _ _ _ _ Hfl) as (po & q & Hpo & Hq & -> & -> & -> & ->).
  cbn [happen]. unfold PostalDelivery. rewrite (office_Ok _ _ _ Hpo). cbn [mbind result_bind].
  intros H. intros x. inv_ok. flows x a. by rewrite Hq.
Qed.

Lemma flow_Receive box m : PostOffice_Receive box a s = Ok (m, s') → ∀ x, flow s' x = flow s x.
Proof.
  destruct (flow_Some _ _ _ _ _ _ Hfl) as (po & q & Hpo & Hq & -> & -> & -> & ->).
  unfold PostOffice_Receive. rewrite (office_Ok _ _ _ Hpo). cbn [mbind result_bind]. intros H x. inv_ok.
  flows x a. by rewrite Hpo, Hq.
Qed.
End Flow.

(** ** The invariant *)

(** The two messages of the machine [x] to [y] *)
Definition hello_mail (x y : Z) : Mail := posted x (mkPkt y 0 0) (mkMailHdr 0 1 (Z.of_nat (length data))) data.
Definition ack_mail (x y : Z) : Mail := posted x (mkPkt y 0 0) (mkMailHdr 1 1 (Z.of_nat (length ack))) ack.

(** What [x] has sent to [y], got from its boxes 0 and 1, and printed *)
Definition posts (x y : Z) (p : place) : list Mail :=
  match p with
  | Send1 => [] | Sent1 | Receive1 | Send2 => [hello_mail x y] | _ => [hello_mail x y; ack_mail x y]
  end.
Definition got_hello (x y : Z) (p : place) : list Mail :=
  match p with Send1 | Sent1 | Receive1 => [] | _ => [hello_mail y x] end.
Definition got_ack (x y : Z) (p : place) : list Mail :=
  match p with Halting | Halted => [ack_mail y x] | _ => [] end.
Definition line1 (y : Z) : list Z * Z * Z := (take 12 data, y, 1).
Definition line2 (y : Z) : list Z * Z * Z := (take 7 ack, y, 1).
Definition lines (y : Z) (p : place) : list (list Z * Z * Z) :=
  match p with
  | Send1 | Sent1 | Receive1 => [] | Send2 | Sent2 | Receive2 => [line1 y] | _ => [line1 y; line2 y]
  end.

(** The sends of a test that waits for one, and of any other *)
Definition sends (p : place) (ms sp : Z) : Prop :=
  match p with Sent1 | Sent2 => (ms = 0 ∧ sp = 1) ∨ (ms = 1 ∧ sp = 0) | _ => ms = 0 ∧ sp = 0 end.

Definition flow_ok (p : place) (n : Net) (x : Z) : Prop :=
  match p with
  | Halted => flow n x = None
  | _ => ∃ ms sp av len, flow n x = Some (ms, sp, av, len) ∧ sends p ms sp
  end.

(** Steps to go *)
Definition rank (p : place) : Z :=
  match p with
  | Send1 => 7 | Sent1 => 6 | Receive1 => 5 | Send2 => 4 | Sent2 => 3 | Receive2 => 2 | Halting => 1 | Halted => 0
  end.

(** Who has got a message has a peer that sent it. *)
Definition ordered (p q : place) : bool :=
  implb (rank p <? 5) (rank q <? 7) && implb (rank p <? 2) (rank q <? 4).

Record side (x y : Z) (s : Sys) (sent : list Mail) (log : list (Z * Z * Mail)) (p : place) (t : Test) : Prop := {
  sd_test : tests s !! x = Some (p, t);
  sd_far : farAddr t = y ∧ length (buffer t) = 40%nat;
  sd_out : p ≠ Send1 → mailFrom (outMailHdr t) = 1;
  sd_in : p = Send2 → pktFrom (inPktHdr t) = y ∧ mailFrom (inMailHdr t) = 1;
  sd_printed : printed t = lines y p;
  sd_sent : sent_to y sent = posts x y p;
  sd_hello : received_at x 0 log = got_hello x y p;
  sd_ack : received_at x 1 log = got_ack x y p;
  sd_flow : flow_ok p (net s) x }.

(** Work to do at [x]: the steps of its test, which start at most three more
    each, and those of its device and postal worker *)
Definition load (s : Sys) (x : Z) : Z :=
  match tests s !! x with Some (p, _) => 5 * rank p | None => 0 end +
  match flow (net s) x with Some (ms, sp, av, n) => sp + av + 2 * Z.of_nat n | None => 0 end.

Section Two.
Variables (be : bool) (Random junk : nat → Z) (reliability : spec_float).
Hypothesis Hrel : clamp reliability = double 1.

Definition inv (x y : Z) (s : Sys) : Prop :=
  ∃ sent log p t q u, net_ok be reliability 10 (net s) sent log ∧
    side x y s sent log p t ∧ side y x s sent log q u ∧ ordered p q = true ∧ ordered q p = true.

Lemma inv_sym x y s : inv x y s → inv y x s.
Proof. intros (sent & log & p & t & q & u & ? & ? & ? & ? & ?). by exists sent, log, q, u, p, t. Qed.

(** The semaphore of the postal worker *)
Lemma net_available n sent log x ms sp av len :
  net_ok be reliability 10 n sent log → flow n x = Some (ms, sp, av, len) →
  (av = 0 ∧ ∃ po, offices n !! x = Some po ∧ pktLength (inHdr (network po)) = 0) ∨
  (av = 1 ∧ ∃ po, offices n !! x = Some po ∧ pktLength (inHdr (network po)) ≠ 0).
Proof.
  intros Hok Hfl. destruct (flow_Some _ _ _ _ _ _ Hfl) as (po & q & Hpo & Hq & -> & -> & -> & ->).
  destruct (no_office _ _ _ _ _ _ Hok _ _ _ Hpo Hq) as (B & W & []).
  destruct B as [|m [|]]; cbn [buffered] in oo_buffered; [left|right|done].
  - destruct oo_buffered. eauto.
  - destruct oo_buffered as ([] & Hh & ? & _). split; [done|]. exists po. split; [done|]. rewrite Hh.
    unfold sizeof_Header in *. lia.
Qed.

Lemma boxes_10 : 0 <= 10 ∧ int32 10.
Proof. unfold int32. lia. Qed.

Lemma flow_office n x f : flow n x = Some f → is_Some (offices n !! x).
Proof. unfold flow. destruct (offices n !! x); [by eexists|done]. Qed.

Lemma flow_alive p n x : flow_ok p n x → p ≠ Halted →
  ∃ ms sp av len, flow n x = Some (ms, sp, av, len) ∧ sends p ms sp.
Proof. by destruct p. Qed.

Lemma flow_ok_alive p n x ms sp av len :
  p ≠ Halted → flow n x = Some (ms, sp, av, len) → sends p ms sp → flow_ok p n x.
Proof. intros Hp Hf Hs. destruct p; try done; by exists ms, sp, av, len. Qed.

(** [Send] of a message to the other machine *)
Lemma flow_Send n n' sent log x y pktH mailH bs ms sp av len ms' sp' av' len' :
  x ≠ y → net_ok be reliability 10 n sent log → pktTo pktH = y → proper 10 (ESend x pktH mailH bs) n = true →
  PostOffice_Send be Random junk pktH mailH bs x n = Ok n' →
  flow n x = Some (ms, sp, av, len) → flow n y = Some (ms', sp', av', len') →
  flow n' x = Some (wrap32 (ms + 0), sp + 1, wrap32 (av + 0), len) ∧ flow n' y = Some (ms', sp', av', S len').
Proof.
  intros Hne Hok Hto Hp Hs Hx Hy. pose proof (flow_office _ _ _ Hx) as Ha. pose proof (flow_office _ _ _ Hy) as Hb.
  destruct (net_office _ _ _ _ _ _ _ Hok Ha) as (po & q & B & W & Hpo & Hq & Hoa).
  destruct (net_office _ _ _ _ _ _ _ Hok Hb) as (pb & qb & Bb & Wb & Hpb & Hqb & Hob).
  assert (legal 10 y (posted x pktH mailH bs)) as Hm.
  { rewrite <- Hto. eapply posted_legal; [apply boxes_10|apply Hoa|rewrite Hto; apply Hob|exact Hp]. }
  destruct (PostOffice_Send_ok be Random junk 10 _ n x po pktH mailH bs _ _ _ _ _ y qb Hpo Hoa Hm Hqb)
    as (w & Hs' & Hw). rewrite Hs in Hs'. injection Hs' as ->.
  unfold flow in *. rewrite Hpo, Hq in Hx. rewrite Hpb, Hqb in Hy. injection Hx as <- <- <- <-. injection Hy as <- <- <- <-.
  destruct Hw as [[Hl _]|(d & _ & ->)].
  { unfold lossless in Hl. by rewrite bool_decide_true in Hl. }
  cbn [offices wire]. rewrite lookup_insert_eq, !lookup_insert_ne, lookup_insert_eq, Hq, Hpb by done.
  split; [done|]. rewrite length_app. cbn [length]. by rewrite Nat.add_1_r.
Qed.

(** ** The devices and the postal worker *)

Lemma flow_ok_eq p n n' x : flow n' x = flow n x → flow_ok p n x → flow_ok p n' x.
Proof. unfold flow_ok. by intros ->. Qed.

Lemma side_net x y s n sent log p t :
  side x y s sent log p t → flow_ok p n x → side x y (mkSys n (tests s)) sent log p t.
Proof. intros [] Hf. by split. Qed.

(** A machine that has not halted *)
Lemma inv_flow x y s : inv x y s → is_Some (offices (net s) !! x) →
  ∃ p t ms sp av len, tests s !! x = Some (p, t) ∧ p ≠ Halted ∧ flow (net s) x = Some (ms, sp, av, len) ∧ sends p ms sp ∧
    ((av = 0 ∧ ∃ po, offices (net s) !! x = Some po ∧ pktLength (inHdr (network po)) = 0) ∨
     (av = 1 ∧ ∃ po, offices (net s) !! x = Some po ∧ pktLength (inHdr (network po)) ≠ 0)).
Proof.
  intros (sent & log & p & t & q & u & Hok & [] & _) [po Ho].
  destruct (proj2 (no_wire _ _ _ _ _ _ Hok x)) as [w Hw]; [by eexists|].
  assert (p ≠ Halted) as Hp.
  { intros ->. cbn in *. unfold flow in *. by rewrite Ho, Hw in *. }
  destruct (flow_alive _ _ _ sd_flow0 Hp) as (ms & sp & av & len & Hf & Hs). exists p, t, ms, sp, av, len.
  do 4 (split; [done|]). by eapply net_available.
Qed.

(** An event of [x] that neither sends nor receives; [fl] is the flow after it. *)
Lemma inv_device ne x y s ms sp av k ms' sp' av' k' :
  x ≠ y → inv x y s → can_happen ne (net s) = true → proper 10 ne (net s) = true →
  sent_by ne = [] → (∀ m, received_by ne m = []) → flow (net s) x = Some (ms, sp, av, k) →
  (∀ m n, happen be Random junk ne (net s) = Ok (m, n) →
     ∀ z, flow n z = if decide (z = x) then Some (ms', sp', av', k') else flow (net s) z) →
  (∀ p, sends p ms sp → sends p ms' sp') → sp' + av' + 2 * Z.of_nat k' < sp + av + 2 * Z.of_nat k →
  ∃ m n, happen be Random junk ne (net s) = Ok (m, n) ∧ inv x y (mkSys n (tests s)) ∧
    load (mkSys n (tests s)) x + load (mkSys n (tests s)) y < load s x + load s y.
Proof.
  intros Hne Hinv Hcan Hpr Hs Hr Hf0 Hfl Hsd Hless.
  pose proof Hinv as (sent & log & p & t & q & u & Hok & Hx & Hy & Hpq & Hqp).
  destruct (net_step be Random junk reliability 10 boxes_10 _ _ _ ne Hok Hcan Hpr) as (m & n & Hh & Hok').
  rewrite Hs, Hr, !app_nil_r in Hok'. exists m, n. split; [done|].
  pose proof (Hfl _ _ Hh) as Hf.
  assert (flow n x = Some (ms', sp', av', k')) as Hfx by (by rewrite Hf, decide_True).
  assert (flow n y = flow (net s) y) as Hfy by (by rewrite Hf, decide_False).
  split.
  - exists sent, log, p, t, q, u. split; [done|]. split; [|split; [|done]].
    + apply (side_net _ _ s); [done|].
      assert (p ≠ Halted) as Hp by (intros ->; destruct Hx; cbn in *; congruence).
      eapply flow_ok_alive; [done|done|]. apply Hsd.
      destruct (flow_alive _ _ _ (sd_flow _ _ _ _ _ _ _ Hx) Hp) as (? & ? & ? & ? & Hf2 & ?). congruence.
    + apply (side_net _ _ s); [done|]. apply (flow_ok_eq _ (net s)); [done|apply Hy].
  - unfold load. cbn [tests net]. rewrite Hfx, Hfy, Hf0. lia.
Qed.

Lemma wrap32_bit av : av = 0 ∨ av = 1 → wrap32 (av + 0) = av.
Proof. by intros [-> | ->]. Qed.

(** The event of [x] goes through, and there is less to do. *)
Definition steps (e : mevent) (x y : Z) (s : Sys) : Prop :=
  ∃ s', mhappen be Random junk e s = Ok s' ∧ inv x y s' ∧ load s' x + load s' y < load s x + load s y.

Lemma SendDone_step x y s :
  x ≠ y → inv x y s → mcan (MSendDone x) s = true → steps (MSendDone x) x y s.
Proof.
  intros Hne Hinv Hcan. pose proof Hcan as Hc. cbn [mcan can_happen] in Hc.
  destruct (offices (net s) !! x) as [po|] eqn:Ho; [|done].
  destruct (inv_flow _ _ _ Hinv ltac:(by eexists)) as (p & t & ms & sp & av & k & _ & _ & Hf & Hs & Hav).
  destruct (flow_Some _ _ _ _ _ _ Hf) as (po' & w & Hpo & _ & _ & Esp & _ & _). simplify_eq. b2p.
  destruct (inv_device (ESendDone x) x y s ms (sendsPending po) av k 1 0 av k) as (m & n & Hh & Hi & Hl); try done.
  - intros m n Hh z. cbn [happen] in Hh. inv_ok. rewrite (flow_SendDone _ _ _ _ _ _ _ Hf E).
    assert (ms = 0 ∧ sendsPending po = 1) as [-> ->] by (destruct p; cbn in Hs; lia).
    rewrite wrap32_bit by tauto. done.
  - intros p'. destruct p'; cbn; lia.
  - lia.
  - eexists. cbn [mhappen]. rewrite Hh. done.
Qed.

Lemma Delivery_step x y s :
  x ≠ y → inv x y s → mcan (MDelivery x) s = true → steps (MDelivery x) x y s.
Proof.
  intros Hne Hinv Hcan. pose proof Hcan as Hc. cbn [mcan can_happen] in Hc.
  destruct (offices (net s) !! x) as [po|] eqn:Ho; [|done].
  destruct (inv_flow _ _ _ Hinv ltac:(by eexists)) as (p & t & ms & sp & av & k & _ & _ & Hf & Hs & Hav).
  destruct (flow_Some _ _ _ _ _ _ Hf) as (po' & w & Hpo & _ & _ & _ & Eav & _). simplify_eq. b2p.
  assert (messageAvailable po = 1) as E1 by lia. rewrite E1 in *.
  assert (ms = 0 ∨ ms = 1) as Hms by (destruct p; cbn in Hs; lia).
  destruct (inv_device (EDelivery x) x y s ms sp 1 k ms sp 0 k) as (m & n & Hh & Hi & Hl); try done.
  - intros m n Hh z. rewrite (flow_PostalDelivery _ _ _ _ _ _ _ _ _ _ Hf _ Hh).
    rewrite wrap32_bit, Z.add_0_r by done. done.
  - lia.
  - eexists. cbn [mhappen]. rewrite Hh. done.
Qed.

(** A datagram at the socket is taken when the device's buffer is free. *)
Lemma Poll_takes x y s ms sp k :
  x ≠ y → inv x y s → flow (net s) x = Some (ms, sp, 0, S k) → mcan (MPoll x) s = true ∧ steps (MPoll x) x y s.
Proof.
  intros Hne Hinv Hf. pose proof (flow_office _ _ _ Hf) as Hex.
  assert (mcan (MPoll x) s = true) as Hcan by (by apply bool_decide_eq_true). split; [done|].
  destruct (inv_flow _ _ _ Hinv Hex) as (p & t & ? & ? & ? & ? & _ & _ & Hf2 & Hs & Hav). simplify_eq.
  assert (ms = 0 ∨ ms = 1) as Hms by (destruct p; cbn in Hs; lia).
  destruct Hav as [(_ & po & Hpo & Hz)|[? _]]; [|done].
  destruct (inv_device (EPoll x) x y s ms sp 0 (S k) ms sp 1 k) as (m & n & Hh & Hi & Hl); try done.
  - intros m n Hh. destruct (flow_CheckPktAvail _ _ _ _ _ _ _ _ _ _ Hf _ Hh)
      as [[_ [?|(po' & ? & ?)]]|(k' & ? & _ & _ & [= <-] & Hn)]; [done|simplify_eq|].
    intros z. by rewrite Hn, wrap32_bit, Z.add_0_r.
  - lia.
  - eexists. cbn [mhappen]. rewrite Hh. done.
Qed.

(** Otherwise a poll does nothing. *)
Lemma Poll_step x y s :
  x ≠ y → inv x y s → mcan (MPoll x) s = true →
  mhappen be Random junk (MPoll x) s = Ok s ∨ steps (MPoll x) x y s.
Proof.
  intros Hne Hinv Hcan. pose proof Hcan as Hc. cbn [mcan can_happen] in Hc. apply bool_decide_eq_true in Hc.
  destruct (inv_flow _ _ _ Hinv Hc) as (p & t & ms & sp & av & k & _ & _ & Hf & Hs & Hav).
  destruct (decide (av = 0 ∧ k ≠ 0%nat)) as [[-> Hk]|Hidle].
  { destruct k; [done|]. right. by eapply Poll_takes. }
  left. pose proof Hinv as (sent & log & p' & t' & q & u & Hok & _).
  destruct (net_step be Random junk reliability 10 boxes_10 _ _ _ (EPoll x) Hok Hcan eq_refl) as (m & n & Hh & _).
  cbn [mhappen]. rewrite Hh. cbn [mbind result_bind].
  destruct (flow_CheckPktAvail _ _ _ _ _ _ _ _ _ _ Hf _ Hh) as [[-> _]|(k' & po & Ho & Hz & -> & _)].
  - by destruct s.
  - exfalso. apply Hidle. split; [|done]. destruct Hav as [[-> _]|(_ & po' & Ho' & Hnz)]; [done|]. simplify_eq.
Qed.

(** ** The steps of a test *)

(** The other machine, while [x] goes on *)
Lemma side_other x y s n v sent sent' log log' q u :
  x ≠ y → side y x s sent log q u → flow_ok q n y → sent_to x sent' = sent_to x sent →
  (∀ box, received_at y box log' = received_at y box log) →
  side y x (mkSys n (<[x := v]> (tests s))) sent' log' q u.
Proof.
  intros Hne [] Hf Hs Hr. split; cbn [net tests]; try done.
  - by rewrite lookup_insert_ne.
  - by rewrite Hs.
  - by rewrite Hr.
  - by rewrite Hr.
Qed.

Lemma send_out x y n sent log t bs av k ms' sp' av' k' :
  x ≠ y → net_ok be reliability 10 n sent log → flow n x = Some (0, 0, av, k) → flow n y = Some (ms', sp', av', k') →
  pktTo (outPktHdr t) = y → proper 10 (ESend x (outPktHdr t) (outMailHdr t) bs) n = true →
  ∃ n', PostOffice_Send be Random junk (outPktHdr t) (outMailHdr t) bs x n = Ok n' ∧
    net_ok be reliability 10 n' (sent ++ [posted x (outPktHdr t) (outMailHdr t) bs]) log ∧
    flow n' x = Some (0, 1, av, k) ∧ flow n' y = Some (ms', sp', av', S k').
Proof.
  intros Hne Hok Hx Hy Hto Hp. pose proof (flow_office _ _ _ Hx) as Ha.
  destruct (net_send be Random junk reliability 10 boxes_10 _ _ _ _ _ _ _ Hok Ha Hp) as (n' & Hs & Hok').
  exists n'. split; [done|]. split; [done|].
  destruct (flow_Send _ _ _ _ _ _ _ _ _ _ _ _ _ _ _ _ _ Hne Hok Hto Hp Hs Hx Hy) as [-> ->]. split; [|done].
  rewrite (wrap32_bit av); [done|]. destruct (net_available _ _ _ _ _ _ _ _ Hok Hx) as [[-> _]|[-> _]]; auto.
Qed.

Lemma sent_to_one x y m sent : pktTo (mpkt m) = y → x ≠ y →
  sent_to y (sent ++ [m]) = sent_to y sent ++ [m] ∧ sent_to x (sent ++ [m]) = sent_to x sent.
Proof.
  intros Hto Hne. unfold sent_to. rewrite !filter_app, !filter_cons, decide_True, decide_False by congruence.
  by rewrite filter_nil, app_nil_r.
Qed.

Lemma alive_flow x y s sent log p t : side x y s sent log p t → p ≠ Halted →
  ∃ ms sp av k, flow (net s) x = Some (ms, sp, av, k) ∧ sends p ms sp.
Proof. intros [] Hp. by apply flow_alive. Qed.

(** A step that sends the message [bs] *)
Lemma Send_at x y s sent log p t q u p' t' bs :
  x ≠ y → net_ok be reliability 10 (net s) sent log → side x y s sent log p t → side y x s sent log q u →
  ordered p' q = true → ordered q p = true → (p, p') = (Send1, Sent1) ∨ (p, p') = (Send2, Sent2) →
  MailTest be Random junk x p t (net s) =
    (n ← PostOffice_Send be Random junk (outPktHdr t') (outMailHdr t') bs x (net s); Ok (p', t', n)) →
  pktTo (outPktHdr t') = y → mailFrom (outMailHdr t') = 1 →
  (farAddr t', buffer t', printed t') = (farAddr t, buffer t, printed t) →
  (is_Some (offices (net s) !! y) → proper 10 (ESend x (outPktHdr t') (outMailHdr t') bs) (net s) = true) →
  posts x y p ++ [posted x (outPktHdr t') (outMailHdr t') bs] = posts x y p' →
  steps (MTest x) x y s.
Proof.
  intros Hne Hok Hx Hy Hpq Hqp Hp Hstep Hto Hfrom Hsame Hprop Hposts.
  assert (q ≠ Halted ∧ ordered q p' = true ∧ rank p' = rank p - 1) as (Hq & Hqp' & Hrank).
  { destruct Hp as [[= -> ->]|[= -> ->]]; destruct q; done. }
  destruct (alive_flow _ _ _ _ _ _ _ Hy Hq) as (ms' & sp' & av' & k' & Hfy & Hsy).
  destruct (alive_flow _ _ _ _ _ _ _ Hx) as (ms & sp & av & k & Hfx & Hsx); [by destruct Hp as [[= -> ->]|[= -> ->]]|].
  assert (ms = 0 ∧ sp = 0) as [-> ->] by (destruct Hp as [[= -> ->]|[= -> ->]]; exact Hsx).
  destruct Hx as [Ht [Hfar Hbuf] Hout Hin Hpr Hse Hh Ha Hfl]. injection Hsame as Ef Eb Ep.
  destruct (send_out x y (net s) sent log t' bs av k ms' sp' av' k') as (n & Hn & Hok' & Hfx' & Hfy'); try done.
  { apply Hprop. by eapply flow_office. }
  unfold steps. cbn [mhappen]. rewrite Ht, Hstep, Hn. cbn [mbind result_bind]. eexists. split; [done|].
  destruct (sent_to_one x y (posted x (outPktHdr t') (outMailHdr t') bs) sent Hto Hne) as [Hsy' Hsx'].
  split.
  - eexists _, log, p', t', q, u. split; [exact Hok'|]. split; [|split; [|done]].
    + split; cbn [tests net]; rewrite ?Ef, ?Eb, ?Ep, ?Hsy', ?Hse, ?Hpr, ?Hh, ?Ha; try done.
      * by rewrite lookup_insert_eq.
      * by destruct Hp as [[= -> ->]|[= -> ->]].
      * by destruct Hp as [[= -> ->]|[= -> ->]].
      * by destruct Hp as [[= -> ->]|[= -> ->]].
      * by destruct Hp as [[= -> ->]|[= -> ->]].
      * eapply flow_ok_alive; [|exact Hfx'|]; destruct Hp as [[= -> ->]|[= -> ->]]; [done..|by left|by left].
    + eapply side_other; try done. by eapply flow_ok_alive.
  - unfold load. cbn [tests net]. rewrite lookup_insert_eq, lookup_insert_ne, Ht, Hfx, Hfy, Hfx', Hfy' by done. lia.
Qed.

Lemma Send_step x y s p t :
  x ≠ y → inv x y s → tests s !! x = Some (p, t) → p = Send1 ∨ p = Send2 → steps (MTest x) x y s.
Proof.
  intros Hne (sent & log & p' & t' & q & u & Hok & Hx & Hy & Hpq & Hqp) Ht Hp.
  pose proof Hx as [Ht' [Hfar _] Hout Hin _ _ _ _ _]. rewrite Ht in Ht'. injection Ht' as <- <-.
  destruct Hp as [-> | ->].
  - eapply (Send_at x y s sent log Send1 t q u Sent1 _ data); eauto; try done.
    + intros Hy'. cbn [proper]. rewrite bool_decide_true by (cbn; by rewrite Hfar). done.
    + unfold hello_mail, posted. cbn. by rewrite Hfar.
  - destruct (Hin eq_refl) as [Hif Him]. specialize (Hout ltac:(done)).
    eapply (Send_at x y s sent log Send2 t q u Sent2 _ ack); eauto; try done.
    + intros Hy'. cbn [proper]. rewrite bool_decide_true by (cbn; by rewrite Hif). cbn. rewrite Him, Hout. done.
    + unfold ack_mail, posted. cbn. by rewrite Hif, Him, Hout.
Qed.

Lemma Proceed_step x y s p t :
  x ≠ y → inv x y s → tests s !! x = Some (p, t) → p = Sent1 ∨ p = Sent2 →
  can_happen (EProceed x) (net s) = true → steps (MTest x) x y s.
Proof.
  intros Hne (sent & log & p' & t' & q & u & Hok & Hx & Hy & Hpq & Hqp) Ht Hp Hcan.
  destruct (net_step be Random junk reliability 10 boxes_10 _ _ _ (EProceed x) Hok Hcan eq_refl) as (m & n & Hh & Hok').
  cbn [sent_by received_by] in Hok'. rewrite !app_nil_r in Hok'.
  assert (proceed be Random junk x (net s) = Ok n) as Hn by (unfold proceed; by rewrite Hh).
  destruct (alive_flow _ _ _ _ _ _ _ Hx) as (ms & sp & av & k & Hfx & Hsx).
  { intros ->. pose proof (sd_test _ _ _ _ _ _ _ Hx). destruct Hp; congruence. }
  pose proof (net_available _ _ _ _ _ _ _ _ Hok Hfx) as Hav.
  pose proof (flow_proceed _ _ _ _ _ _ _ _ _ _ Hfx Hn) as Hf.
  destruct Hx as [Ht' Hfar Hout Hin Hpr Hse Hhe Ha _]. rewrite Ht in Ht'. injection Ht' as <- <-.
  assert (ms = 1 ∧ sp = 0) as [-> ->].
  { cbn [can_happen] in Hcan. destruct (flow_Some _ _ _ _ _ _ Hfx) as (po & w & Hpo & _ & -> & _).
    rewrite Hpo in Hcan. b2p. destruct Hp as [-> | ->]; cbn in Hsx; lia. }
  assert (flow n x = Some (0, 0, av, k)) as Hfx'.
  { rewrite Hf, decide_True by done. rewrite (wrap32_bit av); [done|]. tauto. }
  assert (flow n y = flow (net s) y) as Hfy' by (by rewrite Hf, decide_False).
  set (p' := match p with Sent1 => Receive1 | _ => Receive2 end).
  unfold steps. cbn [mhappen]. rewrite Ht. exists (mkSys n (<[x := (p', t)]> (tests s))).
  split; [|split].
  - destruct Hp as [-> | ->]; cbn [MailTest]; by rewrite Hn.
  - exists sent, log, p', t, q, u. split; [done|]. split; [|split; [|split]].
    + split; cbn [tests net]; rewrite ?lookup_insert_eq, ?Hpr, ?Hse, ?Hhe, ?Ha; try done;
        destruct Hp as [-> | ->]; try done; try (intros _; by apply Hout); by eapply flow_ok_alive.
    + eapply side_other; try done. eapply flow_ok_eq; [exact Hfy'|]. apply Hy.
    + by destruct Hp as [-> | ->]; destruct q.
    + by destruct Hp as [-> | ->]; destruct q.
  - unfold load. cbn [tests net]. rewrite lookup_insert_eq, lookup_insert_ne, Ht, Hfx, Hfx', Hfy' by done.
    destruct Hp as [-> | ->]; subst p'; cbn; lia.
Qed.

(** The box of a machine that has not halted *)
Lemma box_there n sent log x box :
  net_ok be reliability 10 n sent log → is_Some (offices n !! x) → 0 <= box < 10 →
  ∃ po b, offices n !! x = Some po ∧ boxes po !! Z.to_nat box = Some b ∧ numBoxes po = 10.
Proof.
  intros Hok Hex Hbox. destruct (net_office _ _ _ _ _ _ _ Hok Hex) as (po & w & B & W & Hpo & _ & []).
  destruct oo_boxes as [? Hl]. destruct (lookup_lt_is_Some_2 (boxes po) (Z.to_nat box)) as [b Hb]; [lia|]. by exists po, b.
Qed.

(** A message taken from a box that is not empty is the next one sent to it. *)
Lemma receive_next n sent log x box ms sp av k :
  net_ok be reliability 10 n sent log → flow n x = Some (ms, sp, av, k) → 0 <= box < 10 → empty_box box x n = false →
  ∃ m n', PostOffice_Receive box x n = Ok (m, n') ∧ net_ok be reliability 10 n' sent (log ++ [(x, box, m)]) ∧
    (∀ z, flow n' z = flow n z) ∧ received_at x box log ++ [m] `prefix_of` for_box box (sent_to x sent).
Proof.
  intros Hok Hf Hbox He. pose proof (flow_office _ _ _ Hf) as Hex.
  destruct (box_there _ _ _ _ _ Hok Hex Hbox) as (po & b & Hpo & Hb & _).
  unfold empty_box in He. rewrite Hpo, Hb in He.
  destruct (net_step be Random junk reliability 10 boxes_10 _ _ _ (EReceive x box) Hok) as (m & n' & Hh & Hok').
  { cbn [can_happen]. rewrite Hpo, Hb, He, (proj2 (Z.leb_le _ _)) by lia. done. }
  { done. }
  cbn [happen] in Hh. destruct (PostOffice_Receive box x n) as [[m' n'']| | | |] eqn:Hr; [|done..].
  cbn [mbind result_bind] in Hh. injection Hh as <- <-. cbn [sent_by received_by] in Hok'. rewrite app_nil_r in Hok'.
  pose proof (flow_Receive _ _ _ _ _ _ _ Hf _ _ Hr) as Hfl.
  exists m', n''. do 3 (split; [done|]).
  destruct (net_mail _ _ _ _ _ _ x box Hok') as [_ Hm]; [|done|].
  { eapply flow_office. rewrite Hfl. exact Hf. }
  destruct (Hm Hrel) as [Hpre _]. by rewrite received_at_app, received_at_one, decide_True in Hpre.
Qed.

(** The text that is printed: [bs] up to its end *)
Lemma receive_text box x t n m n' text :
  PostOffice_Receive box x n = Ok (m, n') → length (buffer t) = 40%nat → (length (mdata m) <= 40)%nat →
  (∀ rest, cstring (mdata m ++ rest) = Ok text) →
  ∃ buf, length buf = 40%nat ∧ receive box x t n = Ok (mkTest (farAddr t) (outPktHdr t) (outMailHdr t) (mpkt m) (mhdr m) buf
    (printed t ++ [(text, pktFrom (mpkt m), mailFrom (mhdr m))]), n').
Proof.
  intros Hr Hb Hm Ht. unfold receive. rewrite Hr. cbn [mbind result_bind]. rewrite asplice_0 by lia.
  cbn [mbind result_bind]. rewrite Ht. cbn [mbind result_bind]. eexists. split; [|done].
  rewrite length_app, length_drop. lia.
Qed.

(** The places of the two calls of [Receive] *)
Definition reading (p : place) : option (Z * place) :=
  match p with Receive1 => Some (0, Send2) | Receive2 => Some (1, Halting) | _ => None end.

Lemma prefix_one {A} (m : A) l : [m] `prefix_of` l → ∃ l', l = m :: l'.
Proof. intros [l' ->]. by exists l'. Qed.

(** What is in the box *)
Lemma next_message x y p q box p' m :
  reading p = Some (box, p') →
  (match box with 0 => got_hello x y p | _ => got_ack x y p end) ++ [m] `prefix_of` for_box box (posts y x q) →
  ordered p' q = true ∧ m = (match box with 0 => hello_mail y x | _ => ack_mail y x end).
Proof.
  intros Hp Hpre. destruct p; try discriminate Hp; injection Hp as <- <-; cbn [got_hello got_ack app] in Hpre;
    apply prefix_one in Hpre as [l' E]; destruct q; try discriminate E; by injection E as <-.
Qed.

Lemma Receive_step x y s p t box p' :
  x ≠ y → inv x y s → tests s !! x = Some (p, t) → reading p = Some (box, p') →
  empty_box box x (net s) = false → steps (MTest x) x y s.
Proof.
  intros Hne (sent & log & p0 & t0 & q & u & Hok & Hx & Hy & Hpq & Hqp) Ht Hp He.
  pose proof (sd_test _ _ _ _ _ _ _ Hx) as Ht'. rewrite Ht in Ht'. injection Ht' as <- <-.
  destruct (alive_flow _ _ _ _ _ _ _ Hx) as (ms & sp & av & k & Hfx & Hsx); [by intros ->|].
  assert (0 <= box < 10) as Hbox by (destruct p; try discriminate Hp; injection Hp as <- <-; lia).
  destruct (receive_next _ _ _ _ _ _ _ _ _ Hok Hfx Hbox He) as (m & n & Hr & Hok' & Hf & Hpre).
  destruct Hx as [_ [Hfar Hbuf] Hout Hin Hpr Hse Hhe Ha _].
  rewrite (sd_sent _ _ _ _ _ _ _ Hy) in Hpre.
  destruct (next_message x y p q box p' m Hp) as [Hord Hm].
  { destruct p; try discriminate Hp; injection Hp as <- <-; by rewrite ?Hhe, ?Ha in Hpre. }
  destruct (receive_text box x t (net s) m n (match box with 0 => take 12 data | _ => take 7 ack end) Hr Hbuf)
    as (buf & Hlen & Hrec).
  { subst m. apply Nat.leb_le. destruct p; try discriminate Hp; by injection Hp as <- <-. }
  { intros rest. subst m. destruct p; try discriminate Hp; injection Hp as <- <-; reflexivity. }
  match type of Hrec with _ = Ok (?t1, _) => remember t1 as t' eqn:Et end.
  unfold steps. cbn [mhappen]. rewrite Ht. exists (mkSys n (<[x := (p', t')]> (tests s))). split; [|split].
  - destruct p; try discriminate Hp; injection Hp as <- <-; cbn [MailTest]; by rewrite Hrec.
  - exists sent, (log ++ [(x, box, m)]), p', t', q, u. split; [exact Hok'|]. split; [|split; [|split]].
    + rewrite Et. split; cbn [tests net]; rewrite ?lookup_insert_eq; cbn [farAddr buffer outMailHdr inPktHdr inMailHdr printed];
        rewrite ?received_at_app, ?received_at_one, ?Hpr, ?Hse, ?Hhe, ?Ha; try done.
      * intros _. apply Hout. by destruct p.
      * intros _. subst m. destruct p; try discriminate Hp; by injection Hp as <- <-.
      * subst m. destruct p; try discriminate Hp; by injection Hp as <- <-.
      * destruct p; try discriminate Hp; by injection Hp as <- <-.
      * subst m. destruct p; try discriminate Hp; injection Hp as <- <-;
          [rewrite decide_True by done|rewrite decide_False by congruence]; done.
      * subst m. destruct p; try discriminate Hp; injection Hp as <- <-;
          [rewrite decide_False by congruence|rewrite decide_True by done]; done.
      * destruct p; try discriminate Hp; injection Hp as <- <-; (eapply flow_ok_alive; [done|by rewrite Hf|done]).
    + eapply side_other; try done.
      * eapply flow_ok_eq; [apply Hf|]. apply Hy.
      * intros bx. rewrite received_at_app, received_at_one, decide_False by congruence. by rewrite app_nil_r.
    + done.
    + destruct p; try discriminate Hp; injection Hp as <- <-; by destruct q.
  - unfold load. cbn [tests net]. rewrite lookup_insert_eq, lookup_insert_ne, Ht, !Hf, Hfx by done.
    destruct p; try discriminate Hp; injection Hp as <- <-; cbn; lia.
Qed.

(** [Halt] takes the machine off the network. *)
Lemma net_halt n sent log x :
  net_ok be reliability 10 n sent log → net_ok be reliability 10 (halt x n) sent log.
Proof.
  intros [Hw Ho]. split; cbn [halt offices wire].
  - intros z. destruct (decide (z = x)) as [->|]; [rewrite !lookup_delete_eq|rewrite !lookup_delete_ne by done]; [|done].
    split; intros [? [=]].
  - intros z po w. destruct (decide (z = x)) as [->|]; [by rewrite lookup_delete_eq|rewrite !lookup_delete_ne by done].
    apply Ho.
Qed.

Lemma Halt_step x y s t : x ≠ y → inv x y s → tests s !! x = Some (Halting, t) → steps (MTest x) x y s.
Proof.
  intros Hne (sent & log & p0 & t0 & q & u & Hok & Hx & Hy & Hpq & Hqp) Ht.
  pose proof (sd_test _ _ _ _ _ _ _ Hx) as Ht'. rewrite Ht in Ht'. injection Ht' as <- <-.
  destruct (alive_flow _ _ _ _ _ _ _ Hx) as (ms & sp & av & k & Hfx & [-> ->]); [done|].
  assert (flow (halt x (net s)) x = None) as Hfx' by (unfold flow; cbn; by rewrite lookup_delete_eq).
  assert (flow (halt x (net s)) y = flow (net s) y) as Hfy' by (unfold flow; cbn; by rewrite !lookup_delete_ne).
  pose proof (net_available _ _ _ _ _ _ _ _ Hok Hfx) as Hav.
  destruct Hx as [_ Hfar Hout Hin Hpr Hse Hhe Ha _].
  unfold steps. cbn [mhappen]. rewrite Ht. cbn [MailTest mbind result_bind]. eexists. split; [done|]. split.
  - eexists sent, log, Halted, t, q, u. split; [by apply net_halt|]. split; [|split; [|split]].
    + split; cbn [tests net]; rewrite ?lookup_insert_eq; try done. intros _. by apply Hout.
    + eapply side_other; try done. eapply flow_ok_eq; [exact Hfy'|]. apply Hy.
    + done.
    + by destruct q.
  - unfold load. cbn [tests net]. rewrite lookup_insert_eq, lookup_insert_ne, Ht, Hfx, Hfx', Hfy' by done. cbn [rank].
    destruct (flow (net s) y) as [[[[? ?] ?] ?]|]; lia.
Qed.

(** Any step of a test that does not have to wait for mail *)
Lemma Test_step x y s :
  x ≠ y → inv x y s → mcan (MTest x) s = true → would_wait (MTest x) s = false → steps (MTest x) x y s.
Proof.
  intros Hne Hinv Hcan Hw. cbn [mcan would_wait] in *. destruct (tests s !! x) as [[p t]|] eqn:Ht; [|done].
  destruct p; try discriminate Hcan; eauto using Send_step, Proceed_step, Halt_step.
  - by eapply (Receive_step x y s Receive1).
  - by eapply (Receive_step x y s Receive2).
Qed.

(** [Receive] from an empty box: [Condition::Wait] is not implemented. *)
Lemma Test_waits x y s :
  inv x y s → would_wait (MTest x) s = true → mhappen be Random junk (MTest x) s = AssertFail.
Proof.
  intros (sent & log & p & t & q & u & Hok & Hx & _) Hw. cbn [would_wait mhappen] in *.
  assert (∀ box, 0 <= box < 10 → empty_box box x (net s) = true → receive box x t (net s) = AssertFail) as Hr.
  { intros box Hbox He. assert (is_Some (offices (net s) !! x)) as Hex.
    { unfold empty_box in He. destruct (offices _ !! x); [by eexists|done]. }
    destruct (box_there _ _ _ _ _ Hok Hex Hbox) as (po & b & Hpo & Hb & Hn). unfold empty_box in He. rewrite Hpo, Hb in He.
    unfold receive, PostOffice_Receive. rewrite (office_Ok _ _ _ Hpo). cbn [mbind result_bind].
    rewrite Hn, (proj2 (Z.leb_le _ _)), (proj2 (Z.ltb_lt _ _)) by lia. cbn [andb ASSERT mbind result_bind].
    rewrite (proj2 (aget_Ok _ _ _) (conj (proj1 Hbox) Hb)). cbn [mbind result_bind].
    unfold MailBox_Get, SynchList_Remove. by rewrite He. }
  rewrite (sd_test _ _ _ _ _ _ _ Hx) in *. destruct p; try discriminate Hw; cbn [MailTest]; by rewrite Hr.
Qed.

(** ** All events *)


Lemma event_step e x y s :
  x ≠ y → inv x y s → who e = x → mcan e s = true → would_wait e s = false →
  mhappen be Random junk e s = Ok s ∨ steps e x y s.
Proof.
  intros Hne Hinv <- Hcan Hw. destruct e as [z|z|z|z]; cbn [who] in *.
  - right. by apply Test_step.
  - by apply Poll_step.
  - right. by apply SendDone_step.
  - right. by apply Delivery_step.
Qed.

(** ** The end *)

Lemma load_nonneg x y s : inv x y s → 0 <= load s x.
Proof.
  intros (sent & log & p & t & q & u & Hok & Hx & _). unfold load. rewrite (sd_test _ _ _ _ _ _ _ Hx).
  destruct (decide (p = Halted)) as [->|Hp]; [rewrite (sd_flow _ _ _ _ _ _ _ Hx); cbn; lia|].
  destruct (alive_flow _ _ _ _ _ _ _ Hx Hp) as (ms & sp & av & k & Hf & Hs). rewrite Hf.
  pose proof (net_available _ _ _ _ _ _ _ _ Hok Hf). destruct p; cbn in *; lia.
Qed.

(** Every event but a poll that finds nothing takes something off the work to do. *)
Definition is_poll (e : mevent) : bool := match e with MPoll _ => true | _ => false end.

Lemma event_load e x y s s' :
  x ≠ y → inv x y s → who e = x ∨ who e = y → mcan e s = true → mhappen be Random junk e s = Ok s' →
  inv x y s' ∧ load s' x + load s' y + (if is_poll e then 0 else 1) <= load s x + load s y.
Proof.
  intros Hne Hi Hw Hc Hh.
  assert (∀ z w, z ≠ w → inv z w s → who e = z →
    inv z w s' ∧ load s' z + load s' w + (if is_poll e then 0 else 1) <= load s z + load s w) as H.
  { clear x y Hne Hi Hw. intros x y Hne Hi Hw. destruct (would_wait e s) eqn:Hww.
    { destruct e as [z| | |]; [|done..]. cbn [who] in Hw. subst z. by rewrite (Test_waits x y s) in Hh. }
    destruct e as [z|z|z|z]; cbn [who is_poll] in *; subst z.
    - destruct (Test_step x y s Hne Hi Hc Hww) as (s2 & Hs & Hi2 & Hl). rewrite Hh in Hs. injection Hs as ->. split; [done|lia].
    - destruct (Poll_step x y s Hne Hi Hc) as [Hs|(s2 & Hs & Hi2 & Hl)]; rewrite Hh in Hs; injection Hs as ->; (split; [done|lia]).
    - destruct (SendDone_step x y s Hne Hi Hc) as (s2 & Hs & Hi2 & Hl). rewrite Hh in Hs. injection Hs as ->. split; [done|lia].
    - destruct (Delivery_step x y s Hne Hi Hc) as (s2 & Hs & Hi2 & Hl). rewrite Hh in Hs. injection Hs as ->. split; [done|lia]. }
  destruct Hw as [Hw|Hw]; [by apply H|].
  destruct (H y x (not_eq_sym Hne) (inv_sym _ _ _ Hi) Hw) as [Hi2 Hl]. split; [by apply inv_sym|lia].
Qed.

Lemma mrun_bound es x y s s' :
  x ≠ y → inv x y s → Forall (λ e, who e = x ∨ who e = y) es → mrun be Random junk es s = Ok s' →
  Z.of_nat (length (filter (λ e, is_poll e = false) es)) <= load s x + load s y.
Proof.
  intros Hne. revert s. induction es as [|e es IH]; intros s Hi Hes Hr.
  - pose proof (load_nonneg _ _ _ Hi). pose proof (load_nonneg _ _ _ (inv_sym _ _ _ Hi)). cbn. lia.
  - apply Forall_cons in Hes as [Hw Hes]. cbn [mrun] in Hr. destruct (mcan e s) eqn:Hc; [|done].
    destruct (mhappen be Random junk e s) as [s1| | | |] eqn:Hh; try done. cbn [mbind result_bind] in Hr.
    destruct (event_load e x y s s1 Hne Hi Hw Hc Hh) as [Hi1 Hl]. specialize (IH s1 Hi1 Hes Hr).
    rewrite filter_cons. destruct (is_poll e); [rewrite decide_False by done; lia|].
    rewrite decide_True by done. cbn [length]. lia.
Qed.

(** ** From the start *)

Lemma newSys_inv a b : a ≠ b → int32 a → int32 b →
  inv a b (newSys junk a b reliability) ∧
  load (newSys junk a b reliability) a + load (newSys junk a b reliability) b = 70.
Proof.
  intros Hne Ha Hb.
  assert (∀ x, x = a ∨ x = b → flow (net (newSys junk a b reliability)) x = Some (0, 0, 0, 0%nat)) as Hf.
  { intros x Hx. unfold flow. cbn [newSys net newNet offices wire].
    rewrite !(lookup_tabulate 10 boxes_10), !decide_True by (destruct Hx as [-> | ->]; set_solver). done. }
  assert (tests (newSys junk a b reliability) !! a = Some (Send1, newTest junk b)) as Hta by apply lookup_insert_eq.
  assert (tests (newSys junk a b reliability) !! b = Some (Send1, newTest junk a)) as Htb.
  { cbn [newSys tests]. by rewrite lookup_insert_ne, lookup_insert_eq. }
  assert (length (fresh_bytes junk MaxMailSize) = 40%nat) as Hl.
  { pose proof (length_fresh junk MaxMailSize ltac:(done)) as Hl. vm_compute (MaxMailSize) in Hl at 2. lia. }
  split.
  - exists [], [], Send1, (newTest junk b), Send1, (newTest junk a). split; [|split; [|split; [|done]]].
    + apply net_start; [|apply boxes_10]. by repeat (apply Forall_cons; split).
    + split; try done. exists 0, 0, 0, 0%nat. split; [|done]. auto.
    + split; try done. exists 0, 0, 0, 0%nat. split; [|done]. auto.
  - unfold load. by rewrite Hta, Htb, !Hf by auto.
Qed.

Lemma mreach_inv a b s : a ≠ b → int32 a → int32 b → mreach be Random junk a b reliability s →
  inv a b s ∧ load s a + load s b <= 70.
Proof.
  intros Hne Ha Hb. induction 1 as [|s e s' _ [Hi Hl] Hw Hc Hh].
  { destruct (newSys_inv a b Hne Ha Hb) as [? ->]. by split. }
  destruct (would_wait e s) eqn:Hww.
  { destruct e as [z| | |]; [|done..]. destruct Hw as [<- | <-]; cbn [who] in *.
    - by rewrite (Test_waits z b s) in Hh.
    - rewrite (Test_waits z a s) in Hh; [done|by apply inv_sym|done]. }
  destruct Hw as [Hw|Hw].
  - destruct (event_step e a b s Hne Hi Hw Hc Hww) as [Hs|(s2 & Hs & ? & ?)]; rewrite Hh in Hs; injection Hs as ->; [done|].
    split; [done|lia].
  - destruct (event_step e b a s (not_eq_sym Hne) (inv_sym _ _ _ Hi) Hw Hc Hww) as [Hs|(s2 & Hs & ? & ?)];
      rewrite Hh in Hs; injection Hs as ->; [done|]. split; [by apply inv_sym|lia].
Qed.

Lemma lines_prefix y p : lines y p `prefix_of` [line1 y; line2 y].
Proof. destruct p; [by eexists..]. Qed.

Lemma inv_printed x y s : inv x y s →
  ∃ p t, tests s !! x = Some (p, t) ∧ printed t `prefix_of` [line1 y; line2 y] ∧ (p = Halted → printed t = [line1 y; line2 y]).
Proof.
  intros (sent & log & p & t & q & u & _ & [Ht _ _ _ Hp _ _ _ _] & _). exists p, t. split; [done|]. rewrite Hp.
  split; [apply lines_prefix|by intros ->].
Qed.

End Two.

(** C7: the mail test between two machines that are both up, on a network that
    loses nothing.  In every order in which the tests, the network devices and the
    postal workers of the machines can go, the only thing that fails is a call of
    [Receive] that would have to wait: [Condition::Wait] is not implemented.  Nobody
    sends to a machine that has halted.  A test prints nothing but the other's message
    and then the other's acknowledgement, with the address and the box they came from,
    and both when it halts.  And the tests do not go on for ever: of any further
    events at most 70 are not polls of a device.  (The orders are those of a kernel
    that may switch threads anywhere, as with the random time slices of -rs.  Without
    them a test goes from the end of [Send] to [Receive] at once, and [Receive] fails
    unless the other's message was delivered while the test slept in [Send].) *)
Theorem MailTest_correct be Random junk reliability a b s :
  a ≠ b → int32 a → int32 b → clamp reliability = double 1 → mreach be Random junk a b reliability s →
  (∀ e, who e = a ∨ who e = b → mcan e s = true →
     if would_wait e s then mhappen be Random junk e s = AssertFail
     else ∃ s', mhappen be Random junk e s = Ok s') ∧
  (∀ x y, (x, y) = (a, b) ∨ (x, y) = (b, a) → ∃ p t, tests s !! x = Some (p, t) ∧
     printed t `prefix_of` [(take 12 data, y, 1); (take 7 ack, y, 1)] ∧
     (p = Halted → printed t = [(take 12 data, y, 1); (take 7 ack, y, 1)])) ∧
  (∀ es s', Forall (λ e, who e = a ∨ who e = b) es → mrun be Random junk es s = Ok s' →
     (length (filter (λ e, is_poll e = false) es) <= 70)%nat).
Proof.
  intros Hne Ha Hb Hrel Hr. destruct (mreach_inv be Random junk reliability Hrel a b s Hne Ha Hb Hr) as [Hi Hl].
  pose proof (inv_sym _ _ _ _ _ Hi) as Hi'. split; [|split].
  - intros e Hw Hc. destruct (would_wait e s) eqn:Hww.
    + destruct e as [z| | |]; [|done..]. destruct Hw as [<- | <-]; by eapply Test_waits.
    + destruct Hw as [Hw|Hw].
      * destruct (event_step be Random junk reliability Hrel e a b s Hne Hi Hw Hc Hww) as [?|(? & ? & _)]; eauto.
      * destruct (event_step be Random junk reliability Hrel e b a s (not_eq_sym Hne) Hi' Hw Hc Hww) as [?|(? & ? & _)]; eauto.
  - intros x y [[= -> ->]|[= -> ->]]; by eapply inv_printed.
  - intros es s' Hes Hrun. pose proof (mrun_bound be Random junk reliability Hrel es a b s s' Hne Hi Hes Hrun). lia.
Qed.

Lemma mrun_reach be Random junk reliability a b es s s' :
  mreach be Random junk a b reliability s → Forall (λ e, who e = a ∨ who e = b) es →
  mrun be Random junk es s = Ok s' → mreach be Random junk a b reliability s'.
Proof.
  revert s. induction es as [|e es IH]; intros s Hr; cbn [mrun]; [by intros _ [= <-]|].
  intros [Hw Hws]%Forall_cons. destruct (mcan e s) eqn:Hc; [|done]. intros H. inv_ok. eapply IH; [|done|done].
  by eapply mreach_event.
Qed.

(** Machine 0 has sent its message and machine 1 has not: machine 0 must not look
    for mail yet.  From there a run with two polls and a step of machine 1 *)
Lemma MailTest_correct_witness :
  ∃ s s', mrun false (λ _, 57) (λ _, 0) [MTest 0; MSendDone 0; MTest 0] (newSys (λ _, 0) 0 1 (double 1)) = Ok s ∧
    mcan (MTest 0) s = true ∧ mhappen false (λ _, 57) (λ _, 0) (MTest 0) s = AssertFail ∧
    mrun false (λ _, 57) (λ _, 0) [MPoll 1; MTest 1; MPoll 0] s = Ok s' ∧
    (length (filter (λ e, is_poll e = false) [MPoll 1; MTest 1; MPoll 0]) <= 70)%nat.
Proof.
  destruct (mrun false (λ _, 57) (λ _, 0) [MTest 0; MSendDone 0; MTest 0] (newSys (λ _, 0) 0 1 (double 1)))
    as [s| | | |] eqn:Hrun; [|vm_compute in Hrun; discriminate Hrun..].
  destruct (mrun false (λ _, 57) (λ _, 0) [MPoll 1; MTest 1; MPoll 0] s) as [s'| | | |] eqn:Hrun';
    [|vm_compute in Hrun; injection Hrun as <-; vm_compute in Hrun'; discriminate Hrun'..].
  exists s, s'. split; [reflexivity|].
  assert (Hc : mcan (MTest 0) s = true ∧ would_wait (MTest 0) s = true).
  { vm_compute in Hrun. injection Hrun as <-. split; reflexivity. }
  destruct Hc as [Hc Hw]. split; [exact Hc|].
  destruct (MailTest_correct false (λ _, 57) (λ _, 0) (double 1) 0 1 s) as (Hsafe & _ & Hend);
    [done|done|done|reflexivity| |].
  - eapply mrun_reach; [apply mreach_start| |exact Hrun]. repeat constructor.
  - specialize (Hsafe (MTest 0) (or_introl eq_refl) Hc). rewrite Hw in Hsafe. split; [exact Hsafe|].
    split; [exact Hrun'|]. apply (Hend _ s'); [|exact Hrun']. apply Forall_cons; split; [right; reflexivity|].
    apply Forall_cons; split; [right; reflexivity|]. apply Forall_cons; split; [left; reflexivity|]. constructor.
Defined.
