(* ===== verification/Tools.v ===== *)
(** * bin/main.c, bin/disasm.c and the end of bin/execute.c: the cross tools

    How the interpreter of the cross tools and the disassembler load a program:
    both read the sections of an object file into [mem], with the library ldfcn,
    which is not in the repository.  The object file is what that library finds in
    it: a type, and section headers by name.  After that the disassembler lists the
    text section.  The rest is what execute.c has for statistics. *)

From Stdlib Require Import String.
From S2P Require Import Prelude Params Machine MipsSim MipsExec Execute Disasm.
Local Open Scope Z_scope.

(** ** Loading *)

(** What the tools use of a section header *)
Record SCNHDR := mkSCNHDR { s_vaddr : Z; s_size : Z; s_scnptr : Z }.

(** An object file for ldfcn: [ldopen] finds it, [TYPE], [ldnshread], and the bytes
    of the file, where [FSEEK] places the stream of [ldopen].  The tools call [getc]
    not on that stream but on their own [fp], which they have closed by then.  C says
    nothing of what that does.  It gets the bytes of the file if the library gave
    [ldopen] the [FILE] that [fclose] had freed, which is [o_reused]. *)
Record object_file := mkObject {
  o_opens : bool;
  o_type : Z;
  o_section : string → option SCNHDR;
  o_bytes : list Z;
  o_reused : bool }.

Abbreviation memory := (gmap Z Z).

(** The character of the file at [pos], as a [char]: at the end of the file it is EOF. *)
Definition char_at (bs : list Z) (pos : Z) : Z := u8 (default (-1) (if pos <? 0 then None else bs !! Z.to_nat pos)).

(** [getc(fp)], when the stream of [ldopen] is at [pos] *)
Definition getc (o : object_file) (pos : Z) : result Z :=
  if o_reused o then Ok (char_at (o_bytes o) pos) else Undefined.

(** [*(char * ) ((mem-memoffset)+pc) = c] *)
Definition put_char (pc c : Z) (m : memory) : result memory :=
  if (Exe.memoffset <=? pc) && (pc <? Exe.memoffset + Exe.MEMSIZE) then Ok (<[pc := c]> m) else Undefined.

Section Loading.
Variable o : object_file.

(** disasm.c: the loop of [load_section], with [k] bytes to go *)
Fixpoint load_section_loop (k : nat) (pc pos : Z) (m : memory) : result memory :=
  match k with
  | O => Ok m
  | S k =>
      if wrap32 (pc - Exe.memoffset) >=? Exe.MEMSIZE then Exited 1
      else
        c ← getc o pos;
        m ← put_char pc c m;
        load_section_loop k (wrap32 (pc + 1)) (pos + 1) m
  end.

Definition load_section (hd : SCNHDR) (m : memory) : result memory :=
  if negb (s_scnptr hd =? 0) then load_section_loop (Z.to_nat (s_size hd)) (s_vaddr hd) (s_scnptr hd) m else Ok m.

(** main.c: the macro [LOADSECTION], which looks at [pc] after the loop *)
Fixpoint LOADSECTION_loop (k : nat) (pc pos : Z) (m : memory) : result (Z * memory) :=
  match k with
  | O => Ok (pc, m)
  | S k =>
      c ← getc o pos;
      m ← put_char pc c m;
      LOADSECTION_loop k (wrap32 (pc + 1)) (pos + 1) m
  end.

Definition LOADSECTION (head : SCNHDR) (m : memory) : result memory :=
  if negb (s_scnptr head =? 0) then
    '(pc, m) ← LOADSECTION_loop (Z.to_nat (s_size head)) (s_vaddr head) (s_scnptr head) m;
    if wrap32 (pc - Exe.memoffset) >=? Exe.MEMSIZE then Exited 1 else Ok m
  else Ok m.

(** The sections that both tools load, in their order *)
Definition section_names : list string := [".text"; ".rdata"; ".data"; ".sdata"; ".sbss"; ".bss"]%string.

Fixpoint load_sections (load : SCNHDR → memory → result memory) (names : list string) (m : memory) : result memory :=
  match names with
  | [] => Ok m
  | name :: names =>
      m ← match o_section o name with None => Ok m | Some hd => load hd m end;
      load_sections load names m
  end.

Definition load_program (load : SCNHDR → memory → result memory) : result memory :=
  if negb (o_opens o) then Exited 0
  else if negb (o_type o =? 0x162) then Exited 0
  else load_sections load section_names ∅.

(** ** disasm.c *)

(** A line: the address, the instruction, and what [dump_ascii] prints of it *)
Definition dis1 (pc : Z) (m : memory) : result (Z * Z * (string * list operand)) :=
  instr ← Exe.fetch pc (Exe.mkInt [] 0 0 m 0 0);
  line ← dump_ascii instr pc;
  Ok (pc, instr, line).

(** The loop of [disasm], with [k] instructions to go *)
Fixpoint disasm_loop (k : nat) (pc : Z) (m : memory) : result (list (Z * Z * (string * list operand))) :=
  match k with
  | O => Ok []
  | S k =>
      l ← dis1 pc m;
      ls ← disasm_loop k (wrap32 (pc + 4)) m;
      Ok (l :: ls)
  end.

(** [texthead] is a static variable, zero if there was no text section. *)
Definition texthead : SCNHDR := default (mkSCNHDR 0 0 0) (o_section o ".text").

(** [i] goes from 0 in steps of 4 while it is below the size. *)
Definition disasm (m : memory) : result (list (Z * Z * (string * list operand))) :=
  disasm_loop (Z.to_nat ((s_size texthead + 3) / 4)) Exe.memoffset m.

Definition disasm_main : result (list (Z * Z * (string * list operand))) :=
  m ← load_program load_section; disasm m.
End Loading.

(** ** execute.c: statistics *)

(** [if ( (j=(i&mask)) != 0 ) { i = j; l += n; }] *)
Definition narrow (mask n : Z) (il : Z * Z) : Z * Z :=
  let j := wrap32 (Z.land (u32 il.1) mask) in
  if negb (j =? 0) then (j, il.2 + n) else il.

Definition ilog2 (i : Z) : Z :=
  if i =? 0 then 0
  else
    let il := narrow 0xffff0000 16 (i, 1) in
    let il := narrow 0xff00ff00 8 il in
    let il := narrow 0xf0f0f0f0 4 il in
    let il := narrow 0xcccccccc 2 il in
    let il := narrow 0xaaaaaaaa 1 il in
    il.2.

Definition NH : Z := 32.
Definition NNN : Z := 33.

Record histograms := mkHist { hists : list (list Z); hoflo : list Z; htotal : list Z }.

Definition increment (l : list Z) (i : Z) : result (list Z) := v ← aget l i; aset l i (v + 1).

Definition henters (n hist : Z) (s : histograms) : result histograms :=
  s ← (if (0 <=? n) && (n <? NNN) then
         row ← aget (hists s) hist;
         row ← increment row n;
         h ← aset (hists s) hist row;
         Ok (mkHist h (hoflo s) (htotal s))
       else
         o ← increment (hoflo s) hist;
         Ok (mkHist (hists s) o (htotal s)));
  t ← increment (htotal s) hist;
  Ok (mkHist (hists s) (hoflo s) t).

(** The histograms that [hprint] prints, with their numbers; it goes to [NH]. *)
Fixpoint hprint_loop (k : nat) (h : Z) (s : histograms) : result (list (Z * list Z)) :=
  match k with
  | O => Ok []
  | S k =>
      t ← aget (htotal s) h;
      this ← (if t >? 0 then row ← aget (hists s) h; Ok [(h, row)] else Ok []);
      rest ← hprint_loop k (h + 1) s;
      Ok (this ++ rest)
  end.
Definition hprint (s : histograms) : result (list (Z * list Z)) := hprint_loop (Z.to_nat (NH + 1)) 0 s.

(** ** Loading a section *)

Section LoadLemmas.
Variable o : object_file.

Definition mem_end : Z := Exe.memoffset + Exe.MEMSIZE.

Lemma mem_end_eq : Exe.memoffset = 0x10000000 ∧ mem_end = 0x11000000.
Proof. done. Qed.

(** [k] bytes from [pos] of the file, at [pc] *)
Definition loaded (k pc pos : Z) (m m' : memory) : Prop :=
  ∀ a, m' !! a = if (pc <=? a) && (a <? pc + k) then Some (char_at (o_bytes o) (pos + (a - pc))) else m !! a.

Lemma put_char_in pc c m : Exe.memoffset <= pc < mem_end → put_char pc c m = Ok (<[pc := c]> m).
Proof. intros Hp. unfold put_char, mem_end in *. by rewrite (proj2 (Z.leb_le _ _)), (proj2 (Z.ltb_lt _ _)) by lia. Qed.

Lemma put_char_out pc c m : mem_end <= pc → put_char pc c m = Undefined.
Proof. intros Hp. unfold put_char, mem_end in *. by rewrite (proj2 (Z.ltb_ge pc _)), andb_false_r by lia. Qed.

Lemma wrap_pc pc : Exe.memoffset <= pc <= mem_end + 1 → wrap32 pc = pc ∧ wrap32 (pc - Exe.memoffset) = pc - Exe.memoffset.
Proof. destruct mem_end_eq as [-> ->]. intros. split; apply wrap32_id; unfold int32; lia. Qed.

Lemma loaded_step k pc pos m m' :
  0 <= k → loaded k (pc + 1) (pos + 1) (<[pc := char_at (o_bytes o) pos]> m) m' → loaded (k + 1) pc pos m m'.
Proof.
  intros Hk Hl a. rewrite Hl. destruct (decide (a = pc)) as [->|Hne].
  - rewrite lookup_insert_eq. btest; cbn [andb]; try lia. do 2 f_equal. lia.
  - rewrite lookup_insert_ne by done. btest; cbn [andb]; try lia; try done. do 2 f_equal. lia.
Qed.

Lemma getc_reused pos : o_reused o = true → getc o pos = Ok (char_at (o_bytes o) pos).
Proof. intros Hr. unfold getc. by rewrite Hr. Qed.

Lemma getc_closed pos : o_reused o = false → getc o pos = Undefined.
Proof. intros Hr. unfold getc. by rewrite Hr. Qed.

Lemma load_section_loop_ok k pc pos m :
  o_reused o = true → Exe.memoffset <= pc → pc + Z.of_nat k <= mem_end →
  ∃ m', load_section_loop o k pc pos m = Ok m' ∧ LOADSECTION_loop o k pc pos m = Ok (pc + Z.of_nat k, m') ∧
    loaded (Z.of_nat k) pc pos m m'.
Proof.
  intros Hr. revert pc pos m. induction k as [|k IH]; intros pc pos m Hlo Hhi; cbn [load_section_loop LOADSECTION_loop].
  - exists m. rewrite Z.add_0_r. split; [done|]. split; [done|]. intros a. btest; cbn [andb]; (done || lia).
  - destruct (wrap_pc pc) as [_ ->]; [lia|]. destruct (wrap_pc (pc + 1)) as [-> _]; [lia|].
    rewrite Z.geb_leb, (proj2 (Z.leb_gt _ _)) by (unfold mem_end in *; lia).
    rewrite getc_reused by done. cbn [mbind result_bind]. rewrite put_char_in by lia. cbn [mbind result_bind].
    destruct (IH (pc + 1) (pos + 1) (<[pc := char_at (o_bytes o) pos]> m)) as (m' & -> & -> & Hl); [lia|lia|].
    exists m'. split; [done|]. split; [do 2 f_equal; lia|]. rewrite Nat2Z.inj_succ, <- Z.add_1_r. apply loaded_step; [lia|done].
Qed.

Lemma load_section_loop_over k pc pos m :
  o_reused o = true → Exe.memoffset <= pc <= mem_end → mem_end < pc + Z.of_nat k →
  load_section_loop o k pc pos m = Exited 1 ∧ LOADSECTION_loop o k pc pos m = Undefined.
Proof.
  intros Hr. revert pc pos m. induction k as [|k IH]; intros pc pos m Hpc Hover; [lia|].
  cbn [load_section_loop LOADSECTION_loop]. rewrite getc_reused by done. cbn [mbind result_bind].
  destruct (wrap_pc pc) as [_ ->]; [lia|]. destruct (wrap_pc (pc + 1)) as [-> _]; [lia|].
  destruct (decide (pc = mem_end)) as [->|Hne].
  - rewrite put_char_out by lia. done.
  - rewrite Z.geb_leb, (proj2 (Z.leb_gt _ _)) by (unfold mem_end in *; lia). rewrite put_char_in by lia.
    cbn [mbind result_bind]. apply IH; lia.
Qed.

(** A byte that is read through the closed stream *)
Lemma load_section_loop_closed k pc pos m :
  o_reused o = false → Exe.memoffset <= pc <= mem_end →
  load_section_loop o (S k) pc pos m = (if pc =? mem_end then Exited 1 else Undefined) ∧
  LOADSECTION_loop o (S k) pc pos m = Undefined.
Proof.
  intros Hr Hpc. cbn [load_section_loop LOADSECTION_loop]. rewrite getc_closed by done.
  destruct (wrap_pc pc) as [_ ->]; [lia|]. rewrite Z.geb_leb. unfold mem_end in *. split; [|done].
  btest; (done || lia).
Qed.

Lemma load_section_closed hd m :
  o_reused o = false → Exe.memoffset <= s_vaddr hd <= mem_end → s_scnptr hd ≠ 0 → 0 < s_size hd →
  load_section o hd m = (if s_vaddr hd =? mem_end then Exited 1 else Undefined) ∧ LOADSECTION o hd m = Undefined.
Proof.
  intros Hr Hv Hp Hs. unfold load_section, LOADSECTION. rewrite (proj2 (Z.eqb_neq _ _) Hp). cbn [negb].
  destruct (Z.to_nat (s_size hd)) as [|k] eqn:Hk; [lia|].
  by destruct (load_section_loop_closed k (s_vaddr hd) (s_scnptr hd) m Hr Hv) as [-> ->].
Qed.

Lemma load_section_fits hd m :
  o_reused o = true → Exe.memoffset <= s_vaddr hd → s_scnptr hd ≠ 0 → 0 <= s_size hd → s_vaddr hd + s_size hd <= mem_end →
  ∃ m', load_section o hd m = Ok m' ∧ loaded (s_size hd) (s_vaddr hd) (s_scnptr hd) m m' ∧
    LOADSECTION o hd m = if s_vaddr hd + s_size hd =? mem_end then Exited 1 else Ok m'.
Proof.
  intros Hr Hv Hp Hs Hfit. unfold load_section, LOADSECTION. rewrite (proj2 (Z.eqb_neq _ _) Hp). cbn [negb].
  destruct (load_section_loop_ok (Z.to_nat (s_size hd)) (s_vaddr hd) (s_scnptr hd) m Hr) as (m' & -> & -> & Hl); [lia|lia|].
  rewrite Z2Nat.id in * by lia. exists m'. split; [done|]. split; [done|]. cbn [mbind result_bind].
  destruct (wrap_pc (s_vaddr hd + s_size hd)) as [_ ->]; [lia|].
  rewrite Z.geb_leb. unfold mem_end in *. btest; (done || lia).
Qed.
End LoadLemmas.

(** C17: loading a section that is not empty into the memory of the tools, from an
    address in it on.  Where the [FILE] that was closed is the one of [ldopen], the
    disassembler loads a section that fits, and exits before the first byte out of
    memory; nothing else changes.  The interpreter looks only after the whole
    section: it does the same for one that fits with a byte to spare, exits for one
    that fits exactly, and writes past its array for a larger one.  Where it is not,
    the first byte is read through a closed stream, which is undefined, unless the
    disassembler exits before it because the section begins at the end of memory. *)
Theorem load_section_bounds o hd m :
  Exe.memoffset <= s_vaddr hd <= mem_end → s_scnptr hd ≠ 0 → 0 < s_size hd →
  if o_reused o then
    if s_vaddr hd + s_size hd <=? mem_end then
      ∃ m', load_section o hd m = Ok m' ∧ loaded o (s_size hd) (s_vaddr hd) (s_scnptr hd) m m' ∧
        LOADSECTION o hd m = if s_vaddr hd + s_size hd =? mem_end then Exited 1 else Ok m'
    else load_section o hd m = Exited 1 ∧ LOADSECTION o hd m = Undefined
  else load_section o hd m = (if s_vaddr hd =? mem_end then Exited 1 else Undefined) ∧
    LOADSECTION o hd m = Undefined.
Proof.
  intros Hv Hp Hs. destruct (o_reused o) eqn:Hr; [|by apply load_section_closed].
  destruct (Z.leb_spec (s_vaddr hd + s_size hd) mem_end) as [Hfit|Hover].
  - apply load_section_fits; [done|lia|done|lia|done].
  - unfold load_section, LOADSECTION. rewrite (proj2 (Z.eqb_neq _ _) Hp). cbn [negb].
    destruct (load_section_loop_over o (Z.to_nat (s_size hd)) (s_vaddr hd) (s_scnptr hd) m Hr) as [-> ->];
      [done|lia|done].
Qed.

(** Three bytes at the end of memory: two fit with a byte to spare, three fit
    exactly, four do not. *)
Definition ex_object (size : Z) (reused : bool) : object_file :=
  mkObject true 0x162 (λ _, Some (mkSCNHDR (mem_end - 3) size 1)) [7; 8; 9; 10; 11] reused.

Lemma load_section_bounds_witness :
  (∃ m', load_section (ex_object 3 true) (mkSCNHDR (mem_end - 3) 3 1) ∅ = Ok m' ∧
     m' !! (mem_end - 1) = Some 10 ∧ LOADSECTION (ex_object 3 true) (mkSCNHDR (mem_end - 3) 3 1) ∅ = Exited 1) ∧
  load_section (ex_object 4 true) (mkSCNHDR (mem_end - 3) 4 1) ∅ = Exited 1 ∧
  load_section (ex_object 3 false) (mkSCNHDR (mem_end - 3) 3 1) ∅ = Undefined.
Proof.
  split; [|split].
  - destruct (load_section_bounds (ex_object 3 true) (mkSCNHDR (mem_end - 3) 3 1) ∅) as (m' & H1 & H2 & H3);
      [split; discriminate|discriminate|reflexivity|].
    exists m'. split; [exact H1|]. split; [|exact H3]. rewrite H2. reflexivity.
  - exact (proj1 (load_section_bounds (ex_object 4 true) (mkSCNHDR (mem_end - 3) 4 1) ∅ ltac:(split; discriminate)
      ltac:(discriminate) ltac:(reflexivity))).
  - exact (proj1 (load_section_bounds (ex_object 3 false) (mkSCNHDR (mem_end - 3) 3 1) ∅ ltac:(split; discriminate)
      ltac:(discriminate) ltac:(reflexivity))).
Defined.

(** ** Disassembling a program *)


Lemma field_bound x n : 0 <= n → 0 <= Z.land x (Z.ones n) < 2 ^ n.
Proof. intros Hn. rewrite Z.land_ones by done. apply Z.mod_pos_bound. lia. Qed.

Lemma R_total x : 0 <= x < 32 → ∃ r, R_ x = Ok r.
Proof. intros Hx. unfold R_. rewrite regstrings_in by done. by eexists. Qed.

Lemma aget_total (l : list string) i : 0 <= i < Z.of_nat (length l) → ∃ x, aget l i = Ok x.
Proof. intros Hi. by apply aget_in. Qed.

Lemma dump_ascii_total w pc : ∃ line, dump_ascii w pc = Ok line.
Proof.
  destruct (R_total (Exe.rs w)) as [rs Hrs]; [apply (field_bound _ 5); lia|].
  destruct (R_total (Exe.rt w)) as [rt Hrt]; [apply (field_bound _ 5); lia|].
  destruct (R_total (Exe.rd w)) as [rd Hrd]; [apply (field_bound _ 5); lia|].
  assert (∃ base, aget regstrings (Exe.rs w) = Ok base) as [base Hb].
  { rewrite regstrings_in by (apply (field_bound _ 5); lia). by eexists. }
  unfold dump_ascii. destruct (w =? 0); [by eexists|]. rewrite opcode_shift.
  destruct (_ =? 0); [|destruct (_ =? 1)].
  - destruct (aget_total specialops (Z.land w 0x3f)) as [name ->]; [apply (field_bound w 6); lia|]. cbn [mbind result_bind].
    unfold dump_special. rewrite Hrs, Hrt, Hrd. unfold three, two, one. cbn [mbind result_bind].
    repeat case_match; cbn [mbind result_bind]; by eexists.
  - rewrite Hrs. by eexists.
  - destruct (aget_total normalops (Z.land (Z.shiftr w 26) 0x3f)) as [name ->]; [apply (field_bound _ 6); lia|].
    cbn [mbind result_bind]. unfold dump_normal. rewrite Hrs, Hrt, Hb. unfold three, two. cbn [mbind result_bind].
    repeat case_match; cbn [mbind result_bind]; by eexists.
Qed.

Section Listing.
Variable o : object_file.

(** The [k]th instruction of the text section in the file *)
Definition text_word (hd : SCNHDR) (k : Z) : Z :=
  wrap32 (le_val ((λ j, char_at (o_bytes o) (s_scnptr hd + 4 * k + Z.of_nat j)) <$> seq 0 4)).

(** The text section is at the beginning of memory, and the other sections that are
    read from the file fit behind it. *)
Definition behind (low : Z) (hd : SCNHDR) : Prop :=
  s_scnptr hd = 0 ∨ (low <= s_vaddr hd <= mem_end ∧ 0 <= s_size hd ∧ s_vaddr hd + s_size hd <= mem_end).

Record listable (hd : SCNHDR) (n : Z) : Prop := {
  li_opens : o_opens o = true ∧ o_type o = 0x162;
  li_text : o_section o ".text" = Some hd;
  li_place : s_vaddr hd = Exe.memoffset ∧ s_scnptr hd ≠ 0;
  li_size : s_size hd = 4 * n ∧ 0 <= n ∧ 4 * n <= Exe.MEMSIZE;
  li_rest : ∀ name hd', name ∈ tail section_names → o_section o name = Some hd' →
    behind (Exe.memoffset + 4 * n) hd' }.

(** What is loaded behind [low] leaves alone what is before it. *)
Lemma load_sections_behind low names m :
  o_reused o = true → Exe.memoffset <= low →
  (∀ name hd', name ∈ names → o_section o name = Some hd' → behind low hd') →
  ∃ m', load_sections o (load_section o) names m = Ok m' ∧ ∀ a, a < low → m' !! a = m !! a.
Proof.
  intros Hr Hlow. revert m. induction names as [|name names IH]; intros m Hb; cbn [load_sections]; [by exists m|].
  assert (∃ m1, match o_section o name with Some hd => load_section o hd m | None => Ok m end = Ok m1 ∧
            ∀ a, a < low → m1 !! a = m !! a) as (m1 & -> & Hm1).
  { destruct (o_section o name) as [hd|] eqn:Hhd; [|by exists m].
    destruct (Hb name hd) as [Hz|(Hv & Hs & Hf)]; [by apply elem_of_cons; left|done| |].
    - exists m. unfold load_section. by rewrite Hz.
    - destruct (Z.eq_dec (s_scnptr hd) 0) as [Hz|Hz]; [exists m; unfold load_section; by rewrite Hz|].
      destruct (load_section_fits o hd m Hr) as (m1 & -> & Hl & _); [lia|done|done|done|].
      exists m1. split; [done|]. intros a Ha. rewrite Hl, (proj2 (Z.leb_gt _ _)) by lia. done. }
  cbn [mbind result_bind]. destruct (IH m1) as (m' & -> & Hm').
  { intros name' hd' Hin. apply Hb. by apply elem_of_cons; right. }
  exists m'. split; [done|]. intros a Ha. rewrite Hm' by done. by apply Hm1.
Qed.

Lemma fetch_text hd k n m :
  0 <= k < n → 4 * n <= Exe.MEMSIZE →
  (∀ a, Exe.memoffset <= a < Exe.memoffset + 4 * n →
     m !! a = Some (char_at (o_bytes o) (s_scnptr hd + (a - Exe.memoffset)))) →
  Exe.fetch (Exe.memoffset + 4 * k) (Exe.mkInt [] 0 0 m 0 0) = Ok (text_word hd k).
Proof.
  intros Hk Hn Hm. unfold Exe.fetch, Exe.load_bytes, Exe.in_mem.
  rewrite (proj2 (Z.leb_le Exe.memoffset _)), (proj2 (Z.leb_le (_ + 4) _)) by lia.
  assert ((Exe.memoffset + 4 * k) mod 4 = 0) as ->.
  { rewrite Z.mul_comm, Z.mod_add by lia. done. }
  cbn [andb Z.eqb mbind result_bind]. unfold text_word, Exe.bytes_at. do 3 f_equal.
  apply list_fmap_ext.
  intros i j [-> Hj]%lookup_seq. cbn [Exe.mem]. change (Z.to_nat 4) with 4%nat in Hj.
  rewrite Hm by lia. cbn. f_equal. lia.
Qed.

Lemma disasm_loop_ok hd k i n m :
  0 <= i → i + Z.of_nat k <= n → 4 * n <= Exe.MEMSIZE →
  (∀ a, Exe.memoffset <= a < Exe.memoffset + 4 * n →
     m !! a = Some (char_at (o_bytes o) (s_scnptr hd + (a - Exe.memoffset)))) →
  ∃ ls, disasm_loop k (Exe.memoffset + 4 * i) m = Ok ls ∧
    Forall2 (λ j l, ∃ line, dump_ascii (text_word hd j) (Exe.memoffset + 4 * j) = Ok line ∧
      l = (Exe.memoffset + 4 * j, text_word hd j, line)) (seqZ i (Z.of_nat k)) ls.
Proof.
  intros Hi Hk Hn Hm. revert i Hi Hk. induction k as [|k IH]; intros i Hi Hk; cbn [disasm_loop].
  - exists []. split; [done|]. constructor.
  - unfold dis1. rewrite (fetch_text hd i n) by (done || lia). cbn [mbind result_bind].
    destruct (dump_ascii_total (text_word hd i) (Exe.memoffset + 4 * i)) as [line Hline]. rewrite Hline. cbn [mbind result_bind].
    destruct (wrap_pc (Exe.memoffset + 4 * i + 4)) as [-> _]; [unfold mem_end; lia|].
    replace (Exe.memoffset + 4 * i + 4) with (Exe.memoffset + 4 * (i + 1)) by lia.
    destruct (IH (i + 1)) as (ls & -> & Hls); [lia|lia|]. cbn [mbind result_bind].
    eexists. split; [done|]. rewrite seqZ_cons by lia. constructor; [by exists line|].
    replace (Z.succ i) with (i + 1) by lia. by replace (Z.pred (Z.of_nat (S k))) with (Z.of_nat k) by lia.
Qed.
End Listing.

(** The text section is not empty, so that the first byte is read. *)
Lemma disasm_closed o hd n : listable o hd n → o_reused o = false → 0 < n → disasm_main o = Undefined.
Proof.
  intros [[Hop Hty] Htext [Hv Hp] (Hs & Hn & Hfit) Hrest] Hr Hpos.
  unfold disasm_main, load_program. rewrite Hop, Hty. cbn [negb Z.eqb Pos.eqb].
  change section_names with (".text"%string :: tail section_names). cbn [load_sections]. rewrite Htext.
  assert (Exe.memoffset <= s_vaddr hd <= mem_end) as Hin by (unfold mem_end; lia).
  destruct (load_section_closed o hd ∅ Hr Hin Hp) as [-> _]; [lia|]. by rewrite Hv.
Qed.

(** C5: the disassembler, for a program whose text section is not empty and begins
    at the beginning of memory, with everything else that is loaded behind it.  Where
    the [FILE] that was closed is the one of [ldopen], the disassembler ends and
    prints one line for each instruction of the text section of the file, in order:
    its address, the word, and the disassembly of the word.  Where it is not, the
    disassembler reads through a closed stream and its behaviour is undefined. *)
Theorem disasm_lists_text o hd n :
  listable o hd n → 0 < n →
  if o_reused o then
    ∃ lines, disasm_main o = Ok lines ∧
      Forall2 (λ k l, ∃ line, dump_ascii (text_word o hd k) (Exe.memoffset + 4 * k) = Ok line ∧
        l = (Exe.memoffset + 4 * k, text_word o hd k, line)) (seqZ 0 n) lines
  else disasm_main o = Undefined.
Proof.
  intros Hli Hpos. destruct (o_reused o) eqn:Hr; [|by apply (disasm_closed o hd n)].
  destruct Hli as [[Hop Hty] Htext [Hv Hp] (Hs & Hn & Hfit) Hrest].
  unfold disasm_main, load_program. rewrite Hop, Hty. cbn [negb Z.eqb Pos.eqb].
  change section_names with (".text"%string :: tail section_names). cbn [load_sections]. rewrite Htext.
  destruct (load_section_fits o hd ∅ Hr) as (m1 & -> & Hl & _); [lia|done|lia|unfold mem_end; lia|].
  rewrite Hv, Hs in Hl. cbn [mbind result_bind].
  destruct (load_sections_behind o (Exe.memoffset + 4 * n) (tail section_names) m1 Hr) as (m & -> & Hm); [lia|done|].
  cbn [mbind result_bind]. unfold disasm, texthead. rewrite Htext. change (default _ (Some hd)) with hd. rewrite Hs.
  replace ((4 * n + 3) / 4) with n by (apply Z.div_unique with 3; lia).
  destruct (disasm_loop_ok o hd (Z.to_nat n) 0 n m) as (ls & Hls & Hf); [lia|lia|done| |].
  - intros a Ha. rewrite Hm by lia. rewrite Hl.
    rewrite (proj2 (Z.leb_le _ _)), (proj2 (Z.ltb_lt _ _)) by lia. done.
  - rewrite Z.mul_0_r, Z.add_0_r in Hls. exists ls. split; [done|]. by rewrite Z2Nat.id in Hf.
Qed.

(** [addi r2, r1, -1] and [nop], with a data section behind *)
Definition ex_program (reused : bool) : object_file :=
  mkObject true 0x162
    (λ name, if String.eqb name ".text" then Some (mkSCNHDR Exe.memoffset 8 2)
             else if String.eqb name ".data" then Some (mkSCNHDR (Exe.memoffset + 8) 1 10) else None)
    [0; 0; 0xff; 0xff; 0x22; 0x20; 0; 0; 0; 0; 5] reused.

Lemma ex_program_listable reused : listable (ex_program reused) (mkSCNHDR Exe.memoffset 8 2) 2.
Proof.
  split; [done|done|done|split; [done|split; discriminate]|].
  intros name hd' Hin Hhd. cbn in Hhd. destruct (String.eqb name ".text") eqn:E.
  - apply String.eqb_eq in E. subst. revert Hin. unfold section_names. cbn [tail]. rewrite !elem_of_cons. intros Hin. exfalso.
    by destruct Hin as [?|[?|[?|[?|[?|Hin%not_elem_of_nil]]]]].
  - destruct (String.eqb name ".data"); [|discriminate Hhd]. injection Hhd as <-. right.
    cbn [s_vaddr s_size]. destruct mem_end_eq as [-> ->]. lia.
Qed.

Lemma disasm_lists_text_witness :
  (∃ lines, disasm_main (ex_program true) = Ok lines ∧ length lines = 2%nat ∧
     text_word (ex_program true) (mkSCNHDR Exe.memoffset 8 2) 0 = 0x2022ffff) ∧
  disasm_main (ex_program false) = Undefined.
Proof.
  split.
  - destruct (disasm_lists_text (ex_program true) (mkSCNHDR Exe.memoffset 8 2) 2 (ex_program_listable true)) as (lines & Hl & Hf);
      [reflexivity|].
    exists lines. split; [exact Hl|]. split; [|reflexivity]. apply Forall2_length in Hf. by rewrite <- Hf.
  - exact (disasm_lists_text (ex_program false) (mkSCNHDR Exe.memoffset 8 2) 2 (ex_program_listable false) ltac:(reflexivity)).
Defined.

(** ** ilog2 *)

(** All bits of [x] are in the block of [n] from [lo] on. *)
Definition within (lo n x : Z) : Prop := ∀ b, Z.testbit x b = true → lo <= b < lo + n.

(** The mask has the bits whose number has bit [k]. *)
Definition mask_of (k mask : Z) : Prop := ∀ b, 0 <= b < 32 → Z.testbit mask b = Z.testbit b k.

Lemma mask_check k mask :
  forallb (λ b, eqb (Z.testbit mask (Z.of_nat b)) (Z.testbit (Z.of_nat b) k)) (seq 0 32) = true → mask_of k mask.
Proof.
  intros Hf b Hb. rewrite List.forallb_forall in Hf. specialize (Hf (Z.to_nat b)). rewrite Z2Nat.id in Hf by lia.
  apply eqb_prop, Hf, List.in_seq. lia.
Qed.

(** In a block of 2^(k+1) bits, those of the upper half *)
Lemma upper_half k lo b :
  0 <= k → lo mod 2 ^ (k + 1) = 0 → lo <= b < lo + 2 ^ (k + 1) → Z.testbit b k = (lo + 2 ^ k <=? b).
Proof.
  intros Hk Hlo Hb. rewrite Z.pow_add_r, Z.pow_1_r in * by lia.
  assert (0 < 2 ^ k) as Hp by lia. apply Z.mod_divide in Hlo as [q Hq]; [|lia].
  rewrite Z.testbit_odd, Z.shiftr_div_pow2 by lia. subst lo.
  destruct (Z.leb_spec (q * (2 ^ k * 2) + 2 ^ k) b) as [Hu|Hl].
  - replace (b / 2 ^ k) with (2 * q + 1); [by rewrite Z.odd_add, Z.odd_mul|].
    apply Z.div_unique with (b - (q * (2 ^ k * 2) + 2 ^ k)); lia.
  - replace (b / 2 ^ k) with (2 * q); [by rewrite Z.odd_mul|].
    apply Z.div_unique with (b - q * (2 ^ k * 2)); lia.
Qed.

Lemma top_bit x : 0 < x → Z.testbit x (Z.log2 x) = true.
Proof. apply Z.bit_log2. Qed.

Lemma bit_le_log2 x b : 0 < x → Z.testbit x b = true → b <= Z.log2 x.
Proof.
  intros Hx Hb. destruct (Z.le_gt_cases b (Z.log2 x)); [done|]. rewrite Z.bits_above_log2 in Hb by lia. done.
Qed.

(** Half of the block is left. *)
Lemma halve k mask lo x :
  0 <= k → mask_of k mask → lo mod 2 ^ (k + 1) = 0 → 0 <= lo → lo + 2 ^ (k + 1) <= 32 →
  0 < x → within lo (2 ^ (k + 1)) x →
  let j := Z.land x mask in
  if negb (j =? 0) then 0 < j ∧ Z.log2 j = Z.log2 x ∧ within (lo + 2 ^ k) (2 ^ k) j
  else within lo (2 ^ k) x.
Proof.
  intros Hk Hm Hlo H0 H32 Hx Hw j.
  assert (∀ b, Z.testbit j b = Z.testbit x b && (lo + 2 ^ k <=? b)) as Hj.
  { intros b. unfold j. rewrite Z.land_spec. destruct (Z.testbit x b) eqn:Hb; [|done]. cbn [andb].
    pose proof (Hw b Hb) as Hr. rewrite Hm by lia. by apply upper_half. }
  assert (2 ^ (k + 1) = 2 ^ k + 2 ^ k) as Hpow by (rewrite Z.pow_add_r, Z.pow_1_r by lia; lia).
  assert (0 <= j) as Hj0 by (apply Z.land_nonneg; left; lia).
  destruct (Z.eqb_spec j 0) as [Hz|Hnz]; cbn [negb].
  - intros b Hb. pose proof (Hw b Hb) as Hr. specialize (Hj b). rewrite Hz, Z.bits_0, Hb in Hj. cbn [andb] in Hj.
    symmetry in Hj. apply Z.leb_gt in Hj. lia.
  - assert (0 < j) as Hjp by lia. split; [done|]. split.
    + apply Z.le_antisymm; apply bit_le_log2; try done.
      * pose proof (top_bit j Hjp) as Ht. rewrite Hj in Ht. by apply andb_true_iff in Ht as [Ht _].
      * rewrite Hj, top_bit by done. cbn [andb]. apply Z.leb_le. pose proof (top_bit j Hjp) as Ht. rewrite Hj in Ht.
        apply andb_true_iff in Ht as [Ht Hle]. apply Z.leb_le in Hle. pose proof (bit_le_log2 x _ Hx Ht). lia.
    + intros b Hb. rewrite Hj in Hb. apply andb_true_iff in Hb as [Hb Hle]. apply Z.leb_le in Hle. pose proof (Hw b Hb). lia.
Qed.

(** The variables of [ilog2] for [x] when it knows the top bit up to [2^k] *)
Definition scanned (k x : Z) (il : Z * Z) : Prop := ∃ lo,
  lo mod 2 ^ k = 0 ∧ 0 <= lo ∧ lo + 2 ^ k <= 32 ∧ 0 < u32 il.1 ∧ Z.log2 (u32 il.1) = Z.log2 x ∧
  within lo (2 ^ k) (u32 il.1) ∧ il.2 = lo + 1.

Lemma narrow_scans k mask x il :
  0 <= k → uint32 mask → mask_of k mask → scanned (k + 1) x il → scanned k x (narrow mask (2 ^ k) il).
Proof.
  destruct il as [i l]. intros Hk Hmask Hm (lo & Hlo & H0 & H32 & Hx & Hlog & Hw & Hl). cbn [fst snd] in *.
  pose proof (halve k mask lo (u32 i) Hk Hm Hlo H0 H32 Hx Hw) as Hh. cbn zeta in Hh. unfold narrow. cbn [fst snd].
  assert (u32 (wrap32 (Z.land (u32 i) mask)) = Z.land (u32 i) mask) as Hj.
  { rewrite u32_wrap32. apply u32_id, uint32_land; [apply u32_uint32|done]. }
  revert Hj Hh. generalize (Z.land (u32 i) mask). intros j Hj Hh.
  assert (2 ^ (k + 1) = 2 ^ k + 2 ^ k) as Hpow by (rewrite Z.pow_add_r, Z.pow_1_r by lia; lia).
  assert ((wrap32 j =? 0) = (j =? 0)) as ->.
  { destruct (Z.eqb_spec j 0) as [->|Hn]; [done|]. apply Z.eqb_neq. intros E. rewrite E in Hj. by rewrite <- Hj in Hn. }
  apply Z.mod_divide in Hlo as [q Hq]; [|lia]. unfold scanned.
  destruct (negb (j =? 0)); cbn [fst snd].
  - destruct Hh as (Hjp & Hlogj & Hwj). exists (lo + 2 ^ k). rewrite Hj. repeat split; try done; try lia; try congruence.
    + rewrite Hq, Hpow. replace (q * (2 ^ k + 2 ^ k) + 2 ^ k) with ((2 * q + 1) * 2 ^ k) by lia. apply Z.mod_mul. lia.
    + by apply Hwj.
    + by apply Hwj.
  - exists lo. repeat split; try done; try lia.
    + rewrite Hq, Hpow. replace (q * (2 ^ k + 2 ^ k)) with ((2 * q) * 2 ^ k) by lia. apply Z.mod_mul. lia.
    + by apply Hh.
    + by apply Hh.
Qed.

Lemma scan_start i : 0 < u32 i → scanned 5 (u32 i) (i, 1).
Proof.
  intros Hu. exists 0. repeat split; try done; cbn [fst].
  - destruct (Z.lt_ge_cases b 0); [|done]. by rewrite Z.testbit_neg_r in *.
  - pose proof (bit_le_log2 _ _ Hu H). pose proof (u32_uint32 i) as [_ Hlt]. apply Z.log2_lt_pow2 in Hlt; [|done]. lia.
Qed.

Lemma scan_end x il : scanned 0 x il → il.2 = Z.log2 x + 1.
Proof.
  intros (lo & _ & _ & _ & Hx & <- & Hw & ->). pose proof (Hw _ (top_bit _ Hx)). lia.
Qed.

(** [ilog2] is the number of bits of its argument, taken as unsigned: one more than
    the logarithm, and 0 for 0.  (Its comment says 1 for 2, and 2 for 4 to 6.) *)
Theorem ilog2_correct i :
  int32 i → ilog2 i = if i =? 0 then 0 else Z.log2 (u32 i) + 1.
Proof.
  intros Hi. unfold ilog2. destruct (Z.eqb_spec i 0) as [|Hne]; [done|].
  assert (0 < u32 i) as Hu.
  { pose proof (u32_uint32 i) as [H0 _]. destruct (Z.eq_dec (u32 i) 0) as [E|]; [|lia].
    exfalso. apply Hne. rewrite <- (wrap32_id i Hi), <- wrap32_u32, E. done. }
  apply scan_end.
  apply (narrow_scans 0); [done|done|by apply mask_check|]. apply (narrow_scans 1); [done|done|by apply mask_check|].
  apply (narrow_scans 2); [done|done|by apply mask_check|]. apply (narrow_scans 3); [done|done|by apply mask_check|].
  apply (narrow_scans 4); [done|done|by apply mask_check|]. by apply scan_start.
Qed.

Example ilog2_comment : ilog2 2 = 2 ∧ ilog2 4 = 3.
Proof. done. Qed.

(** ** Histograms *)

(** Each total is the sum of its histogram and what did not fit in it. *)
Definition sum (l : list Z) : Z := foldr Z.add 0 l.

Record hist_ok (s : histograms) : Prop := {
  ho_hists : Z.of_nat (length (hists s)) = NH ∧ Forall (λ row, Z.of_nat (length row) = NNN) (hists s);
  ho_flat : Z.of_nat (length (hoflo s)) = NH ∧ Z.of_nat (length (htotal s)) = NH;
  ho_total h row o t : hists s !! h = Some row → hoflo s !! h = Some o → htotal s !! h = Some t → t = sum row + o }.

Lemma sum_insert l i v x : l !! i = Some x → sum (<[i := v]> l) = sum l + v - x.
Proof.
  unfold sum. revert i. induction l as [|y l IH]; intros [|i] Hi; [done|done| |].
  - injection Hi as ->. cbn. lia.
  - change (<[S i := v]> (y :: l)) with (y :: <[i := v]> l). cbn [foldr]. rewrite (IH i Hi). lia.
Qed.

Lemma increment_ok l i :
  0 <= i < Z.of_nat (length l) → ∃ v, l !! Z.to_nat i = Some v ∧ increment l i = Ok (<[Z.to_nat i := v + 1]> l).
Proof.
  intros Hi. unfold increment. destruct (aget_in l i Hi) as [v Hv]. rewrite Hv. cbn [mbind result_bind].
  exists v. apply aget_Ok in Hv as [_ Hv]. split; [done|]. by apply aset_Ok.
Qed.

Lemma henters_ok n hist s :
  hist_ok s → 0 <= hist < NH → ∃ s', henters n hist s = Ok s' ∧ hist_ok s'.
Proof.
  intros [[Hlen Hrows] [Ho Ht] Htot] Hh. unfold henters.
  destruct (increment_ok (htotal s) hist) as (t & Etl & Et); [lia|].
  destruct (increment_ok (hoflo s) hist) as (o & Eol & Eo); [lia|].
  destruct (aget_in (hists s) hist) as [row Hrow]; [lia|]. pose proof Hrow as Hrl. apply aget_Ok in Hrl as [_ Hrl].
  pose proof (Htot _ _ _ _ Hrl Eol Etl) as Hsum. pose proof (proj1 (Forall_lookup _ _) Hrows _ _ Hrl) as Hrlen. cbn in Hrlen.
  destruct ((0 <=? n) && (n <? NNN)) eqn:Hn.
  - b2p. destruct (increment_ok row n) as (v & Ev & Er); [lia|].
    rewrite Hrow. cbn [mbind result_bind]. rewrite Er. cbn [mbind result_bind]. rewrite aset_Ok by lia.
    cbn [mbind result_bind htotal]. rewrite Et. cbn [mbind result_bind]. eexists. split; [done|].
    split; cbn [hists hoflo htotal]; rewrite ?length_insert; try done.
    + split; [done|]. apply Forall_insert; [done|]. by rewrite length_insert.
    + intros h row' o' t' H1 H2 H3. destruct (decide (h = Z.to_nat hist)) as [->|Hne].
      * rewrite list_lookup_insert_eq in H1 by lia. rewrite list_lookup_insert_eq in H3 by lia. simplify_eq.
        rewrite (sum_insert _ _ _ _ Ev). lia.
      * rewrite list_lookup_insert_ne in H1 by done. rewrite list_lookup_insert_ne in H3 by done. by apply (Htot h).
  - rewrite Eo. cbn [mbind result_bind htotal]. rewrite Et. cbn [mbind result_bind]. eexists. split; [done|].
    split; cbn [hists hoflo htotal]; rewrite ?length_insert; try done.
    intros h row' o' t' H1 H2 H3. destruct (decide (h = Z.to_nat hist)) as [->|Hne].
    + rewrite list_lookup_insert_eq in H2 by lia. rewrite list_lookup_insert_eq in H3 by lia. simplify_eq. lia.
    + rewrite list_lookup_insert_ne in H2 by done. rewrite list_lookup_insert_ne in H3 by done. by apply (Htot h).
Qed.

(** [hprint] goes one too far: it reads [htotal[NH]]. *)
Lemma hprint_overruns s : hist_ok s → hprint s = Undefined.
Proof.
  intros [[Hlen _] [_ Ht] _]. unfold hprint.
  assert (∀ k h, 0 <= h → h + Z.of_nat k = NH + 1 → k ≠ 0%nat → hprint_loop k h s = Undefined) as Hl.
  { induction k as [|k IH]; intros h Hh Hk Hnz; [done|]. cbn [hprint_loop].
    destruct (decide (h = NH)) as [->|Hne].
    - unfold aget. assert (htotal s !! Z.to_nat NH = None) as -> by (apply lookup_ge_None; unfold NH in *; lia). by case_match.
    - destruct (aget_in (htotal s) h) as [t ->]; [lia|]. destruct (aget_in (hists s) h) as [row ->]; [lia|].
      cbn [mbind result_bind]. destruct (t >? 0); cbn [mbind result_bind]; rewrite IH by lia; done. }
  apply Hl; unfold NH; lia.
Qed.
