(* ===== verification/Switch.v ===== *)
(** * threads/switch.c and switch.h: the context switch

    [SWITCH] and [ThreadRoot] for the hosts DEC MIPS, HP PA-RISC and Intel 386,
    instruction by instruction, over the registers and the memory of the host, and
    what [Thread::StackAllocate] puts in a new thread for them.  The scheduler's
    view of a switch, a change of the current thread, is in Sched.v; here is what
    makes it true: every thread goes on with the registers and at the address it
    had when it was switched away from.  Addresses are those of words: the model
    has no access that is not aligned, and 2^32 bytes of memory. *)

From S2P Require Import Prelude Params.
Local Open Scope Z_scope.

(** ** The host *)

(** Registers by their number *)
Definition reg := nat.
Bind Scope nat_scope with reg.

Record cpu := mkCpu { regs : reg → Z; mem : Z → Z; pc : Z }.

Definition set_reg (r : reg) (v : Z) (s : cpu) : cpu :=
  mkCpu (λ x, if Nat.eqb x r then v else regs s x) (mem s) (pc s).
Definition set_pc (v : Z) (s : cpu) : cpu := mkCpu (regs s) (mem s) v.

Definition aligned (a : Z) : bool := a mod 4 =? 0.

Definition upd (m : Z → Z) (a v : Z) : Z → Z := λ x, if x =? a then v else m x.

Definition load (a : Z) (s : cpu) : result Z :=
  if aligned a then Ok (mem s a) else Undefined.
Definition store (a v : Z) (s : cpu) : result cpu :=
  if aligned a then Ok (mkCpu (regs s) (upd (mem s) a v) (pc s)) else Undefined.

(** [off(base)] *)
Definition ea (off : Z) (base : reg) (s : cpu) : Z := u32 (regs s base + off).

(** The instructions that switch.c uses.  [Sv] and [Lv] are moves to and from the
    variable [_eax_save] of the 386, at the address [eax_save]; [Push], [Pop],
    [Ret] and [CallStack] work on the stack that the register [sp] points to;
    [CallLink] puts the return address in the register [link] and executes the
    instruction in its delay slot. *)
Inductive asm :=
| Sw (r : reg) (off : Z) (base : reg)
| Lw (r : reg) (off : Z) (base : reg)
| Sv (r : reg)
| Lv (r : reg)
| Mov (d r : reg)
| Or (d r r' : reg)
| Push (sp r : reg)
| Pop (sp r : reg)
| Jump (r : reg)
| Ret (sp : reg)
| CallLink (r link : reg) (delay : option (reg * reg))
| CallStack (sp r : reg).

Section Exec.
Variables (eax_save : Z) (label : nat → Z).

(** One instruction; calls are below. *)
Definition step (i : asm) (s : cpu) : result cpu :=
  match i with
  | Sw r off base => store (ea off base s) (regs s r) s
  | Lw r off base => v ← load (ea off base s) s; Ok (set_reg r v s)
  | Sv r => store eax_save (regs s r) s
  | Lv r => v ← load eax_save s; Ok (set_reg r v s)
  | Mov d r => Ok (set_reg d (regs s r) s)
  | Or d r r' => Ok (set_reg d (Z.lor (regs s r) (regs s r')) s)
  | Push sp r =>
      let v := regs s r in
      let a := u32 (regs s sp - 4) in
      s ← store a v s; Ok (set_reg sp a s)
  | Pop sp r =>
      v ← load (regs s sp) s;
      Ok (set_reg r v (set_reg sp (u32 (regs s sp + 4)) s))
  | Jump r => Ok (set_pc (regs s r) s)
  | Ret sp =>
      v ← load (regs s sp) s;
      Ok (set_pc v (set_reg sp (u32 (regs s sp + 4)) s))
  | CallLink _ _ _ | CallStack _ _ => Undefined
  end.

Fixpoint exec (p : list asm) (s : cpu) : result cpu :=
  match p with
  | [] => Ok s
  | i :: p => s ← step i s; exec p s
  end.

(** ** Code with calls *)

(** [run] executes the routine at an address from its entry to its return.  The
    calls are logged with the state at the entry.  [label n] is the return address
    with [n] instructions to go. *)
Variable run : Z → cpu → result cpu.

Definition enter (i : asm) (ret : Z) (s : cpu) : result (Z * cpu) :=
  match i with
  | CallLink r link delay =>
      let target := regs s r in
      let s := set_reg link ret s in
      let s := match delay with Some (d, r') => set_reg d (regs s r') s | None => s end in
      Ok (target, set_pc target s)
  | CallStack sp r =>
      let target := regs s r in
      let a := u32 (regs s sp - 4) in
      s ← store a ret s;
      Ok (target, set_pc target (set_reg sp a s))
  | _ => Undefined
  end.

Definition is_call (i : asm) : bool :=
  match i with CallLink _ _ _ | CallStack _ _ => true | _ => false end.

Fixpoint exec_calls (p : list asm) (s : cpu) : list (Z * cpu) * result cpu :=
  match p with
  | [] => ([], Ok s)
  | i :: p =>
      if is_call i then
        match enter i (label (length p)) s with
        | Ok (target, s) =>
            match run target s with
            | Ok s' => let (log, r) := exec_calls p s' in ((target, s) :: log, r)
            | r => ([(target, s)], r)
            end
        | AssertFail => ([], AssertFail) | Undefined => ([], Undefined)
        | Exited c => ([], Exited c) | NoFuel => ([], NoFuel)
        end
      else
        match step i s with
        | Ok s => exec_calls p s
        | r => ([], r)
        end
  end.
End Exec.

(** ** DEC MIPS *)

Module Mips.
Definition z : reg := 0.
Definition a0 : reg := 4.
Definition a1 : reg := 5.
Definition s0 : reg := 16.
Definition s1 : reg := 17.
Definition s2 : reg := 18.
Definition s3 : reg := 19.
Definition s4 : reg := 20.
Definition s5 : reg := 21.
Definition s6 : reg := 22.
Definition s7 : reg := 23.
Definition sp : reg := 29.
Definition fp : reg := 30.
Definition ra : reg := 31.

(** switch.h *)
Definition SP := 0.
Definition S0 := 4.
Definition S1 := 8.
Definition S2 := 12.
Definition S3 := 16.
Definition S4 := 20.
Definition S5 := 24.
Definition S6 := 28.
Definition S7 := 32.
Definition FP := 36.
Definition PC := 40.

Definition InitialPC := s0.
Definition InitialArg := s1.
Definition WhenDonePC := s2.
Definition StartupPC := s3.

Definition ThreadRoot : list asm :=
  [ Or fp z z;
    CallLink StartupPC ra None;
    Mov a0 InitialArg;
    CallLink InitialPC ra None;
    CallLink WhenDonePC ra None ].

Definition SWITCH : list asm :=
  [ Sw sp SP a0; Sw s0 S0 a0; Sw s1 S1 a0; Sw s2 S2 a0; Sw s3 S3 a0; Sw s4 S4 a0;
    Sw s5 S5 a0; Sw s6 S6 a0; Sw s7 S7 a0; Sw fp FP a0; Sw ra PC a0;
    Lw sp SP a1; Lw s0 S0 a1; Lw s1 S1 a1; Lw s2 S2 a1; Lw s3 S3 a1; Lw s4 S4 a1;
    Lw s5 S5 a1; Lw s6 S6 a1; Lw s7 S7 a1; Lw fp FP a1; Lw ra PC a1;
    Jump ra ].

(** The registers kept, in the order of their places in the thread *)
Definition kept : list reg := [sp; s0; s1; s2; s3; s4; s5; s6; s7; fp; ra].
End Mips.

(** ** HP PA-RISC *)

Module Snake.
Definition rp : reg := 2.
Definition arg0 : reg := 26.
Definition arg1 : reg := 25.
Definition sp : reg := 30.
Definition r31 : reg := 31.

Definition SP := 0.
Definition S0 := 4.
Definition S1 := 8.
Definition S2 := 12.
Definition S3 := 16.
Definition S4 := 20.
Definition S5 := 24.
Definition S6 := 28.
Definition S7 := 32.
Definition S8 := 36.
Definition S9 := 40.
Definition S10 := 44.
Definition S11 := 48.
Definition S12 := 52.
Definition S13 := 56.
Definition S14 := 60.
Definition S15 := 64.
Definition PC := 68.

Definition InitialPC : reg := 3.
Definition InitialArg : reg := 4.
Definition WhenDonePC : reg := 5.
Definition StartupPC : reg := 6.

Definition ThreadRoot : list asm :=
  [ CallLink StartupPC r31 (Some (rp, r31));
    Mov arg0 InitialArg;
    CallLink InitialPC r31 (Some (rp, r31));
    CallLink WhenDonePC r31 (Some (rp, r31)) ].

Definition SWITCH : list asm :=
  [ Sw sp SP arg0; Sw 3 S0 arg0; Sw 4 S1 arg0; Sw 5 S2 arg0; Sw 6 S3 arg0; Sw 7 S4 arg0;
    Sw 8 S5 arg0; Sw 9 S6 arg0; Sw 10 S7 arg0; Sw 11 S8 arg0; Sw 12 S9 arg0; Sw 13 S10 arg0;
    Sw 14 S11 arg0; Sw 15 S12 arg0; Sw 16 S13 arg0; Sw 17 S14 arg0; Sw 18 S15 arg0; Sw rp PC arg0;
    Lw sp SP arg1; Lw 3 S0 arg1; Lw 4 S1 arg1; Lw 5 S2 arg1; Lw 6 S3 arg1; Lw 7 S4 arg1;
    Lw 8 S5 arg1; Lw 9 S6 arg1; Lw 10 S7 arg1; Lw 11 S8 arg1; Lw 12 S9 arg1; Lw 13 S10 arg1;
    Lw 14 S11 arg1; Lw 15 S12 arg1; Lw 16 S13 arg1; Lw 17 S14 arg1; Lw rp PC arg1;
    Jump rp; Lw 18 S15 arg1 ].

Definition kept : list reg := [sp; 3; 4; 5; 6; 7; 8; 9; 10; 11; 12; 13; 14; 15; 16; 17; 18; rp]%nat.
End Snake.

(** ** Intel 386 *)

Module I386.
Definition eax : reg := 0.
Definition ecx : reg := 1.
Definition edx : reg := 2.
Definition ebx : reg := 3.
Definition esp : reg := 4.
Definition ebp : reg := 5.
Definition esi : reg := 6.
Definition edi : reg := 7.

Definition _ESP := 0.
Definition _EAX := 4.
Definition _EBX := 8.
Definition _ECX := 12.
Definition _EDX := 16.
Definition _EBP := 20.
Definition _ESI := 24.
Definition _EDI := 28.
Definition _PC := 32.

Definition InitialPC := esi.
Definition InitialArg := edx.
Definition WhenDonePC := edi.
Definition StartupPC := ecx.

Definition ThreadRoot : list asm :=
  [ Push esp ebp;
    Mov ebp esp;
    Push esp InitialArg;
    CallStack esp StartupPC;
    CallStack esp InitialPC;
    CallStack esp WhenDonePC;
    Mov esp ebp;
    Pop esp ebp;
    Ret esp ].

Definition SWITCH : list asm :=
  [ Sv eax;
    Lw eax 4 esp;
    Sw ebx _EBX eax;
    Sw ecx _ECX eax;
    Sw edx _EDX eax;
    Sw esi _ESI eax;
    Sw edi _EDI eax;
    Sw ebp _EBP eax;
    Sw esp _ESP eax;
    Lv ebx;
    Sw ebx _EAX eax;
    Lw ebx 0 esp;
    Sw ebx _PC eax;
    Lw eax 8 esp;
    Lw ebx _EAX eax;
    Sv ebx;
    Lw ebx _EBX eax;
    Lw ecx _ECX eax;
    Lw edx _EDX eax;
    Lw esi _ESI eax;
    Lw edi _EDI eax;
    Lw ebp _EBP eax;
    Lw esp _ESP eax;
    Lw eax _PC eax;
    Sw eax 4 esp;
    Lv eax;
    Ret esp ].

(** The registers kept besides [esp], and their places *)
Definition kept : list (reg * Z) :=
  [(eax, _EAX); (ebx, _EBX); (ecx, _ECX); (edx, _EDX); (ebp, _EBP); (esi, _ESI); (edi, _EDI)].
End I386.

(** ** Thread::StackAllocate *)

Inductive host := HOST_MIPS | HOST_SNAKE | HOST_i386.

Definition StackSize : Z := 4 * 1024.

(** Offsets of [machineState[...]] in the thread object: the places of [PCState]
    and so on, behind [stackTop] *)
Definition machineState (offset : Z) : Z := 4 + 4 * (offset / 4 - 1).

Record places := mkPlaces { PCState : Z; StartupPCState : Z; InitialPCState : Z; InitialArgState : Z; WhenDonePCState : Z }.
Definition places_of (h : host) : places :=
  match h with
  | HOST_MIPS => mkPlaces Mips.PC Mips.S3 Mips.S0 Mips.S1 Mips.S2
  | HOST_SNAKE => mkPlaces Snake.PC Snake.S3 Snake.S0 Snake.S1 Snake.S2
  | HOST_i386 => mkPlaces I386._PC I386._ECX I386._ESI I386._EDX I386._EDI
  end.

(** The thread object is at [t], the stack that [AllocBoundedArray] returns at
    [stack], and the routines at the given addresses. *)
Definition StackAllocate (h : host) (ThreadRoot InterruptEnable ThreadFinish : Z)
    (t stack func arg : Z) (s : cpu) : result cpu :=
  s ← match h with
      | HOST_SNAKE =>
          s ← store t (stack + 4 * 16) s;
          store (stack + 4 * (StackSize - 1)) STACK_FENCEPOST s
      | HOST_MIPS =>
          s ← store t (stack + 4 * (StackSize - 4)) s;
          store stack STACK_FENCEPOST s
      | HOST_i386 =>
          let stackTop := stack + 4 * (StackSize - 4 - 1) in
          s ← store t stackTop s;
          s ← store stackTop ThreadRoot s;
          store stack STACK_FENCEPOST s
      end;
  let p := places_of h in
  s ← store (t + machineState (PCState p)) ThreadRoot s;
  s ← store (t + machineState (StartupPCState p)) InterruptEnable s;
  s ← store (t + machineState (InitialPCState p)) func s;
  s ← store (t + machineState (InitialArgState p)) arg s;
  store (t + machineState (WhenDonePCState p)) ThreadFinish s.

(** Thread::CheckOverflow, for a thread with a stack *)
Definition CheckOverflow (h : host) (stack : Z) (s : cpu) : result unit :=
  v ← load (match h with HOST_SNAKE => stack + 4 * (StackSize - 1) | _ => stack end) s;
  ASSERT (v =? STACK_FENCEPOST).

(** ** What the scheduler relies on *)

(** A context is what a thread goes on with: the registers that its C code counts
    on after a call, its stack pointer, and the address it goes on at.
    [caller s]: the context to which the call of [SWITCH] that has just begun in [s]
    is to return.  [saved t m]: the context of the thread [t] that is not running,
    in memory.  [now s]: the context of the running thread.  [holds t m a]: the
    thread [t] that is not running needs the word at [a].  [suspended ts t m]: in
    memory [m] the threads [ts] apart from the running [t] are in order.
    [entered ts t t' s]: [SWITCH(t, t')] has just been called in [s]. *)
Class SwitchABI := {
  abi_SWITCH : list asm;
  abi_eax_save : Z;
  saved : Z → (Z → Z) → list Z;
  caller : cpu → list Z;
  now : cpu → list Z;
  holds : Z → (Z → Z) → Z → Prop;
  suspended : list Z → Z → (Z → Z) → Prop;
  entered : list Z → Z → Z → cpu → Prop;
  running_alone ts t m m' :
    t ∈ ts → suspended ts t m → (∀ x a, x ∈ ts → x ≠ t → holds x m a → m' a = m a) →
    suspended ts t m' ∧ ∀ x, x ∈ ts → x ≠ t → saved x m' = saved x m;
  SWITCH_switches ts t t' s :
    t ∈ ts → t' ∈ ts → t ≠ t' → suspended ts t (mem s) → entered ts t t' s →
    ∃ s', exec abi_eax_save abi_SWITCH s = Ok s' ∧ now s' = saved t' (mem s) ∧ saved t (mem s') = caller s ∧
      (∀ x, x ∈ ts → x ≠ t → x ≠ t' → saved x (mem s') = saved x (mem s)) ∧ suspended ts t' (mem s') }.

(** The threads [ts] take turns on the host: the running one does anything but
    write to the words that the others hold, or calls [SWITCH].  [K] is the context
    that each thread last gave up or, for one that has not run yet, was given. *)
Inductive turns `{SwitchABI} (ts : list Z) : Z → cpu → (Z → list Z) → Prop :=
| turns_start t s : t ∈ ts → suspended ts t (mem s) → turns ts t s (λ x, saved x (mem s))
| turns_run t s K s' :
    turns ts t s K → (∀ x a, x ∈ ts → x ≠ t → holds x (mem s) a → mem s' a = mem s a) → turns ts t s' K
| turns_switch t t' s K s' :
    turns ts t s K → t' ∈ ts → t ≠ t' → entered ts t t' s → exec abi_eax_save abi_SWITCH s = Ok s' →
    turns ts t' s' (λ x, if decide (x = t) then caller s else K x).

Lemma turns_inv `{SwitchABI} ts t s K :
  turns ts t s K → t ∈ ts ∧ suspended ts t (mem s) ∧ ∀ x, x ∈ ts → x ≠ t → saved x (mem s) = K x.
Proof.
  induction 1 as [t s Ht Hs|t s K s' _ (Ht & Hs & HK) Hrun|t t' s K s' _ (Ht & Hs & HK) Ht' Hne He Hx]; [done| |].
  - destruct (running_alone ts t (mem s) (mem s')) as [Hs' Hsv]; [done|done|done|].
    split; [done|]. split; [done|]. intros x Hx Hxt. rewrite Hsv by done. by apply HK.
  - destruct (SWITCH_switches ts t t' s) as (s1 & Hx1 & _ & Hsv & Hoth & Hs'); [done..|].
    rewrite Hx in Hx1. injection Hx1 as <-. split; [done|]. split; [done|]. intros x Hxin Hxt'.
    case_decide as Hxt; [by subst|]. rewrite Hoth by done. by apply HK.
Qed.

Lemma turns_resume `{SwitchABI} ts t t' s K :
  turns ts t s K → t' ∈ ts → t ≠ t' → entered ts t t' s →
  ∃ s', exec abi_eax_save abi_SWITCH s = Ok s' ∧ now s' = K t'.
Proof.
  intros Hr Ht' Hne He. destruct (turns_inv _ _ _ _ Hr) as (Ht & Hs & HK).
  destruct (SWITCH_switches ts t t' s) as (s' & Hx & Hn & _); [done..|]. exists s'. split; [done|].
  rewrite Hn. by apply HK.
Qed.

(** ** Registers and words *)

Lemma upd_eq m a v : upd m a v a = v.
Proof. unfold upd. by rewrite Z.eqb_refl. Qed.
Lemma upd_ne m a v x : x ≠ a → upd m a v x = m x.
Proof. unfold upd. intros Hx. by rewrite (proj2 (Z.eqb_neq _ _) Hx). Qed.

Lemma aligned_off a k : aligned a = true → k mod 4 = 0 → aligned (a + k) = true.
Proof. unfold aligned. rewrite !Z.eqb_eq. intros. rewrite Zplus_mod, H, H0. done. Qed.

Lemma aligned_4 a k : aligned a = true → aligned (a + 4 * k) = true.
Proof. intros. apply aligned_off; [done|]. rewrite Z.mul_comm. apply Z.mod_mul. lia. Qed.

Lemma exec_app es p q s : exec es (p ++ q) s = s' ← exec es p s; exec es q s'.
Proof.
  revert s. induction p as [|i p IH]; intros s; [done|]. cbn [app exec]. destruct (step es i s); try done. apply IH.
Qed.

(** A thread object of [n] words, all words apart from another's *)
Definition object (n t : Z) : Prop := aligned t = true ∧ 0 <= t ∧ t + 4 * n <= 2 ^ 32.
Definition apart (n t t' : Z) : Prop := t + 4 * n <= t' ∨ t' + 4 * n <= t.

Lemma ea_object n t base off s :
  regs s base = t → object n t → 0 <= off < 4 * n → ea off base s = t + off.
Proof. intros Ht (Ha & H0 & H1) Ho. unfold ea. rewrite Ht. apply u32_id. unfold uint32. lia. Qed.

(** ** Hosts that save registers in a row *)

Section Risc.
Variables (es : Z) (old new link : reg).

Definition saves (k : nat) (l : list reg) : list asm := imap (λ i r, Sw r (4 * Z.of_nat (k + i)) old) l.
Definition loads (ps : list (reg * nat)) : list asm := (λ '(r, k), Lw r (4 * Z.of_nat k) new) <$> ps.

Lemma exec_saves n t k l s :
  regs s old = t → object n t → Z.of_nat (k + length l) <= n →
  ∃ m', exec es (saves k l) s = Ok (mkCpu (regs s) m' (pc s)) ∧
    (∀ i r, l !! i = Some r → m' (t + 4 * Z.of_nat (k + i)) = regs s r) ∧
    (∀ a, (∀ i, (i < length l)%nat → a ≠ t + 4 * Z.of_nat (k + i)) → m' a = mem s a).
Proof.
  revert k s. induction l as [|r l IH]; intros k s Ht Ho Hn.
  - exists (mem s). split; [by destruct s|]. done.
  - unfold saves. cbn [imap exec step]. rewrite Nat.add_0_r, (ea_object n t) by (try done; cbn [length] in Hn; lia).
    unfold store at 1. rewrite aligned_4 by apply Ho. cbn [mbind result_bind].
    set (s1 := mkCpu (regs s) _ (pc s)).
    assert (imap ((λ i r, Sw r (4 * Z.of_nat (k + i)) old) ∘ S) l = saves (S k) l) as ->.
    { unfold saves. apply imap_ext. intros i r' _. cbn. do 2 f_equal. lia. }
    destruct (IH (S k) s1) as (m' & -> & Hin & Hout); [done|done|cbn [length] in Hn; lia|].
    exists m'. split; [done|]. split.
    + intros [|i] r' Hl.
      * cbn in Hl. injection Hl as <-. rewrite Hout; [|intros; lia]. cbn [s1 mem]. rewrite Nat.add_0_r. apply upd_eq.
      * etrans; [|exact (Hin i r' Hl)]. f_equal. lia.
    + intros a Ha. rewrite Hout.
      * cbn [s1 mem]. apply upd_ne. specialize (Ha 0%nat). rewrite Nat.add_0_r in Ha. apply Ha. cbn. lia.
      * intros i Hi. specialize (Ha (S i)). replace (S k + i)%nat with (k + S i)%nat by lia. apply Ha. cbn. lia.
Qed.

Lemma exec_loads n t ps s :
  regs s new = t → object n t → Forall (λ p, p.1 ≠ new ∧ Z.of_nat p.2 < n) ps → NoDup ps.*1 →
  ∃ R, exec es (loads ps) s = Ok (mkCpu R (mem s) (pc s)) ∧
    (∀ r k, (r, k) ∈ ps → R r = mem s (t + 4 * Z.of_nat k)) ∧ (∀ r, r ∉ ps.*1 → R r = regs s r).
Proof.
  revert s. induction ps as [|[r k] ps IH]; intros s Ht Ho Hf Hnd.
  - exists (regs s). split; [by destruct s|]. split; [by intros r k ?%not_elem_of_nil|done].
  - apply Forall_cons in Hf as [[Hr Hk] Hf]. cbn [fst snd] in *. rewrite fmap_cons in Hnd.
    apply NoDup_cons in Hnd as [Hni Hnd]. cbn [loads fmap list_fmap exec step].
    rewrite (ea_object n t) by (try done; lia). unfold load. rewrite aligned_4 by apply Ho. cbn [mbind result_bind].
    destruct (IH (set_reg r (mem s (t + 4 * Z.of_nat k)) s)) as (R & Hx & Hin & Hout); [|done|done|done|].
    { cbn. by rewrite (proj2 (Nat.eqb_neq new r)) by congruence. }
    exists R. split; [exact Hx|]. split.
    + intros r' k' [[= -> ->]|Hin']%elem_of_cons; [|by apply Hin].
      rewrite Hout by done. cbn. by rewrite Nat.eqb_refl.
    + intros r' [Hne Hni']%not_elem_of_cons. rewrite Hout by done. cbn. by rewrite (proj2 (Nat.eqb_neq _ _)).
Qed.

(** The registers [kept] are saved in their order, and loaded as [l1], before the
    return address [link] is taken, and [l2]. *)
Variables (body : list reg) (l1 l2 : list (reg * nat)).
Let kept := body ++ [link].
Let n := Z.of_nat (length kept).

Definition row_saved (t : Z) (m : Z → Z) : list Z := (λ i, m (t + 4 * Z.of_nat i)) <$> seq 0 (length kept).
Definition row_caller (s : cpu) : list Z := regs s <$> kept.
Definition row_now (s : cpu) : list Z := (regs s <$> body) ++ [pc s].
Definition row_holds (t : Z) (m : Z → Z) (a : Z) : Prop := ∃ i, (i < length kept)%nat ∧ a = t + 4 * Z.of_nat i.
Definition row_suspended (ts : list Z) (t : Z) (m : Z → Z) : Prop :=
  (∀ x, x ∈ ts → object n x) ∧ (∀ x y, x ∈ ts → y ∈ ts → x ≠ y → apart n x y).
Definition row_entered (ts : list Z) (t t' : Z) (s : cpu) : Prop := regs s old = t ∧ regs s new = t'.

Lemma row_saved_regs t m R :
  (∀ i r, kept !! i = Some r → m (t + 4 * Z.of_nat i) = R r) → row_saved t m = R <$> kept.
Proof.
  intros Hm. unfold row_saved. apply list_eq. intros i. rewrite !list_lookup_fmap.
  destruct (kept !! i) as [r|] eqn:Hr; cbn.
  - rewrite lookup_seq_lt by (by eapply lookup_lt_Some). cbn. by rewrite Hm with (r := r).
  - rewrite lookup_seq_ge by (by apply lookup_ge_None). done.
Qed.

Lemma row_saved_eq t m m' : (∀ a, row_holds t m a → m' a = m a) → row_saved t m' = row_saved t m.
Proof.
  intros Hm. unfold row_saved. apply list_fmap_ext. intros k i [-> Hi]%lookup_seq. apply Hm. by exists k.
Qed.

Lemma row_alone ts t m m' :
  row_suspended ts t m → (∀ x a, x ∈ ts → x ≠ t → row_holds x m a → m' a = m a) →
  row_suspended ts t m' ∧ ∀ x, x ∈ ts → x ≠ t → row_saved x m' = row_saved x m.
Proof. intros Hs Hm. split; [done|]. intros x Hx Hxt. apply row_saved_eq. intros a. by apply Hm. Qed.

Lemma row_switches ts t t' s :
  (∀ i r, kept !! i = Some r → (r, i) ∈ l1 ++ l2) → NoDup (l1 ++ l2).*1 →
  Forall (λ p, p.1 ≠ new ∧ (p.2 < length kept)%nat) (l1 ++ l2) → link ∈ l1.*1 →
  t ∈ ts → t' ∈ ts → t ≠ t' → row_suspended ts t (mem s) → row_entered ts t t' s →
  ∃ s', exec es (saves 0 kept ++ loads l1 ++ [Jump link] ++ loads l2) s = Ok s' ∧ row_now s' = row_saved t' (mem s) ∧
    row_saved t (mem s') = row_caller s ∧
    (∀ x, x ∈ ts → x ≠ t → x ≠ t' → row_saved x (mem s') = row_saved x (mem s)) ∧ row_suspended ts t' (mem s').
Proof.
  intros Hall Hnd Hf Hlink Ht Ht' Hne [Hobj Hapart] [Ho Hn].
  rewrite fmap_app in Hnd. apply NoDup_app in Hnd as (Hnd1 & Hdis & Hnd2). apply Forall_app in Hf as [Hf1 Hf2].
  assert (∀ l, Forall (λ p, p.1 ≠ new ∧ (p.2 < length kept)%nat) l → Forall (λ p, p.1 ≠ new ∧ Z.of_nat p.2 < n) l) as Hlt.
  { intros l Hl. eapply Forall_impl; [exact Hl|]. intros [r k] [? ?]. split; [done|]. unfold n. lia. }
  destruct (exec_saves n t 0 kept s Ho (Hobj _ Ht)) as (m1 & Hx1 & Hin & Hout); [unfold n; lia|].
  rewrite exec_app, Hx1. cbn [mbind result_bind].
  destruct (exec_loads n t' l1 (mkCpu (regs s) m1 (pc s)) Hn (Hobj _ Ht') (Hlt _ Hf1) Hnd1) as (R1 & Hx2 & Hin1 & Hout1).
  rewrite exec_app, Hx2. cbn [mbind result_bind app exec step regs mem pc].
  destruct (exec_loads n t' l2 (set_pc (R1 link) (mkCpu R1 m1 (pc s)))) as (R2 & -> & Hin2 & Hout2);
    [|by apply Hobj|by apply Hlt|done|].
  { cbn. rewrite Hout1; [done|]. intros Hc. apply list_elem_of_fmap in Hc as ([r k] & Hr & Hc).
    rewrite Forall_forall in Hf1. by destruct (Hf1 _ Hc). }
  cbn [regs mem pc set_pc] in *.
  assert (∀ x, x ∈ ts → x ≠ t → row_saved x m1 = row_saved x (mem s)) as Hoth.
  { intros x Hx Hxt. apply row_saved_eq. intros a (i & Hi & ->). apply Hout. intros j Hj.
    destruct (Hapart x t Hx Ht Hxt); unfold n in *; lia. }
  assert (∀ i r, kept !! i = Some r → m1 (t' + 4 * Z.of_nat i) = R2 r) as HR.
  { intros i r Hr. apply Hall, elem_of_app in Hr as [Hr|Hr]; [|by rewrite (Hin2 _ _ Hr)].
    rewrite <- (Hin1 _ _ Hr). symmetry. apply Hout2. apply Hdis. apply list_elem_of_fmap. by exists (r, i). }
  eexists. split; [done|]. split; [|split; [|split; [|done]]].
  - rewrite <- Hoth by done. rewrite (row_saved_regs t' m1 R2 HR). unfold row_now, kept. rewrite fmap_app. cbn [regs pc].
    by rewrite <- (Hout2 link) by (by apply Hdis).
  - cbn [mem]. apply row_saved_regs. intros i r Hr. by apply (Hin i r).
  - intros x Hx Hxt _. by apply Hoth.
Qed.
End Risc.

(** The two hosts.  The places are numbered in the order of [kept]. *)

Definition numbered (l : list reg) : list (reg * nat) := imap (λ i r, (r, i)) l.

Lemma numbered_all l i r : l !! i = Some r → (r, i) ∈ numbered l.
Proof. intros Hl. unfold numbered. apply elem_of_lookup_imap. by exists i, r. Qed.

Definition Mips_body : list reg := take 10 Mips.kept.
Definition Snake_body : list reg := take 17 Snake.kept.

Lemma Mips_switches es ts t t' s :
  t ∈ ts → t' ∈ ts → t ≠ t' → row_suspended Mips.ra Mips_body ts t (mem s) → row_entered Mips.a0 Mips.a1 ts t t' s →
  ∃ s', exec es Mips.SWITCH s = Ok s' ∧ row_now Mips_body s' = row_saved Mips.ra Mips_body t' (mem s) ∧
    row_saved Mips.ra Mips_body t (mem s') = row_caller Mips.ra Mips_body s ∧
    (∀ x, x ∈ ts → x ≠ t → x ≠ t' → row_saved Mips.ra Mips_body x (mem s') = row_saved Mips.ra Mips_body x (mem s)) ∧
    row_suspended Mips.ra Mips_body ts t' (mem s').
Proof.
  change Mips.SWITCH with (saves Mips.a0 0 (Mips_body ++ [Mips.ra]) ++
    loads Mips.a1 (numbered Mips.kept) ++ [Jump Mips.ra] ++ loads Mips.a1 []).
  apply row_switches.
  - intros i r. rewrite app_nil_r. apply numbered_all.
  - apply (bool_decide_unpack _). by vm_compute.
  - apply (bool_decide_unpack _). by vm_compute.
  - apply (bool_decide_unpack _). by vm_compute.
Qed.

Lemma Snake_switches es ts t t' s :
  t ∈ ts → t' ∈ ts → t ≠ t' → row_suspended Snake.rp Snake_body ts t (mem s) →
  row_entered Snake.arg0 Snake.arg1 ts t t' s →
  ∃ s', exec es Snake.SWITCH s = Ok s' ∧ row_now Snake_body s' = row_saved Snake.rp Snake_body t' (mem s) ∧
    row_saved Snake.rp Snake_body t (mem s') = row_caller Snake.rp Snake_body s ∧
    (∀ x, x ∈ ts → x ≠ t → x ≠ t' → row_saved Snake.rp Snake_body x (mem s') = row_saved Snake.rp Snake_body x (mem s)) ∧
    row_suspended Snake.rp Snake_body ts t' (mem s').
Proof.
  change Snake.SWITCH with (saves Snake.arg0 0 (Snake_body ++ [Snake.rp]) ++
    loads Snake.arg1 (take 16 (numbered Snake.kept) ++ [(Snake.rp, 17%nat)]) ++ [Jump Snake.rp] ++
    loads Snake.arg1 [(18%nat, 16%nat)]).
  apply row_switches.
  - intros i r Hr. apply (numbered_all (Snake_body ++ [Snake.rp])) in Hr.
    revert Hr. generalize (r, i). apply Forall_forall. apply (bool_decide_unpack _). by vm_compute.
  - apply (bool_decide_unpack _). by vm_compute.
  - apply (bool_decide_unpack _). by vm_compute.
  - apply (bool_decide_unpack _). by vm_compute.
Qed.

Definition Mips_abi (eax_save : Z) : SwitchABI := {|
  abi_SWITCH := Mips.SWITCH; abi_eax_save := eax_save;
  saved := row_saved Mips.ra Mips_body; caller := row_caller Mips.ra Mips_body; now := row_now Mips_body;
  holds := row_holds Mips.ra Mips_body; suspended := row_suspended Mips.ra Mips_body;
  entered := row_entered Mips.a0 Mips.a1;
  running_alone ts t m m' _ := row_alone Mips.ra Mips_body ts t m m';
  SWITCH_switches := Mips_switches eax_save |}.

Definition Snake_abi (eax_save : Z) : SwitchABI := {|
  abi_SWITCH := Snake.SWITCH; abi_eax_save := eax_save;
  saved := row_saved Snake.rp Snake_body; caller := row_caller Snake.rp Snake_body; now := row_now Snake_body;
  holds := row_holds Snake.rp Snake_body; suspended := row_suspended Snake.rp Snake_body;
  entered := row_entered Snake.arg0 Snake.arg1;
  running_alone ts t m m' _ := row_alone Snake.rp Snake_body ts t m m';
  SWITCH_switches := Snake_switches eax_save |}.

(** ** The 386 *)

Section Intel.
Import I386.
Variable eax_save : Z.

Definition i386_saved (t : Z) (m : Z → Z) : list Z :=
  ((λ p, m (t + p.2)) <$> kept) ++ [u32 (m t + 4); m (m t)].
Definition i386_caller (s : cpu) : list Z :=
  (regs s <$> kept.*1) ++ [u32 (regs s esp + 4); mem s (regs s esp)].
Definition i386_now (s : cpu) : list Z := (regs s <$> kept.*1) ++ [regs s esp; pc s].

(** A thread that is not running needs its object and the return address on its
    stack; the word above that, an argument of [SWITCH], is overwritten when it is
    switched to. *)
Definition i386_holds (t : Z) (m : Z → Z) (a : Z) : Prop := t <= a < t + 36 ∨ a = m t.

(** [k] words of stack that are neither in an object nor [_eax_save] *)
Definition stack_words (ts : list Z) (k e : Z) : Prop :=
  object k e ∧ (∀ y, y ∈ ts → e + 4 * k <= y ∨ y + 36 <= e) ∧ (eax_save < e ∨ e + 4 * k <= eax_save).

Record i386_suspended (ts : list Z) (t : Z) (m : Z → Z) : Prop := {
  su_save : aligned eax_save = true ∧ uint32 eax_save;
  su_object x : x ∈ ts → object 9 x ∧ (eax_save < x ∨ x + 36 <= eax_save);
  su_apart x y : x ∈ ts → y ∈ ts → x ≠ y → apart 9 x y;
  su_stack x : x ∈ ts → x ≠ t → stack_words ts 2 (m x);
  su_stacks x y : x ∈ ts → y ∈ ts → x ≠ t → y ≠ t → x ≠ y → apart 2 (m x) (m y) }.

Record i386_entered (ts : list Z) (t t' : Z) (s : cpu) : Prop := {
  en_stack : stack_words ts 3 (regs s esp);
  en_t : mem s (regs s esp + 4) = t;
  en_t' : mem s (regs s esp + 8) = t';
  en_apart x : x ∈ ts → x ≠ t → apart 2 (regs s esp) (mem s x) }.

Lemma i386_saved_eq t m m' : (∀ a, i386_holds t m a → m' a = m a) → i386_saved t m' = i386_saved t m.
Proof.
  intros Hm. unfold i386_holds in Hm. unfold i386_saved. cbn [kept fmap list_fmap snd].
  rewrite (Hm t) by lia. rewrite (Hm (m t)) by auto.
  by rewrite (Hm (t + _EAX)), (Hm (t + _EBX)), (Hm (t + _ECX)), (Hm (t + _EDX)), (Hm (t + _EBP)), (Hm (t + _ESI)),
    (Hm (t + _EDI)) by (left; unfold _EAX, _EBX, _ECX, _EDX, _EBP, _ESI, _EDI; lia).
Qed.

Lemma i386_alone ts t m m' :
  t ∈ ts → i386_suspended ts t m → (∀ x a, x ∈ ts → x ≠ t → i386_holds x m a → m' a = m a) →
  i386_suspended ts t m' ∧ ∀ x, x ∈ ts → x ≠ t → i386_saved x m' = i386_saved x m.
Proof.
  intros Ht Hs Hm. assert (∀ x, x ∈ ts → x ≠ t → m' x = m x) as Htop.
  { intros x Hx Hxt. apply (Hm x); [done|done|]. left. lia. }
  split.
  - destruct Hs as [H1 H2 H3 H4 H5]. split; try done.
    + intros x Hx Hxt. rewrite Htop by done. by apply H4.
    + intros x y Hx Hy Hxt Hyt Hxy. rewrite !Htop by done. by apply H5.
  - intros x Hx Hxt. apply i386_saved_eq. intros a. by apply Hm.
Qed.

(** One instruction, with the address and the value it moves *)
Lemma exec_Sw r off b p s a v :
  regs s b + off = a → uint32 a → aligned a = true → regs s r = v →
  exec eax_save (Sw r off b :: p) s = exec eax_save p (mkCpu (regs s) (upd (mem s) a v) (pc s)).
Proof. intros Ha Hu Hal Hv. cbn [exec step]. unfold ea, store. by rewrite Ha, u32_id, Hal, Hv. Qed.

Lemma exec_Lw r off b p s a v :
  regs s b + off = a → uint32 a → aligned a = true → mem s a = v →
  exec eax_save (Lw r off b :: p) s = exec eax_save p (set_reg r v s).
Proof. intros Ha Hu Hal Hv. cbn [exec step]. unfold ea, load. by rewrite Ha, u32_id, Hal, Hv. Qed.

Lemma exec_Sv r p s v :
  aligned eax_save = true → regs s r = v →
  exec eax_save (Sv r :: p) s = exec eax_save p (mkCpu (regs s) (upd (mem s) eax_save v) (pc s)).
Proof. intros Hal Hv. cbn [exec step]. unfold store. by rewrite Hal, Hv. Qed.

Lemma exec_Lv r p s v :
  aligned eax_save = true → mem s eax_save = v → exec eax_save (Lv r :: p) s = exec eax_save p (set_reg r v s).
Proof. intros Hal Hv. cbn [exec step]. unfold load. by rewrite Hal, Hv. Qed.

(** Addresses in an object and on a stack *)
Lemma object_word n t off : object n t → 0 <= off < 4 * n → off mod 4 = 0 → uint32 (t + off) ∧ aligned (t + off) = true.
Proof. intros (Ha & H0 & H1) Ho Hm. split; [unfold uint32; lia|by apply aligned_off]. Qed.

(** The memory after the registers of [t] are saved *)
Definition saved_memory (t : Z) (s : cpu) : Z → Z :=
  upd (upd (upd (upd (upd (upd (upd (upd (upd (upd (mem s) eax_save (regs s eax)) (t + _EBX) (regs s ebx))
    (t + _ECX) (regs s ecx)) (t + _EDX) (regs s edx)) (t + _ESI) (regs s esi)) (t + _EDI) (regs s edi))
    (t + _EBP) (regs s ebp)) (t + _ESP) (regs s esp)) (t + _EAX) (regs s eax)) (t + _PC) (mem s (regs s esp)).

Ltac offsets := unfold _ESP, _EAX, _EBX, _ECX, _EDX, _EBP, _ESI, _EDI, _PC in *.
Ltac word := match goal with
  | H : object ?n ?t |- uint32 (?t + ?off) => apply (object_word n t off H); offsets; [lia|done]
  | H : object ?n ?t |- aligned (?t + ?off) = true => apply (object_word n t off H); offsets; [lia|done]
  end.
Ltac reads := cbn [mem set_reg]; offsets; rewrite ?upd_ne by lia; rewrite ?Z.add_0_r; try reflexivity; try apply upd_eq; try done.
Ltac sw a v := rewrite (exec_Sw _ _ _ _ _ a v); [|reflexivity|word|word|reflexivity].
Ltac lw a v := rewrite (exec_Lw _ _ _ _ _ a v); [|reflexivity|word|word|reads].

Lemma save_phase ts t t' s :
  t ∈ ts → i386_suspended ts t (mem s) → i386_entered ts t t' s →
  ∃ R, exec eax_save SWITCH s = exec eax_save (drop 13 SWITCH) (mkCpu R (saved_memory t s) (pc s)) ∧ R esp = regs s esp.
Proof.
  intros Ht [[Hsa Hsu] Hobj _ _ _] [(Hst & Hout & Hse) Et _ _]. destruct (Hobj t Ht) as [Ho Hos].
  pose proof (Hout t Ht) as Hot. unfold SWITCH.
  rewrite (exec_Sv _ _ _ (regs s eax)) by done.
  lw (regs s esp + 4) t.
  sw (t + _EBX) (regs s ebx). sw (t + _ECX) (regs s ecx). sw (t + _EDX) (regs s edx). sw (t + _ESI) (regs s esi).
  sw (t + _EDI) (regs s edi). sw (t + _EBP) (regs s ebp). sw (t + _ESP) (regs s esp).
  rewrite (exec_Lv _ _ _ (regs s eax)); [|done|reads].
  sw (t + _EAX) (regs s eax).
  lw (regs s esp + 0) (mem s (regs s esp)).
  sw (t + _PC) (mem s (regs s esp)).
  eexists. split; reflexivity.
Qed.

(** The memory after the registers of [t'] are loaded *)
Definition loaded_memory (t t' : Z) (s : cpu) : Z → Z :=
  upd (upd (saved_memory t s) eax_save (mem s (t' + _EAX))) (mem s t' + 4) (mem s (t' + _PC)).

Lemma load_phase ts t t' s R :
  t ∈ ts → t' ∈ ts → t ≠ t' → i386_suspended ts t (mem s) → i386_entered ts t t' s → R esp = regs s esp →
  ∃ s', exec eax_save (drop 13 SWITCH) (mkCpu R (saved_memory t s) (pc s)) = Ok s' ∧
    i386_now s' = i386_saved t' (mem s) ∧ mem s' = loaded_memory t t' s.
Proof.
  intros Ht Ht' Hne [[Hsa Hsu] Hobj Hap Hstk _] [(Hst & Hout & Hse) _ Et' _] HR.
  destruct (Hobj t Ht) as [Ho Hos]. destruct (Hobj t' Ht') as [Ho' Hos']. pose proof (Hout t Ht) as Hot.
  pose proof (Hap t t' Ht Ht' Hne) as Hapt. unfold apart in Hapt.
  destruct (Hstk t' Ht' ltac:(congruence)) as (Hst2 & Hout2 & Hse2).
  pose proof (Hout2 t Ht) as Hot2. pose proof (Hout2 t' Ht') as Hot2'. set (e2 := mem s t') in *.
  unfold SWITCH, saved_memory. cbn [drop].
  rewrite (exec_Lw _ _ _ _ _ (regs s esp + 8) t'); [|cbn; by rewrite HR|word|word|reads].
  lw (t' + _EAX) (mem s (t' + _EAX)).
  rewrite (exec_Sv _ _ _ (mem s (t' + _EAX))) by done.
  lw (t' + _EBX) (mem s (t' + _EBX)). lw (t' + _ECX) (mem s (t' + _ECX)). lw (t' + _EDX) (mem s (t' + _EDX)).
  lw (t' + _ESI) (mem s (t' + _ESI)). lw (t' + _EDI) (mem s (t' + _EDI)). lw (t' + _EBP) (mem s (t' + _EBP)).
  lw (t' + _ESP) e2. lw (t' + _PC) (mem s (t' + _PC)).
  sw (e2 + 4) (mem s (t' + _PC)).
  rewrite (exec_Lv _ _ _ (mem s (t' + _EAX))); [|done|reads].
  cbn [exec step]. unfold load.
  match goal with |- context [regs ?st esp] => change (regs st esp) with e2 end.
  rewrite (proj1 Hst2). cbn [mbind result_bind]. eexists. split; [reflexivity|]. split; [|reflexivity].
  unfold i386_now, i386_saved. cbn [mem pc set_pc set_reg]. fold e2. offsets.
  rewrite !upd_ne by lia. rewrite u32_id by (destruct Hst2; unfold uint32; lia). reflexivity.
Qed.

Lemma i386_switches ts t t' s :
  t ∈ ts → t' ∈ ts → t ≠ t' → i386_suspended ts t (mem s) → i386_entered ts t t' s →
  ∃ s', exec eax_save SWITCH s = Ok s' ∧ i386_now s' = i386_saved t' (mem s) ∧ i386_saved t (mem s') = i386_caller s ∧
    (∀ x, x ∈ ts → x ≠ t → x ≠ t' → i386_saved x (mem s') = i386_saved x (mem s)) ∧ i386_suspended ts t' (mem s').
Proof.
  intros Ht Ht' Hne Hsu Hen. destruct (save_phase ts t t' s Ht Hsu Hen) as (R & -> & HR).
  destruct (load_phase ts t t' s R Ht Ht' Hne Hsu Hen HR) as (s' & -> & Hnow & Hmem).
  exists s'. split; [done|]. split; [done|]. rewrite Hmem. clear Hmem Hnow.
  pose proof Hsu as [[Hsa Hsu'] Hobj Hap Hstk Hstks]. pose proof Hen as [(Hst & Hout & Hse) _ _ Hena].
  destruct (Hobj t Ht) as [Ho Hos]. pose proof (Hout t Ht) as Hot.
  destruct (Hstk t' Ht' ltac:(congruence)) as (Hst2 & Hout2 & Hse2). pose proof (Hout2 t Ht) as Hot2.
  pose proof (Hena t' Ht' ltac:(congruence)) as Hst12. unfold apart in Hst12.
  assert (∀ a, a ≠ eax_save → ¬ t <= a < t + 36 → a ≠ mem s t' + 4 → loaded_memory t t' s a = mem s a) as Hframe.
  { intros a Ha Hat Ha2. unfold loaded_memory, saved_memory. offsets. rewrite !upd_ne by lia. done. }
  assert (loaded_memory t t' s t = regs s esp) as Htop.
  { unfold loaded_memory, saved_memory. offsets. rewrite !upd_ne by lia. rewrite Z.add_0_r. apply upd_eq. }
  assert (∀ x, x ∈ ts → x ≠ t → loaded_memory t t' s x = mem s x) as Htops.
  { intros x Hx Hxt. pose proof (Hap x t Hx Ht Hxt) as Hxa. unfold apart in Hxa. pose proof (Hout2 x Hx).
    destruct (Hobj x Hx) as [_ Hxs]. apply Hframe; lia. }
  split; [|split].
  - unfold i386_saved, i386_caller. rewrite Htop, Hframe by lia. f_equal. cbn [kept fmap list_fmap fst snd].
    unfold loaded_memory, saved_memory. offsets. repeat f_equal; rewrite ?upd_ne by lia; apply upd_eq.
  - intros x Hx Hxt Hxt'. apply i386_saved_eq. pose proof (Hap x t Hx Ht Hxt) as Hxa. unfold apart in Hxa.
    destruct (Hobj x Hx) as [_ Hxs]. pose proof (Hout2 x Hx) as Hx2. destruct (Hstk x Hx Hxt) as (Hsx & Hox & Hex).
    pose proof (Hox t Ht) as Hxt2. pose proof (Hstks x t' Hx Ht' Hxt ltac:(congruence) Hxt') as Hsa2. unfold apart in Hsa2.
    intros a [Ha| ->]; apply Hframe.
    all: clear - Ha Hxs Hxa Hx2 || clear - Hex Hxt2 Hsa2; lia.
  - split; try done.
    + intros x Hx Hxt'. destruct (decide (x = t)) as [->|Hxt]; [|rewrite Htops by done; by apply Hstk].
      rewrite Htop. destruct Hst as (? & ? & ?). split; [split; [done|lia]|]. split; [|lia].
      intros y Hy. specialize (Hout y Hy). lia.
    + intros x y Hx Hy Hxt' Hyt' Hxy. destruct (decide (x = t)) as [->|Hxt]; [|destruct (decide (y = t)) as [->|Hyt]].
      * rewrite Htop, Htops by done. by apply Hena.
      * rewrite Htop, Htops by done. specialize (Hena x Hx Hxt). unfold apart in *. lia.
      * rewrite !Htops by done. by apply Hstks.
Qed.

Definition i386_abi : SwitchABI := {|
  abi_SWITCH := SWITCH; abi_eax_save := eax_save; saved := i386_saved; caller := i386_caller; now := i386_now;
  holds := i386_holds; suspended := i386_suspended; entered := i386_entered;
  running_alone := i386_alone; SWITCH_switches := i386_switches |}.
End Intel.

(** ** New threads *)

(** Where the stack of a new thread begins *)
Definition stack_top (h : host) (stack : Z) : Z :=
  match h with
  | HOST_MIPS => stack + 4 * (StackSize - 4)
  | HOST_SNAKE => stack + 4 * 16
  | HOST_i386 => stack + 4 * (StackSize - 4 - 1)
  end.

(** The object, of 19 words at most, and the stack do not overlap. *)
Definition room (t stack : Z) : Prop :=
  aligned t = true ∧ aligned stack = true ∧ (t + 76 <= stack ∨ stack + 4 * StackSize <= t).

Lemma store_aligned a v s : aligned a = true → store a v s = Ok (mkCpu (regs s) (upd (mem s) a v) (pc s)).
Proof. unfold store. by intros ->. Qed.

Ltac words := first [assumption | apply aligned_off; [assumption|reflexivity]].
Ltac places := unfold Mips.PC, Mips.S0, Mips.S1, Mips.S2, Mips.S3, Snake.PC, Snake.S0, Snake.S1, Snake.S2, Snake.S3,
  I386._PC, I386._ECX, I386._ESI, I386._EDX, I386._EDI in *.

Lemma StackAllocate_ok h root enable finish t stack func arg s :
  room t stack →
  ∃ m, StackAllocate h root enable finish t stack func arg s = Ok (mkCpu (regs s) m (pc s)) ∧
    m t = stack_top h stack ∧ m (t + PCState (places_of h)) = root ∧ m (t + StartupPCState (places_of h)) = enable ∧
    m (t + InitialPCState (places_of h)) = func ∧ m (t + InitialArgState (places_of h)) = arg ∧
    m (t + WhenDonePCState (places_of h)) = finish ∧ (h = HOST_i386 → m (stack_top h stack) = root) ∧
    CheckOverflow h stack (mkCpu (regs s) m (pc s)) = Ok tt.
Proof.
  intros (Ht & Hs & Hd). unfold StackAllocate, CheckOverflow, load, StackSize in *.
  destruct h; cbn [places_of PCState StartupPCState InitialPCState InitialArgState WhenDonePCState stack_top];
    repeat (rewrite store_aligned by words; cbn [mbind result_bind regs mem pc]);
    (eexists; split; [reflexivity|]); rewrite ?aligned_off by done; rewrite ?Hs; unfold stack_top, StackSize; cbn [mbind result_bind mem];
    repeat match goal with |- context [machineState ?o] => let v := eval vm_compute in o in change (machineState o) with v end;
    places; repeat split; try done; try (intros [=]); rewrite ?upd_ne by lia; try apply upd_eq;
    rewrite ?upd_eq; reflexivity.
Qed.

(** ** The hosts together *)

#[export] Instance abi (h : host) (eax_save : Z) : SwitchABI :=
  match h with
  | HOST_MIPS => Mips_abi eax_save | HOST_SNAKE => Snake_abi eax_save | HOST_i386 => i386_abi eax_save
  end.

Definition SWITCH_of (h : host) : list asm :=
  match h with HOST_MIPS => Mips.SWITCH | HOST_SNAKE => Snake.SWITCH | HOST_i386 => I386.SWITCH end.

Definition ThreadRoot_of (h : host) : list asm :=
  match h with HOST_MIPS => Mips.ThreadRoot | HOST_SNAKE => Snake.ThreadRoot | HOST_i386 => I386.ThreadRoot end.

(** The first argument, at the entry of a routine *)
Definition argument (h : host) (s : cpu) : Z :=
  match h with
  | HOST_MIPS => regs s Mips.a0
  | HOST_SNAKE => regs s Snake.arg0
  | HOST_i386 => mem s (regs s I386.esp + 4)
  end.

(** The calling conventions: what a routine entered in [s] leaves alone until its
    return in [s'].  On the 386 the return address is taken off the stack, and the
    stack of the callers, up to [bottom], is as it was. *)
Definition returns (h : host) (bottom : Z) (s s' : cpu) : Prop :=
  match h with
  | HOST_MIPS => ∀ r, r ∈ Mips_body → regs s' r = regs s r
  | HOST_SNAKE => ∀ r, r ∈ Snake_body → regs s' r = regs s r
  | HOST_i386 =>
      regs s' I386.esp = u32 (regs s I386.esp + 4) ∧
      (∀ r, r ∈ [I386.ebx; I386.ebp; I386.esi; I386.edi] → regs s' r = regs s r) ∧
      (∀ a, regs s I386.esp + 4 <= a < bottom → mem s' a = mem s a)
  end.

(** C28: threads take turns.  On each host, threads run and call [SWITCH] in any
    order; whatever the others did since, and whatever the running thread did as
    long as it left alone what they saved, [SWITCH] to a thread returns there with
    the registers, the stack pointer and the address that it had when it gave up
    the processor. *)
Theorem context_preserved h eax_save ts t t' s K :
  turns (H := abi h eax_save) ts t s K → t' ∈ ts → t ≠ t' → entered (SwitchABI := abi h eax_save) ts t t' s →
  ∃ s', exec eax_save (SWITCH_of h) s = Ok s' ∧ now (SwitchABI := abi h eax_save) s' = K t'.
Proof.
  intros Hr Ht' Hne He. destruct (turns_resume (H := abi h eax_save) ts t t' s K Hr Ht' Hne He) as (s' & Hx & Hn).
  exists s'. split; [|done]. by destruct h.
Qed.

Section NewThread.
Variables (eax_save : Z) (label : nat → Z) (run : Z → cpu → result cpu) (enable func : Z) (bottom : Z).

Definition conforms (h : host) : Prop :=
  ∀ f e, f = enable ∨ f = func → ∃ e', run f e = Ok e' ∧ returns h bottom e e'.

Lemma exec_call h i p s f g e :
  conforms h → is_call i = true → enter i (label (length p)) s = Ok (f, e) → f = g → g = enable ∨ g = func →
  ∃ e', returns h bottom e e' ∧
    exec_calls eax_save label run (i :: p) s = (λ '(log, r), ((g, e) :: log, r)) (exec_calls eax_save label run p e').
Proof.
  intros Hc Hi He <- Hf. destruct (Hc f e Hf) as (e' & Hr & Hret). exists e'. split; [done|].
  cbn [exec_calls]. rewrite Hi, He, Hr. by destruct (exec_calls _ _ _ _ _).
Qed.

Lemma exec_step i p s s' :
  is_call i = false → step eax_save i s = Ok s' → exec_calls eax_save label run (i :: p) s = exec_calls eax_save label run p s'.
Proof. intros Hi Hs. cbn [exec_calls]. by rewrite Hi, Hs. Qed.

(** After the last call there are no more. *)
Lemma exec_no_calls p s : Forall (λ i, is_call i = false) p → ∃ r, exec_calls eax_save label run p s = ([], r).
Proof.
  revert s. induction p as [|i p IH]; intros s Hp; [by eexists|]. apply Forall_cons in Hp as [Hi Hp].
  cbn [exec_calls]. rewrite Hi. destruct (step _ _ _); eauto.
Qed.

Lemma exec_last i p s f g e :
  is_call i = true → Forall (λ i, is_call i = false) p → enter i (label (length p)) s = Ok (f, e) → f = g →
  ∃ r, exec_calls eax_save label run (i :: p) s = ([(g, e)], r).
Proof.
  intros Hi Hp He <-. cbn [exec_calls]. rewrite Hi, He. destruct (run f e) as [e'| | | |]; eauto.
  destruct (exec_no_calls p e' Hp) as [r ->]. eauto.
Qed.

(** The three calls of [ThreadRoot] *)
Definition three_calls (h : host) (p : list asm) (s : cpu) (arg finish : Z) : Prop :=
  ∃ e1 e2 e3 r, exec_calls eax_save label run p s = ([(enable, e1); (func, e2); (finish, e3)], r) ∧ argument h e2 = arg.

Ltac kept := apply (bool_decide_unpack _); by vm_compute.

Lemma Mips_root s arg finish :
  conforms HOST_MIPS → regs s Mips.s0 = func → regs s Mips.s1 = arg → regs s Mips.s2 = finish → regs s Mips.s3 = enable →
  three_calls HOST_MIPS Mips.ThreadRoot s arg finish.
Proof.
  intros Hc H0 H1 H2 H3. unfold three_calls, Mips.ThreadRoot. erewrite exec_step by reflexivity.
  edestruct (exec_call HOST_MIPS) as (e1 & He1 & ->); [done|reflexivity|reflexivity|exact H3|by left|].
  cbn [returns] in He1. erewrite exec_step by reflexivity.
  edestruct (exec_call HOST_MIPS) as (e2 & He2 & ->);
    [done|reflexivity|reflexivity|etrans; [exact (He1 Mips.s0 ltac:(kept))|exact H0]|by right|].
  cbn [returns] in He2.
  edestruct exec_last as [r ->]; [reflexivity|constructor|reflexivity| |].
  { etrans; [exact (He2 Mips.s2 ltac:(kept))|]. etrans; [exact (He1 Mips.s2 ltac:(kept))|exact H2]. }
  do 4 eexists. split; [reflexivity|]. etrans; [exact (He1 Mips.s1 ltac:(kept))|exact H1].
Qed.

Lemma Snake_root s arg finish :
  conforms HOST_SNAKE → regs s 3%nat = func → regs s 4%nat = arg → regs s 5%nat = finish → regs s 6%nat = enable →
  three_calls HOST_SNAKE Snake.ThreadRoot s arg finish.
Proof.
  intros Hc H0 H1 H2 H3. unfold three_calls, Snake.ThreadRoot.
  edestruct (exec_call HOST_SNAKE) as (e1 & He1 & ->); [done|reflexivity|reflexivity|exact H3|by left|].
  cbn [returns] in He1. erewrite exec_step by reflexivity.
  edestruct (exec_call HOST_SNAKE) as (e2 & He2 & ->);
    [done|reflexivity|reflexivity|etrans; [exact (He1 3%nat ltac:(kept))|exact H0]|by right|].
  cbn [returns] in He2.
  edestruct exec_last as [r ->]; [reflexivity|constructor|reflexivity| |].
  { etrans; [exact (He2 5%nat ltac:(kept))|]. etrans; [exact (He1 5%nat ltac:(kept))|exact H2]. }
  do 4 eexists. split; [reflexivity|]. etrans; [exact (He1 4%nat ltac:(kept))|exact H1].
Qed.

Lemma i386_root s arg finish T :
  conforms HOST_i386 → aligned T = true → 12 <= T <= bottom → T < 2 ^ 32 → regs s I386.esp = T →
  regs s I386.esi = func → regs s I386.edx = arg → regs s I386.edi = finish → regs s I386.ecx = enable →
  three_calls HOST_i386 I386.ThreadRoot s arg finish.
Proof.
  intros Hc Ha HT HT' Hsp H0 H1 H2 H3. unfold three_calls, I386.ThreadRoot.
  assert (∀ k, 0 <= k <= 12 → u32 (T - k) = T - k) as Hu by (intros; apply u32_id; unfold uint32; lia).
  assert (aligned (T - 4) = true ∧ aligned (T - 8) = true ∧ aligned (T - 12) = true) as (Ha1 & Ha2 & Ha3).
  { repeat split; apply (aligned_off T (- _)); done. }
  erewrite exec_step; [|reflexivity|cbn [step]; rewrite Hsp, Hu, store_aligned by (done || lia); reflexivity].
  erewrite exec_step by reflexivity.
  erewrite exec_step; [|reflexivity|cbn [step]].
  2: { match goal with |- context [u32 (?x - 4)] => change x with (T - 4) end.
       replace (T - 4 - 4) with (T - 8) by lia. rewrite Hu, store_aligned by (done || lia). reflexivity. }
  edestruct (exec_call HOST_i386) as (e1 & He1 & ->); [done|reflexivity| |exact H3|by left|].
  { cbn [enter]. match goal with |- context [u32 (?x - 4)] => change x with (T - 8) end.
    replace (T - 8 - 4) with (T - 12) by lia. rewrite Hu, store_aligned by (done || lia). reflexivity. }
  cbn [returns] in He1. destruct He1 as (Hsp1 & Hr1 & Hm1).
  match type of Hsp1 with _ = u32 (regs ?e _ + 4) => change (regs e I386.esp) with (T - 12) in Hsp1, Hm1 end.
  replace (T - 12 + 4) with (T - 8) in * by lia. rewrite Hu in Hsp1 by lia.
  assert (mem e1 (T - 8) = arg) as Harg.
  { rewrite Hm1 by lia. cbn [mem set_pc set_reg]. rewrite upd_ne, upd_eq by lia. exact H1. }
  edestruct (exec_call HOST_i386) as (e2 & He2 & ->);
    [done|reflexivity| |etrans; [exact (Hr1 I386.esi ltac:(kept))|exact H0]|by right|].
  { cbn [enter]. rewrite Hsp1. replace (T - 8 - 4) with (T - 12) by lia. rewrite Hu, store_aligned by (done || lia). reflexivity. }
  cbn [returns] in He2. destruct He2 as (Hsp2 & Hr2 & _).
  match type of Hsp2 with _ = u32 (regs ?e _ + 4) => change (regs e I386.esp) with (T - 12) in Hsp2 end.
  replace (T - 12 + 4) with (T - 8) in Hsp2 by lia. rewrite Hu in Hsp2 by lia.
  edestruct exec_last as [r ->]; [reflexivity|by repeat constructor| | |].
  { cbn [enter]. rewrite Hsp2. replace (T - 8 - 4) with (T - 12) by lia. rewrite Hu, store_aligned by (done || lia). reflexivity. }
  { etrans; [exact (Hr2 I386.edi ltac:(kept))|]. etrans; [exact (Hr1 I386.edi ltac:(kept))|exact H2]. }
  do 4 eexists. split; [reflexivity|]. cbn [argument].
  match goal with |- mem ?e _ = _ => change (regs e I386.esp) with (T - 12) end. cbn [mem set_pc set_reg].
  rewrite upd_ne by lia. replace (T - 12 + 4) with (T - 8) by lia. exact Harg.
Qed.
End NewThread.

(** C37: a new thread.  [StackAllocate] sets up a thread so that, on each host, a
    processor that goes on with the context it saved, as it does after the first
    [SWITCH] to the thread (C28), is at [ThreadRoot] on the thread's own stack, and
    [ThreadRoot] calls [InterruptEnable], then the forked procedure with its
    argument, then [ThreadFinish].  The routines called keep to the calling
    convention. *)
Theorem new_thread_runs h eax_save label run root enable finish t stack func arg s0 :
  room t stack → 0 <= stack ∧ stack + 4 * StackSize <= 2 ^ 32 →
  conforms run enable func (stack + 4 * StackSize) h →
  ∃ s1, StackAllocate h root enable finish t stack func arg s0 = Ok s1 ∧ CheckOverflow h stack s1 = Ok tt ∧
    ∀ s, now (SwitchABI := abi h eax_save) s = saved (SwitchABI := abi h eax_save) t (mem s1) →
      pc s = root ∧ three_calls eax_save label run enable func h (ThreadRoot_of h) s arg finish.
Proof.
  intros Hroom Hst Hc.
  destruct (StackAllocate_ok h root enable finish t stack func arg s0 Hroom)
    as (m & Hs & Htop & Hpc & Hen & Hfu & Har & Hfi & Hret & Hov).
  eexists. split; [exact Hs|]. split; [exact Hov|]. intros s Hnow.
  destruct h; cbn [places_of PCState StartupPCState InitialPCState InitialArgState WhenDonePCState] in *.
  - cbv [now saved abi Mips_abi row_now row_saved] in Hnow. cbn in Hnow. injection Hnow as _ E0 E1 E2 E3 _ _ _ _ _ Ep.
    split; [exact (eq_trans Ep Hpc)|]. apply (Mips_root _ _ _ _ _ (stack + 4 * StackSize));
      [done|exact (eq_trans E0 Hfu)|exact (eq_trans E1 Har)|exact (eq_trans E2 Hfi)|exact (eq_trans E3 Hen)].
  - cbv [now saved abi Snake_abi row_now row_saved] in Hnow. cbn in Hnow.
    injection Hnow as _ E0 E1 E2 E3 _ _ _ _ _ _ _ _ _ _ _ _ Ep.
    split; [exact (eq_trans Ep Hpc)|]. apply (Snake_root _ _ _ _ _ (stack + 4 * StackSize));
      [done|exact (eq_trans E0 Hfu)|exact (eq_trans E1 Har)|exact (eq_trans E2 Hfi)|exact (eq_trans E3 Hen)].
  - cbv [now saved abi i386_abi i386_now i386_saved] in Hnow. cbn -[u32] in Hnow.
    injection Hnow as _ _ Ecx Edx _ Esi Edi Esp Ep. cbn [mem] in *. rewrite Htop in *. cbn [stack_top] in *.
    destruct Hroom as (_ & Hal & _). unfold StackSize in *. rewrite u32_id in Esp by (unfold uint32; lia).
    split; [by rewrite Ep, Hret|].
    apply (i386_root _ _ _ _ _ (stack + 4 * (4 * 1024)) _ _ _ (stack + 4 * (4 * 1024 - 4))); 
      [done|by apply aligned_4|lia|lia|rewrite Esp; lia|exact (eq_trans Esi Hfu)|exact (eq_trans Edx Har)|
       exact (eq_trans Edi Hfi)|exact (eq_trans Ecx Hen)].
Qed.

(** ** Examples *)

(** Two threads on a 386: the one at 0x1000 calls [SWITCH] on its stack at 0x9000;
    the other one has left off at 77, with its stack at 0x8000. *)
Definition ex_mem (a : Z) : Z :=
  if a =? 0x9000 then 55 else if a =? 0x9004 then 0x1000 else if a =? 0x9008 then 0x2000
  else if a =? 0x2000 then 0x8000 else if a =? 0x2008 then 9 else if a =? 0x8000 then 77 else 0.
Definition ex_cpu : cpu := mkCpu (λ r, if Nat.eqb r I386.esp then 0x9000 else 3) ex_mem 0.

Lemma ex_suspended : i386_suspended 0x500 [0x1000; 0x2000] 0x1000 ex_mem.
Proof.
  split.
  - split; [reflexivity|]. unfold uint32. lia.
  - intros x [-> | ->%list_elem_of_singleton]%elem_of_cons; split; [by split|lia|by split|lia].
  - intros x y [-> | ->%list_elem_of_singleton]%elem_of_cons [-> | ->%list_elem_of_singleton]%elem_of_cons; unfold apart; lia.
  - intros x [-> | ->%list_elem_of_singleton]%elem_of_cons Hx; [done|]. change (ex_mem 0x2000) with 0x8000.
    split; [by split|]. split; [|lia]. intros y [-> | ->%list_elem_of_singleton]%elem_of_cons; lia.
  - intros x y [-> | ->%list_elem_of_singleton]%elem_of_cons [-> | ->%list_elem_of_singleton]%elem_of_cons ? ? ?; done.
Qed.

Lemma ex_entered : i386_entered 0x500 [0x1000; 0x2000] 0x1000 0x2000 ex_cpu.
Proof.
  split; [|reflexivity|reflexivity|].
  - change (regs ex_cpu I386.esp) with 0x9000. split; [by split|]. split; [|lia].
    intros y [-> | ->%list_elem_of_singleton]%elem_of_cons; lia.
  - intros x [-> | ->%list_elem_of_singleton]%elem_of_cons Hx; [done|].
    change (regs ex_cpu I386.esp) with 0x9000. change (mem ex_cpu 0x2000) with 0x8000. unfold apart. lia.
Qed.

Lemma context_preserved_witness :
  ∃ s', exec 0x500 I386.SWITCH ex_cpu = Ok s' ∧ i386_now s' = [0; 9; 0; 0; 0; 0; 0; 0x8004; 77].
Proof.
  destruct (context_preserved HOST_i386 0x500 [0x1000; 0x2000] 0x1000 0x2000 ex_cpu (λ x, i386_saved x ex_mem))
    as (s' & Hx & Hn).
  - apply (turns_start (H := abi HOST_i386 0x500)); [by apply elem_of_cons; left|exact ex_suspended].
  - by apply elem_of_cons; right; apply elem_of_cons; left.
  - discriminate.
  - exact ex_entered.
  - exists s'. split; [exact Hx|]. exact Hn.
Defined.

(** Routines that return at once *)
Lemma new_thread_runs_witness :
  ∃ s1, StackAllocate HOST_i386 11 22 33 0x1000 0x10000 44 5 ex_cpu = Ok s1 ∧
    ∀ s, i386_now s = i386_saved 0x1000 (mem s1) →
      three_calls 0x500 (λ _, 0) (λ _ e, Ok (set_reg I386.esp (u32 (regs e I386.esp + 4)) e)) 22 44
        HOST_i386 I386.ThreadRoot s 5 33.
Proof.
  destruct (new_thread_runs HOST_i386 0x500 (λ _, 0) (λ _ e, Ok (set_reg I386.esp (u32 (regs e I386.esp + 4)) e))
    11 22 33 0x1000 0x10000 44 5 ex_cpu) as (s1 & Hs & _ & Hrun).
  - split; [reflexivity|]. split; [reflexivity|]. left. vm_compute. discriminate.
  - split; [discriminate|]. vm_compute. discriminate.
  - intros f e _. eexists. split; [reflexivity|]. split; [reflexivity|]. split; [|done].
    intros r Hr. cbn [set_reg regs]. rewrite (proj2 (Nat.eqb_neq r I386.esp)); [done|].
    intros ->. revert Hr. apply (bool_decide_unpack _). by vm_compute.
  - exists s1. split; [exact Hs|]. intros s Hn. exact (proj2 (Hrun s Hn)).
Defined.
