(* ===== verification/UserProgs.v ===== *)
(** * test/: user programs

    The C programs of test/ that compute something before they call [Exit]: sort,
    matmult and adder.  Arithmetic on [int] is checked: an overflow and an access
    out of an array are undefined. *)

From S2P Require Import Prelude.
Local Open Scope Z_scope.

(** ** C *)

Definition checked (z : Z) : result Z :=
  if (- 2 ^ 31 <=? z) && (z <? 2 ^ 31) then Ok z else Undefined.
Definition iadd (a b : Z) : result Z := checked (a + b).
Definition isub (a b : Z) : result Z := checked (a - b).
Definition imul (a b : Z) : result Z := checked (a * b).

(** [k] iterations of a loop that counts [i] up *)
Fixpoint iterate {S} (k : nat) (i : Z) (body : Z → S → result S) (s : S) : result S :=
  match k with
  | O => Ok s
  | Datatypes.S k => s ← body i s; i ← iadd i 1; iterate k i body s
  end.

(** [for (i = lo; i < hi; i++) body] with a bound that the body does not change *)
Definition for_to {S} (lo hi : Z) (body : Z → S → result S) (s : S) : result S :=
  iterate (Z.to_nat (hi - lo)) lo body s.

Definition get2 (A : list (list Z)) (i j : Z) : result Z := row ← aget A i; aget row j.
Definition set2 (A : list (list Z)) (i j v : Z) : result (list (list Z)) :=
  row ← aget A i; row ← aset row j v; aset A i row.

(** ** sort.c *)

Definition sort_init (A : list Z) : result (list Z) :=
  for_to 0 1024 (λ i A, v ← isub 1024 i; aset A i v) A.

(** The body of the inner loop *)
Definition sort_step (j : Z) (A : list Z) : result (list Z) :=
  j1 ← iadd j 1;
  a ← aget A j;
  b ← aget A j1;
  if a >? b then
    let tmp := a in
    A ← aset A j b;
    aset A j1 tmp
  else Ok A.

Definition sort_loops (A : list Z) : result (list Z) :=
  for_to 0 1023 (λ i A, hi ← isub 1023 i; for_to i hi sort_step A) A.

(** The argument of [Exit], and the array; [A] is a global array, zero at first. *)
Definition sort_main : result (Z * list Z) :=
  A ← sort_init (replicate 1024 0);
  A ← sort_loops A;
  status ← aget A 0;
  Ok (status, A).

(** ** matmult.c *)

Definition Dim : Z := 20.

Record matrices := mkMatrices { matA : list (list Z); matB : list (list Z); matC : list (list Z) }.

Definition matmult_init (s : matrices) : result matrices :=
  for_to 0 Dim (λ i, for_to 0 Dim (λ j s,
    A ← set2 (matA s) i j i;
    B ← set2 (matB s) i j j;
    C ← set2 (matC s) i j 0;
    Ok (mkMatrices A B C))) s.

Definition matmult_loops (s : matrices) : result matrices :=
  for_to 0 Dim (λ i, for_to 0 Dim (λ j, for_to 0 Dim (λ k s,
    c ← get2 (matC s) i j;
    a ← get2 (matA s) i k;
    b ← get2 (matB s) k j;
    p ← imul a b;
    v ← iadd c p;
    C ← set2 (matC s) i j v;
    Ok (mkMatrices (matA s) (matB s) C)))) s.

Definition zeros : list (list Z) := replicate (Z.to_nat Dim) (replicate (Z.to_nat Dim) 0).

Definition matmult_main : result (Z * matrices) :=
  s ← matmult_init (mkMatrices zeros zeros zeros);
  s ← matmult_loops s;
  Ok (0, s).

(** ** adder.c *)

Definition loops : Z := 2000.

(** The string of the message, newline, a space, Adder.c Complete and newline *)
Definition adder_text : list Z :=
  [10; 32; 65; 100; 100; 101; 114; 46; 99; 32; 67; 111; 109; 112; 108; 101; 116; 101; 10].

(** The argument of [Exit], the sum, and what is written: 20 bytes, which the
    string with its final zero has *)
Definition adder_main : result (Z * Z * list Z) :=
  x ← for_to 0 loops (λ i x, iadd x i) 0;
  out ← aslice (adder_text ++ [0]) 0 20;
  Ok (0, x, out).

(** ** Tables *)

Definition tab {A} (n : nat) (f : Z → A) : list A := f ∘ Z.of_nat <$> seq 0 n.

Lemma length_tab {A} n (f : Z → A) : length (tab n f) = n.
Proof. unfold tab. by rewrite length_fmap, length_seq. Qed.

Lemma lookup_tab {A} n (f : Z → A) k : (k < n)%nat → tab n f !! k = Some (f (Z.of_nat k)).
Proof. intros Hk. unfold tab. by rewrite list_lookup_fmap, lookup_seq_lt. Qed.

Lemma aget_tab {A} n (f : Z → A) i : 0 <= i < Z.of_nat n → aget (tab n f) i = Ok (f i).
Proof. intros Hi. apply aget_Ok. split; [lia|]. rewrite lookup_tab by lia. by rewrite Z2Nat.id by lia. Qed.

Lemma tab_ext {A} n (f g : Z → A) : (∀ i, 0 <= i < Z.of_nat n → f i = g i) → tab n f = tab n g.
Proof.
  intros Hfg. unfold tab. apply list_fmap_ext. intros k x Hx%lookup_seq. cbn. apply Hfg. lia.
Qed.

Lemma aset_tab {A} n (f : Z → A) i v :
  0 <= i < Z.of_nat n → aset (tab n f) i v = Ok (tab n (λ x, if x =? i then v else f x)).
Proof.
  intros Hi. rewrite aset_Ok by (rewrite length_tab; lia). f_equal. apply list_eq. intros k.
  destruct (decide (k < n)%nat) as [Hk|Hk].
  - rewrite (lookup_tab n (λ x, if x =? i then v else f x) k) by done.
    destruct (decide (k = Z.to_nat i)) as [->|Hne].
    + rewrite list_lookup_insert_eq by (rewrite length_tab; lia). rewrite Z2Nat.id, Z.eqb_refl by lia. done.
    + rewrite list_lookup_insert_ne, lookup_tab by done. rewrite (proj2 (Z.eqb_neq _ _)) by lia. done.
  - rewrite !lookup_ge_None_2 by (rewrite ?length_insert, length_tab; lia). done.
Qed.

(** A loop that goes through the values of [inv] *)
Lemma iterate_inv {S} (inv : Z → S) body k i :
  - 2 ^ 31 <= i → i + Z.of_nat k < 2 ^ 31 →
  (∀ x, i <= x < i + Z.of_nat k → body x (inv x) = Ok (inv (x + 1))) →
  iterate k i body (inv i) = Ok (inv (i + Z.of_nat k)).
Proof.
  revert i. induction k as [|k IH]; intros i Hi Hk Hb; cbn [iterate]; [by rewrite Z.add_0_r|].
  rewrite Hb by lia. cbn [mbind result_bind]. unfold iadd, checked.
  rewrite (proj2 (Z.leb_le _ _)), (proj2 (Z.ltb_lt _ _)) by lia. cbn [andb mbind result_bind].
  rewrite IH by (try lia; intros; apply Hb; lia). do 2 f_equal. lia.
Qed.

Lemma for_to_inv {S} (inv : Z → S) body lo hi s s' :
  - 2 ^ 31 <= lo → lo <= hi < 2 ^ 31 → inv lo = s → inv hi = s' →
  (∀ x, lo <= x < hi → body x (inv x) = Ok (inv (x + 1))) → for_to lo hi body s = Ok s'.
Proof.
  intros Hlo Hhi <- <- Hb. unfold for_to. rewrite iterate_inv by (try lia; intros; apply Hb; lia).
  do 2 f_equal. lia.
Qed.

Lemma checked_Ok z : - 2 ^ 31 <= z < 2 ^ 31 → checked z = Ok z.
Proof. intros Hz. unfold checked. rewrite (proj2 (Z.leb_le _ _)), (proj2 (Z.ltb_lt _ _)) by lia. done. Qed.

(** ** What sort.c does *)

(** The array in pass [i] of the outer loop, before step [j] of the inner one: the
    ends are done, the middle is in descending order but for the element at [j] that
    is on its way up. *)
Definition sorting (i j k : Z) : Z :=
  if k <? i then 1023 - 2 * k
  else if 1023 - i <? k then 2 * k - 1022
  else if k <? j then 1023 - i - k
  else if k =? j then 1024 - 2 * i
  else 1024 - i - k.

Lemma sort_init_ok : sort_init (replicate 1024 0) = Ok (tab 1024 (λ k, 1024 - k)).
Proof.
  unfold sort_init. apply (for_to_inv (λ i, tab 1024 (λ k, if k <? i then 1024 - k else 0))); try lia.
  - by vm_compute.
  - apply tab_ext. intros k Hk. by rewrite (proj2 (Z.ltb_lt _ _)) by lia.
  - intros x Hx. unfold isub. rewrite checked_Ok by lia. cbn [mbind result_bind]. rewrite aset_tab by lia. f_equal.
    apply tab_ext. intros k Hk. btest; lia.
Qed.

Lemma sort_step_ok i j :
  0 <= i → i <= j < 1023 - i → sort_step j (tab 1024 (sorting i j)) = Ok (tab 1024 (sorting i (j + 1))).
Proof.
  intros Hi Hj. unfold sort_step, iadd. rewrite checked_Ok by lia. cbn [mbind result_bind].
  rewrite !aget_tab by lia. cbn [mbind result_bind].
  assert (sorting i j j = 1024 - 2 * i ∧ sorting i j (j + 1) = 1023 - i - j) as [-> ->].
  { unfold sorting. btest; lia. }
  rewrite Z.gtb_ltb, (proj2 (Z.ltb_lt _ _)) by lia. rewrite aset_tab by lia. cbn [mbind result_bind].
  rewrite aset_tab by lia. f_equal. apply tab_ext. intros k Hk. unfold sorting. btest; lia.
Qed.

#[local] Opaque tab.

Lemma sort_pass i A :
  0 <= i < 1023 → A = tab 1024 (sorting (Z.min i 512) (Z.min i 512)) →
  (hi ← isub 1023 i; for_to i hi sort_step A) = Ok (tab 1024 (sorting (Z.min (i + 1) 512) (Z.min (i + 1) 512))).
Proof.
  intros Hi ->. unfold isub. rewrite checked_Ok by lia. cbn [mbind result_bind].
  destruct (decide (i < 512)) as [Hlt|Hge].
  - rewrite !Z.min_l by lia.
    apply (for_to_inv (λ j, tab 1024 (sorting i j))); try lia; [done| |intros; apply sort_step_ok; lia].
    apply tab_ext. intros k Hk. unfold sorting. btest; lia.
  - unfold for_to. replace (Z.to_nat (1023 - i - i)) with 0%nat by lia. cbn [iterate].
    by rewrite !Z.min_r by lia.
Qed.

Lemma sort_loops_ok : sort_loops (tab 1024 (λ k, 1024 - k)) = Ok (tab 1024 (sorting 512 512)).
Proof.
  unfold sort_loops. eapply (for_to_inv (λ i, tab 1024 (sorting (Z.min i 512) (Z.min i 512)))).
  - lia.
  - lia.
  - apply tab_ext. intros k Hk. unfold sorting. change (Z.min 0 512) with 0. btest; lia.
  - change (Z.min 1023 512) with 512. reflexivity.
  - intros x Hx. apply sort_pass; [lia|reflexivity].
Qed.

Lemma sort_main_ok :
  sort_main = Ok (1023, tab 1024 (λ k, if k <? 512 then 1023 - 2 * k else 2 * k - 1022)).
Proof.
  apply bind_Ok. eexists. split; [apply sort_init_ok|]. apply bind_Ok. eexists. split; [apply sort_loops_ok|].
  apply bind_Ok. exists 1023. split; [apply (aget_tab 1024 (sorting 512 512) 0); lia|]. apply f_equal, f_equal.
  apply tab_ext. intros k Hk. unfold sorting. btest; lia.
Qed.

Lemma matmult_main_ok :
  matmult_main = Ok (0, mkMatrices (tab 20 (λ i, tab 20 (λ _, i))) (tab 20 (λ _, tab 20 (λ j, j)))
    (tab 20 (λ i, tab 20 (λ j, 20 * (i * j))))).
Proof. vm_compute. reflexivity. Qed.

Lemma get2_tab n m (f : Z → Z → Z) i j :
  0 <= i < Z.of_nat n → 0 <= j < Z.of_nat m → get2 (tab n (λ i, tab m (f i))) i j = Ok (f i j).
Proof. intros Hi Hj. unfold get2. rewrite aget_tab by done. cbn [mbind result_bind]. by rewrite aget_tab. Qed.

(** The inner product of a row and a column *)
Fixpoint dot (r c : list Z) : Z :=
  match r, c with x :: r, y :: c => x * y + dot r c | _, _ => 0 end.

(** C27: the programs stay within their arrays and within [int], and end.  sort.c
    does not sort: its inner loop leaves out what the passes before put at the front
    of the array, so that the odd numbers end up in descending order before the even
    ones in ascending order, and it exits with 1023 where its comment says 0.
    matmult.c computes the product of its matrices, and adder.c the sum; its message
    is as long as its call of [Write] says, with the zero at the end. *)
Theorem programs_in_bounds :
  (∃ A, sort_main = Ok (1023, A) ∧ length A = 1024%nat ∧
     (∀ k, 0 <= k < 512 → aget A k = Ok (1023 - 2 * k)) ∧ (∀ k, 512 <= k < 1024 → aget A k = Ok (2 * k - 1022))) ∧
  (∃ s, matmult_main = Ok (0, s) ∧ ∀ i j, 0 <= i < Dim → 0 <= j < Dim →
     ∃ row col, Forall2 (λ k v, get2 (matA s) i k = Ok v) (seqZ 0 Dim) row ∧
       Forall2 (λ k v, get2 (matB s) k j = Ok v) (seqZ 0 Dim) col ∧
       get2 (matC s) i j = Ok (dot row col)) ∧
  adder_main = Ok (0, loops * (loops - 1) / 2, adder_text ++ [0]).
Proof.
  split; [|split].
  - eexists. split; [apply sort_main_ok|]. split; [apply length_tab|].
    split; intros k Hk; rewrite aget_tab by lia; btest; (done || lia).
  - eexists. split; [apply matmult_main_ok|]. intros i j Hi Hj. unfold Dim in *. cbn [matA matB matC].
    exists (replicate 20 i), (replicate 20 j). rewrite get2_tab by lia. split; [|split].
    + apply Forall2_replicate_r; [done|]. apply Forall_forall. intros k Hk%elem_of_seqZ. apply (get2_tab 20 20 (λ i _, i)); lia.
    + apply Forall2_replicate_r; [done|]. apply Forall_forall. intros k Hk%elem_of_seqZ. apply (get2_tab 20 20 (λ _ j, j)); lia.
    + f_equal. cbn. lia.
  - vm_compute. reflexivity.
Qed.
