(* ===== verification/Debugger.v ===== *)
(** * Machine::Debugger: stepping through user programs

    The rest of machine/machine.cc: the debugger for user programs, which the loop of
    [Machine::Run] calls after an instruction when the machine single-steps, the
    state of the machine that it shows, and the check of the host's byte order. *)

From Stdlib Require Import String.
From S2P Require Import Prelude Params Machine.
From S2P Require Import SectorStore BitMap FileHdr OpenFile Directory FileSys FsPrint.
Local Open Scope Z_scope.

(** ** CheckEndian *)

(** A host of byte order [be], and whether the program was compiled with
    [HOST_IS_BIG_ENDIAN] *)
Definition CheckEndian (be HOST_IS_BIG_ENDIAN : bool) : result unit :=
  let intword := host_val be [1; 2; 3; 4] in
  if HOST_IS_BIG_ENDIAN then ASSERT (intword =? 0x01020304) else ASSERT (intword =? 0x04030201).

Lemma CheckEndian_iff be b : CheckEndian be b = Ok tt ↔ be = b.
Proof. destruct be, b; vm_compute; split; congruence. Qed.

(** ** DumpState *)

(** [printf("%x")] of an [int] *)
Fixpoint hex_digits (fuel : nat) (z : Z) (acc : list Z) : list Z :=
  match fuel with
  | O => acc
  | S n => let acc := hex_digit (z mod 16) :: acc in if z / 16 =? 0 then acc else hex_digits n (z / 16) acc
  end.
Definition hexadecimal (z : Z) : list Z := hex_digits 8 (u32 z) [].

(** A tab, and a register with its label *)
Definition show_register (label : list Z) (v : Z) : list Z := [9] ++ label ++ text ":" ++ [9] ++ text "0x" ++ hexadecimal v.

Definition register_label (i : Z) : list Z :=
  if i =? StackReg then text "SP(" ++ decimal i ++ text ")"
  else if i =? RetAddrReg then text "RA(" ++ decimal i ++ text ")"
  else decimal i.

Fixpoint DumpState_loop (n : nat) (i : Z) (m : Machine) : result (list Z) :=
  match n with
  | O => Ok []
  | S n =>
      v ← aget (registers m) i;
      rest ← DumpState_loop n (i + 1) m;
      Ok (show_register (register_label i) v ++ (if i mod 4 =? 3 then [10] else []) ++ rest)
  end.

Definition DumpState (m : Machine) : result (list Z) :=
  general ← DumpState_loop (Z.to_nat NumGPRegs) 0 m;
  hi ← aget (registers m) HiReg;
  lo ← aget (registers m) LoReg;
  pc ← aget (registers m) PCReg;
  nextPC ← aget (registers m) NextPCReg;
  prevPC ← aget (registers m) PrevPCReg;
  load ← aget (registers m) LoadReg;
  loadV ← aget (registers m) LoadValueReg;
  Ok (text "Machine registers:" ++ [10] ++ general ++
      show_register (text "Hi") hi ++ show_register (text "Lo") lo ++ [10] ++
      show_register (text "PC") pc ++ show_register (text "NextPC") nextPC ++ show_register (text "PrevPC") prevPC ++
      [10] ++ show_register (text "Load") load ++ show_register (text "LoadV") loadV ++ [10] ++ [10]).

Lemma DumpState_loop_ok n (i : Z) m : 0 <= i → i + Z.of_nat n <= Z.of_nat (length (registers m)) →
  ∃ out, DumpState_loop n i m = Ok out.
Proof.
  revert i. induction n as [|n IH]; intros i Hi Hl; cbn [DumpState_loop]; [by eexists|].
  destruct (aget_in (registers m) i ltac:(lia)) as [v ->]. cbn [mbind result_bind].
  destruct (IH (i + 1)) as [rest ->]; [lia..|]. by eexists.
Qed.

(** The whole state is shown, without a look outside the registers. *)
Lemma DumpState_ok m : wf_machine m → ∃ out, DumpState m = Ok out.
Proof.
  intros Hw. pose proof (wf_reg_length _ Hw) as Hl. unfold DumpState. unfold NumTotalRegs in Hl.
  destruct (DumpState_loop_ok (Z.to_nat NumGPRegs) 0 m) as [g ->]; [done|unfold NumGPRegs; lia|]. cbn [mbind result_bind].
  repeat (match goal with |- context [aget (registers m) ?r] =>
    let v := fresh "v" in destruct (aget_in (registers m) r) as [v ->];
      [unfold HiReg, LoReg, PCReg, NextPCReg, PrevPCReg, LoadReg, LoadValueReg; lia|] end; cbn [mbind result_bind]).
  by eexists.
Qed.

(** ** Debugger *)

(** [singleStep] and [runUntilTime] of the machine; the constructor sets the first
    only. *)
Record Debug := mkDebug { singleStep : bool; runUntilTime : Z }.
Definition newDebug (debug : bool) (junk : Z) : Debug := mkDebug debug junk.

(** The test in [Machine::Run] *)
Definition stops (dbg : Debug) (totalTicks : Z) : bool := singleStep dbg && (runUntilTime dbg <=? totalTicks).

(** [fgets(buf, n, stdin)]: what is in the buffer, before the zero, and what is left of
    the input; at the end of the input the buffer is as it was. *)
Fixpoint fgets_loop (n : nat) (input : list Z) : list Z * list Z :=
  match n, input with
  | S n, c :: input => if c =? 10 then ([c], input) else let (l, rest) := fgets_loop n input in (c :: l, rest)
  | _, _ => ([], input)
  end.
Definition fgets (n : Z) (input buf : list Z) : list Z * list Z :=
  match input with [] => (buf, []) | _ => fgets_loop (Z.to_nat (n - 1)) input end.

(** [sscanf(buf, "%d", &num) == 1], and the number: spaces, a sign, digits *)
Definition is_digit (c : Z) : bool := (48 <=? c) && (c <=? 57).
Fixpoint scan_digits (acc : Z) (l : list Z) : Z :=
  match l with
  | c :: l => if is_digit c then scan_digits (acc * 10 + (c - 48)) l else acc
  | [] => acc
  end.
Definition scan_number (l : list Z) : option Z :=
  match l with c :: _ => if is_digit c then Some (scan_digits 0 l) else None | [] => None end.
Fixpoint sscanf_d (l : list Z) : option Z :=
  match l with
  | c :: t =>
      if (c =? 32) || ((9 <=? c) && (c <=? 13)) then sscanf_d t
      else if c =? 45 then Z.opp <$> scan_number t
      else if c =? 43 then scan_number t
      else scan_number l
  | [] => None
  end.

(** The line that is typed, [buf] *)
Definition Debugger (buf : list Z) (dbg : Debug) : Debug :=
  match sscanf_d buf with
  | Some num => mkDebug (singleStep dbg) num
  | None =>
      let dbg := mkDebug (singleStep dbg) 0 in
      match buf with
      | 99 :: _ => mkDebug false (runUntilTime dbg)
      | _ => dbg
      end
  end.

(** ** What is typed is what is read *)

Lemma digits_le fuel n acc : Forall (λ c, is_digit c = true) acc → Forall (λ c, is_digit c = true) (digits fuel n acc).
Proof.
  revert n acc. induction fuel as [|fuel IH]; intros n acc Hacc; cbn [digits]; [done|].
  assert (Forall (λ c, is_digit c = true) ((48 + n mod 10) :: acc)).
  { constructor; [|done]. pose proof (Z.mod_pos_bound n 10 ltac:(lia)). unfold is_digit.
    rewrite (proj2 (Z.leb_le 48 _)), (proj2 (Z.leb_le _ 57)) by lia. done. }
  case_match; [done|by apply IH].
Qed.

Lemma digits_not_nil fuel n acc : acc ≠ [] → digits fuel n acc ≠ [].
Proof. revert n acc. induction fuel as [|fuel IH]; intros n acc Ha; cbn [digits]; [done|]. case_match; [done|by apply IH]. Qed.

Lemma digits_S_not_nil fuel n acc : digits (S fuel) n acc ≠ [].
Proof. cbn [digits]. case_match; [done|by apply digits_not_nil]. Qed.

Lemma scan_digits_app acc l c rest : Forall (λ c, is_digit c = true) l → is_digit c = false →
  scan_digits acc (l ++ c :: rest) = undigits acc l.
Proof.
  intros Hl Hc. revert acc. induction Hl as [|x l Hx _ IH]; intros acc; cbn [app scan_digits]; [by rewrite Hc|].
  rewrite Hx, IH. done.
Qed.

Lemma scan_number_digits n : 0 <= n < 10 ^ 10 → scan_number (digits 10 n [] ++ [10]) = Some n.
Proof.
  intros Hn. pose proof (digits_le 10 n [] ltac:(constructor)) as Hd.
  pose proof (undigits_digits 10 n [] Hn) as Hu. unfold undigits at 2 in Hu. cbn [fold_left] in Hu.
  assert (digits 10 n [] ≠ []) as Hne by apply digits_S_not_nil.
  pose proof (scan_digits_app 0 (digits 10 n []) 10 [] Hd ltac:(done)) as Hs. rewrite Hu in Hs.
  destruct (digits 10 n []) as [|c t]; [done|]. cbn [app] in *. unfold scan_number.
  apply Forall_cons in Hd as [Hc _]. rewrite Hc. by f_equal.
Qed.

Lemma sscanf_decimal n : int32 n → sscanf_d (decimal n ++ [10]) = Some n.
Proof.
  unfold int32, decimal. intros Hn. destruct (Z.ltb_spec n 0).
  - cbn [app sscanf_d]. cbn [Z.eqb Z.leb Z.compare Pos.compare Pos.compare_cont Pos.eqb orb andb].
    rewrite scan_number_digits by lia. cbn. f_equal. lia.
  - pose proof (scan_number_digits n ltac:(lia)) as Hs. pose proof (digits_le 10 n [] ltac:(constructor)) as Hd.
    destruct (digits 10 n []) as [|c t]; [done|]. apply Forall_cons in Hd as [Hc _]. cbn [app sscanf_d] in *.
    unfold is_digit in Hc. apply andb_true_iff in Hc as [H1%Z.leb_le H2%Z.leb_le].
    rewrite (proj2 (Z.eqb_neq c 32)), (proj2 (Z.leb_gt c 13)), andb_false_r by lia. cbn [orb].
    by rewrite (proj2 (Z.eqb_neq c 45)), (proj2 (Z.eqb_neq c 43)) by lia.
Qed.

Lemma fgets_line n l rest : Forall (λ c, c ≠ 10) l → (length l < n)%nat → fgets_loop n (l ++ 10 :: rest) = (l ++ [10], rest).
Proof.
  intros Hl. revert n. induction Hl as [|c l Hc _ IH]; intros n Hn; (destruct n as [|n]; [cbn [length] in Hn; lia|]).
  - done.
  - cbn [app fgets_loop]. rewrite (proj2 (Z.eqb_neq c 10)) by done. rewrite IH by (cbn [length] in Hn; lia). done.
Qed.

Lemma decimal_line n : Forall (λ c, c ≠ 10) (decimal n).
Proof.
  assert (∀ z, Forall (λ c, c ≠ 10) (digits 10 z [])) as Hd.
  { intros z. eapply Forall_impl; [apply digits_ge; constructor|]. cbn. lia. }
  unfold decimal. destruct (n <? 0); [constructor; [lia|]|]; apply Hd.
Qed.

(** What the commands of the debugger do.  With single steps on, a number [n] followed by
    a newline lets the machine run, without a stop, until the tick [n]; a newline alone
    stops before the next instruction; and c runs to the end, whatever the time. *)
Theorem Debugger_commands dbg buf rest : singleStep dbg = true →
  (∀ n t, int32 n →
     let (line, input) := fgets 80 (decimal n ++ 10 :: rest) buf in
     input = rest ∧ stops (Debugger line dbg) t = (n <=? t)) ∧
  (∀ t, 0 <= t → let (line, input) := fgets 80 (10 :: rest) buf in input = rest ∧ stops (Debugger line dbg) t = true) ∧
  (∀ t, let (line, input) := fgets 80 (99 :: 10 :: rest) buf in input = rest ∧ stops (Debugger line dbg) t = false).
Proof.
  intros Hs. split; [|split].
  - intros n t Hn. unfold fgets. assert (decimal n ++ 10 :: rest ≠ []) by (by destruct (decimal n)).
    destruct (decimal n ++ 10 :: rest) eqn:E; [done|]. rewrite <- E.
    rewrite fgets_line; [|apply decimal_line|pose proof (length_decimal n); lia]. split; [done|].
    unfold Debugger. rewrite sscanf_decimal by done. unfold stops. cbn [singleStep runUntilTime]. by rewrite Hs.
  - intros t Ht. unfold fgets. cbn. split; [done|]. unfold stops. cbn. rewrite Hs. by apply Z.leb_le.
  - intros t. by split.
Qed.
